(* ===== verification/_CoqProject ===== *)
-Q . S2P
Prelude.v
PyBytes.v
PyText.v
Dict.v
Float64.v
FloatText.v
Xdr.v
Protocol.v
Rpc.v
ClientRpc.v
SessionVars.v
Attributes.v
Statistics.v
FilterStack.v
ResultCache.v
Hex.v
Url.v
Helpers.v
ServerObject.v
FilterProto.v
FilterRunner.v
Evaluate.v
FilterSession.v
Sha256.v
BlobCache.v
BlobStore.v
FilterCode.v
Resource.v
Base64.v
Scope.v
Listen.v
ScopeList.v
Search.v
ClientSearch.v
Config.v
Child.v
Supervisor.v
ProxyFilter.v
Xml.v
Retriever.v
TextAttr.v
Augment.v
Mixer.v
Yfcc.v
Gigapan.v
ProxyStore.v
BlastSet.v
BlasterSet.v
EndToEnd.v
SearchProcess.v
Hosts.v
DiamondSearch.v
ProxySearch.v
Pipeline.v
