(* ===== verification/Prelude.v ===== *)
(** OpenDiamond: a verification library for the search system under
    src/opendiamond.

    * The program

    OpenDiamond searches data that has not been indexed.  A client describes a
    search by filters (code, arguments, a blob argument, thresholds) and by scope
    cookies, signed statements of what may be searched on which servers.  On every
    server the supervisor starts a process per search; this process takes the
    search's set-up over a control connection, fetches scope lists (XML documents
    of object URLs) from data retrievers, runs the filters on every object in
    worker processes, and sends the objects that pass over a second, "blast"
    connection.  A proxy may stand between client and servers and score the
    results with classifiers that the user trains.

    * Parts, and where they are modelled

    Python itself.  Prelude (exceptions, the error monad [res] and the state and
    error monad [sm], tactics), PyBytes, PyText, Dict, Float64, FloatText, Hex,
    Base64, Url, Xml, Sha256: bytes, text, dicts, floats and the functions of the
    standard library that the program calls, as executable definitions.

    The wire.  Xdr models xdr.py: [pyval] are Python values, [encode] and [decode]
    the methods of XDRStruct.  Protocol has the messages of protocol.py.  Rpc
    models rpc.py: a socket [sock] is what has arrived and what was sent,
    [dispatch] is RPCConnection.dispatch.  ClientRpc models client/rpc.py and
    joins both ends.  Listen models server/listen.py: the pairing of control and
    blast connections by nonces, with Python's reference counts where the weak map
    depends on them.

    The search on the server.  Scope models scope.py (cookies), ScopeList
    server/scopelist.py (the loader as a resumable walk), ServerObject
    server/object_.py, Helpers and Url helpers.py.  server/filter.py is FilterStack
    (dependencies, de-duplication), FilterCode (code from the blob cache),
    FilterProto (the pipe protocol's text), FilterRunner (its interpreter),
    ResultCache (drops from cached results), Evaluate (an object against the
    stack, with both caches), Pipeline (the pool of worker processes).
    FilterSession models the other end of the pipes, filter/__init__.py and
    filter/parameters.py.  SessionVars, Statistics, Resource, Attributes model
    server/sessionvars.py, server/statistics.py, server/resource.py, attributes.py.
    BlobCache models blobcache.py as sequences of system calls, BlobStore what
    they do to the stored blobs.  Search models server/search.py: the record
    [Search] is the state of Search and SearchState, every RPC handler is a
    computation on it.

    Around it.  Config models config.py, Child server/child.py; server/server.py
    is Supervisor (the supervisor's loop) and SearchProcess (the main function of a
    search process).  client/search.py is ClientSearch (blobs, filters, one
    connection), DiamondSearch (a search on several servers) and BlastSet (the
    merging threads); BlasterSet is the pausable variant of blaster/search.py.
    ProxyFilter models proxy/filter.py and utils.py, ProxySearch proxy/search.py.
    Retriever models the scope lists of dataretriever/diamond_store.py and
    video_store.py, Augment those of augment_store.py, Mixer those of
    mixer_store.py, Yfcc those of yfcc100m_simple_store.py and
    yfcc100m_mysql_store.py, Gigapan those of gigapan_store.py with pyramid.py,
    ProxyStore those of proxy_store.py, TextAttr dataretriever/util.py.

    * How the parts interact in the model

    An operation is a function of the state of its class; calls of the source are
    calls of the definitions.  EndToEnd composes ClientSearch with the handlers of
    Search.  Hosts gives every host a Search of its own; DiamondSearch composes the
    client with these, ProxySearch the client, the proxy's handlers and these.  All
    three leave out the bytes: ClientRpc proves that a call through both ends of a
    connection gives what the handler gives, and SearchProcess that a process does
    on the bytes of its control connection what the handlers do on the requests.
    Retriever, Augment, Mixer, Yfcc, Gigapan and ProxyStore are composed with Xml and
    ScopeList: what a store writes is parsed piece by piece and walked by the
    server's loader.
    FilterSession is composed with FilterRunner by the messages of FilterProto.

    Where threads or processes share state the model has explicit steps, and the
    theorems speak of every sequence of them: Pipeline, BlastSet, BlasterSet,
    Statistics, BlobCache (a collector between the system calls of a lookup), Child
    (what other processes do between the system calls of the supervisor, and SIGCHLD
    there, also while it is being handled), Listen (the events of the poll set).
    Processes that share nothing have states of their own: the worker processes copy
    the session variables when they are forked (SessionVars).

    Code that is not part of the repository is a parameter: a class such as
    [Crypto] (M2Crypto), [Dates] (dateutil), [Murmur], [Docker], [Environment]
    (HTTP, JSON, files), [Learner] and [ProxyEnv] (scikit-learn, NumPy, the feature
    service), or a variable of a section.  What is assumed of them are hypotheses
    of the theorems, and the witnesses instantiate them with functions.

    * What the theorems show

    - Composition: a client's set-up makes its filters runnable on the server,
      directly and through the proxy, and its start makes every server run them
      (EndToEnd, ProxySearch, DiamondSearch); a remote call returns or raises what
      the handler did (ClientRpc); a dispatch answers one request with one reply
      (Rpc); a search process serves its client's requests in order and shuts down
      at the end (SearchProcess); connections are paired by their nonces (Listen).
    - Formats: messages, filter protocol and text attributes are read back as they
      were written (Protocol, FilterProto, TextAttr), a cookie but for the type of
      its serial number, which is text where it is made and a UUID where it is read
      (Scope); an object is sent with what the client asked for, and with its ID
      unless a filter omitted that (ServerObject); the documents
      of the stores are loaded completely and with the right count (Retriever,
      Augment, Mixer, Yfcc, Gigapan, ProxyStore, ScopeList); a slice, or a remote
      list, that is distributed over servers is shared out without loss or overlap
      (Yfcc, ProxyStore), and the tiles of an image are those that show a part of it
      (Gigapan).
    - Evaluation: the interpreter implements the meaning of a filter's messages,
      the filter sees the server's object (FilterRunner, FilterSession); loading a
      result from the attribute cache leaves the object as a run of the filter would,
      the omitted attributes included, if the filter reads before it writes; what is
      not recorded (session variables, the presence of the attributes to omit) has to
      be the same (Evaluate); drops from cached results are justified and complete
      (ResultCache); stacks are ordered and without
      duplicates (FilterStack); code has the hash that was asked for (FilterCode).
    - Concurrency: every object is evaluated once and every accepted one sent
      before the end, and the pool terminates (Pipeline); merged results are
      neither lost nor duplicated but for those that wait in the queue at the end
      (BlastSet); pausing loses no connection (BlasterSet); in each process, what was
      added to a session variable is counted once, and filters and client get what
      that process has (SessionVars); a lookup during a collection finds the blob or reports
      that it expired (BlobCache).
    - Processes and resources: the supervisor's books have every search process under
      its id with its group and directory, but for a child that exits before it is
      registered; its shutdown ends, and leaves only processes of a child that was not
      yet registered, processes that escaped the cleanup of their group, and search
      processes that had not entered it (Child); old logs go and young ones stay
      (Supervisor); the containers that are left after a clean-up are those that the
      daemon refused to remove, or, when it ends with an exception, those from the
      failing one on (Resource).
    - Authorization and configuration: exactly the valid cookies are accepted
      (Scope); settings have their types and meaning (Config).
    - Bounds: counters of 32 bits wrap (Statistics); the floating-point quotients of
      an image pyramid are exact for sizes below 2^53 (Gigapan).
    The examples show concrete runs, among them those in which the code does not do
    what it means to.

    * Integers, fuel and termination

    Integers are unbounded as in Python; the widths of XDR, of [struct] and of
    ctypes are written out where the source has them.  Floats are IEEE doubles with
    the Standard Library's correctly rounded operations.  Where a loop is not
    structural it has fuel: loops that read a socket or pipe get one step per byte
    or event, which every round consumes (receive_total in Rpc, control_loop_ends in
    SearchProcess); the loop over a scope list gets one step per object and one for
    the end; walks of dependencies get one step per filter, text functions one per
    character, the shortest decimal of a float one per digit, of which 17 are always
    enough.  Where a theorem speaks of the result the fuel is proved to be enough.
    Termination of the pool is proved by a measure of steps.  The kill loop gets a
    round for every process listed in the group and every event that other processes
    still cause, and nested signal handlers one level for every such event: that is
    enough, as kill_all is proved to give a result.

    * Not modelled

    Logging and messages of exceptions (an exception is its class, with the code of
    an RPCError); process start-up: sockets, daemonizing, command lines, the entry
    points proxy.py and server/__main__.py; the image codecs (PIL); flask, tornado
    and Django: serving files and metadata, the JSON blaster's handlers and schemas,
    the scope server's views; the store in front of a visual database
    (yfcc100m_vdms_store.py), the test store, the download and cropping
    of a tile, missing_tiles of pyramid.py; search bundles (lxml,
    zipfile); client/util.py; the JSON blaster's server, which does not work on
    Python 3 (the hash of a blob and a request without a body are TypeErrors, and the
    hashing of a file in its cache does not end).  In the modelled modules: the scheduling of the
    proxy's receiving threads, a signal in the middle of a dispatch, and load_egg
    and the image accessors of the filter library.  What is left is calls of these
    libraries with little logic of its own. *)
From Stdlib Require Export ZArith Lia Bool.
From Stdlib Require Strings.Byte.
From stdpp Require Export base tactics list gmap strings.
From stdpp Require Import countable.

(** ** Bytes

    A Python [bytes] is a list of [byte]; a Python [str] is a [string] holding
    its UTF-8 encoding (see PyText.v). *)
Abbreviation byte := Init.Byte.byte.
Abbreviation bytes := (list byte).

#[global] Instance byte_eq_dec : EqDecision byte := Byte.byte_eq_dec.

#[global] Program Instance byte_countable : Countable byte := {|
  encode b := encode (Byte.to_N b);
  decode p := n ← decode p; Byte.of_N n
|}.
Next Obligation. intros b. simpl. rewrite decode_encode. simpl. apply Byte.of_to_N. Qed.

(** ** Exceptions

    The exception classes that the program raises or catches.  Messages are
    logged, never inspected, so an exception is its class (an [RPCError] also
    carries the code that goes on the wire). *)
Inductive exn : Type :=
  | ValueError
  | UnicodeDecodeError      (* subclass of ValueError *)
  | BinasciiError           (* binascii.Error, subclass of ValueError *)
  | TypeError
  | KeyError
  | IndexError
  | AttributeError
  | NameError               (* and its subclass UnboundLocalError *)
  | AssertionError
  | RuntimeError
  | EOFError
  | OverflowError
  | OSError                 (* and its aliases IOError, socket.error *)
  | StructError             (* struct.error *)
  | XDRError                (* xdrlib.Error and ConversionError *)
  | XDREncodingError
  | RPCError (code : Z)     (* opendiamond.rpc.RPCError and its subclasses *)
  | ConnectionFailure
  | ConnectionClosed        (* listen._ConnectionClosed *)
  | ScopeError
  | ScopeCookieExpired      (* subclass of ScopeError *)
  | FilterDependencyError
  | FilterExecutionError
  | FilterUnsupportedSource
  | DropObject              (* filter._DropObject *)
  | ObjectLoadError
  | ResourceTypeError
  | ResourceCreationError
  | DiamondConfigError
  | LingeringObjectError
  | InvalidManifest
  | ZeroDivisionError
  | StopIteration
  | URLError                (* urllib.error.URLError *)
  | SAXParseException
  | CurlError               (* pycurl.error *)
  | ResponseError           (* redis.exceptions.ResponseError *)
  | DockerException         (* docker.errors.DockerException *)
  | DockerAPIError          (* docker.errors.APIError, subclass of the last *)
  | DockerNotFound          (* NotFound and ImageNotFound, subclasses of APIError *)
  | CalledProcessError      (* subprocess.CalledProcessError *)
  | Signalled               (* server._Signalled *)
  | SystemExit.             (* sys.exit *)

#[global] Instance exn_eq_dec : EqDecision exn.
Proof. solve_decision. Defined.

(** [isinstance(e, ValueError)]: the subclass relation of CPython. *)
Definition is_ValueError (e : exn) : bool :=
  match e with ValueError | UnicodeDecodeError | BinasciiError => true | _ => false end.

(** ** Fallible computations *)
Inductive res (A : Type) : Type :=
  | Ok (a : A)
  | Raise (e : exn).
Arguments Ok {A} a.
Arguments Raise {A} e.

#[global] Instance res_eq_dec `{EqDecision A} : EqDecision (res A).
Proof. solve_decision. Defined.

#[global] Instance res_ret : MRet res := @Ok.
#[global] Instance res_bind : MBind res := λ A B f m,
  match m with Ok a => f a | Raise e => Raise e end.
#[global] Instance res_fmap : FMap res := λ A B f m,
  match m with Ok a => Ok (f a) | Raise e => Raise e end.

(** [try: m except <P>: h()] *)
Definition try_except {A} (m : res A) (P : exn → bool) (h : exn → res A) : res A :=
  match m with
  | Ok a => Ok a
  | Raise e => if P e then h e else Raise e
  end.

Definition of_option {A} (e : exn) (o : option A) : res A :=
  match o with Some a => Ok a | None => Raise e end.

Fixpoint mapM_res {A B} (f : A → res B) (l : list A) : res (list B) :=
  match l with
  | [] => Ok []
  | a :: l => b ← f a; bs ← mapM_res f l; Ok (b :: bs)
  end.

Definition is_ok {A} (m : res A) : bool := match m with Ok _ => true | Raise _ => false end.

Lemma bind_Ok {A B} (f : A → res B) (m : res A) b :
  (m ≫= f) = Ok b ↔ ∃ a, m = Ok a ∧ f a = Ok b.
Proof. destruct m; simpl; naive_solver. Qed.

Lemma bind_Raise {A B} (f : A → res B) (m : res A) e :
  (m ≫= f) = Raise e ↔ m = Raise e ∨ ∃ a, m = Ok a ∧ f a = Raise e.
Proof. destruct m; simpl; naive_solver. Qed.

Lemma mapM_res_Ok {A B} (f : A → res B) l bs :
  mapM_res f l = Ok bs ↔ Forall2 (λ a b, f a = Ok b) l bs.
Proof.
  revert bs. induction l as [|a l IH]; intros bs; simpl.
  - split; [intros [= <-]; constructor | by inversion 1].
  - rewrite bind_Ok. setoid_rewrite bind_Ok. setoid_rewrite IH.
    split; [naive_solver |]. inversion 1; simplify_eq. eauto 10.
Qed.

(** ** Fallible stateful computations

    An exception keeps the state reached so far, as it does in the program. *)
Definition sm (S A : Type) : Type := S → res A * S.

Section StateMonad.
Context {S : Type}.
#[global] Instance sm_ret : MRet (sm S) := λ A a s, (Ok a, s).
#[global] Instance sm_bind : MBind (sm S) := λ A B f m s,
match m s with (Ok a, s) => f a s | (Raise e, s) => (Raise e, s) end.

Definition lift {A} (r : res A) : sm S A := λ s, (r, s).
Definition fail {A} (e : exn) : sm S A := λ s, (Raise e, s).
Definition get_state : sm S S := λ s, (Ok s, s).
Definition gets {A} (f : S → A) : sm S A := λ s, (Ok (f s), s).
Definition modify (f : S → S) : sm S unit := λ s, (Ok tt, f s).

(** [try: m except <P>: h], and [try: m finally: h]. *)
Definition try_with {A} (m : sm S A) (P : exn → bool) (h : exn → sm S A) : sm S A := λ s,
match m s with
| (Raise e, s) => if P e then h e s else (Raise e, s)
| r => r
end.
Definition finally {A} (m : sm S A) (h : sm S unit) : sm S A := λ s,
let '(r, s) := m s in
match h s with (Ok tt, s) => (r, s) | (Raise e, s) => (Raise e, s) end.

Fixpoint mapM_sm {A B} (f : A → sm S B) (l : list A) : sm S (list B) :=
match l with
| [] => mret []
| a :: l => b ← f a; bs ← mapM_sm f l; mret (b :: bs)
end.

Lemma sm_bind_Ok {A B} (f : A → sm S B) (m : sm S A) s b s'' :
(m ≫= f) s = (Ok b, s'') ↔ ∃ a s', m s = (Ok a, s') ∧ f a s' = (Ok b, s'').
Proof. unfold mbind, sm_bind. destruct (m s) as [[a|e] s']; naive_solver. Qed.

Lemma sm_bind_eq {A B} (f : A → sm S B) (m : sm S A) s a s' :
m s = (Ok a, s') → (m ≫= f) s = f a s'.
Proof. unfold mbind, sm_bind. by intros ->. Qed.

Lemma sm_bind_raise {A B} (f : A → sm S B) (m : sm S A) s e s' : m s = (Raise e, s') → (m ≫= f) s = (Raise e, s').
Proof. unfold mbind, sm_bind. by intros ->. Qed.

Lemma lift_Ok {A} (r : res A) s a s' : lift r s = (Ok a, s') ↔ r = Ok a ∧ s' = s.
Proof. unfold lift. naive_solver. Qed.
End StateMonad.

(** Run [m] on a component of the state. *)
Definition zoom {S T A} (get : S → T) (set : T → S → S) (m : sm T A) : sm S A := λ s,
  let '(r, t) := m (get s) in (r, set t s).

(** ** Tactics and hints *)
Create HintDb diamond.
Create Rewrite HintDb diamond.
#[export] Hint Rewrite @bind_Ok @bind_Raise : diamond.

(** Case analysis on the scrutinee of a [match] in the goal or a hypothesis. *)
Ltac cases :=
  repeat (case_match; simplify_eq/=).

(** Invert an equation [m ≫= f = Ok b] in the hypotheses. *)
Ltac inv_ok :=
  repeat match goal with
  | H : (_ ≫= _) = Ok _ |- _ => apply bind_Ok in H; destruct H as (? & ? & ?)
  | H : Ok _ = Ok _ |- _ => injection H; clear H; intros; subst
  | H : Raise _ = Ok _ |- _ => discriminate H
  | H : (_, _) = (_, _) |- _ => injection H; clear H; intros; subst
  end.

(** The same for a computation [(m ≫= f) s = (Ok b, s')]. *)
Ltac inv_sm :=
  repeat match goal with
  | H : (_ ≫= _) _ = (Ok _, _) |- _ => apply sm_bind_Ok in H; destruct H as (? & ? & ? & ?)
  | H : lift _ _ = (Ok _, _) |- _ => apply lift_Ok in H; destruct H as [? ->]
  | H : get_state _ = (Ok _, _) |- _ => unfold get_state in H; injection H; clear H; intros; subst
  | H : modify _ _ = (Ok _, _) |- _ => unfold modify in H; injection H; clear H; intros; subst
  | H : mret _ _ = (Ok _, _) |- _ => unfold mret, sm_ret in H; injection H; clear H; intros; subst
  | H : (let '(_, _) := ?x in _) _ = (Ok _, _) |- _ => is_var x; destruct x
  end.

(** ** Reflexive transitive closures of step relations, with a label trace *)
Section Steps.
Context {S L : Type} (step : S → L → S → Prop).

Inductive steps : S → list L → S → Prop :=
| steps_nil s : steps s [] s
| steps_cons s l s' ls s'' : step s l s' → steps s' ls s'' → steps s (l :: ls) s''.

Lemma steps_app s1 ls1 s2 ls2 s3 :
steps s1 ls1 s2 → steps s2 ls2 s3 → steps s1 (ls1 ++ ls2) s3.
Proof. induction 1; simpl; eauto using steps. Qed.

Lemma steps_invariant (I : S → Prop) s ls s' :
(∀ s l s', I s → step s l s' → I s') → I s → steps s ls s' → I s'.
Proof. intros Hstep HI. induction 1; eauto. Qed.
End Steps.
#[export] Hint Constructors steps : diamond.

(** ** Sharing out a list *)
Section Pick.
Local Open Scope Z_scope.

Lemma bind_bind {A B C} (f : A → list B) (g : B → list C) l : (l ≫= f) ≫= g = l ≫= λ x, f x ≫= g.
Proof. induction l as [|x l IH]; [done|]. by rewrite !bind_cons, bind_app, IH. Qed.

Lemma fmap_bind {A B C} (f : A → list B) (g : B → C) l : g <$> (l ≫= f) = l ≫= λ x, g <$> f x.
Proof. induction l as [|x l IH]; [done|]. by rewrite !bind_cons, fmap_app, IH. Qed.

(** The elements at the places that a predicate names. *)
Fixpoint pick {A} (P : Z → bool) (i : Z) (l : list A) : list A :=
match l with [] => [] | x :: l => if P i then x :: pick P (i + 1) l else pick P (i + 1) l end.

Lemma pick_ext {A} P Q (l : list A) i : (∀ j, i <= j → P j = Q j) → pick P i l = pick Q i l.
Proof.
revert i. induction l as [|x l IH]; intros i Hpq; [done|]. cbn [pick].
rewrite (Hpq i), (IH (i + 1)) by (lia || (intros; apply Hpq; lia)). done.
Qed.

Lemma pick_none {A} P (l : list A) i : (∀ j, i <= j → P j = false) → pick P i l = [].
Proof. revert i. induction l as [|x l IH]; intros i Hp; [done|]. cbn [pick]. rewrite Hp, IH; [done|intros; apply Hp; lia|lia]. Qed.

Lemma pick_all {A} (l : list A) i : pick (λ _, true) i l = l.
Proof. revert i. induction l as [|x l IH]; intros i; [done|]. cbn [pick]. by rewrite IH. Qed.

(** Predicates of which exactly one, or none, holds at every place share out what
is picked. *)
Lemma pick_shared {A I} (P : I → Z → bool) Q (ns : list I) (l : list A) : NoDup ns →
(∀ i, Q i = true ↔ ∃ n, n ∈ ns ∧ P n i = true) → (∀ i n n', n ∈ ns → n' ∈ ns → P n i = true → P n' i = true → n = n') →
∀ i, (ns ≫= λ n, pick (P n) i l) ≡ₚ pick Q i l.
Proof.
intros Hd Hq Hone. induction l as [|x l IH]; intros i.
{ clear. induction ns as [|n ns IH]; [done|]. by rewrite bind_cons. }
cbn [pick]. assert (Hskip : ∀ ns' : list I, (∀ n, n ∈ ns' → P n i = false) →
(ns' ≫= λ n, if P n i then x :: pick (P n) (i + 1) l else pick (P n) (i + 1) l) = ns' ≫= λ n, pick (P n) (i + 1) l).
{ intros ns' Hf. induction ns' as [|n ns' IHn]; [done|]. rewrite !bind_cons, Hf, IHn; [done| |by left].
intros n' Hn'. apply Hf. by right. }
destruct (Q i) eqn:Eq.
- apply Hq in Eq as (n & Hn & Hp). rewrite <-(IH (i + 1)). apply list_elem_of_split in Hn as (ns1 & ns2 & ->).
apply list.NoDup_app in Hd as (_ & Hd1 & Hd2). apply list.NoDup_cons in Hd2 as [Hd2 _].
assert (Hf : ∀ n', n' ∈ ns1 ++ n :: ns2 → n' ≠ n → P n' i = false) by (intros n' Hin Hne; destruct (P n' i) eqn:E; [|done]; destruct Hne; apply (Hone i); [done| |done|done]; apply elem_of_app; right; left).
rewrite !bind_app, !bind_cons, Hp, !Hskip.
+ by rewrite Permutation_middle.
+ intros n' Hn'. apply Hf; [by apply elem_of_app; right; right|]. by intros ->.
+ intros n' Hn'. apply Hf; [by apply elem_of_app; left|]. intros ->. apply (Hd1 n); [done|by left].
- rewrite <-(IH (i + 1)), Hskip; [done|]. intros n Hn. destruct (P n i) eqn:Ep; [|done]. exfalso.
assert (Q i = true) by (apply Hq; eauto). congruence.
Qed.
End Pick.
