(* ===== verification/PyBytes.v ===== *)
(** Python's [bytes] as the program uses them: fixed-width integers in either
    byte order (the [struct] module), two's complement, UTF-8 validity and
    [str.encode]/[bytes.decode]. *)
From S2P Require Import Prelude.
Local Open Scope Z_scope.

(** ** One byte *)
Definition byte_Z (b : byte) : Z := Z.of_N (Byte.to_N b).
Definition Z_byte (z : Z) : byte := default Byte.x00 (Byte.of_N (Z.to_N (z mod 256))).

Lemma byte_Z_range b : 0 <= byte_Z b < 256.
Proof.
  unfold byte_Z. pose proof (Byte.to_N_bounded b) as H.
  split; [lia |]. assert (Byte.to_N b <= 255)%N by exact H. lia.
Qed.

Lemma byte_Z_inj b1 b2 : byte_Z b1 = byte_Z b2 → b1 = b2.
Proof.
  unfold byte_Z. intros H%N2Z.inj.
  pose proof (Byte.of_to_N b1) as E1. pose proof (Byte.of_to_N b2) as E2. congruence.
Qed.

Lemma byte_Z_byte z : byte_Z (Z_byte z) = z mod 256.
Proof.
  unfold byte_Z, Z_byte.
  pose proof (Z.mod_pos_bound z 256 eq_refl) as P.
  destruct (Byte.of_N (Z.to_N (z mod 256))) as [b|] eqn:E; simpl.
  - apply Byte.to_of_N in E. rewrite E. lia.
  - apply Byte.of_N_None_iff in E. lia.
Qed.

Lemma Z_byte_Z b : Z_byte (byte_Z b) = b.
Proof.
  apply byte_Z_inj. rewrite byte_Z_byte. apply Z.mod_small, byte_Z_range.
Qed.

(** ** Fixed-width unsigned integers *)
Fixpoint le_split (n : nat) (z : Z) : bytes :=
  match n with O => [] | S n => Z_byte z :: le_split n (z / 256) end.

Fixpoint le_combine (l : bytes) : Z :=
  match l with [] => 0 | b :: l => byte_Z b + 256 * le_combine l end.

Definition be_split (n : nat) (z : Z) : bytes := reverse (le_split n z).
Definition be_combine (l : bytes) : Z := le_combine (reverse l).

Lemma length_le_split n z : length (le_split n z) = n.
Proof. revert z. induction n; intros; simpl; auto. Qed.

Lemma length_be_split n z : length (be_split n z) = n.
Proof. unfold be_split. by rewrite length_reverse, length_le_split. Qed.

Lemma le_combine_split n z : le_combine (le_split n z) = z mod 256 ^ Z.of_nat n.
Proof.
  revert z. induction n as [|n IH]; intros z; cbn [le_split le_combine].
  - by rewrite Z.pow_0_r, Z.mod_1_r.
  - rewrite byte_Z_byte, IH, Nat2Z.inj_succ, Z.pow_succ_r by lia.
    rewrite (Z.rem_mul_r z 256) by lia. lia.
Qed.

Lemma be_combine_split n z : be_combine (be_split n z) = z mod 256 ^ Z.of_nat n.
Proof. unfold be_combine, be_split. by rewrite reverse_involutive, le_combine_split. Qed.

Lemma le_combine_range l : 0 <= le_combine l < 256 ^ Z.of_nat (length l).
Proof.
  induction l as [|b l IH]; cbn [le_combine length]; [rewrite Z.pow_0_r; lia |].
  rewrite Nat2Z.inj_succ, Z.pow_succ_r by lia.
  pose proof (byte_Z_range b). nia.
Qed.

Lemma be_combine_range l : 0 <= be_combine l < 256 ^ Z.of_nat (length l).
Proof. unfold be_combine. rewrite <-(length_reverse l). apply le_combine_range. Qed.

Lemma le_split_combine l : le_split (length l) (le_combine l) = l.
Proof.
  induction l as [|b l IH]; cbn [le_combine length le_split]; [done |].
  pose proof (byte_Z_range b). f_equal.
  - apply byte_Z_inj. rewrite byte_Z_byte.
    rewrite Z.mul_comm, Z_mod_plus_full. by apply Z.mod_small.
  - rewrite Z.mul_comm, Z.div_add, Z.div_small by lia. apply IH.
Qed.

Lemma be_split_combine l : be_split (length l) (be_combine l) = l.
Proof.
  unfold be_split, be_combine. rewrite <-(length_reverse l), le_split_combine. apply reverse_involutive.
Qed.

Lemma be_combine_fold l : be_combine l = foldl (λ a b, 256 * a + byte_Z b) 0 l.
Proof.
  unfold be_combine. induction l as [|b l IH] using rev_ind; [done|].
  rewrite reverse_snoc, foldl_app. cbn [le_combine foldl]. rewrite IH. lia.
Qed.

(** ** Two's complement at width [w] bits *)
Definition wrap_u (w z : Z) : Z := z mod 2 ^ w.
Definition wrap_s (w z : Z) : Z :=
  let u := z mod 2 ^ w in if u >=? 2 ^ (w - 1) then u - 2 ^ w else u.
Definition in_u (w z : Z) : bool := (0 <=? z) && (z <? 2 ^ w).
Definition in_s (w z : Z) : bool := (- 2 ^ (w - 1) <=? z) && (z <? 2 ^ (w - 1)).

Lemma in_u_spec w z : in_u w z = true ↔ 0 <= z < 2 ^ w.
Proof. unfold in_u. rewrite andb_true_iff, Z.leb_le, Z.ltb_lt. lia. Qed.

Lemma in_s_spec w z : in_s w z = true ↔ - 2 ^ (w - 1) <= z < 2 ^ (w - 1).
Proof. unfold in_s. rewrite andb_true_iff, Z.leb_le, Z.ltb_lt. lia. Qed.

Lemma pow2_half w : 0 < w → 2 ^ w = 2 * 2 ^ (w - 1).
Proof. intros. rewrite <-Z.pow_succ_r by lia. f_equal. lia. Qed.

Lemma wrap_u_id w z : 0 <= z < 2 ^ w → wrap_u w z = z.
Proof. apply Z.mod_small. Qed.

Lemma wrap_s_id w z : 0 < w → - 2 ^ (w - 1) <= z < 2 ^ (w - 1) → wrap_s w z = z.
Proof.
  intros Hw Hz. unfold wrap_s. pose proof (pow2_half w Hw) as E.
  destruct (decide (0 <= z)).
  - rewrite Z.mod_small by lia. destruct (Z.geb_spec z (2 ^ (w - 1))); lia.
  - rewrite <-(Z_mod_plus_full z 1), Z.mod_small by lia.
    destruct (Z.geb_spec (z + 1 * 2 ^ w) (2 ^ (w - 1))); lia.
Qed.

Lemma wrap_s_range w z : 0 < w → in_s w (wrap_s w z) = true.
Proof.
  intros Hw. rewrite in_s_spec. unfold wrap_s. pose proof (pow2_half w Hw) as E.
  assert (0 < 2 ^ (w - 1)) by (apply Z.pow_pos_nonneg; lia).
  pose proof (Z.mod_pos_bound z (2 ^ w)).
  destruct (Z.geb_spec (z mod 2 ^ w) (2 ^ (w - 1))); lia.
Qed.

Lemma wrap_s_mod w z : 0 < w → wrap_s w (z mod 2 ^ w) = wrap_s w z.
Proof.
  intros Hw. unfold wrap_s. rewrite Z.mod_mod; [done |].
  apply Z.pow_nonzero; lia.
Qed.

(** ** UTF-8

    Well-formed byte sequences, Unicode Table 3-7, which is what CPython's
    strict decoder accepts. *)
Definition cont (b : byte) : bool := (128 <=? byte_Z b) && (byte_Z b <? 192).
Definition btw (lo hi : Z) (b : byte) : bool := (lo <=? byte_Z b) && (byte_Z b <=? hi).

Fixpoint utf8_valid (l : bytes) : bool :=
  match l with
  | [] => true
  | b0 :: l1 =>
    let z := byte_Z b0 in
    if z <? 128 then utf8_valid l1
    else match l1 with
    | [] => false
    | b1 :: l2 =>
      if btw 194 223 b0 then cont b1 && utf8_valid l2
      else match l2 with
      | [] => false
      | b2 :: l3 =>
        if z =? 224 then btw 160 191 b1 && cont b2 && utf8_valid l3
        else if z =? 237 then btw 128 159 b1 && cont b2 && utf8_valid l3
        else if btw 225 239 b0 then cont b1 && cont b2 && utf8_valid l3
        else match l3 with
        | [] => false
        | b3 :: l4 =>
          if z =? 240 then btw 144 191 b1 && cont b2 && cont b3 && utf8_valid l4
          else if btw 241 243 b0 then cont b1 && cont b2 && cont b3 && utf8_valid l4
          else if z =? 244 then btw 128 143 b1 && cont b2 && cont b3 && utf8_valid l4
          else false
        end
      end
    end
  end.

(** [s.encode()]: a [str] is held as its UTF-8 encoding, so encoding exposes
    the bytes; [b.decode()]: strict decoding. *)
Definition str_encode (s : string) : bytes := String.list_byte_of_string s.
Definition bytes_decode (b : bytes) : res string :=
  if utf8_valid b then Ok (String.string_of_list_byte b) else Raise UnicodeDecodeError.

(** A [string] that is the encoding of some Python [str]. *)
Definition is_str (s : string) : bool := utf8_valid (str_encode s).

(** A valid text followed by anything is decided by what follows. *)
Lemma utf8_valid_app a b : utf8_valid a = true → utf8_valid (a ++ b) = utf8_valid b.
Proof.
  assert (∀ n a, (length a < n)%nat → utf8_valid a = true → utf8_valid (a ++ b) = utf8_valid b) as G; [|eauto].
  clear a. induction n as [|n IH]; intros a Hn Ha; [lia|].
  destruct a as [|b0 a]; [done|]. cbn [length utf8_valid app] in *.
  destruct (byte_Z b0 <? 128); [apply IH; [lia|done]|].
  destruct a as [|b1 a]; [done|]. cbn [length app] in *.
  destruct (btw 194 223 b0); [apply andb_true_iff in Ha as [-> Ha]; apply IH; [lia|done]|].
  destruct a as [|b2 a]; [done|]. cbn [length app] in *.
  destruct (byte_Z b0 =? 224); [apply andb_true_iff in Ha as [-> Ha]; apply IH; [lia|done]|].
  destruct (byte_Z b0 =? 237); [apply andb_true_iff in Ha as [-> Ha]; apply IH; [lia|done]|].
  destruct (btw 225 239 b0); [apply andb_true_iff in Ha as [-> Ha]; apply IH; [lia|done]|].
  destruct a as [|b3 a]; [done|]. cbn [length app] in *.
  destruct (byte_Z b0 =? 240); [apply andb_true_iff in Ha as [-> Ha]; apply IH; [lia|done]|].
  destruct (btw 241 243 b0); [apply andb_true_iff in Ha as [-> Ha]; apply IH; [lia|done]|].
  destruct (byte_Z b0 =? 244); [apply andb_true_iff in Ha as [-> Ha]; apply IH; [lia|done]|done].
Qed.

Lemma str_encode_of_bytes l : str_encode (String.string_of_list_byte l) = l.
Proof. apply String.list_byte_of_string_of_list_byte. Qed.

Lemma string_of_str_encode s : String.string_of_list_byte (str_encode s) = s.
Proof. apply String.string_of_list_byte_of_string. Qed.

Lemma str_encode_inj s1 s2 : str_encode s1 = str_encode s2 → s1 = s2.
Proof.
  intros H%(f_equal String.string_of_list_byte).
  by rewrite !String.string_of_list_byte_of_string in H.
Qed.

Lemma str_encode_app s1 s2 : str_encode (s1 +:+ s2) = str_encode s1 ++ str_encode s2.
Proof.
  unfold str_encode. induction s1 as [|a s1 IH]; [done|].
  change (String a s1 +:+ s2) with (String a (s1 +:+ s2)).
  change (String.list_byte_of_string (String a ?s)) with (Ascii.byte_of_ascii a :: String.list_byte_of_string s).
  by rewrite IH.
Qed.

Lemma bytes_decode_encode s : is_str s = true → bytes_decode (str_encode s) = Ok s.
Proof.
  unfold is_str, bytes_decode. intros ->.
  by rewrite String.string_of_list_byte_of_string.
Qed.

Lemma bytes_decode_Ok b s :
  bytes_decode b = Ok s ↔ utf8_valid b = true ∧ b = str_encode s.
Proof.
  unfold bytes_decode, str_encode. split.
  - case_match; [|done]. intros [= <-]. by rewrite String.list_byte_of_string_of_list_byte.
  - intros [Hv ->]. rewrite Hv. by rewrite String.string_of_list_byte_of_string.
Qed.

Lemma bytes_decode_Raise b e : bytes_decode b = Raise e → e = UnicodeDecodeError.
Proof. unfold bytes_decode. case_match; congruence. Qed.

Lemma bytes_decode_is_str b s : bytes_decode b = Ok s → is_str s = true.
Proof. intros [H ->]%bytes_decode_Ok. done. Qed.

#[export] Hint Rewrite length_le_split length_be_split le_combine_split be_combine_split : diamond.
#[export] Hint Resolve byte_Z_range bytes_decode_is_str : diamond.

(** Keep codec terms folded under [simpl]; evaluation by [vm_compute] is not
    affected. *)
#[global] Opaque le_split be_split be_combine wrap_s wrap_u in_u in_s str_encode.
