(* ===== verification/PyText.v ===== *)
(** Python's text operations as the program uses them: whitespace, [strip],
    [split], [join], prefixes, [lower], decimal [int()] and ['%d']. *)
From S2P Require Import Prelude PyBytes.
Local Open Scope Z_scope.

(** ** Whitespace and strip *)
Definition is_space (b : byte) : bool :=
  let z := byte_Z b in (9 <=? z) && (z <=? 13) || (z =? 32).

Fixpoint lstrip (P : byte → bool) (l : bytes) : bytes :=
  match l with [] => [] | b :: l' => if P b then lstrip P l' else l end.
Definition rstrip (P : byte → bool) (l : bytes) : bytes := reverse (lstrip P (reverse l)).
(** [bytes.strip()] *)
Definition strip (l : bytes) : bytes := rstrip is_space (lstrip is_space l).

(** The UTF-8 encodings of the characters that [str.isspace()] accepts. *)
Definition str_spaces : list bytes :=
  (λ z, be_split 1 z) <$> [9; 10; 11; 12; 13; 28; 29; 30; 31; 32].
Definition wide_spaces : list bytes :=
  ((λ z, be_split 2 z) <$> [0xc285; 0xc2a0]) ++
  ((λ z, be_split 3 z) <$> [0xe19a80; 0xe28080; 0xe28081; 0xe28082; 0xe28083; 0xe28084; 0xe28085;
     0xe28086; 0xe28087; 0xe28088; 0xe28089; 0xe2808a; 0xe280a8; 0xe280a9; 0xe280af; 0xe2819f;
     0xe38080]).

(** ** split and join *)

(** [l.split(sep)] for a one-byte separator. *)
Fixpoint split (sep : byte) (l : bytes) : list bytes :=
  match l with
  | [] => [[]]
  | b :: l =>
    if decide (b = sep) then [] :: split sep l
    else match split sep l with p :: ps => (b :: p) :: ps | [] => [[b]] end
  end.

(** [l.split(sep, 1)]: [None] when the separator does not occur. *)
Fixpoint split1 (sep : byte) (l : bytes) : option (bytes * bytes) :=
  match l with
  | [] => None
  | b :: l =>
    if decide (b = sep) then Some ([], l)
    else match split1 sep l with Some (p, q) => Some (b :: p, q) | None => None end
  end.

Fixpoint join (sep : bytes) (l : list bytes) : bytes :=
  match l with [] => [] | [x] => x | x :: l => x ++ sep ++ join sep l end.

(** [l.startswith(p)] and [l.endswith(p)] *)
Fixpoint startswith (l p : bytes) : bool :=
  match p, l with
  | [], _ => true
  | x :: p, y :: l => bool_decide (x = y) && startswith l p
  | _, _ => false
  end.
Definition endswith (l p : bytes) : bool := startswith (reverse l) (reverse p).

(** [l[:n]] *)
Definition slice_to {A} (n : Z) (l : list A) : list A :=
if n <? 0 then take (Z.to_nat (Z.of_nat (length l) + n)) l else take (Z.to_nat n) l.


Lemma slice_to_fmap {A B} (g : A → B) n (l : list A) : slice_to n (g <$> l) = g <$> slice_to n l.
Proof. unfold slice_to. rewrite length_fmap. destruct (n <? 0); by rewrite fmap_take. Qed.


(** [str.strip()], on the UTF-8 encoding: whitespace characters are removed
    while one is at the end; each removal shortens the text. *)
Fixpoint strip_while (fuel : nat) (ps : list bytes) (l : bytes) : bytes :=
  match fuel with
  | O => l
  | S fuel =>
    match List.find (startswith l) ps with
    | Some p => strip_while fuel ps (drop (length p) l)
    | None => l
    end
  end.
Definition str_lstrip (l : bytes) : bytes :=
  strip_while (length l) (str_spaces ++ wide_spaces) l.
Definition str_rstrip (l : bytes) : bytes :=
  reverse (strip_while (length l) (reverse <$> (str_spaces ++ wide_spaces)) (reverse l)).
Definition str_strip (l : bytes) : bytes := str_rstrip (str_lstrip l).

(** [s.lower()], on ASCII letters. *)
Definition lower_byte (b : byte) : byte :=
  let z := byte_Z b in if (65 <=? z) && (z <=? 90) then Z_byte (z + 32) else b.
Definition lower (l : bytes) : bytes := lower_byte <$> l.

Definition on_str (f : bytes → bytes) (s : string) : string :=
  String.string_of_list_byte (f (str_encode s)).

(** ** Decimal integers *)
Definition digit_value (b : byte) : option Z :=
  let z := byte_Z b in if (48 <=? z) && (z <=? 57) then Some (z - 48) else None.
Definition digit_byte (d : Z) : byte := Z_byte (48 + d).

(** Digits, single underscores allowed between them. *)
Fixpoint parse_digits (acc : Z) (l : bytes) : option Z :=
  match l with
  | [] => None
  | b :: l =>
    match digit_value b with
    | None => None
    | Some d =>
      let acc := 10 * acc + d in
      match l with
      | [] => Some acc
      | b' :: l' => if decide (b' = Byte.x5f) then parse_digits acc l' else parse_digits acc l
      end
    end
  end.

(** [int(l)] *)
Definition py_int (l : bytes) : res Z :=
  of_option ValueError
    match strip l with
    | [] => None
    | b :: l' =>
      if decide (b = Byte.x2d) then Z.opp <$> parse_digits 0 l'
      else if decide (b = Byte.x2b) then parse_digits 0 l'
      else parse_digits 0 (b :: l')
    end.

(** [int(s)] of a [str] whose digits are ASCII digits. *)
Definition py_int_str (l : bytes) : res Z := py_int (str_strip l).

(** ['%d' % n] *)
Fixpoint dec_digits (fuel : nat) (n : Z) : bytes :=
  match fuel with
  | O => []
  | S fuel => (if n <? 10 then [] else dec_digits fuel (n / 10)) ++ [digit_byte (n mod 10)]
  end.
Definition dec_fuel (n : Z) : nat := S (Z.to_nat (Z.log2 n)).
Definition format_d (n : Z) : bytes :=
  if n <? 0 then Byte.x2d :: dec_digits (dec_fuel (- n)) (- n) else dec_digits (dec_fuel n) n.

(** ** Lemmas *)
Lemma digit_value_byte d : 0 <= d < 10 → digit_value (digit_byte d) = Some d.
Proof.
  intros Hd. unfold digit_value, digit_byte. rewrite byte_Z_byte, Z.mod_small by lia.
  destruct (Z.leb_spec 48 (48 + d)), (Z.leb_spec (48 + d) 57); simpl; try lia. f_equal. lia.
Qed.

(** A string of digits, most significant first. *)
Definition is_digit (b : byte) : Prop := is_Some (digit_value b).
Definition digits_value (acc : Z) (l : bytes) : Z :=
  foldl (λ a b, 10 * a + default 0 (digit_value b)) acc l.

Lemma is_digit_not_underscore b : is_digit b → b ≠ Byte.x5f.
Proof. intros [d Hd] ->. by vm_compute in Hd. Qed.

Lemma parse_digits_value l acc :
  l ≠ [] → Forall is_digit l → parse_digits acc l = Some (digits_value acc l).
Proof.
  intros Hne Hl. revert acc Hne. induction Hl as [|b l [d Hd] Hl IH]; intros acc Hne; [done|].
  simpl. rewrite Hd. simpl. destruct l as [|b' l]; [done|].
  rewrite decide_False by (apply is_digit_not_underscore; by inversion Hl). by apply IH.
Qed.

Lemma dec_digits_spec fuel n : 0 <= n < 2 ^ Z.of_nat fuel → (0 < fuel)%nat →
  Forall is_digit (dec_digits fuel n) ∧ dec_digits fuel n ≠ [] ∧
  digits_value 0 (dec_digits fuel n) = n.
Proof.
  revert n. induction fuel as [|fuel IH]; intros n Hn Hf; [lia|].
  pose proof (Z.mod_pos_bound n 10 ltac:(lia)) as Hm.
  assert (Hd : is_digit (digit_byte (n mod 10))) by (exists (n mod 10); by apply digit_value_byte).
  cbn [dec_digits]. destruct (Z.ltb_spec n 10) as [Hlt|Hge].
  - simpl. split_and!; [by constructor|done|]. unfold digits_value. simpl.
    rewrite digit_value_byte by lia. simpl. rewrite Z.mod_small; lia.
  - rewrite Nat2Z.inj_succ, Z.pow_succ_r in Hn by lia.
    assert (fuel ≠ 0%nat) by (intros ->; simpl in Hn; lia).
    destruct (IH (n / 10)) as (H1 & H2 & H3).
    { pose proof (Z_div_mod_eq_full n 10). nia. } { lia. }
    split_and!; [apply Forall_app; by split_and!; [|constructor]| by destruct (dec_digits fuel (n / 10)) |].
    unfold digits_value in *. rewrite foldl_app, H3. simpl. rewrite digit_value_byte by lia. simpl.
    pose proof (Z_div_mod_eq_full n 10). lia.
Qed.

Lemma format_d_nonneg n : 0 <= n →
  Forall is_digit (format_d n) ∧ format_d n ≠ [] ∧ digits_value 0 (format_d n) = n.
Proof.
  intros Hn. unfold format_d. destruct (Z.ltb_spec n 0); [lia|].
  apply dec_digits_spec; [|unfold dec_fuel; lia]. split; [done|]. unfold dec_fuel.
  destruct (decide (n = 0)) as [->|]; [done|].
  rewrite Nat2Z.inj_succ, Z2Nat.id by apply Z.log2_nonneg. apply Z.log2_spec. lia.
Qed.

Lemma is_digit_not_space b : is_digit b → is_space b = false.
Proof.
  intros [d Hd]. unfold digit_value in Hd. unfold is_space.
  destruct (Z.leb_spec 48 (byte_Z b)), (Z.leb_spec (byte_Z b) 57); try done.
  destruct (Z.leb_spec 9 (byte_Z b)), (Z.leb_spec (byte_Z b) 13), (Z.eqb_spec (byte_Z b) 32);
    try lia; done.
Qed.

Lemma lstrip_id P l : (∀ b, head l = Some b → P b = false) → lstrip P l = l.
Proof. destruct l as [|b l]; [done|]. intros H. simpl. by rewrite (H b). Qed.

Lemma rstrip_id P l b : P b = false → rstrip P (l ++ [b]) = l ++ [b].
Proof.
  intros Hb. unfold rstrip. rewrite reverse_snoc, lstrip_id by (simpl; congruence).
  by rewrite reverse_cons, reverse_involutive.
Qed.

Lemma rstrip_app_space P l b : P b = true → rstrip P (l ++ [b]) = rstrip P l.
Proof. intros Hb. unfold rstrip. rewrite reverse_snoc. simpl. by rewrite Hb. Qed.

Lemma strip_digits l : Forall is_digit l → strip (l ++ [Byte.x0a]) = l ∧ strip l = l.
Proof.
  intros Hl. destruct l as [|b l] using rev_ind; [done|].
  apply Forall_app in Hl as [Hl Hb]. rewrite Forall_singleton in Hb.
  assert (E : ∀ t, lstrip is_space ((l ++ [b]) ++ t) = (l ++ [b]) ++ t).
  { intros t. apply lstrip_id. intros c. destruct l as [|c' l]; simpl.
    - intros [= ->]. by apply is_digit_not_space.
    - intros [= ->]. apply is_digit_not_space. by inversion Hl. }
  unfold strip. rewrite E. split.
  - rewrite rstrip_app_space by done. apply rstrip_id. by apply is_digit_not_space.
  - specialize (E []). rewrite app_nil_r in E. rewrite E. apply rstrip_id.
    by apply is_digit_not_space.
Qed.

(** [int('%d\n' % n) == n] *)
Lemma py_int_format_d n : 0 <= n →
  py_int (format_d n ++ [Byte.x0a]) = Ok n ∧ py_int (format_d n) = Ok n.
Proof.
  intros Hn. destruct (format_d_nonneg n Hn) as (Hd & Hne & Hv).
  destruct (strip_digits _ Hd) as [E1 E2]. unfold py_int. rewrite E1, E2.
  destruct (format_d n) as [|b l] eqn:E; [done|].
  assert (is_digit b) as Hb by (by inversion Hd).
  rewrite decide_False by (intros ->; destruct Hb as [? Hb]; by vm_compute in Hb).
  rewrite decide_False by (intros ->; destruct Hb as [? Hb]; by vm_compute in Hb).
  rewrite parse_digits_value by done. rewrite Hv. done.
Qed.

Lemma split_nonempty sep l : split sep l ≠ [].
Proof. destruct l; simpl; [done|]. case_decide; [done|]. by destruct (split sep l). Qed.

Lemma split_join sep l : join [sep] (split sep l) = l.
Proof.
  induction l as [|b l IH]; simpl; [done|]. pose proof (split_nonempty sep l).
  case_decide as Hb.
  - subst. destruct (split sep l); [done|]. simpl in *. by rewrite <-IH.
  - destruct (split sep l) as [|p [|p' ps]]; [done|..]; simpl in *; by rewrite <-IH.
Qed.

Lemma split_no_sep sep l : sep ∉ l → split sep l = [l].
Proof.
  induction l as [|b l IH]; simpl; [done|]. intros H.
  rewrite decide_False by set_solver. by rewrite IH by set_solver.
Qed.

Lemma split_app_sep sep l1 l2 : sep ∉ l1 → split sep (l1 ++ sep :: l2) = l1 :: split sep l2.
Proof.
  induction l1 as [|b l1 IH]; simpl; intros H; [by rewrite decide_True|].
  rewrite decide_False by set_solver. by rewrite IH by set_solver.
Qed.

Lemma join_split sep ls :
  ls ≠ [] → Forall (λ l, sep ∉ l) ls → split sep (join [sep] ls) = ls.
Proof.
  intros Hne H. induction H as [|l ls Hl Hls IH]; [done|].
  destruct ls as [|l' ls].
  - simpl. by apply split_no_sep.
  - change (split sep (l ++ sep :: join [sep] (l' :: ls)) = l :: l' :: ls).
    rewrite split_app_sep by done. by rewrite IH.
Qed.

Lemma split1_app sep l1 l2 : sep ∉ l1 → split1 sep (l1 ++ sep :: l2) = Some (l1, l2).
Proof.
  induction l1 as [|b l1 IH]; simpl; intros H; [by rewrite decide_True|].
  rewrite decide_False by set_solver. by rewrite IH by set_solver.
Qed.

Lemma startswith_app l p : startswith (p ++ l) p = true.
Proof. induction p; simpl; [by destruct l|]. by rewrite bool_decide_eq_true_2. Qed.

Example str_strip_unicode :
  str_strip [Byte.xc2; Byte.xa0; Byte.x20; Byte.x61; Byte.xe2; Byte.x80; Byte.x83; Byte.x62;
             Byte.xe3; Byte.x80; Byte.x80; Byte.x0a] = [Byte.x61; Byte.xe2; Byte.x80; Byte.x83; Byte.x62].
Proof. vm_compute. reflexivity. Qed.

(** Visible ASCII characters are not stripped. *)
Definition plain (b : byte) : bool := (33 <=? byte_Z b) && (byte_Z b <=? 126).

Lemma is_digit_plain b : is_digit b → plain b = true.
Proof.
  intros [d Hd]. unfold digit_value in Hd. unfold plain.
  destruct (Z.leb_spec 48 (byte_Z b)), (Z.leb_spec (byte_Z b) 57); try done.
  apply andb_true_iff; rewrite !Z.leb_le; lia.
Qed.

Definition starts_no_plain (p : bytes) : bool :=
  match p with [] => false | c :: _ => negb (plain c) end.

Lemma find_space_plain b l ps : plain b = true → forallb starts_no_plain ps = true →
  List.find (startswith (b :: l)) ps = None.
Proof.
  intros Hb. induction ps as [|[|c p] ps IH]; simpl; [done|done|].
  intros [Hc%negb_true_iff Hps]%andb_true_iff.
  rewrite bool_decide_eq_false_2 by congruence. by apply IH.
Qed.

Lemma strip_while_plain fuel b l ps : plain b = true → forallb starts_no_plain ps = true →
  strip_while fuel ps (b :: l) = b :: l.
Proof. intros. destruct fuel; [done|]. cbn [strip_while]. by rewrite find_space_plain. Qed.

Lemma str_lstrip_plain b l : plain b = true → str_lstrip (b :: l) = b :: l.
Proof. intros. by apply strip_while_plain; [|by vm_compute]. Qed.

Lemma strip_while_reverse n l : Forall (λ b, plain b = true) l →
  strip_while n (reverse <$> (str_spaces ++ wide_spaces)) (reverse l) = reverse l.
Proof.
  intros Hl. assert (Hr : Forall (λ b, plain b = true) (reverse l)) by by apply Forall_reverse.
  destruct (reverse l) as [|c r]; [by destruct n|].
  apply strip_while_plain; [by inversion Hr|by vm_compute].
Qed.

Lemma str_strip_plain l : Forall (λ b, plain b = true) l →
  str_strip l = l ∧ str_strip (l ++ [Byte.x0a]) = l ∧ str_strip (Byte.x20 :: l) = l.
Proof.
  intros Hl. destruct l as [|b l]; [by vm_compute|].
  assert (Hb : plain b = true) by by inversion Hl.
  assert (F : str_rstrip (b :: l) = b :: l)
    by by unfold str_rstrip; rewrite strip_while_reverse, reverse_involutive.
  unfold str_strip. split_and!.
  - by rewrite str_lstrip_plain, F.
  - change ((b :: l) ++ [Byte.x0a]) with (b :: (l ++ [Byte.x0a])). rewrite str_lstrip_plain by done.
    assert (G : ∀ t, List.find (startswith (Byte.x0a :: t))
        (reverse <$> (str_spaces ++ wide_spaces)) = Some [Byte.x0a]) by (intros [|? ?]; by vm_compute).
    change (b :: (l ++ [Byte.x0a])) with ((b :: l) ++ [Byte.x0a]).
    unfold str_rstrip. rewrite length_app, Nat.add_comm, reverse_snoc.
    generalize (length (b :: l)) as n. intros n. cbn [length Nat.add strip_while]. rewrite G.
    change (drop (length [Byte.x0a]) (Byte.x0a :: reverse (b :: l))) with (reverse (b :: l)).
    by rewrite strip_while_reverse, reverse_involutive.
  - assert (E : str_lstrip (Byte.x20 :: b :: l) = b :: l); [|by rewrite E, F].
    assert (G : List.find (startswith (Byte.x20 :: b :: l)) (str_spaces ++ wide_spaces) = Some [Byte.x20]) by by vm_compute.
    unfold str_lstrip. cbn [length strip_while]. rewrite G.
    change (drop (length [Byte.x20]) (Byte.x20 :: b :: l)) with (b :: l).
    change (strip_while (S (length l)) (str_spaces ++ wide_spaces) (b :: l) = b :: l).
    by apply strip_while_plain; [|by vm_compute].
Qed.

Lemma str_strip_digits l : Forall is_digit l → str_strip l = l ∧ str_strip (l ++ [Byte.x0a]) = l.
Proof.
  intros Hl. destruct (str_strip_plain l) as (? & ? & _); [|done].
  eapply Forall_impl; [exact Hl|]. intros b. apply is_digit_plain.
Qed.

(** Text of ASCII characters is valid. *)
Definition ascii (b : byte) : bool := byte_Z b <? 128.
Lemma ascii_valid l : Forall (λ b, ascii b = true) l → utf8_valid l = true.
Proof. unfold ascii. induction 1 as [|b l Hb _ IH]; [done|]. cbn [utf8_valid]. by rewrite Hb. Qed.
Lemma plain_ascii b : plain b = true → ascii b = true.
Proof. unfold plain, ascii. rewrite andb_true_iff, !Z.leb_le, Z.ltb_lt. lia. Qed.

(** [int()] of the [str] version of ['%d'], also followed by a newline. *)
Lemma py_int_str_format_d n : 0 <= n →
  py_int_str (format_d n) = Ok n ∧ py_int_str (format_d n ++ [Byte.x0a]) = Ok n.
Proof.
  intros Hn. destruct (format_d_nonneg n Hn) as (Hd & _).
  destruct (str_strip_digits _ Hd) as [E1 E2]. unfold py_int_str. rewrite E1, E2.
  split; by apply py_int_format_d.
Qed.
