(* ===== verification/Dict.v ===== *)
(** Python's insertion-ordered [dict], as an association list without duplicate
    keys: assignment replaces in place or appends. *)
From S2P Require Import Prelude.

Abbreviation dict K V := (list (K * V)).

Section Dict.
Context {K V : Type} `{EqDecision K}.
Implicit Types d : dict K V.

Fixpoint dict_get d (k : K) : option V :=
match d with
| [] => None
| (k', v) :: d => if decide (k' = k) then Some v else dict_get d k
end.

(** [d[k] = v] *)
Fixpoint dict_set d (k : K) (v : V) : dict K V :=
match d with
| [] => [(k, v)]
| (k', v') :: d => if decide (k' = k) then (k, v) :: d else (k', v') :: dict_set d k v
end.

(** [del d[k]], and the rest of [d.pop(k)] *)
Fixpoint dict_del d (k : K) : dict K V :=
match d with
| [] => []
| (k', v) :: d => if decide (k' = k) then d else (k', v) :: dict_del d k
end.

Definition dict_keys d : list K := d.*1.

(** [k in d] *)
Definition dict_mem d (k : K) : bool := bool_decide (is_Some (dict_get d k)).

(** [d.update(items)], [dict(items)] *)
Definition dict_update d (items : list (K * V)) : dict K V :=
foldl (λ d p, dict_set d p.1 p.2) d items.
Definition dict_of (items : list (K * V)) : dict K V := dict_update [] items.

(** [d.setdefault(k, v)]: the dict afterwards *)
Definition dict_setdefault d (k : K) (v : V) : dict K V :=
match dict_get d k with Some _ => d | None => dict_set d k v end.

Definition dict_wf d : Prop := NoDup (dict_keys d).

Lemma dict_get_None d k : dict_get d k = None ↔ k ∉ dict_keys d.
Proof.
unfold dict_keys. induction d as [|[k' v] d IH]; csimpl; [set_solver|].
case_decide; [set_solver|]. rewrite IH. set_solver.
Qed.

Lemma dict_get_is_Some d k : is_Some (dict_get d k) ↔ k ∈ dict_keys d.
Proof.
rewrite <-not_eq_None_Some, dict_get_None.
destruct (decide (k ∈ dict_keys d)); naive_solver.
Qed.

Lemma dict_mem_spec d k : dict_mem d k = true ↔ k ∈ dict_keys d.
Proof. unfold dict_mem. by rewrite bool_decide_eq_true, dict_get_is_Some. Qed.

Lemma dict_get_In d k v : dict_get d k = Some v → (k, v) ∈ d.
Proof.
induction d as [|[k' v'] d IH]; csimpl; [done|]. case_decide; [|set_solver].
intros [= ->]. subst. set_solver.
Qed.

Lemma dict_In_get d k v : dict_wf d → (k, v) ∈ d → dict_get d k = Some v.
Proof.
unfold dict_wf, dict_keys. induction d as [|[k' v'] d IH]; csimpl; [set_solver|].
intros [Hk Hd]%NoDup_cons. rewrite elem_of_cons. intros [E|Hin].
- simplify_eq. by rewrite decide_True.
- rewrite decide_False; [by apply IH|]. intros ->. apply Hk, list_elem_of_fmap.
by exists (k, v).
Qed.

Lemma dict_get_set d k v k' :
dict_get (dict_set d k v) k' = if decide (k = k') then Some v else dict_get d k'.
Proof.
induction d as [|[k1 v1] d IH]; csimpl; [done|].
destruct (decide (k1 = k)) as [->|]; csimpl; [by repeat case_decide|].
destruct (decide (k1 = k')) as [->|]; [by rewrite decide_False|]. exact IH.
Qed.

Lemma dict_get_set_eq d k v : dict_get (dict_set d k v) k = Some v.
Proof. by rewrite dict_get_set, decide_True. Qed.
Lemma dict_get_set_ne d k v k' : k ≠ k' → dict_get (dict_set d k v) k' = dict_get d k'.
Proof. intros. by rewrite dict_get_set, decide_False. Qed.

Lemma dict_set_fresh d k v : k ∉ dict_keys d → dict_set d k v = d ++ [(k, v)].
Proof.
unfold dict_keys. induction d as [|[k' v'] d IH]; csimpl; [done|]. intros Hk.
rewrite decide_False by set_solver. by rewrite IH by set_solver.
Qed.

Lemma dict_set_app d1 d2 k v v' :
k ∉ dict_keys d1 → dict_set (d1 ++ (k, v') :: d2) k v = d1 ++ (k, v) :: d2.
Proof.
unfold dict_keys. induction d1 as [|[k1 v1] d1 IH]; csimpl; intros Hk; [by rewrite decide_True|].
rewrite decide_False by set_solver. by rewrite IH by set_solver.
Qed.

Lemma dict_get_app d1 d2 k v :
k ∉ dict_keys d1 → dict_get (d1 ++ (k, v) :: d2) k = Some v.
Proof.
unfold dict_keys. induction d1 as [|[k1 v1] d1 IH]; csimpl; intros Hk; [by rewrite decide_True|].
rewrite decide_False by set_solver. apply IH. set_solver.
Qed.

Lemma dict_keys_set d k v :
dict_keys (dict_set d k v) =
if decide (k ∈ dict_keys d) then dict_keys d else dict_keys d ++ [k].
Proof.
unfold dict_keys. induction d as [|[k' v'] d IH]; csimpl; [done|].
destruct (decide (k' = k)) as [->|Hne]; csimpl; [by rewrite decide_True by set_solver|].
rewrite IH. repeat case_decide; set_solver.
Qed.

Lemma dict_wf_nil : dict_wf [].
Proof. constructor. Qed.

Lemma dict_wf_set d k v : dict_wf d → dict_wf (dict_set d k v).
Proof.
unfold dict_wf. rewrite dict_keys_set. case_decide; [done|]. intros Hd.
apply NoDup_app. split_and!; [done| |apply NoDup_singleton]. set_solver.
Qed.

Lemma dict_wf_update d items : dict_wf d → dict_wf (dict_update d items).
Proof.
revert d. induction items as [|[k v] items IH]; intros d Hd; csimpl; [done|].
apply IH. by apply dict_wf_set.
Qed.

Lemma dict_get_update d items k : NoDup items.*1 →
dict_get (dict_update d items) k =
match dict_get items k with Some v => Some v | None => dict_get d k end.
Proof.
revert d. induction items as [|[k' v'] items IH]; intros d Hd; csimpl; [done|].
apply NoDup_cons in Hd as [Hk Hd]. unfold dict_update in *. rewrite IH by done.
rewrite dict_get_set. csimpl. case_decide as E; [|done]. subst.
assert (dict_get items k = None) as -> by by apply dict_get_None. done.
Qed.

Lemma filter_ne_id (l : list K) k : k ∉ l → filter (λ k', k' ≠ k) l = l.
Proof.
induction l as [|x l IH]; [done|]. intros Hk.
rewrite filter_cons_True by set_solver. f_equal. apply IH. set_solver.
Qed.

Lemma dict_keys_del d k : dict_wf d → dict_keys (dict_del d k) = filter (λ k', k' ≠ k) (dict_keys d).
Proof.
unfold dict_wf, dict_keys. induction d as [|[k' v'] d IH]; csimpl; [done|].
intros [Hk Hd]%NoDup_cons. destruct (decide (k' = k)) as [->|Hne].
- rewrite filter_cons_False by (intros H; by apply H). by rewrite filter_ne_id.
- rewrite filter_cons_True by done. csimpl. by rewrite IH.
Qed.

Lemma dict_wf_del d k : dict_wf d → dict_wf (dict_del d k).
Proof. intros Hd. unfold dict_wf. rewrite dict_keys_del by done. by apply NoDup_filter. Qed.

Lemma dict_get_del d k k' : dict_wf d →
dict_get (dict_del d k) k' = if decide (k = k') then None else dict_get d k'.
Proof.
unfold dict_wf, dict_keys. induction d as [|[k1 v1] d IH]; csimpl; [by case_decide|].
intros [Hk Hd]%NoDup_cons. destruct (decide (k1 = k)) as [->|Hne]; csimpl.
- destruct (decide (k = k')) as [->|]; [|done]. by apply dict_get_None.
- destruct (decide (k1 = k')) as [->|]; [by rewrite decide_False|]. by apply IH.
Qed.
End Dict.

Lemma dict_get_fmap {K V W} `{EqDecision K} (g : K * V → W) (d : dict K V) k :
  dict_get ((λ p, (p.1, g p)) <$> d) k = (λ v, g (k, v)) <$> dict_get d k.
Proof.
  induction d as [|[k' v] d IH]; csimpl; [done|]. case_decide as E; [by subst|done].
Qed.

#[export] Hint Resolve dict_wf_nil dict_wf_set dict_wf_update dict_wf_del : diamond.
