(* ===== verification/Float64.v ===== *)
(** Python's [float]: IEEE-754 binary64, as the Standard Library's [spec_float]
    with precision 53 and maximal exponent 1024.  Arithmetic is the correctly
    rounded arithmetic of [SpecFloat]; NaNs carry no payload.  The 64-bit
    interchange format is written out for [struct.pack('>d')]. *)
From Stdlib Require Export Floats.SpecFloat.
From S2P Require Import Prelude PyBytes.
Local Open Scope Z_scope.

Abbreviation float := spec_float.

Definition prec : Z := 53.
Definition emax : Z := 1024.
Definition float_valid (f : float) : bool := valid_binary prec emax f.

#[global] Instance float_eq_dec : EqDecision float.
Proof. solve_decision. Defined.

Definition fzero : float := S754_zero false.
Definition finf : float := S754_infinity false.
Definition fninf : float := S754_infinity true.

(** [x + y], [x <= y], [float(n)]. *)
Definition fadd (x y : float) : float := SFadd prec emax x y.
Definition fle (x y : float) : bool := SFleb x y.
Definition flt (x y : float) : bool := SFltb x y.
(** [x / y] for a nonzero [y], and [int(x)], which truncates. *)
Definition fdiv (x y : float) : float := SFdiv prec emax x y.
Definition fmul (x y : float) : float := SFmul prec emax x y.
Definition fsub (x y : float) : float := SFsub prec emax x y.
Definition float_to_int (x : float) : res Z :=
  match x with
  | S754_zero _ => Ok 0
  | S754_infinity _ => Raise OverflowError
  | S754_nan => Raise ValueError
  | S754_finite s m e =>
    let a := if 0 <=? e then Zpos m * 2 ^ e else Zpos m / 2 ^ (- e) in
    Ok (if s then - a else a)
  end.

(** [float(n)] of a Python [int]: [OverflowError] when the rounding overflows. *)
Definition float_of_int (n : Z) : res float :=
  match binary_normalize prec emax n 0 false with
  | S754_infinity _ => Raise OverflowError
  | f => Ok f
  end.

(** ** Interchange format *)
Definition sign_bits (s : bool) : Z := if s then 2 ^ 63 else 0.

Definition bits_of_float (f : float) : Z :=
  match f with
  | S754_zero s => sign_bits s
  | S754_infinity s => sign_bits s + 2047 * 2 ^ 52
  | S754_nan => 2047 * 2 ^ 52 + 2 ^ 51
  | S754_finite s m e =>
    if 2 ^ 52 <=? Zpos m
    then sign_bits s + (e + 1075) * 2 ^ 52 + (Zpos m - 2 ^ 52)
    else sign_bits s + Zpos m
  end.

Definition float_of_bits (z : Z) : float :=
  let s := (z / 2 ^ 63) mod 2 =? 1 in
  let E := (z / 2 ^ 52) mod 2048 in
  let M := z mod 2 ^ 52 in
  if E =? 0 then
    match M with Zpos m => S754_finite s m (-1074) | _ => S754_zero s end
  else if E =? 2047 then (if M =? 0 then S754_infinity s else S754_nan)
  else match M + 2 ^ 52 with Zpos m => S754_finite s m (E - 1075) | _ => S754_nan end.

Lemma digits2_pos_spec m :
  2 ^ (Zpos (digits2_pos m) - 1) <= Zpos m < 2 ^ Zpos (digits2_pos m).
Proof.
  induction m as [m IH|m IH|]; cbn [digits2_pos]; [| | cbn; lia].
  all: rewrite Pos2Z.inj_succ;
    rewrite Z.pow_succ_r by lia;
    replace (Z.succ (Zpos (digits2_pos m)) - 1) with (Z.succ (Zpos (digits2_pos m) - 1)) by lia;
    rewrite (Z.pow_succ_r 2 (Zpos (digits2_pos m) - 1)) by lia; lia.
Qed.

(** The two shapes of a valid finite number: normal and subnormal. *)
Lemma valid_finite s m e :
  float_valid (S754_finite s m e) = true →
  (2 ^ 52 <= Zpos m < 2 ^ 53 ∧ -1074 <= e <= 971) ∨ (Zpos m < 2 ^ 52 ∧ e = -1074).
Proof.
  unfold float_valid, valid_binary, bounded, canonical_mantissa, fexp, emin, prec, emax.
  intros [Hc He]%andb_true_iff. apply Z.eqb_eq in Hc. apply Z.leb_le in He.
  pose proof (digits2_pos_spec m) as [Hl Hu].
  set (d := Zpos (digits2_pos m)) in *.
  destruct (decide (d = 53)) as [Ed|Ed].
  - left. rewrite Ed in *. lia.
  - right. assert (d < 53) by lia. split; [|lia].
    apply Z.lt_le_trans with (2 ^ d); [done|]. apply Z.pow_le_mono_r; lia.
Qed.

Lemma sign_bits_div s r : 0 <= r < 2 ^ 63 → (sign_bits s + r) / 2 ^ 63 = if s then 1 else 0.
Proof.
  intros Hr. destruct s; unfold sign_bits.
  - rewrite <-(Z.mul_1_l (2 ^ 63)) at 1.
    rewrite Z.div_add_l, Z.div_small by lia. lia.
  - rewrite Z.div_small; lia.
Qed.

Lemma sign_bits_fields s E M :
  0 <= E < 2048 → 0 <= M < 2 ^ 52 →
  let z := sign_bits s + E * 2 ^ 52 + M in
  (z / 2 ^ 63) mod 2 = (if s then 1 else 0) ∧ (z / 2 ^ 52) mod 2048 = E ∧ z mod 2 ^ 52 = M.
Proof.
  intros HE HM z. split_and!.
  - unfold z. rewrite <-Z.add_assoc, sign_bits_div by nia. by destruct s.
  - replace z with (M + ((if s then 2048 else 0) + E) * 2 ^ 52)
      by (unfold z; destruct s; unfold sign_bits; lia).
    rewrite Z.div_add, Z.div_small by lia.
    rewrite Z.add_0_l. replace ((if s then 2048 else 0) + E) with (E + (if s then 1 else 0) * 2048)
      by (destruct s; lia).
    rewrite Z_mod_plus_full. by apply Z.mod_small.
  - replace z with (M + ((if s then 2048 else 0) + E) * 2 ^ 52)
      by (unfold z; destruct s; unfold sign_bits; lia).
    rewrite Z_mod_plus_full. by apply Z.mod_small.
Qed.

Lemma bool_eqb_1 (s : bool) : ((if s then 1 else 0) =? 1) = s.
Proof. by destruct s. Qed.

Lemma float_of_bits_fields s E M :
  0 <= E < 2048 → 0 <= M < 2 ^ 52 →
  float_of_bits (sign_bits s + E * 2 ^ 52 + M) =
    if E =? 0 then match M with Zpos m => S754_finite s m (-1074) | _ => S754_zero s end
    else if E =? 2047 then (if M =? 0 then S754_infinity s else S754_nan)
    else match M + 2 ^ 52 with Zpos m => S754_finite s m (E - 1075) | _ => S754_nan end.
Proof.
  intros HE HM. destruct (sign_bits_fields s E M HE HM) as (Hs & HE' & HM').
  unfold float_of_bits. by rewrite Hs, HE', HM', bool_eqb_1.
Qed.

Lemma float_bits_roundtrip f : float_valid f = true → float_of_bits (bits_of_float f) = f.
Proof.
  destruct f as [s|s| |s m e]; intros Hv; [by destruct s | by destruct s | done |].
  cbn [bits_of_float]. destruct (valid_finite _ _ _ Hv) as [[Hm He]|[Hm ->]].
  - destruct (Z.leb_spec (2 ^ 52) (Zpos m)); [|lia].
    rewrite float_of_bits_fields by lia.
    destruct (Z.eqb_spec (e + 1075) 0); [lia|].
    destruct (Z.eqb_spec (e + 1075) 2047); [lia|].
    replace (Zpos m - 2 ^ 52 + 2 ^ 52) with (Zpos m) by lia. f_equal. lia.
  - destruct (Z.leb_spec (2 ^ 52) (Zpos m)); [lia|].
    replace (sign_bits s + Zpos m) with (sign_bits s + 0 * 2 ^ 52 + Zpos m) by lia.
    by rewrite float_of_bits_fields by lia.
Qed.

Lemma bits_of_float_range f : float_valid f = true → 0 <= bits_of_float f < 2 ^ 64.
Proof.
  destruct f as [s|s| |s m e]; intros Hv; [by destruct s | by destruct s | done |].
  assert (0 <= sign_bits s <= 2 ^ 63) by (destruct s; unfold sign_bits; lia).
  cbn [bits_of_float]. destruct (valid_finite _ _ _ Hv) as [[Hm He]|[Hm ->]];
    destruct (Z.leb_spec (2 ^ 52) (Zpos m)); lia.
Qed.

#[export] Hint Resolve bits_of_float_range : diamond.

Example float_one_bits : bits_of_float (S754_finite false 4503599627370496 (-52)) = 0x3ff0000000000000.
Proof. reflexivity. Qed.

#[global] Opaque bits_of_float float_of_bits.
