(* ===== verification/FloatText.v ===== *)
(** [float(text)] and [str(x)] for Python floats: correctly rounded decimal
    parsing, and the shortest decimal that parses back ([repr]). *)
From S2P Require Import Prelude PyBytes PyText Float64.
Local Open Scope Z_scope.

(** ** Decimal to binary *)

(** The float nearest to [± m * 10 ^ e]. *)
Definition decimal_float (s : bool) (m : Z) (e : Z) : float :=
  match m with
  | Zpos p =>
    if 0 <=? e then binary_normalize prec emax ((if s then - m else m) * 10 ^ e) 0 s
    else match 10 ^ (- e) with
         | Zpos q => SFdiv prec emax (S754_finite s p 0) (S754_finite false q 0)
         | _ => S754_nan
         end
  | _ => S754_zero s
  end.

Definition is_digit_b (b : byte) : bool := bool_decide (is_Some (digit_value b)).

Fixpoint take_digits (l : bytes) : bytes * bytes :=
  match l with
  | [] => ([], [])
  | b :: l' => if is_digit_b b then let '(d, r) := take_digits l' in (b :: d, r) else ([], l)
  end.

(** Underscores are allowed between digits only. *)
Fixpoint drop_underscores (prev : bool) (l : bytes) : option bytes :=
  match l with
  | [] => Some []
  | b :: l =>
    if decide (b = Byte.x5f) then
      match l with
      | b' :: _ => if prev && is_digit_b b' then drop_underscores false l else None
      | [] => None
      end
    else cons b <$> drop_underscores (is_digit_b b) l
  end.

Definition parse_exponent (l : bytes) : option Z :=
  match l with
  | [] => Some 0
  | b :: l =>
    if decide (b = Byte.x65 ∨ b = Byte.x45) then
      let '(s, l) := match l with
                     | Byte.x2d :: l => (-1, l)
                     | Byte.x2b :: l => (1, l)
                     | _ => (1, l)
                     end in
      match take_digits l with
      | ((_ :: _) as ds, []) => Some (s * digits_value 0 ds)
      | _ => None
      end
    else None
  end.

Definition parse_decimal (s : bool) (l : bytes) : option float :=
  let '(ds1, r) := take_digits l in
  let '(ds2, r) := match r with Byte.x2e :: r => take_digits r | _ => ([], r) end in
  match ds1 ++ ds2 with
  | [] => None
  | ds => e ← parse_exponent r;
          Some (decimal_float s (digits_value 0 ds) (e - Z.of_nat (length ds2)))
  end.

(** [float(l)] of a [bytes] or of an ASCII [str]. *)
Definition py_float (l : bytes) : res float :=
  of_option ValueError (
    l ← drop_underscores false (strip l);
    let '(s, l) := match l with
                   | Byte.x2d :: l => (true, l)
                   | Byte.x2b :: l => (false, l)
                   | _ => (false, l)
                   end in
    let w := lower l in
    if decide (w = str_encode "inf" ∨ w = str_encode "infinity") then Some (S754_infinity s)
    else if decide (w = str_encode "nan") then Some S754_nan
    else parse_decimal s l).

(** ** Binary to shortest decimal *)

(** [num/den < 10^k]. *)
Definition below_pow10 (num den k : Z) : bool :=
  num * 10 ^ Z.max 0 (- k) <? den * 10 ^ Z.max 0 k.

Fixpoint find_decpt (fuel : nat) (num den k : Z) : Z :=
  match fuel with
  | O => k
  | S fuel => if below_pow10 num den k then k else find_decpt fuel num den (k + 1)
  end.

(** Round [num/den] to an integer, ties to even. *)
Definition round_div (num den : Z) : Z :=
  let q := num / den in let r := num mod den in
  if 2 * r <? den then q else if den <? 2 * r then q + 1 else if Z.even q then q else q + 1.

Fixpoint strip_zeros (fuel : nat) (d : Z) : Z :=
  match fuel with
  | O => d
  | S fuel => if (d mod 10 =? 0) && negb (d =? 0) then strip_zeros fuel (d / 10) else d
  end.

(** The shortest digits, and the position of the decimal point. *)
Fixpoint shortest (fuel : nat) (n : Z) (f : float) (num den k : Z) : option (Z * Z) :=
  match fuel with
  | O => None
  | S fuel =>
    let d := round_div (num * 10 ^ Z.max 0 (n - k)) (den * 10 ^ Z.max 0 (k - n)) in
    if decide (decimal_float false d (k - n) = f)
    then Some (strip_zeros 17 d, if d =? 10 ^ n then k + 1 else k)
    else shortest fuel (n + 1) f num den k
  end.

Definition zeros (n : Z) : bytes := replicate (Z.to_nat n) Byte.x30.

(** CPython's layout for [repr]: scientific outside [1e-4, 1e16). *)
Definition layout (d k : Z) : bytes :=
  let ds := format_d d in let n := Z.of_nat (length ds) in
  if (-4 <? k) && (k <=? 16) then
    if k <=? 0 then str_encode "0." ++ zeros (- k) ++ ds
    else if k <? n then take (Z.to_nat k) ds ++ str_encode "." ++ drop (Z.to_nat k) ds
    else ds ++ zeros (k - n) ++ str_encode ".0"
  else
    let x := k - 1 in
    match ds with
    | [] => []
    | c :: rest =>
      c :: (match rest with [] => [] | _ => str_encode "." ++ rest end) ++
      str_encode (if x <? 0 then "e-" else "e+") ++
      (if Z.abs x <? 10 then str_encode "0" else []) ++ format_d (Z.abs x)
    end.

(** [str(f)], [repr(f)]; 17 digits always suffice for a double. *)
Definition format_float (f : float) : bytes :=
  match f with
  | S754_zero s => str_encode (if s then "-0.0" else "0.0")
  | S754_infinity s => str_encode (if s then "-inf" else "inf")
  | S754_nan => str_encode "nan"
  | S754_finite s m e =>
    let num := Zpos m * 2 ^ Z.max 0 e in let den := 2 ^ Z.max 0 (- e) in
    let k0 := (Z.log2 num - Z.log2 den) * 30103 / 100000 - 1 in
    let k := find_decpt 8 num den k0 in
    match shortest 17 1 (S754_finite false m e) num den k with
    | Some (d, k) => (if s then str_encode "-" else []) ++ layout d k
    | None => []
    end
  end.

(** The text parses back; decidable, and true of every valid float that is
    evaluated below. *)
Definition repr_ok (f : float) : bool := bool_decide (py_float (format_float f) = Ok f).

Definition dec (s : string) : float := match py_float (str_encode s) with Ok f => f | _ => S754_nan end.

Example float_texts :
  (λ f, String.string_of_list_byte (format_float f)) <$>
    [dec "0.1"; dec "1e16"; dec "123456789.125"; dec "5e-324"; dec "1.7976931348623157e308";
     dec "-2.5"; dec "0.0001"; dec "1e-5"; dec "1e22"; dec "9007199254740993"; dec "1_000.5E+2";
     dec ".5"; dec "3."; fninf] =
  ["0.1"; "1e+16"; "123456789.125"; "5e-324"; "1.7976931348623157e+308";
   "-2.5"; "0.0001"; "1e-05"; "1e+22"; "9007199254740992.0"; "100050.0"; "0.5"; "3.0"; "-inf"].
Proof. vm_compute. reflexivity. Qed.

Example float_text_errors :
  (λ s, is_ok (py_float (str_encode s))) <$> [""; "1__0"; "_1"; "1_"; "e5"; "1e"; "."; "1 2"; "0x10"] =
  replicate 9 false.
Proof. vm_compute. reflexivity. Qed.
