(* ===== verification/Xdr.v ===== *)
(** The XDR layer (src/opendiamond/xdr.py): Python values, the type handlers
    built by the [XDR] factory, [XDRStruct] encoding and decoding.  The
    [Packer]/[Unpacker] of the standard [xdrlib] are modelled with it. *)
From S2P Require Import Prelude Dict PyBytes Float64.
Local Open Scope Z_scope.

(** ** Values and types *)

(** The Python values that cross the XDR layer.  A [VObj] is an instance of an
    [XDRStruct] subclass: its class name and its attributes in member order. *)
Inductive pyval : Type :=
  | VNone
  | VBool (b : bool)
  | VInt (z : Z)
  | VFloat (f : float)
  | VBytes (b : bytes)
  | VStr (s : string)
  | VList (l : list pyval)
  | VObj (cls : string) (attrs : list (string * pyval)).

Fixpoint pyval_eq_dec (x y : pyval) {struct x} : {x = y} + {x ≠ y}.
Proof.
  decide equality; try apply decide; try apply _.
  - apply (list_eq_dec (dec := pyval_eq_dec)).
  - refine (list_eq_dec (dec := _) attrs attrs0). intros [k v] [k' v'].
    destruct (decide (k = k')) as [->|]; [|right; congruence].
    destruct (pyval_eq_dec v v') as [->|]; [left; done | right; congruence].
Defined.
#[global] Instance pyval_EqDecision : EqDecision pyval := pyval_eq_dec.

(** The handler tree that a [members] declaration denotes: what
    [XDR.int()], [XDR.array(...)] and the other factories return. *)
Inductive xdr_type : Type :=
  | TInt | TUint | THyper | TDouble | TString | TOpaque
  | TFopaque (length : Z)
  | TArray (item : xdr_type)
  | TOptional (item : xdr_type)
  | TConstant (item : xdr_type) (value : pyval)
  | TStruct (cls : string) (members : list (option string * xdr_type)).

Abbreviation members_t := (list (option string * xdr_type)).

Section xdr_type_ind.
Variable P : xdr_type → Prop.
Hypothesis Hint : P TInt.
Hypothesis Huint : P TUint.
Hypothesis Hhyper : P THyper.
Hypothesis Hdouble : P TDouble.
Hypothesis Hstring : P TString.
Hypothesis Hopaque : P TOpaque.
Hypothesis Hfopaque : ∀ n, P (TFopaque n).
Hypothesis Harray : ∀ t, P t → P (TArray t).
Hypothesis Hoptional : ∀ t, P t → P (TOptional t).
Hypothesis Hconstant : ∀ t v, P t → P (TConstant t v).
Hypothesis Hstruct : ∀ c ms, Forall (λ m, P m.2) ms → P (TStruct c ms).

Fixpoint xdr_type_ind' (t : xdr_type) : P t :=
match t with
| TInt => Hint | TUint => Huint | THyper => Hhyper | TDouble => Hdouble
| TString => Hstring | TOpaque => Hopaque
| TFopaque n => Hfopaque n
| TArray t => Harray t (xdr_type_ind' t)
| TOptional t => Hoptional t (xdr_type_ind' t)
| TConstant t v => Hconstant t v (xdr_type_ind' t)
| TStruct c ms => Hstruct c ms
((fix go ms : Forall (λ m, P m.2) ms :=
match ms with
| [] => Forall_nil_2 _
| m :: ms => Forall_cons_2 _ m ms (xdr_type_ind' m.2) (go ms)
end) ms)
end.
End xdr_type_ind.

(** ** xdrlib.Packer: each method gives the bytes it appends to the buffer *)
Module Packer.
(** [struct.pack] takes any object with an integer value, [bool] included. *)
Definition as_int (v : pyval) : res Z :=
match v with VInt z => Ok z | VBool b => Ok (if b then 1 else 0) | _ => Raise XDRError end.

Definition pack_uint_Z (z : Z) : res bytes :=
if in_u 32 z then Ok (be_split 4 z) else Raise XDRError.
Definition pack_uint (v : pyval) : res bytes := z ← as_int v; pack_uint_Z z.
Definition pack_int (v : pyval) : res bytes :=
z ← as_int v; if in_s 32 z then Ok (be_split 4 z) else Raise XDRError.
Definition pack_bool (b : bool) : bytes := be_split 4 (if b then 1 else 0).
(** [pack_hyper] is [pack_uhyper]: two unsigned words, masked. *)
Definition pack_hyper (v : pyval) : res bytes :=
z ← as_int v;
hi ← pack_uint_Z (Z.land (Z.shiftr z 32) 0xffffffff);
lo ← pack_uint_Z (Z.land z 0xffffffff);
Ok (hi ++ lo).
Definition pack_double (v : pyval) : res bytes :=
f ← match v with VFloat f => Ok f | _ => z ← as_int v; float_of_int z end;
Ok (be_split 8 (bits_of_float f)).
(** Pad to a multiple of four. *)
Definition padding (n : Z) : Z := (n + 3) / 4 * 4 - n.
Definition pack_fopaque (n : Z) (v : pyval) : res bytes :=
if n <? 0 then Raise ValueError else
match v with
| VBytes b =>
let data := take (Z.to_nat n) b in
Ok (data ++ replicate (Z.to_nat ((n + 3) / 4 * 4 - Z.of_nat (length data))) Byte.x00)
| _ => Raise TypeError
end.
Definition pack_opaque (v : pyval) : res bytes :=
match v with
| VBytes b =>
n ← pack_uint_Z (Z.of_nat (length b));
d ← pack_fopaque (Z.of_nat (length b)) (VBytes b);
Ok (n ++ d)
| _ => Raise TypeError
end.
End Packer.

(** ** xdrlib.Unpacker: a method maps the unread input to a value and the rest *)
Module Unpacker.
Definition parser (A : Type) := bytes → res (A * bytes).

Definition take_bytes (n : nat) : parser bytes := λ buf,
if decide (length buf < n)%nat then Raise EOFError else Ok (take n buf, drop n buf).
Definition unpack_uint : parser Z := λ buf,
'(d, buf) ← take_bytes 4 buf; Ok (be_combine d, buf).
Definition unpack_int : parser Z := λ buf,
'(d, buf) ← take_bytes 4 buf; Ok (wrap_s 32 (be_combine d), buf).
Definition unpack_bool : parser bool := λ buf,
'(z, buf) ← unpack_int buf; Ok (negb (z =? 0), buf).
Definition unpack_hyper : parser Z := λ buf,
'(hi, buf) ← unpack_uint buf;
'(lo, buf) ← unpack_uint buf;
let x := Z.lor (Z.shiftl hi 32) lo in
Ok (if x >=? 2 ^ 63 then x - 2 ^ 64 else x, buf).
Definition unpack_double : parser float := λ buf,
'(d, buf) ← take_bytes 8 buf; Ok (float_of_bits (be_combine d), buf).
Definition unpack_fopaque (n : Z) : parser bytes := λ buf,
if n <? 0 then Raise ValueError else
'(d, buf) ← take_bytes (Z.to_nat ((n + 3) / 4 * 4)) buf; Ok (take (Z.to_nat n) d, buf).
Definition unpack_opaque : parser bytes := λ buf,
'(n, buf) ← unpack_uint buf; unpack_fopaque n buf.
Fixpoint unpack_farray {A} (n : nat) (item : parser A) : parser (list A) := λ buf,
match n with
| O => Ok ([], buf)
| S n => '(a, buf) ← item buf; '(l, buf) ← unpack_farray n item buf; Ok (a :: l, buf)
end.
Definition unpack_array {A} (item : parser A) : parser (list A) := λ buf,
'(n, buf) ← unpack_uint buf; unpack_farray (Z.to_nat n) item buf.
Definition done {A} (r : A * bytes) : res A :=
match r with (a, []) => Ok a | _ => Raise XDRError end.
End Unpacker.

#[global] Arguments Packer.pack_uint_Z : simpl never.
#[global] Arguments Packer.pack_fopaque : simpl never.
#[global] Arguments Packer.pack_bool : simpl never.
#[global] Arguments Unpacker.take_bytes : simpl never.
#[global] Arguments Unpacker.unpack_uint : simpl never.
#[global] Arguments Unpacker.unpack_int : simpl never.
#[global] Arguments Unpacker.unpack_bool : simpl never.
#[global] Arguments Unpacker.unpack_fopaque : simpl never.

(** ** XDRStruct objects *)

(** [attrs = [a for a, _h in self._members() if a is not None]] *)
Definition member_names (ms : members_t) : list string := omap fst ms.

(** [XDRStruct.__init__]: every attribute starts as [None], then the positional
    arguments are zipped on, then the keyword arguments. *)
Definition XDRStruct_init (cls : string) (ms : members_t) (args : list pyval)
    (kwargs : list (string * pyval)) : res pyval :=
  let attrs := member_names ms in
  let init := foldl (λ l a, dict_set l a VNone) [] attrs in
  let pos := foldl (λ l p, dict_set l p.1 p.2) init (zip attrs args) in
  kw ← foldl (λ acc p, l ← acc;
                if decide (p.1 ∈ attrs) then Ok (dict_set l p.1 p.2) else Raise TypeError)
             (Ok pos) kwargs;
  Ok (VObj cls kw).

(** [getattr(self, attr)] *)
Definition getattr (v : pyval) (attr : string) : res pyval :=
  match v with
  | VObj _ attrs => of_option AttributeError (dict_get attrs attr)
  | _ => Raise AttributeError
  end.

(** The characters of a [str], each as its own string: a new one starts at
    every byte that is not a continuation byte. *)
Fixpoint utf8_chars (l : bytes) : list bytes :=
  match l with
  | [] => []
  | b :: l =>
    match utf8_chars l with
    | (b' :: c) :: cs => if cont b' then (b :: b' :: c) :: cs else [b] :: (b' :: c) :: cs
    | cs => [b] :: cs
    end
  end.

(** [len(val)] and [for item in val], for the values that support both. *)
Definition iter_items (v : pyval) : res (list pyval) :=
  match v with
  | VList l => Ok l
  | VBytes b => Ok ((λ b, VInt (byte_Z b)) <$> b)
  | VStr s => Ok ((λ c, VStr (String.string_of_list_byte c)) <$> utf8_chars (str_encode s))
  | _ => Raise TypeError
  end.

(** [except Exception as e: raise XDREncodingError(...) from e] *)
Definition wrap_encoding_error {A} (m : res A) : res A :=
  try_except m (λ _, true) (λ _, Raise XDREncodingError).

(** The loop of [XDRStruct.encode_xdr], given the handlers' [pack]. *)
Definition encode_members (pk : xdr_type → pyval → res bytes) (self : pyval) :
    members_t → res bytes :=
  fix go ms :=
    match ms with
    | [] => Ok []
    | (attr, h) :: ms =>
      value ← match attr with Some a => getattr self a | None => Ok VNone end;
      d ← wrap_encoding_error (pk h value);
      ds ← go ms;
      Ok (d ++ ds)
    end.

(** The loop of [XDRStruct.decode_xdr]: the keyword arguments it collects. *)
Definition decode_members (upk : xdr_type → Unpacker.parser pyval) :
    members_t → Unpacker.parser (list (string * pyval)) :=
  fix go ms buf :=
    match ms with
    | [] => Ok ([], buf)
    | (attr, h) :: ms =>
      '(value, buf) ← upk h buf;
      '(kwargs, buf) ← go ms buf;
      Ok (match attr with Some a => (a, value) :: kwargs | None => kwargs end, buf)
    end.

(** ** handler.pack *)
Fixpoint pack (t : xdr_type) (v : pyval) {struct t} : res bytes :=
  match t with
  | TInt => Packer.pack_int v
  | TUint => Packer.pack_uint v
  | THyper => Packer.pack_hyper v
  | TDouble => Packer.pack_double v
  | TOpaque => Packer.pack_opaque v
  | TString =>
    match v with VStr s => Packer.pack_opaque (VBytes (str_encode s)) | _ => Raise AttributeError end
  | TFopaque n =>
    items ← iter_items v;
    if Z.of_nat (length items) =? n then Packer.pack_fopaque n v else Raise XDREncodingError
  | TArray t =>
    items ← iter_items v;
    n ← Packer.pack_uint_Z (Z.of_nat (length items));
    ds ← mapM_res (pack t) items;
    Ok (n ++ mjoin ds)
  | TOptional t =>
    match v with
    | VNone => Ok (Packer.pack_bool false)
    | _ => d ← pack t v; Ok (Packer.pack_bool true ++ d)
    end
  | TConstant t value => pack t value
  | TStruct cls ms =>
    match v with
    | VObj cls' _ =>
      if decide (cls' = cls) then encode_members pack v ms
      else Raise XDREncodingError
    | _ => Raise XDREncodingError
    end
  end.

(** [XDRStruct.encode_xdr] *)
Definition encode_xdr (ms : members_t) (self : pyval) : res bytes :=
  encode_members pack self ms.

(** ** handler.unpack *)
Fixpoint unpack (t : xdr_type) : Unpacker.parser pyval :=
  match t with
  | TInt => λ buf, '(z, buf) ← Unpacker.unpack_int buf; Ok (VInt z, buf)
  | TUint => λ buf, '(z, buf) ← Unpacker.unpack_uint buf; Ok (VInt z, buf)
  | THyper => λ buf, '(z, buf) ← Unpacker.unpack_hyper buf; Ok (VInt z, buf)
  | TDouble => λ buf, '(f, buf) ← Unpacker.unpack_double buf; Ok (VFloat f, buf)
  | TOpaque => λ buf, '(b, buf) ← Unpacker.unpack_opaque buf; Ok (VBytes b, buf)
  | TString => λ buf,
    '(b, buf) ← Unpacker.unpack_opaque buf; s ← bytes_decode b; Ok (VStr s, buf)
  | TFopaque n => λ buf,
    '(b, buf) ← Unpacker.unpack_fopaque n buf;
    if Z.of_nat (length b) =? n then Ok (VBytes b, buf) else Raise XDREncodingError
  | TArray t => λ buf, '(l, buf) ← Unpacker.unpack_array (unpack t) buf; Ok (VList l, buf)
  | TOptional t => λ buf,
    '(b, buf) ← Unpacker.unpack_bool buf;
    if (b : bool) then unpack t buf else Ok (VNone, buf)
  | TConstant t value => λ buf, '(_, buf) ← unpack t buf; Ok (value, buf)
  | TStruct cls ms => λ buf,
    '(kwargs, buf) ← decode_members unpack ms buf;
    self ← XDRStruct_init cls ms [] kwargs;
    Ok (self, buf)
  end.

(** [XDRStruct.decode_xdr] *)
Definition decode_xdr (cls : string) (ms : members_t) : Unpacker.parser pyval := λ buf,
  '(kwargs, buf) ← decode_members unpack ms buf;
  self ← XDRStruct_init cls ms [] kwargs;
  Ok (self, buf).

Lemma pack_struct cls ms v :
  pack (TStruct cls ms) v =
    match v with
    | VObj cls' _ => if decide (cls' = cls) then encode_xdr ms v else Raise XDREncodingError
    | _ => Raise XDREncodingError
    end.
Proof. reflexivity. Qed.

Lemma unpack_struct cls ms : unpack (TStruct cls ms) = decode_xdr cls ms.
Proof. reflexivity. Qed.

(** ** Whole messages *)

(** [_convert_exceptions.__exit__]: membership of [type] in the tuple is
    equality of classes, so subclasses are not converted. *)
Definition convert_exceptions {A} (m : res A) : res A :=
  try_except m
    (λ e, bool_decide (e = XDRError ∨ e = ValueError ∨ e = StructError))
    (λ _, Raise XDREncodingError).

(** A message class: [class cls(XDRStruct): members = ms]. *)
Record xdr_class := XdrClass { xc_name : string; xc_members : members_t }.
Definition TClass (c : xdr_class) : xdr_type := TStruct (xc_name c) (xc_members c).

Definition encode (c : xdr_class) (self : pyval) : res bytes :=
  convert_exceptions (encode_xdr (xc_members c) self).

Definition decode (c : xdr_class) (data : bytes) : res pyval :=
  convert_exceptions (r ← decode_xdr (xc_name c) (xc_members c) data; Unpacker.done r).

(** ** Well-formed types and values *)

(** The value that a nameless member stands for. *)
Definition filler (t : xdr_type) : pyval :=
  match t with TConstant _ value => value | _ => VNone end.

Definition wf_members (wf : xdr_type → pyval → bool) :
    members_t → list (string * pyval) → bool :=
  fix go ms attrs :=
    match ms, attrs with
    | [], [] => true
    | (Some a, h) :: ms, (a', v) :: attrs => bool_decide (a = a') && wf h v && go ms attrs
    | (None, h) :: ms, attrs => wf h (filler h) && go ms attrs
    | _, _ => false
    end.

(** [v] is in the range of type [t]: integers fit their width, a length fits in
    32 bits, text is UTF-8, a struct has exactly its members. *)
Fixpoint wf_val (t : xdr_type) (v : pyval) {struct t} : bool :=
  match t, v with
  | TInt, VInt z => in_s 32 z
  | TUint, VInt z => in_u 32 z
  | THyper, VInt z => in_s 64 z
  | TDouble, VFloat f => float_valid f
  | TString, VStr s => is_str s && in_u 32 (Z.of_nat (length (str_encode s)))
  | TOpaque, VBytes b => in_u 32 (Z.of_nat (length b))
  | TFopaque n, VBytes b => Z.of_nat (length b) =? n
  | TArray t, VList l => in_u 32 (Z.of_nat (length l)) && forallb (wf_val t) l
  | TOptional t, v => bool_decide (v = VNone) || wf_val t v
  | TConstant t value, v => bool_decide (v = value) && wf_val t value
  | TStruct cls ms, VObj cls' attrs =>
    bool_decide (cls' = cls) && wf_members wf_val ms attrs
  | _, _ => false
  end.

Definition wf_member_types (wf : xdr_type → bool) : members_t → bool :=
  fix go ms := match ms with [] => true | (_, h) :: ms => wf h && go ms end.

(** No struct declares an attribute twice, and no optional item can itself be
    [None] (XDR cannot tell the two apart). *)
Fixpoint wf_type (t : xdr_type) : bool :=
  match t with
  | TArray t => wf_type t
  | TOptional t => negb (wf_val t VNone) && wf_type t
  | TConstant t _ => wf_type t
  | TStruct _ ms => bool_decide (NoDup (member_names ms)) && wf_member_types wf_type ms
  | _ => true
  end.

(** ** Primitive round trips *)
Lemma take_bytes_app n b rest :
  length b = n → Unpacker.take_bytes n (b ++ rest) = Ok (b, rest).
Proof.
  intros <-. unfold Unpacker.take_bytes. rewrite decide_False by (rewrite length_app; lia).
  by rewrite take_app_length, drop_app_length.
Qed.

Lemma unpack_uint_app z rest :
  in_u 32 z = true → Unpacker.unpack_uint (be_split 4 z ++ rest) = Ok (z, rest).
Proof.
  rewrite in_u_spec. intros Hz. unfold Unpacker.unpack_uint.
  rewrite take_bytes_app by apply length_be_split. simpl.
  by rewrite be_combine_split, Z.mod_small.
Qed.

Lemma unpack_int_app z rest :
  in_s 32 z = true → Unpacker.unpack_int (be_split 4 z ++ rest) = Ok (z, rest).
Proof.
  rewrite in_s_spec. intros Hz. unfold Unpacker.unpack_int.
  rewrite take_bytes_app by apply length_be_split. simpl.
  rewrite be_combine_split. change (256 ^ Z.of_nat 4) with (2 ^ 32).
  by rewrite wrap_s_mod, wrap_s_id.
Qed.

Lemma unpack_bool_app b rest :
  Unpacker.unpack_bool (Packer.pack_bool b ++ rest) = Ok (b, rest).
Proof.
  unfold Unpacker.unpack_bool, Packer.pack_bool.
  rewrite unpack_int_app by (by destruct b; vm_compute). by destruct b.
Qed.

Lemma pack_uint_Z_Ok z : in_u 32 z = true → Packer.pack_uint_Z z = Ok (be_split 4 z).
Proof. unfold Packer.pack_uint_Z. by intros ->. Qed.

Lemma land_ffffffff z : Z.land z 0xffffffff = z mod 2 ^ 32.
Proof. change 0xffffffff with (Z.ones 32). by rewrite Z.land_ones. Qed.

(** [pack_hyper] never fails on an integer: it keeps the low 64 bits. *)
Lemma pack_unpack_hyper z rest :
  ∃ bs, Packer.pack_hyper (VInt z) = Ok bs ∧
    Unpacker.unpack_hyper (bs ++ rest) = Ok (wrap_s 64 z, rest).
Proof.
  assert (Hhi : in_u 32 (Z.land (Z.shiftr z 32) 0xffffffff) = true).
  { rewrite land_ffffffff, in_u_spec. apply Z.mod_pos_bound. lia. }
  assert (Hlo : in_u 32 (Z.land z 0xffffffff) = true).
  { rewrite land_ffffffff, in_u_spec. apply Z.mod_pos_bound. lia. }
  unfold Packer.pack_hyper. cbn -[Packer.pack_uint_Z Z.land Z.shiftr].
  rewrite !pack_uint_Z_Ok by done. eexists; split; [done|].
  unfold Unpacker.unpack_hyper. rewrite <-app_assoc, unpack_uint_app by done.
  cbn -[Unpacker.unpack_uint Z.land Z.shiftr Z.shiftl Z.lor Z.geb be_split].
  rewrite unpack_uint_app by done.
  cbn -[Z.land Z.shiftr Z.shiftl Z.lor Z.geb Z.pow].
  assert (E : Z.lor (Z.shiftl (Z.land (Z.shiftr z 32) 0xffffffff) 32) (Z.land z 0xffffffff)
              = z mod 2 ^ 64).
  { rewrite <-Z.land_ones by lia. change 0xffffffff with (Z.ones 32).
    apply Z.bits_inj'. intros n Hn.
    rewrite Z.lor_spec, Z.shiftl_spec by lia. rewrite !Z.land_spec, !Z.testbit_ones by lia.
    destruct (decide (n < 32)) as [Hn'|Hn'].
    - rewrite Z.testbit_neg_r by lia. 
      destruct (Z.leb_spec 0 n), (Z.ltb_spec n 32), (Z.ltb_spec n 64); try lia.
      by destruct (Z.testbit z n).
    - rewrite Z.shiftr_spec by lia. replace (n - 32 + 32) with n by lia.
      destruct (Z.leb_spec 0 (n - 32)), (Z.ltb_spec (n - 32) 32), (Z.leb_spec 0 n),
        (Z.ltb_spec n 32), (Z.ltb_spec n 64); try lia; by destruct (Z.testbit z n). }
  rewrite E. done.
Qed.

Lemma unpack_double_app f rest :
  float_valid f = true →
  Unpacker.unpack_double (be_split 8 (bits_of_float f) ++ rest) = Ok (f, rest).
Proof.
  intros Hf. unfold Unpacker.unpack_double.
  rewrite take_bytes_app by apply length_be_split.
  simpl.
  rewrite be_combine_split, Z.mod_small by (by apply bits_of_float_range).
  by rewrite float_bits_roundtrip.
Qed.

Lemma pad4 n : 0 <= n → n <= (n + 3) / 4 * 4 < n + 4.
Proof. intros. pose proof (Z_div_mod_eq_full (n + 3) 4). pose proof (Z.mod_pos_bound (n + 3) 4). lia. Qed.

Lemma pack_unpack_fopaque n b rest :
  Z.of_nat (length b) = n →
  ∃ bs, Packer.pack_fopaque n (VBytes b) = Ok bs ∧
    Unpacker.unpack_fopaque n (bs ++ rest) = Ok (b, rest).
Proof.
  intros <-. unfold Packer.pack_fopaque, Unpacker.unpack_fopaque.
  destruct (Z.ltb_spec (Z.of_nat (length b)) 0); [lia|].
  rewrite Nat2Z.id, firstn_all. eexists; split; [done|].
  pose proof (pad4 (Z.of_nat (length b))).
  rewrite take_bytes_app by (rewrite length_app, length_replicate; lia).
  simpl. by rewrite take_app_length.
Qed.

Lemma pack_unpack_opaque b rest :
  in_u 32 (Z.of_nat (length b)) = true →
  ∃ bs, Packer.pack_opaque (VBytes b) = Ok bs ∧
    Unpacker.unpack_opaque (bs ++ rest) = Ok (b, rest).
Proof.
  intros Hb. unfold Packer.pack_opaque, Unpacker.unpack_opaque.
  destruct (pack_unpack_fopaque _ b rest eq_refl) as (bs & E & E').
  rewrite pack_uint_Z_Ok by done. simpl. rewrite E. simpl.
  eexists; split; [done|]. rewrite <-app_assoc, unpack_uint_app by done. exact E'.
Qed.

(** ** Struct objects *)
Lemma init_attrs (names : list string) (acc : dict string pyval) :
  NoDup (acc.*1 ++ names) →
  foldl (λ l a, dict_set l a VNone) acc names = acc ++ ((λ a, (a, VNone)) <$> names).
Proof.
  revert acc. induction names as [|a names IH]; intros acc Hnd; simpl; [by rewrite app_nil_r|].
  apply NoDup_app in Hnd as H'. destruct H' as (_ & Hd & Hn).
  rewrite dict_set_fresh by (intros Hin; apply (Hd a Hin); set_solver).
  rewrite IH; [by rewrite <-app_assoc|]. by rewrite fmap_app, <-app_assoc.
Qed.

(** Setting every attribute by keyword gives exactly the keyword list. *)
Lemma XDRStruct_init_kwargs cls ms kwargs :
  NoDup (member_names ms) → kwargs.*1 = member_names ms →
  XDRStruct_init cls ms [] kwargs = Ok (VObj cls kwargs).
Proof.
  intros Hnd Hk. unfold XDRStruct_init. rewrite init_attrs by done. simpl.
  assert (G : ∀ done todo, NoDup (done.*1 ++ todo.*1) →
    (∀ k, k ∈ todo.*1 → k ∈ member_names ms) →
    foldl (λ acc p, l ← acc;
        if decide (p.1 ∈ member_names ms) then Ok (dict_set l p.1 p.2) else Raise TypeError)
      (Ok (done ++ ((λ a, (a, VNone)) <$> todo.*1))) todo = Ok (done ++ todo)).
  { intros done todo. revert done. induction todo as [|[k v] todo IH]; intros done Hn Hin; simpl.
    { by rewrite app_nil_r. }
    rewrite decide_True by (apply Hin; set_solver).
    apply NoDup_app in Hn as H'. destruct H' as (_ & Hd & _).
    rewrite dict_set_app by (intros ?; eapply Hd; [done | set_solver]).
    specialize (IH (done ++ [(k, v)])). rewrite <-!app_assoc in IH. apply IH.
    - by rewrite fmap_app, <-app_assoc.
    - set_solver. }
  replace (zip (member_names ms) (@nil pyval)) with (@nil (string * pyval))
    by (by destruct (member_names ms)).
  pose proof (G [] kwargs) as G'. rewrite Hk in G'. simpl in G' |- *.
  rewrite G'; [done | done | by intros].
Qed.

Lemma wf_members_names wf ms attrs :
  wf_members wf ms attrs = true → attrs.*1 = member_names ms.
Proof.
  revert attrs. induction ms as [|[[a|] h] ms IH]; intros [|[a' v] attrs]; simpl; try done.
  - intros [[->%bool_decide_eq_true _]%andb_true_iff H]%andb_true_iff.
    unfold member_names in *. simpl. f_equal. by apply IH.
  - intros [_ H]%andb_true_iff. unfold member_names in *. simpl. by apply (IH []).
  - intros [_ H]%andb_true_iff. unfold member_names in *. simpl. by apply (IH ((a', v) :: attrs)).
Qed.

Lemma pack_filler t : pack t VNone = pack t (filler t).
Proof. by destruct t. Qed.

(** ** The codec round trip *)
Definition roundtrips (t : xdr_type) : Prop :=
  wf_type t = true → ∀ v rest, wf_val t v = true →
  ∃ bs, pack t v = Ok bs ∧ unpack t (bs ++ rest) = Ok (v, rest).

Lemma members_roundtrip cls ms : Forall (λ m, roundtrips m.2) ms →
  wf_member_types wf_type ms = true →
  ∀ pre attrs rest, NoDup ((pre ++ attrs).*1) → wf_members wf_val ms attrs = true →
  ∃ bs, encode_members pack (VObj cls (pre ++ attrs)) ms = Ok bs ∧
    decode_members unpack ms (bs ++ rest) = Ok (attrs, rest).
Proof.
  induction 1 as [|[o h] ms Hh Hms IH]; intros Hwt pre attrs rest Hnd Hwf.
  { destruct attrs; [|done]. eexists; split; [done|]. done. }
  simpl in Hwt. apply andb_true_iff in Hwt as [Hwt1 Hwt2]. simpl in Hh.
  destruct o as [a|].
  - destruct attrs as [|[a' v] attrs]; [done|]. simpl in Hwf.
    apply andb_true_iff in Hwf as [[->%bool_decide_eq_true Hv]%andb_true_iff Hwf].
    destruct (IH Hwt2 (pre ++ [(a', v)]) attrs rest) as (ds & Hds & Hds'); [|done|].
    { by rewrite <-app_assoc. }
    rewrite <-app_assoc in Hds. simpl in Hds.
    destruct (Hh Hwt1 v (ds ++ rest) Hv) as (d & Hd & Hd').
    exists (d ++ ds). simpl. rewrite dict_get_app; simpl.
    2:{ rewrite fmap_app, NoDup_app in Hnd. set_solver. }
    rewrite Hd. simpl. rewrite Hds. simpl. split; [done|].
    rewrite <-app_assoc, Hd'. simpl. by rewrite Hds'.
  - assert (wf_val h (filler h) && wf_members wf_val ms attrs = true) as
      [Hv Hwf']%andb_true_iff by (by destruct attrs as [|[]]).
    destruct (IH Hwt2 pre attrs rest) as (ds & Hds & Hds'); [done..|].
    destruct (Hh Hwt1 _ (ds ++ rest) Hv) as (d & Hd & Hd').
    exists (d ++ ds). simpl. rewrite pack_filler, Hd. simpl. rewrite Hds. simpl. split; [done|].
    rewrite <-app_assoc, Hd'. simpl. by rewrite Hds'.
Qed.

Lemma farray_roundtrip t : roundtrips t → wf_type t = true →
  ∀ l rest, forallb (wf_val t) l = true →
  ∃ ds, mapM_res (pack t) l = Ok ds ∧
    Unpacker.unpack_farray (length l) (unpack t) (mjoin ds ++ rest) = Ok (l, rest).
Proof.
  intros Ht Hwt l rest. induction l as [|v l IH]; simpl.
  { intros _. by exists []. }
  intros [Hv Hl]%andb_true_iff. destruct (IH Hl) as (ds & Hds & Hds').
  destruct (Ht Hwt v (mjoin ds ++ rest) Hv) as (d & Hd & Hd').
  exists (d :: ds). rewrite Hd. simpl. rewrite Hds. split; [done|].
  simpl. rewrite <-app_assoc, Hd'. simpl. by rewrite Hds'.
Qed.

Lemma pack_roundtrip t : roundtrips t.
Proof.
  induction t as [| | | | | |n|t IH|t IH|t value IH|cls ms IH] using xdr_type_ind';
    intros Hwt v rest Hv; simpl in Hwt.
  - destruct v; try done. simpl in *. unfold Packer.pack_int. simpl. rewrite Hv. eexists; split; [done|].
    by rewrite unpack_int_app.
  - destruct v; try done. simpl in *. unfold Packer.pack_uint. simpl.
    rewrite pack_uint_Z_Ok by done. eexists; split; [done|]. by rewrite unpack_uint_app.
  - destruct v; try done. destruct (pack_unpack_hyper z rest) as (bs & E & E').
    exists bs. split; [done|]. simpl. rewrite E'. simpl.
    simpl in Hv. rewrite in_s_spec in Hv. by rewrite wrap_s_id.
  - destruct v; try done. eexists; split; [done|]. simpl. by rewrite unpack_double_app.
  - destruct v; try done. simpl in Hv. apply andb_true_iff in Hv as [Hs Hl].
    destruct (pack_unpack_opaque _ rest Hl) as (bs & E & E').
    exists bs. split; [done|]. simpl. rewrite E'. simpl. by rewrite bytes_decode_encode.
  - destruct v; try done. destruct (pack_unpack_opaque _ rest Hv) as (bs & E & E').
    exists bs. split; [done|]. simpl. by rewrite E'.
  - destruct v; try done. simpl in Hv. apply Z.eqb_eq in Hv as Hn.
    destruct (pack_unpack_fopaque _ b rest Hn) as (bs & E & E').
    exists bs. simpl. rewrite length_fmap, Hv. split; [done|]. rewrite E'. simpl. by rewrite Hv.
  - destruct v; try done. simpl in Hv. apply andb_true_iff in Hv as [Hl Hv].
    destruct (farray_roundtrip t IH Hwt l rest Hv) as (ds & E & E').
    simpl. rewrite pack_uint_Z_Ok by done. simpl. rewrite E. simpl. eexists; split; [done|].
    unfold Unpacker.unpack_array. rewrite <-app_assoc, unpack_uint_app by done. simpl.
    by rewrite Nat2Z.id, E'.
  - apply andb_true_iff in Hwt as [Hnone%negb_true_iff Hwt].
    destruct (decide (v = VNone)) as [->|Hne].
    + eexists; split; [done|]. simpl. by rewrite unpack_bool_app.
    + simpl in Hv. rewrite bool_decide_eq_false_2 in Hv by done.
      destruct (IH Hwt v rest Hv) as (bs & E & E').
      exists (Packer.pack_bool true ++ bs). split.
      * simpl. rewrite E. by destruct v.
      * simpl. rewrite <-app_assoc, unpack_bool_app. done.
  - simpl in Hv. apply andb_true_iff in Hv as [->%bool_decide_eq_true Hv].
    destruct (IH Hwt value rest Hv) as (bs & E & E').
    exists bs. split; [done|]. simpl. by rewrite E'.
  - destruct v as [| | | | | | |cls' attrs]; try done. simpl in Hv.
    apply andb_true_iff in Hv as [->%bool_decide_eq_true Hv].
    apply andb_true_iff in Hwt as [Hnd%bool_decide_eq_true Hwt].
    pose proof (wf_members_names _ _ _ Hv) as Hnames.
    destruct (members_roundtrip cls ms IH Hwt [] attrs rest) as (bs & E & E'); [|done|].
    { simpl. by rewrite Hnames. }
    exists bs. simpl in *. rewrite decide_True by done. split; [done|].
    rewrite E'. simpl. by rewrite XDRStruct_init_kwargs.
Qed.

(** [XDRStruct.decode] inverts [XDRStruct.encode] on values in range. *)
Lemma encode_decode c self :
  wf_type (TClass c) = true → wf_val (TClass c) self = true →
  ∃ data, encode c self = Ok data ∧ decode c data = Ok self.
Proof.
  intros Hwt Hwf. destruct (pack_roundtrip (TClass c) Hwt self [] Hwf) as (bs & E & E').
  unfold TClass in *. rewrite pack_struct in E. rewrite unpack_struct, app_nil_r in E'.
  exists bs. destruct self; try done. case_decide; [|done].
  unfold encode, decode. rewrite E, E'. done.
Qed.

(** ** Errors and alignment *)

(** What [unpack] can raise: end of input, malformed text, a bad length. *)
Definition unpack_exn (e : exn) : Prop :=
  e = EOFError ∨ e = UnicodeDecodeError ∨ e = ValueError ∨ e = XDREncodingError.

Definition raises_only {A} (P : exn → Prop) (m : res A) : Prop := ∀ e, m = Raise e → P e.

Lemma raises_Ok {A} P (a : A) : raises_only P (Ok a).
Proof. by intros e ?. Qed.
Lemma raises_Raise {A} (P : exn → Prop) e : P e → raises_only P (@Raise A e).
Proof. by intros HP e' [= <-]. Qed.
Lemma raises_bind {A B} P (m : res A) (f : A → res B) :
  raises_only P m → (∀ a, m = Ok a → raises_only P (f a)) → raises_only P (m ≫= f).
Proof. intros Hm Hf e [He|(a & Ha & He)]%bind_Raise; [by apply Hm | by eapply Hf]. Qed.
#[export] Hint Resolve raises_Ok raises_Raise : diamond.

Lemma take_bytes_raises n buf : raises_only unpack_exn (Unpacker.take_bytes n buf).
Proof. unfold Unpacker.take_bytes, unpack_exn. case_decide; auto with diamond. Qed.
Lemma unpack_uint_raises buf : raises_only unpack_exn (Unpacker.unpack_uint buf).
Proof. apply raises_bind; [apply take_bytes_raises | intros []; auto with diamond]. Qed.
Lemma unpack_int_raises buf : raises_only unpack_exn (Unpacker.unpack_int buf).
Proof. apply raises_bind; [apply take_bytes_raises | intros []; auto with diamond]. Qed.
Lemma unpack_bool_raises buf : raises_only unpack_exn (Unpacker.unpack_bool buf).
Proof. apply raises_bind; [apply unpack_int_raises | intros []; auto with diamond]. Qed.
Lemma unpack_fopaque_raises n buf : raises_only unpack_exn (Unpacker.unpack_fopaque n buf).
Proof.
  unfold Unpacker.unpack_fopaque. case_match; [apply raises_Raise; unfold unpack_exn; auto|].
  apply raises_bind; [apply take_bytes_raises | intros []; auto with diamond].
Qed.
Lemma unpack_opaque_raises buf : raises_only unpack_exn (Unpacker.unpack_opaque buf).
Proof. apply raises_bind; [apply unpack_uint_raises | intros [] _; apply unpack_fopaque_raises]. Qed.
Lemma unpack_hyper_raises buf : raises_only unpack_exn (Unpacker.unpack_hyper buf).
Proof.
  apply raises_bind; [apply unpack_uint_raises|]. intros [] _.
  apply raises_bind; [apply unpack_uint_raises | intros []; auto with diamond].
Qed.
Lemma unpack_double_raises buf : raises_only unpack_exn (Unpacker.unpack_double buf).
Proof. apply raises_bind; [apply take_bytes_raises | intros []; auto with diamond]. Qed.
Lemma unpack_farray_raises {A} (item : Unpacker.parser A) n buf :
  (∀ buf, raises_only unpack_exn (item buf)) →
  raises_only unpack_exn (Unpacker.unpack_farray n item buf).
Proof.
  intros Hi. revert buf. induction n as [|n IH]; intros buf; simpl; [auto with diamond|].
  apply raises_bind; [done|]. intros [] _. apply raises_bind; [done|]. intros []; auto with diamond.
Qed.
#[export] Hint Resolve take_bytes_raises unpack_uint_raises unpack_int_raises
  unpack_bool_raises unpack_fopaque_raises unpack_opaque_raises unpack_hyper_raises
  unpack_double_raises : diamond.

Lemma decode_members_raises ms : Forall (λ m, ∀ buf, raises_only unpack_exn (unpack m.2 buf)) ms →
  ∀ buf, raises_only unpack_exn (decode_members unpack ms buf).
Proof.
  induction 1 as [|[o h] ms Hh Hms IH]; intros buf; simpl; [auto with diamond|].
  apply raises_bind; [apply Hh|]. intros [] _. apply raises_bind; [done|]. intros []; auto with diamond.
Qed.

(** Decoding only ever sets declared attributes. *)
Lemma decode_members_names ms buf kwargs buf' :
  decode_members unpack ms buf = Ok (kwargs, buf') → kwargs.*1 = member_names ms.
Proof.
  revert buf kwargs buf'. induction ms as [|[[a|] h] ms IH]; intros buf kwargs buf' H; simpl in H.
  - by inv_ok.
  - inv_ok. destruct x as [v b1]. inv_ok. destruct x as [kw b2]. inv_ok.
    unfold member_names in *. simpl. f_equal. by eapply IH.
  - inv_ok. destruct x as [v b1]. inv_ok. destruct x as [kw b2]. inv_ok.
    unfold member_names in *. simpl. by eapply IH.
Qed.

Lemma unpack_raises t : wf_type t = true → ∀ buf, raises_only unpack_exn (unpack t buf).
Proof.
  induction t as [| | | | | |n|t IH|t IH|t value IH|cls ms IH] using xdr_type_ind';
    intros Hwt buf; simpl in *.
  all: try (apply raises_bind; [solve [auto with diamond] | intros []; auto with diamond]; fail).
  - apply raises_bind; [auto with diamond|]. intros [b buf'] _.
    apply raises_bind; [|auto with diamond]. intros e He%bytes_decode_Raise.
    subst. unfold unpack_exn. auto.
  - apply raises_bind; [auto with diamond|]. intros [b buf'] _. case_match; [auto with diamond|].
    apply raises_Raise. unfold unpack_exn. auto.
  - apply raises_bind; [|intros []; auto with diamond].
    apply raises_bind; [auto with diamond|]. intros [] _. apply unpack_farray_raises. auto.
  - apply andb_true_iff in Hwt as [_ Hwt].
    apply raises_bind; [auto with diamond|]. intros [[] buf'] _; auto with diamond.
  - apply andb_true_iff in Hwt as [Hnd%bool_decide_eq_true Hwt].
    apply raises_bind.
    + apply decode_members_raises. clear Hnd. induction IH as [|[o h] ms Hh Hms IH']; constructor;
        simpl in Hwt; apply andb_true_iff in Hwt as [? ?]; auto.
    + intros [kwargs buf'] Hk%decode_members_names. rewrite XDRStruct_init_kwargs by done.
      simpl. auto with diamond.
Qed.

(** The exceptions that escape [XDRStruct.decode]. *)
Lemma decode_raises c data e :
  wf_type (TClass c) = true → decode c data = Raise e →
  e = EOFError ∨ e = UnicodeDecodeError ∨ e = XDREncodingError.
Proof.
  intros Hwt. unfold decode, convert_exceptions, try_except.
  pose proof (unpack_raises (TClass c) Hwt data) as Hr. unfold TClass in Hr.
  rewrite unpack_struct in Hr.
  destruct (decode_xdr _ _ data) as [[v [|b bs]]|e'] eqn:E; simpl; [done| |].
  - intros [= <-]. auto.
  - destruct (Hr e' eq_refl) as [ -> | [ -> | [ -> | -> ] ] ]; simpl; intros [= <-]; auto.
Qed.

(** Every field occupies whole four-byte units. *)
Definition aligned (bs : bytes) : Prop := (length bs mod 4)%nat = 0%nat.

Lemma aligned_app b1 b2 : aligned b1 → aligned b2 → aligned (b1 ++ b2).
Proof.
  unfold aligned. rewrite length_app. intros H1 H2.
  rewrite Nat.Div0.add_mod, H1, H2. done.
Qed.
Lemma aligned_be_split4 z : aligned (be_split 4 z).
Proof. unfold aligned. by rewrite length_be_split. Qed.
Lemma aligned_join ds : Forall aligned ds → aligned (mjoin ds).
Proof. induction 1; simpl; [done|]. by apply aligned_app. Qed.
#[export] Hint Resolve aligned_app aligned_be_split4 : diamond.

Lemma pack_fopaque_aligned b bs :
  Packer.pack_fopaque (Z.of_nat (length b)) (VBytes b) = Ok bs → aligned bs.
Proof.
  unfold Packer.pack_fopaque. case_match; [done|]. rewrite Nat2Z.id, firstn_all.
  intros [= <-]. unfold aligned. rewrite length_app, length_replicate.
  pose proof (pad4 (Z.of_nat (length b))).
  replace (length b + _)%nat with (Z.to_nat ((Z.of_nat (length b) + 3) / 4) * 4)%nat by lia.
  apply Nat.Div0.mod_mul.
Qed.

Lemma pack_opaque_aligned v bs : Packer.pack_opaque v = Ok bs → aligned bs.
Proof.
  destruct v; simpl; try done. intros H. unfold Packer.pack_uint_Z in H. case_match; [|done].
  simpl in H. inv_ok. apply aligned_app; [auto with diamond|]. by eapply pack_fopaque_aligned.
Qed.

Lemma pack_aligned t v bs : pack t v = Ok bs → aligned bs.
Proof.
  revert v bs. induction t as [| | | | | |n|t IH|t IH|t value IH|cls ms IH] using xdr_type_ind';
    intros v bs H; simpl in H.
  - unfold Packer.pack_int in H. inv_ok. case_match; inv_ok. auto with diamond.
  - unfold Packer.pack_uint, Packer.pack_uint_Z in H. inv_ok. case_match; inv_ok. auto with diamond.
  - unfold Packer.pack_hyper, Packer.pack_uint_Z in H. inv_ok. repeat case_match; inv_ok.
    auto with diamond.
  - unfold Packer.pack_double in H. inv_ok. unfold aligned. by rewrite length_be_split.
  - destruct v; try done. by eapply (pack_opaque_aligned (VBytes _)).
  - by eapply pack_opaque_aligned.
  - inv_ok. case_match eqn:E; [|done]. apply Z.eqb_eq in E. subst n.
    destruct v; simpl in *; inv_ok; try (unfold Packer.pack_fopaque in *; by case_match).
    rewrite length_fmap in *. by eapply pack_fopaque_aligned.
  - inv_ok. unfold Packer.pack_uint_Z in *. case_match; [|done]. inv_ok.
    apply aligned_app; [auto with diamond|]. apply aligned_join.
    match goal with H : mapM_res _ _ = _ |- _ =>
      apply mapM_res_Ok in H; eapply Forall2_Forall_r; [exact H|] end.
    apply Forall_true. eauto.
  - assert (∀ b, aligned (Packer.pack_bool b)) by (intros; unfold Packer.pack_bool; auto with diamond).
    destruct v; inv_ok; eauto with diamond.
  - eauto.
  - destruct v as [| | | | | | |cls' attrs]; try done. case_decide; [|done]. clear H0.
    revert bs H. induction IH as [|[o h] ms Hh Hms IH']; intros bs H; simpl in H; [by inv_ok|].
    inv_ok. apply aligned_app; [|by eapply IH'].
    unfold wrap_encoding_error, try_except in *. destruct (pack h _) eqn:E; [|done]. inv_ok.
    by eapply Hh.
Qed.
