(* ===== verification/Protocol.v ===== *)
(** The Diamond wire protocol (src/opendiamond/protocol.py and the message and
    error classes of src/opendiamond/rpc.py): constants, message classes, error
    codes. *)
From S2P Require Import Prelude PyBytes Float64 Xdr.
Local Open Scope Z_scope.

Definition PORT : Z := 5872.
Definition NONCE_LEN : nat := 16.
Definition NULL_NONCE : bytes := replicate NONCE_LEN Byte.x00.
Definition RPC_PENDING : Z := -1.

(** ** Error classes *)

(** A subclass of [RPCError]: its name, its [code], its own subclasses. *)
Inductive rpc_class : Type := RpcClass (name : string) (code : Z) (subclasses : list rpc_class).
Definition rc_name (c : rpc_class) : string := let 'RpcClass n _ _ := c in n.
Definition rc_code (c : rpc_class) : Z := let 'RpcClass _ k _ := c in k.
Definition rc_subclasses (c : rpc_class) : list rpc_class := let 'RpcClass _ _ s := c in s.

(** [RPCError.get_class]: depth-first search of the subclass tree. *)
Fixpoint get_class (cls : rpc_class) (code : Z) {struct cls} : res rpc_class :=
  let 'RpcClass _ _ subs := cls in
  (fix find (cs : list rpc_class) : res rpc_class :=
    match cs with
    | [] => Raise KeyError
    | c :: cs =>
      if rc_code c =? code then Ok c
      else match get_class c code with
           | Ok c' => Ok c'
           | Raise KeyError => find cs
           | Raise e => Raise e
           end
    end) subs.

Definition RPCEncodingError : rpc_class := RpcClass "RPCEncodingError" (-2) [].
Definition RPCProcedureUnavailable : rpc_class := RpcClass "RPCProcedureUnavailable" (-3) [].
Definition DiamondRPCFailure : rpc_class := RpcClass "DiamondRPCFailure" 500 [].
Definition DiamondRPCFCacheMiss : rpc_class := RpcClass "DiamondRPCFCacheMiss" 501 [].
Definition DiamondRPCCookieExpired : rpc_class := RpcClass "DiamondRPCCookieExpired" 504 [].
Definition DiamondRPCSchemeNotSupported : rpc_class :=
  RpcClass "DiamondRPCSchemeNotSupported" 505 [].

(** The base class with every subclass the program declares; the base itself
    has no code of its own ([None]; 0 here, never looked at). *)
Definition RPCError_base : rpc_class :=
  RpcClass "RPCError" 0
    [RPCEncodingError; RPCProcedureUnavailable; DiamondRPCFailure; DiamondRPCFCacheMiss;
     DiamondRPCCookieExpired; DiamondRPCSchemeNotSupported].

(** [raise cls()] *)
Definition raise_rpc {A} (c : rpc_class) : res A := Raise (RPCError (rc_code c)).

(** ** Message classes *)
Definition RPCHeader : xdr_class := XdrClass "RPCHeader"
  [(Some "sequence", TUint); (Some "status", TInt); (Some "cmd", TInt); (Some "datalen", TUint)].
Definition ENCODED_LENGTH : nat := 16.

Definition XDR_attribute : xdr_class := XdrClass "XDR_attribute"
  [(Some "name", TString); (Some "value", TOpaque)].
Definition XDR_object : xdr_class := XdrClass "XDR_object"
  [(Some "attrs", TArray (TClass XDR_attribute))].
Definition XDR_blob_list : xdr_class := XdrClass "XDR_blob_list"
  [(Some "uris", TArray TString)].
Definition XDR_filter_config : xdr_class := XdrClass "XDR_filter_config"
  [(Some "name", TString);
   (Some "arguments", TArray TString);
   (Some "dependencies", TArray TString);
   (Some "min_score", TDouble);
   (Some "max_score", TDouble);
   (Some "code", TString);
   (Some "blob", TString)].
Definition XDR_setup : xdr_class := XdrClass "XDR_setup"
  [(Some "cookies", TArray TString); (Some "filters", TArray (TClass XDR_filter_config))].
Definition XDR_blob_data : xdr_class := XdrClass "XDR_blob_data"
  [(Some "blobs", TArray TOpaque)].
Definition XDR_start : xdr_class := XdrClass "XDR_start"
  [(Some "search_id", TFopaque 36); (Some "attrs", TOptional (TArray TString))].
Definition XDR_stat : xdr_class := XdrClass "XDR_stat"
  [(Some "name", TString); (Some "value", THyper)].
Definition XDR_filter_stats : xdr_class := XdrClass "XDR_filter_stats"
  [(Some "name", TString); (Some "stats", TArray (TClass XDR_stat))].
Definition XDR_search_stats : xdr_class := XdrClass "XDR_search_stats"
  [(Some "stats", TArray (TClass XDR_stat)); (Some "filter_stats", TOptional (TArray (TClass XDR_filter_stats)))].
Definition XDR_session_var : xdr_class := XdrClass "XDR_session_var"
  [(Some "name", TString); (Some "value", TDouble)].
Definition XDR_session_vars : xdr_class := XdrClass "XDR_session_vars"
  [(Some "vars", TArray (TClass XDR_session_var))].
Definition XDR_reexecute : xdr_class := XdrClass "XDR_reexecute"
  [(Some "object_id", TString); (Some "attrs", TOptional (TArray TString))].
Definition XDR_retrain : xdr_class := XdrClass "XDR_retrain"
  [(Some "names", TArray TString);
   (Some "labels", TArray TInt);
   (Some "features", TArray TOpaque)].
Definition XDR_attribute_list : xdr_class := XdrClass "XDR_attribute_list"
  [(Some "attrs", TArray (TClass XDR_attribute))].

Definition message_classes : list xdr_class :=
  [XDR_attribute;
   XDR_object;
   XDR_blob_list;
   XDR_filter_config;
   XDR_setup;
   XDR_blob_data;
   XDR_start;
   XDR_stat;
   XDR_filter_stats;
   XDR_search_stats;
   XDR_session_var;
   XDR_session_vars;
   XDR_reexecute;
   XDR_retrain;
   XDR_attribute_list].

Lemma message_classes_wf :
  Forall (λ c, wf_type (TClass c) = true) (RPCHeader :: message_classes).
Proof. repeat constructor. Qed.

(** ** Headers as records *)
Record rpc_header := RpcHeader { sequence : Z; status : Z; cmd : Z; datalen : Z }.

Definition header_val (h : rpc_header) : pyval :=
  VObj "RPCHeader" [("sequence", VInt (sequence h)); ("status", VInt (status h));
                    ("cmd", VInt (cmd h)); ("datalen", VInt (datalen h))].

Definition header_of_val (v : pyval) : res rpc_header :=
  match v with
  | VObj _ [(_, VInt s); (_, VInt st); (_, VInt c); (_, VInt d)] => Ok (RpcHeader s st c d)
  | _ => Raise TypeError
  end.

Definition header_encode (h : rpc_header) : res bytes := encode RPCHeader (header_val h).
Definition header_decode (data : bytes) : res rpc_header :=
  v ← decode RPCHeader data; header_of_val v.

Definition wf_header (h : rpc_header) : bool := wf_val (TClass RPCHeader) (header_val h).

Lemma header_roundtrip h :
  wf_header h = true → ∃ b, header_encode h = Ok b ∧ header_decode b = Ok h ∧ length b = 16%nat.
Proof.
  intros Hh. destruct (encode_decode RPCHeader (header_val h) eq_refl Hh) as (b & E & D).
  exists b. unfold header_decode. rewrite D. destruct h as [s st c d]. split_and!; [done..|].
  unfold wf_header in Hh. simpl in Hh. unfold encode, encode_xdr in E. simpl in E.
  unfold Packer.pack_uint, Packer.pack_int, Packer.pack_uint_Z in E. simpl in E.
  destruct (in_u 32 s), (in_s 32 st), (in_s 32 c), (in_u 32 d); try done.
  simpl in E. injection E as <-. by rewrite !length_app, !length_be_split.
Qed.

(** Sixteen bytes always decode to a header whose fields are in range. *)
Lemma header_decode_total data :
  length data = 16%nat → ∃ h, header_decode data = Ok h ∧ wf_header h = true.
Proof.
  intros Hl.
  assert (T : ∀ n (buf : bytes), (n ≤ length buf)%nat →
            Unpacker.take_bytes n buf = Ok (take n buf, drop n buf)).
  { intros n buf H. unfold Unpacker.take_bytes. rewrite decide_False by lia. done. }
  assert (R : ∀ buf : bytes, (4 ≤ length buf)%nat → in_u 32 (be_combine (take 4 buf)) = true).
  { intros buf H. rewrite in_u_spec. pose proof (be_combine_range (take 4 buf)) as B.
    rewrite length_take, Nat.min_l in B by lia. exact B. }
  unfold header_decode, decode, decode_xdr. simpl.
  unfold Unpacker.unpack_uint, Unpacker.unpack_int.
  repeat (rewrite T by (rewrite ?length_drop; lia); simpl).
  rewrite !drop_drop. rewrite (drop_ge data) by (simpl; lia). simpl.
  eexists; split; [done|]. unfold wf_header. simpl.
  rewrite !R by (rewrite ?length_drop; lia). rewrite !wrap_s_range by lia. done.
Qed.

(** ** Properties *)

(** C6.  Every message class of the protocol, and the RPC header, round-trips:
    a value whose fields are in range encodes without error, to a whole number
    of four-byte units, and decoding those bytes gives back the same value. *)
Theorem protocol_roundtrip c self :
  c ∈ RPCHeader :: message_classes → wf_val (TClass c) self = true →
  ∃ data, encode c self = Ok data ∧ decode c data = Ok self ∧ (length data mod 4 = 0)%nat.
Proof.
  intros Hc Hself. pose proof message_classes_wf as Hwt. rewrite Forall_forall in Hwt.
  destruct (encode_decode c self (Hwt c Hc) Hself) as (data & E & D).
  exists data. split_and!; [done..|].
  apply (pack_aligned (TClass c) self). unfold TClass. rewrite pack_struct.
  destruct self; try done. simpl in Hself.
  apply andb_true_iff in Hself as [->%bool_decide_eq_true _]. rewrite decide_True by done.
  unfold encode, convert_exceptions, try_except in E. destruct (encode_xdr _ _); [done|].
  by case_match.
Qed.

Definition sample_object : pyval :=
  VObj "XDR_object" [("attrs", VList [
    VObj "XDR_attribute" [("name", VStr "_ObjectID"); ("value", VBytes (str_encode "abc"))]])].

Lemma protocol_roundtrip_witness :
  wf_val (TClass XDR_object) sample_object = true ∧
  ∃ data, encode XDR_object sample_object = Ok data ∧ decode XDR_object data = Ok sample_object
    ∧ (length data mod 4 = 0)%nat.
Proof.
  split; [by vm_compute|]. apply protocol_roundtrip; [|by vm_compute].
  unfold message_classes. rewrite !elem_of_cons. auto 20.
Defined.

(** Whatever bytes arrive, decoding a message of any class of the protocol
    ends with a value or with one of three exceptions; [UnicodeDecodeError] is
    among them because [_convert_exceptions] compares exception classes for
    equality, so this subclass of [ValueError] is not converted. *)
Theorem protocol_decode_errors c data e :
  c ∈ RPCHeader :: message_classes → decode c data = Raise e →
  e = EOFError ∨ e = UnicodeDecodeError ∨ e = XDREncodingError.
Proof.
  intros Hc. apply decode_raises.
  pose proof message_classes_wf as Hwt. rewrite Forall_forall in Hwt. by apply Hwt.
Qed.

Definition bad_utf8_object_id : bytes :=
  be_split 4 1 ++ [Byte.xff; Byte.x00; Byte.x00; Byte.x00] ++ be_split 4 0.

Lemma protocol_decode_errors_witness :
  decode XDR_reexecute bad_utf8_object_id = Raise UnicodeDecodeError ∧
  (UnicodeDecodeError = EOFError ∨ UnicodeDecodeError = UnicodeDecodeError
   ∨ UnicodeDecodeError = XDREncodingError).
Proof.
  split; [by vm_compute|].
  apply (protocol_decode_errors XDR_reexecute bad_utf8_object_id); [|by vm_compute].
  unfold message_classes. rewrite !elem_of_cons. auto 20.
Defined.

Lemma get_class_base code :
  get_class RPCError_base code =
    of_option KeyError (List.find (λ c, rc_code c =? code) (rc_subclasses RPCError_base)).
Proof. simpl. repeat case_match; done. Qed.

(** [RPCError.get_class] finds exactly the declared error classes: it
    returns the class with the given code, and raises [KeyError] for a code
    that no class has. *)
Theorem get_class_correct code :
  (∀ c, get_class RPCError_base code = Ok c ↔
        c ∈ rc_subclasses RPCError_base ∧ rc_code c = code) ∧
  (get_class RPCError_base code = Raise KeyError ↔
        ∀ c, c ∈ rc_subclasses RPCError_base → rc_code c ≠ code).
Proof.
  rewrite get_class_base. split.
  - intros c. split.
    + destruct (List.find _ _) as [c'|] eqn:E; simpl; [|done]. intros [= ->].
      apply List.find_some in E as [Hin Hc%Z.eqb_eq]. by apply list_elem_of_In in Hin.
    + intros [Hin <-]. simpl in Hin. rewrite !elem_of_cons in Hin.
      destruct Hin as [ -> | [ -> | [ -> | [ -> | [ -> | [ -> | Hin ] ] ] ] ] ]; [done..|].
      by apply not_elem_of_nil in Hin.
  - split.
    + intros H c Hin <-. destruct (List.find _ _) as [c'|] eqn:E; simpl in H; [done|].
      apply list_elem_of_In in Hin. eapply List.find_none in E; [|done].
      by apply Z.eqb_neq in E.
    + intros H. destruct (List.find _ _) as [c'|] eqn:E; [|done].
      apply List.find_some in E as [Hin Hc%Z.eqb_eq]. apply list_elem_of_In in Hin.
      by destruct (H c' Hin).
Qed.
