(* ===== verification/Rpc.v ===== *)
(** The server side of the RPC protocol (src/opendiamond/rpc.py): reading framed
    requests from a socket, dispatching them to handlers, replying. *)
From S2P Require Import Prelude PyBytes Xdr Protocol.
Local Open Scope Z_scope.

(** ** Sockets

    What the peer and the network will do is given by the incoming events and
    the outcomes of the successive [sendall] calls ([true]: success; the list
    running out means that all further sends succeed). *)
Inductive rx_event : Type := RxData (b : bytes) | RxError.

Record sock := Sock {
  rx : list rx_event;
  tx : bytes;             (* everything sent so far *)
  tx_outcomes : list bool;
  sock_closed : bool
}.

Definition close (s : sock) : sock := Sock (rx s) (tx s) (tx_outcomes s) true.
Definition set_rx (l : list rx_event) (s : sock) : sock := Sock l (tx s) (tx_outcomes s) (sock_closed s).

(** [sock.recv(count)]: at most [count] bytes; no bytes at end of stream. *)
Definition recv (count : nat) (l : list rx_event) : res bytes * list rx_event :=
  match l with
  | [] => (Ok [], [])
  | RxError :: l => (Raise OSError, l)
  | RxData b :: l =>
    if decide (length b ≤ count)%nat then (Ok b, l)
    else (Ok (take count b), RxData (drop count b) :: l)
  end.

(** [sock.sendall(data)] *)
Definition sendall (data : bytes) (s : sock) : res unit * sock :=
  match tx_outcomes s with
  | false :: o => (Raise OSError, Sock (rx s) (tx s) o (sock_closed s))
  | true :: o => (Ok (), Sock (rx s) (tx s ++ data) o (sock_closed s))
  | [] => (Ok (), Sock (rx s) (tx s ++ data) [] (sock_closed s))
  end.

(** ** read_bytes

    The loop [while count > 0]; every iteration that continues has received at
    least one byte, so [count] iterations are enough ([read_bytes_spec]). *)
Fixpoint read_loop (fuel count : nat) (bufs : bytes) (l : list rx_event) :
    res bytes * list rx_event :=
  match count with
  | O => (Ok bufs, l)
  | S _ =>
    match fuel with
    | O => (Raise RuntimeError, l)
    | S fuel =>
      match recv count l with
      | (Ok [], l) => (Raise ConnectionFailure, l)
      | (Ok new, l) => read_loop fuel (count - length new) (bufs ++ new) l
      | (Raise _, l) => (Raise ConnectionFailure, l)
      end
    end
  end.

Definition read_bytes (count : nat) (s : sock) : res bytes * sock :=
  match read_loop count count [] (rx s) with
  | (Ok b, l) => (Ok b, set_rx l s)
  | (Raise e, l) => (Raise e, close (set_rx l s))
  end.

(** ** Requests *)
Record rpc_request := RpcRequest { hdr : rpc_header; data : bytes }.

(** [_RPCRequest.make_reply_header] *)
Definition make_reply_header (req : rpc_request) (st : Z) (body : bytes) : rpc_header :=
  RpcHeader (sequence (hdr req)) st (cmd (hdr req)) (Z.of_nat (length body)).

(** [RPCConnection._receive]: skip everything that is not a request.  Each
    round consumes at least a header. *)
Fixpoint receive_loop (fuel : nat) (s : sock) : res rpc_request * sock :=
  match fuel with
  | O => (Raise RuntimeError, s)
  | S fuel =>
    match read_bytes ENCODED_LENGTH s with
    | (Raise e, s) => (Raise e, s)
    | (Ok b, s) =>
      match header_decode b with
      | Raise e => (Raise e, s)
      | Ok h =>
        match read_bytes (Z.to_nat (datalen h)) s with
        | (Raise e, s) => (Raise e, s)
        | (Ok d, s) =>
          if status h =? RPC_PENDING then (Ok (RpcRequest h d), s) else receive_loop fuel s
        end
      end
    end
  end.

Fixpoint stream (l : list rx_event) : bytes :=
  match l with
  | [] | RxError :: _ | RxData [] :: _ => []
  | RxData b :: l => b ++ stream l
  end.

Definition receive (s : sock) : res rpc_request * sock :=
  receive_loop (S (length (stream (rx s)))) s.

(** [RPCConnection._reply] *)
Definition reply (req : rpc_request) (st : Z) (body : bytes) (s : sock) : res unit * sock :=
  if negb (st =? 0) && negb (bool_decide (body = [])) then (Raise AssertionError, s) else
  match header_encode (make_reply_header req st body) with
  | Raise e => (Raise e, s)
  | Ok h =>
    match sendall (h ++ body) s with
    | (Ok tt, s) => (Ok (), s)
    | (Raise _, s) => (Raise ConnectionFailure, close s)
    end
  end.

(** ** Handlers and dispatch *)
Section Dispatch.
(** The state that the handlers act on. *)
Context {St : Type}.

(** A method tagged by [@RPCHandlers.handler(cmd, request_class, reply_class)].
[h_call] takes [None] when there is no request class, and returns [VNone]
for a handler that returns nothing. *)
Record handler := Handler {
rpc_procedure : Z;
rpc_request_class : option xdr_class;
rpc_reply_class : option xdr_class;
h_call : option pyval → St → res pyval * St
}.

(** [_RPCMeta.__new__] fills [_cmds] in the order of [dir(obj)]: the last
handler registered for a procedure wins; [RPCHandlers.get_handler]. *)
Definition cmds (handlers : list handler) : gmap Z handler :=
foldl (λ m h, <[rpc_procedure h := h]> m) ∅ handlers.
Definition get_handler (handlers : list handler) (procedure : Z) : res handler :=
of_option KeyError (cmds handlers !! procedure).

(** Lookup and request decoding, under the two [except] clauses. *)
Definition lookup_and_decode (handlers : list handler) (req : rpc_request) :
res (handler * option pyval) :=
try_except
(try_except
(h ← get_handler handlers (cmd (hdr req));
 match rpc_request_class h with
 | Some c => v ← decode c (data req); Ok (h, Some v)
 | None => Ok (h, None)
 end)
(λ e, bool_decide (e = KeyError)) (λ _, raise_rpc RPCProcedureUnavailable))
(λ e, bool_decide (e = EOFError ∨ e = XDREncodingError)) (λ _, raise_rpc RPCEncodingError).

(** The handler's return value as reply bytes. *)
Definition encode_reply (h : handler) (ret : pyval) : res bytes :=
match ret, rpc_reply_class h with
| VNone, None => Ok []
| VNone, Some _ => Raise AssertionError
| _, None => Raise TypeError
| VObj cls _, Some c => if decide (cls = xc_name c) then encode c ret else Raise AssertionError
| _, Some _ => Raise AssertionError
end.

(** The body of the [try] in [dispatch], after the request is received. *)
Definition handle (handlers : list handler) (req : rpc_request) (s : sock) (st : St) :
res unit * sock * St :=
match lookup_and_decode handlers req with
| Raise e => (Raise e, s, st)
| Ok (h, arg) =>
match h_call h arg st with
| (Raise e, st) => (Raise e, s, st)
| (Ok ret, st) =>
match encode_reply h ret with
| Raise e => (Raise e, s, st)
| Ok body => let '(r, s) := reply req 0 body s in (r, s, st)
end
end
end.

(** [RPCConnection.dispatch] *)
Definition dispatch (handlers : list handler) (s : sock) (st : St) : res unit * sock * St :=
match receive s with
| (Raise e, s) => (Raise e, s, st)
| (Ok req, s) =>
match handle handlers req s st with
| (Raise (RPCError code), s, st) => let '(r, s) := reply req code [] s in (r, s, st)
| r => r
end
end.
End Dispatch.
Arguments handler : clear implicits.

(** ** Reading from the stream *)

Lemma recv_spec count l : (0 < count)%nat →
  match stream l with
  | [] => fst (recv count l) = Ok [] ∨ fst (recv count l) = Raise OSError
  | _ => ∃ new l', recv count l = (Ok new, l') ∧ (0 < length new ≤ count)%nat ∧
           stream l = new ++ stream l'
  end.
Proof.
  intros Hc. destruct l as [|[b|] l]; simpl; auto.
  destruct b as [|x b]; simpl; [by left|]. case_decide; simpl.
  - exists (x :: b), l. simpl in *. split_and!; [done|lia|lia|done].
  - destruct count as [|count]; [lia|]. simpl in *.
    exists (x :: take count b), (RxData (drop count b) :: l). split_and!; [done|simpl; lia| |].
    + simpl. rewrite length_take. lia.
    + simpl. destruct (drop count b) eqn:E.
      * apply (f_equal length) in E. rewrite length_drop in E. simpl in *. lia.
      * rewrite <-E, app_assoc, take_drop. done.
Qed.

Lemma read_loop_spec fuel count bufs l : (count ≤ fuel)%nat →
  if decide (count ≤ length (stream l))%nat
  then ∃ l', read_loop fuel count bufs l = (Ok (bufs ++ take count (stream l)), l') ∧
         stream l' = drop count (stream l)
  else ∃ l', read_loop fuel count bufs l = (Raise ConnectionFailure, l').
Proof.
  revert count bufs l. induction fuel as [|fuel IH]; intros count bufs l Hf.
  { assert (count = 0%nat) as -> by lia. rewrite decide_True by lia. simpl.
    exists l. by rewrite app_nil_r. }
  destruct count as [|count]; cbn [read_loop].
  { rewrite decide_True by lia. exists l. by rewrite app_nil_r. }
  pose proof (recv_spec (S count) l ltac:(lia)) as H.
  destruct (stream l) as [|x sl] eqn:Es.
  - rewrite decide_False by (cbn; lia).
    destruct (recv (S count) l) as [[[|] |] l']; destruct H; simplify_eq/=; eauto.
  - destruct H as (new & l' & -> & [Hn1 Hn2] & E).
    specialize (IH (S count - length new)%nat (bufs ++ new) l' ltac:(lia)).
    destruct new as [|y new]; [simpl in *; lia|]. rewrite E in *. rewrite length_app.
    rewrite take_app_ge, drop_app_ge by lia.
    case_decide; [rewrite decide_True by lia | rewrite decide_False by lia; done].
    destruct IH as (l'' & -> & Hl''). exists l''. rewrite <-app_assoc. done.
Qed.

(** [read_bytes] depends only on the concatenated stream, not on how the
    network split it; with too little data it raises [ConnectionFailure]. *)
Lemma read_bytes_spec count s :
  if decide (count ≤ length (stream (rx s)))%nat
  then ∃ s', read_bytes count s = (Ok (take count (stream (rx s))), s') ∧
         stream (rx s') = drop count (stream (rx s)) ∧
         tx s' = tx s ∧ tx_outcomes s' = tx_outcomes s ∧ sock_closed s' = sock_closed s
  else ∃ s', read_bytes count s = (Raise ConnectionFailure, s') ∧
         tx s' = tx s ∧ sock_closed s' = true.
Proof.
  unfold read_bytes. pose proof (read_loop_spec count count [] (rx s) ltac:(lia)) as H.
  case_decide; destruct H as (l' & H); [destruct H as [-> Hl'] | rewrite H]; eauto 10.
Qed.

Lemma read_bytes_app b rest s :
  stream (rx s) = b ++ rest →
  ∃ s', read_bytes (length b) s = (Ok b, s') ∧ stream (rx s') = rest ∧
    tx s' = tx s ∧ tx_outcomes s' = tx_outcomes s ∧ sock_closed s' = sock_closed s.
Proof.
  intros E. pose proof (read_bytes_spec (length b) s) as H.
  rewrite E, decide_True in H by (rewrite length_app; lia).
  by rewrite take_app_length, drop_app_length in H.
Qed.

(** A frame: an encoded header followed by as many bytes as it announces. *)
Definition frame (h : rpc_header) (d : bytes) (b : bytes) : Prop :=
  ∃ hb, b = hb ++ d ∧ header_decode hb = Ok h ∧ length hb = ENCODED_LENGTH ∧
    Z.of_nat (length d) = datalen h.

(** The frame that a header and a body are sent as. *)
Definition frame_bytes (h : rpc_header) (d : bytes) : bytes :=
  match header_encode h with Ok b => b ++ d | Raise _ => [] end.

Lemma frame_bytes_frame h d :
  wf_header h = true → datalen h = Z.of_nat (length d) → frame h d (frame_bytes h d).
Proof.
  intros Hh Hd. destruct (header_roundtrip h Hh) as (hb & E & D & L).
  exists hb. unfold frame_bytes. by rewrite E.
Qed.

Lemma receive_frame fuel h d b rest s :
  frame h d b → stream (rx s) = b ++ rest →
  ∃ s', receive_loop (S fuel) s =
      (if status h =? RPC_PENDING then (Ok (RpcRequest h d), s') else receive_loop fuel s') ∧
    stream (rx s') = rest ∧ tx s' = tx s ∧ tx_outcomes s' = tx_outcomes s ∧
    sock_closed s' = sock_closed s.
Proof.
  intros (hb & -> & Hdec & Hlen & Hd) E. rewrite <-app_assoc in E.
  destruct (read_bytes_app hb (d ++ rest) s E) as (s1 & E1 & R1 & T1 & O1 & C1).
  destruct (read_bytes_app d rest s1 R1) as (s2 & E2 & R2 & T2 & O2 & C2).
  exists s2. simpl. rewrite <-Hlen, E1, Hdec, <-Hd, Nat2Z.id, E2. split_and!; [done| congruence..].
Qed.

(** Frames that are not requests are skipped; the first request is returned. *)
Lemma receive_skips hs ds bs h d b rest s :
  Forall2 (λ hd b, frame hd.1 hd.2 b ∧ status hd.1 ≠ RPC_PENDING) (zip hs ds) bs →
  frame h d b → status h = RPC_PENDING →
  stream (rx s) = mjoin bs ++ b ++ rest →
  ∃ s', receive s = (Ok (RpcRequest h d), s') ∧ stream (rx s') = rest ∧ tx s' = tx s ∧
    tx_outcomes s' = tx_outcomes s ∧ sock_closed s' = sock_closed s.
Proof.
  intros Hskip Hf Hst E. unfold receive.
  assert (Hlen : (length bs ≤ length (mjoin bs))%nat).
  { clear -Hskip. induction Hskip as [|hd b' hds bs [(hb & -> & _ & Hl & _) _] Hs IH]; simpl; [done|].
    rewrite !length_app, Hl. unfold ENCODED_LENGTH. lia. }
  assert (Hfuel : (length bs ≤ length (stream (rx s)))%nat) by (rewrite E, length_app; lia).
  clear Hlen. revert Hfuel. generalize (length (stream (rx s))) as fuel. intros fuel.
  revert fuel s E. induction Hskip as [|hd b' hds bs [Hf' Hst'] Hs IH]; intros fuel s E Hfuel.
  - destruct (receive_frame fuel h d b rest s Hf E) as (s' & -> & H).
    rewrite Hst. exists s'. done.
  - simpl in E, Hfuel. rewrite <-app_assoc in E.
    destruct (receive_frame fuel _ _ _ _ s Hf' E) as (s' & -> & R & T & O & C).
    apply Z.eqb_neq in Hst'. rewrite Hst'. destruct fuel as [|fuel]; [lia|].
    destruct (IH fuel s' R ltac:(lia)) as (s'' & ? & ? & ? & ? & ?).
    exists s''. split_and!; congruence.
Qed.

(** [_receive] always ends, with a request or with [ConnectionFailure]. *)
Lemma receive_loop_total fuel s : (length (stream (rx s)) < fuel)%nat →
  (∃ req s', receive_loop fuel s = (Ok req, s') ∧ tx s' = tx s ∧
     wf_header (hdr req) = true ∧ status (hdr req) = RPC_PENDING ∧
     Z.of_nat (length (data req)) = datalen (hdr req)) ∨
  (∃ s', receive_loop fuel s = (Raise ConnectionFailure, s') ∧ tx s' = tx s ∧
     sock_closed s' = true).
Proof.
  revert s. induction fuel as [|fuel IH]; intros s Hf; [lia|]. simpl.
  pose proof (read_bytes_spec ENCODED_LENGTH s) as H1. case_decide.
  2:{ destruct H1 as (s1 & -> & T1 & C1). right. eauto. }
  destruct H1 as (s1 & -> & R1 & T1 & _ & _).
  destruct (header_decode_total (take ENCODED_LENGTH (stream (rx s)))) as (h & Eh & Hh).
  { rewrite length_take, Nat.min_l; done. }
  rewrite Eh. pose proof (read_bytes_spec (Z.to_nat (datalen h)) s1) as H2. case_decide.
  2:{ destruct H2 as (s2 & -> & T2 & C2). right. exists s2. split_and!; [done|congruence|done]. }
  destruct H2 as (s2 & -> & R2 & T2 & _ & _). destruct (Z.eqb_spec (status h) RPC_PENDING).
  - left. eexists _, s2. split; [done|]. simpl. split_and!; [congruence|done|done|].
    rewrite length_take, Nat.min_l, Z2Nat.id; [done| |lia].
    unfold wf_header in Hh. destruct h. simpl in Hh. rewrite !andb_true_iff in Hh.
    destruct Hh as (_ & _ & _ & Hh & _). apply in_u_spec in Hh. simpl. lia.
  - assert (length (stream (rx s2)) < fuel)%nat.
    { rewrite R2, R1, !length_drop. unfold ENCODED_LENGTH in *. lia. }
    destruct (IH s2 H1) as [(req & s' & E' & T' & W)|(s' & E' & T' & C')].
    + destruct W as (? & ? & ?). left. exists req, s'. rewrite E'. split_and!; first [done | congruence].
    + right. exists s'. rewrite E'. split_and!; first [done | congruence].
Qed.

Lemma receive_total s :
  (∃ req s', receive s = (Ok req, s') ∧ tx s' = tx s ∧
     wf_header (hdr req) = true ∧ status (hdr req) = RPC_PENDING ∧
     Z.of_nat (length (data req)) = datalen (hdr req)) ∨
  (∃ s', receive s = (Raise ConnectionFailure, s') ∧ tx s' = tx s ∧ sock_closed s' = true).
Proof. apply receive_loop_total. lia. Qed.

(** ** Replies *)
Lemma wf_header_fields h :
  wf_header h = true ↔ in_u 32 (sequence h) = true ∧ in_s 32 (status h) = true ∧
    in_s 32 (cmd h) = true ∧ in_u 32 (datalen h) = true.
Proof. destruct h. unfold wf_header. simpl. rewrite !andb_true_iff. naive_solver. Qed.

Lemma header_encode_Ok h b : header_encode h = Ok b → wf_header h = true.
Proof.
  rewrite wf_header_fields. destruct h as [q st c d]. unfold header_encode, encode, encode_xdr.
  simpl. unfold Packer.pack_uint, Packer.pack_int, Packer.pack_uint_Z. simpl.
  destruct (in_u 32 q), (in_s 32 st), (in_s 32 c), (in_u 32 d); done.
Qed.

(** What one reply puts on the wire. *)
Definition is_reply (req : rpc_request) (st : Z) (body b : bytes) : Prop :=
  frame (make_reply_header req st body) body b.

Lemma reply_spec req st body s s' :
  reply req st body s = (Ok (), s') →
  (st = 0 ∨ body = []) ∧ ∃ b, is_reply req st body b ∧ tx s' = tx s ++ b ∧ rx s' = rx s.
Proof.
  unfold reply. destruct (negb (st =? 0) && negb (bool_decide (body = []))) eqn:Ea; [done|].
  destruct (header_encode _) as [hb|] eqn:Eh; [|done].
  destruct (header_roundtrip _ (header_encode_Ok _ _ Eh)) as (hb' & Eh' & Dh & Hl).
  assert (hb' = hb) as -> by congruence.
  intros H. split.
  - apply andb_false_iff in Ea as [Ea|Ea]; apply negb_false_iff in Ea.
    + left. by apply Z.eqb_eq.
    + right. by apply bool_decide_eq_true in Ea.
  - exists (hb ++ body). split; [by exists hb|].
    unfold sendall in H. destruct (tx_outcomes s) as [|[] o]; simplify_eq/=; done.
Qed.

Lemma handle_rx {St} (hs : list (handler St)) req s st r s' st' :
  handle hs req s st = (r, s', st') → (∀ u, r ≠ Ok u) → r ≠ Raise ConnectionFailure → tx s' = tx s.
Proof.
  unfold handle, reply, sendall. intros H Hr Hc.
  repeat case_match; simplify_eq/=; try done; by destruct (Hr ()).
Qed.

(** Whenever [RPCConnection.dispatch] returns, it has answered exactly one
    request with exactly one frame: the reply carries the request's sequence
    number and command, announces the length of its body, and an error reply
    has no body. *)
Theorem dispatch_one_reply {St} (hs : list (handler St)) s st s' st' :
  dispatch hs s st = (Ok (), s', st') →
  ∃ req status body b,
    fst (receive s) = Ok req ∧ Protocol.status (hdr req) = RPC_PENDING ∧
    is_reply req status body b ∧ tx s' = tx s ++ b ∧ (status = 0 ∨ body = []).
Proof.
  unfold dispatch. destruct (receive s) as [[req|e] s1] eqn:Er; [|done].
  assert (T : tx s1 = tx s ∧ Protocol.status (hdr req) = RPC_PENDING).
  { destruct (receive_total s) as [(? & ? & E & ? & ? & ? & _)|(? & E & _)];
      rewrite E in Er; simplify_eq; done. }
  destruct T as [T P]. destruct (handle hs req s1 st) as [[[[]|e] s2] st2] eqn:Eh.
  - intros [= -> ->]. unfold handle in Eh.
    destruct (lookup_and_decode hs req) as [[h arg]|]; [|done].
    destruct (h_call h arg st) as [[ret|] st3]; [|done].
    destruct (encode_reply h ret) as [body|]; [|done].
    destruct (reply req 0 body s1) as [r s3] eqn:E3. simplify_eq.
    destruct (reply_spec _ _ _ _ _ E3) as (Hst & b & Hb & Ht & _).
    exists req, 0, body, b. split_and!; [done..| congruence | by left].
  - assert (H2 : (∀ c, e ≠ RPCError c) ∨ ∃ c, e = RPCError c) by (destruct e; eauto; by left).
    destruct H2 as [Hne|[c ->]]; [intros H; destruct e; naive_solver|].
    destruct (reply req c [] s2) as [r s3] eqn:E3. intros [= -> -> ->].
    apply handle_rx in Eh; [|done..].
    destruct (reply_spec _ _ _ _ _ E3) as (Hst & b & Hb & Ht & _).
    exists req, c, [], b. split_and!; [done..| congruence | by right].
Qed.

(** Requests for an unknown procedure, or whose argument is truncated or
    has trailing data, are answered with the RPC error codes -3 and -2, and
    the handlers' state does not change. *)
Theorem dispatch_bad_request {St} (hs : list (handler St)) h d b rest s st :
  frame h d b → status h = RPC_PENDING → stream (rx s) = b ++ rest → tx_outcomes s = [] →
  let bad_proc := cmds hs !! cmd h = None in
  let bad_arg := ∃ hd c e, cmds hs !! cmd h = Some hd ∧ rpc_request_class hd = Some c ∧
    decode c d = Raise e ∧ (e = EOFError ∨ e = XDREncodingError) in
  bad_proc ∨ bad_arg →
  ∃ s' rb, dispatch hs s st = (Ok (), s', st) ∧ tx s' = tx s ++ rb ∧
    is_reply (RpcRequest h d) (if decide (cmds hs !! cmd h = None) then -3 else -2) [] rb.
Proof.
  intros Hf Hp E Ho bad_proc bad_arg Hbad.
  destruct (receive_skips [] [] [] h d b rest s ltac:(constructor) Hf Hp) as (s1 & Er & _ & T1 & O1 & _).
  { done. }
  set (code := if decide (cmds hs !! cmd h = None) then -3 else -2).
  assert (Hl : lookup_and_decode hs (RpcRequest h d) = Raise (RPCError code)).
  { unfold lookup_and_decode, get_handler, code. simpl.
    destruct Hbad as [Hb|(hd & c & e & Hb & Hc & Hd & He)]; rewrite Hb; simpl.
    - done.
    - rewrite Hc. simpl. rewrite Hd. simpl. by destruct He as [->| ->]. }
  assert (Hw : wf_header (make_reply_header (RpcRequest h d) code []) = true).
  { destruct Hf as (hb & _ & Hdec & Hlen & _).
    destruct (header_decode_total hb Hlen) as (h' & E' & Hh'). assert (h' = h) as -> by congruence.
    rewrite wf_header_fields in *. destruct Hh' as (? & ? & ? & ?). simpl. split_and!; try done.
    unfold code. by case_decide. }
  destruct (header_roundtrip _ Hw) as (rb & Eb & Db & Lb).
  eexists _, rb. unfold dispatch. rewrite Er. unfold handle. rewrite Hl.
  unfold reply. rewrite andb_false_r, Eb, app_nil_r. unfold sendall. rewrite O1, Ho.
  split_and!; [done|simpl; by rewrite T1|]. exists rb. by rewrite app_nil_r.
Qed.

(** ** A concrete session *)
Definition ping_handler : handler nat :=
  Handler 2 None (Some XDR_object) (λ _ n, (Ok (VObj "XDR_object" [("attrs", VList [])]), S n)).

(** A stale reply followed by a request, split across two packets. *)
Definition ping_sock : sock :=
  let b := frame_bytes (RpcHeader 4 0 2 0) [] ++ frame_bytes (RpcHeader 5 (-1) 2 0) [] in
  Sock [RxData (take 20 b); RxData (drop 20 b)] [] [] false.

Lemma dispatch_one_reply_witness :
  let r := dispatch [ping_handler] ping_sock 0%nat in
  r.1.1 = Ok () ∧ r.2 = 1%nat ∧
  ∃ req status body b,
    fst (receive ping_sock) = Ok req ∧ Protocol.status (hdr req) = RPC_PENDING ∧
    is_reply req status body b ∧ tx r.1.2 = tx ping_sock ++ b ∧ (status = 0 ∨ body = []).
Proof.
  intros r. split; [by vm_compute|]. split; [by vm_compute|].
  apply (dispatch_one_reply [ping_handler] ping_sock 0%nat r.1.2 r.2). by vm_compute.
Defined.

Lemma dispatch_bad_request_witness :
  let h := RpcHeader 7 (-1) 99 0 in
  let b := frame_bytes h [] in
  let s := Sock [RxData b] [] [] false in
  ∃ s' rb, dispatch [ping_handler] s 0%nat = (Ok (), s', 0%nat) ∧ tx s' = tx s ++ rb ∧
    is_reply (RpcRequest h []) (-3) [] rb.
Proof.
  intros h b s.
  apply (dispatch_bad_request [ping_handler] h [] b [] s 0%nat).
  - exists b. by vm_compute.
  - done.
  - by vm_compute.
  - done.
  - left. by vm_compute.
Defined.
