(* ===== verification/ClientRpc.v ===== *)
(** The client side of the RPC protocol (src/opendiamond/client/rpc.py): connection
    setup, blocking calls, the control and blast stubs; and the end-to-end
    theorem that a call through both ends returns what the handler returned. *)
From S2P Require Import Prelude PyBytes PyText Xdr Protocol Rpc.
Local Open Scope Z_scope.

(** [_RPCClientConnection]: the next sequence number ([itertools.count()]) and
    the socket. *)
Record client := Client { c_sequence : Z; c_sock : sock }.
Definition set_sock (s : sock) (c : client) : client := Client (c_sequence c) s.

(** The address parsing of [connect]: host, and port (default [PORT]). *)
Definition parse_address (address : bytes) : res (bytes * Z) :=
  match split Byte.x3a address with
  | host :: port :: _ => p ← py_int port; Ok (host, p)
  | [host] => Ok (host, PORT)
  | [] => Raise IndexError
  end.

(** [connect], once the TCP connection to [parse_address address] is up: send
    the nonce and read the server's. *)
Definition connect (address nonce : bytes) (c : client) : res bytes * client :=
  match parse_address address with
  | Raise e => (Raise e, c)
  | Ok _ =>
    match sendall nonce (c_sock c) with
    | (Raise e, s) => (Raise e, set_sock s c)
    | (Ok _, s) => let '(r, s) := read_bytes NONCE_LEN s in (r, set_sock s c)
    end
  end.

(** [_send_message] *)
Definition send_message (seq st command : Z) (body : bytes) (s : sock) : res unit * sock :=
  match header_encode (RpcHeader seq st command (Z.of_nat (length body))) with
  | Raise e => (Raise e, s)
  | Ok h => sendall (h ++ body) s
  end.

(** [_get_reply] *)
Definition get_reply (s : sock) : res (Z * bytes) * sock :=
  match read_bytes ENCODED_LENGTH s with
  | (Raise e, s) => (Raise e, s)
  | (Ok buf, s) =>
    match header_decode buf with
    | Raise e => (Raise e, s)
    | Ok h =>
      match read_bytes (Z.to_nat (datalen h)) s with
      | (Raise e, s) => (Raise e, s)
      | (Ok d, s) =>
        if status h =? RPC_PENDING then
          match send_message (sequence h) (rc_code RPCEncodingError) (cmd h) [] s with
          | (Raise e, s) => (Raise e, s)
          | (Ok _, s) => (Ok (status h, d), s)
          end
        else (Ok (status h, d), s)
      end
    end
  end.

(** What [_call] makes of a reply.  [status] is never [None] here: [_get_reply]
    raises instead. *)
Definition interpret_reply (reply_class : option xdr_class) (st : Z) (d : bytes) : res pyval :=
  match reply_class with
  | Some c =>
    if st =? 0 then decode c d
    else if negb (bool_decide (d = [])) then raise_rpc RPCEncodingError
    else match get_class RPCError_base st with
         | Ok k => raise_rpc k
         | Raise KeyError => Raise (RPCError st)
         | Raise e => Raise e
         end
  | None =>
    if negb (bool_decide (d = [])) then raise_rpc RPCEncodingError
    else if st =? 0 then Ok VNone
    else match get_class RPCError_base st with
         | Ok k => raise_rpc k
         | Raise KeyError => Raise (RPCError st)
         | Raise e => Raise e
         end
  end.

(** [_RPCClientConnection._call] *)
Definition call (command : Z) (request : option (xdr_class * pyval))
    (reply_class : option xdr_class) (c : client) : res pyval * client :=
  match (match request with Some (rc, v) => encode rc v | None => Ok [] end) with
  | Raise e => (Raise e, c)
  | Ok body =>
    let seq := c_sequence c in
    let c := Client (seq + 1) (c_sock c) in
    match send_message seq RPC_PENDING command body (c_sock c) with
    | (Raise e, s) => (Raise e, set_sock s c)
    | (Ok _, s) =>
      match get_reply s with
      | (Raise e, s) => (Raise e, set_sock s c)
      | (Ok (st, d), s) => (interpret_reply reply_class st d, set_sock s c)
      end
    end
  end.

(** [_stub(cmd, request_class, reply_class)]: the argument must be an instance
    of the request class, or [None] when there is none. *)
Record stub := Stub { st_cmd : Z; st_request : option xdr_class; st_reply : option xdr_class }.

Definition stub_call (st : stub) (request : pyval) (c : client) : res pyval * client :=
  match st_request st, request with
  | None, VNone => call (st_cmd st) None (st_reply st) c
  | Some rc, VObj cls _ =>
    if decide (cls = xc_name rc) then call (st_cmd st) (Some (rc, request)) (st_reply st) c
    else (raise_rpc RPCEncodingError, c)
  | _, _ => (raise_rpc RPCEncodingError, c)
  end.

(** [ControlConnection] *)
Module ControlConnection.
Definition setup := Stub 25 (Some XDR_setup) (Some XDR_blob_list).
Definition send_blobs := Stub 26 (Some XDR_blob_data) None.
Definition start := Stub 28 (Some XDR_start) None.
Definition reexecute_filters := Stub 30 (Some XDR_reexecute) (Some XDR_attribute_list).
Definition request_stats := Stub 29 None (Some XDR_search_stats).
Definition session_variables_get := Stub 18 None (Some XDR_session_vars).
Definition session_variables_set := Stub 19 None (Some XDR_session_vars).
End ControlConnection.

(** [BlastConnection] *)
Module BlastConnection.
Definition get_object := Stub 2 None (Some XDR_object).
End BlastConnection.

(** ** Helper lemmas *)
Lemma get_reply_frame h d b rest s :
  frame h d b → status h ≠ RPC_PENDING → stream (rx s) = b ++ rest →
  ∃ s', get_reply s = (Ok (status h, d), s') ∧ stream (rx s') = rest ∧ tx s' = tx s.
Proof.
  intros (hb & -> & Hdec & Hlen & Hd) Hst E. rewrite <-app_assoc in E.
  destruct (read_bytes_app hb (d ++ rest) s E) as (s1 & E1 & R1 & T1 & O1 & C1).
  destruct (read_bytes_app d rest s1 R1) as (s2 & E2 & R2 & T2 & O2 & C2).
  exists s2. unfold get_reply. rewrite <-Hlen, E1, Hdec, <-Hd, Nat2Z.id, E2.
  apply Z.eqb_neq in Hst. rewrite Hst. split_and!; congruence.
Qed.

Lemma send_message_Ok seq command body s :
  in_u 32 seq = true → in_s 32 command = true → in_u 32 (Z.of_nat (length body)) = true →
  tx_outcomes s = [] →
  send_message seq RPC_PENDING command body s =
    (Ok (), Sock (rx s) (tx s ++ frame_bytes (RpcHeader seq RPC_PENDING command
       (Z.of_nat (length body))) body) [] (sock_closed s)).
Proof.
  intros Hs Hc Hl Ho.
  destruct (header_roundtrip (RpcHeader seq RPC_PENDING command (Z.of_nat (length body))))
    as (hb & E & D & L).
  { rewrite wf_header_fields. split_and!; done. }
  unfold send_message, frame_bytes. rewrite E. unfold sendall. by rewrite Ho.
Qed.

(** A value of an optional message class, and its body on the wire. *)
Definition carries (oc : option xdr_class) (v : pyval) (body : bytes) : Prop :=
  match oc with
  | None => v = VNone ∧ body = []
  | Some c => wf_type (TClass c) = true ∧ wf_val (TClass c) v = true ∧ encode c v = Ok body
  end ∧ in_u 32 (Z.of_nat (length body)) = true.

Lemma carries_decode c v body : carries (Some c) v body → decode c body = Ok v.
Proof.
  intros [(Hwt & Hwf & E) _]. destruct (encode_decode c v Hwt Hwf) as (b & E' & D). congruence.
Qed.

Lemma carries_obj c v body : carries (Some c) v body → ∃ attrs, v = VObj (xc_name c) attrs.
Proof.
  intros [(_ & Hwf & _) _]. unfold TClass in Hwf. destruct v; try done. simpl in Hwf.
  apply andb_true_iff in Hwf as [->%bool_decide_eq_true _]. eauto.
Qed.

Lemma encode_reply_carries {St} (hd : handler St) ret body :
  carries (rpc_reply_class hd) ret body → encode_reply hd ret = Ok body.
Proof.
  unfold encode_reply. destruct (rpc_reply_class hd) as [c|] eqn:E; intros H.
  - destruct (carries_obj _ _ _ H) as [attrs ->]. destruct H as [(_ & _ & H) _].
    by rewrite decide_True.
  - by destruct H as [[-> ->] _].
Qed.

Lemma lookup_and_decode_carries {St} (hs : list (handler St)) hd h arg body :
  cmds hs !! cmd h = Some hd → carries (rpc_request_class hd) arg body →
  lookup_and_decode hs (RpcRequest h body) =
    Ok (hd, match rpc_request_class hd with Some _ => Some arg | None => None end).
Proof.
  intros Hc Ha. unfold lookup_and_decode, get_handler. simpl. rewrite Hc. simpl.
  destruct (rpc_request_class hd) as [c|]; [|done]. by rewrite (carries_decode _ _ _ Ha).
Qed.

(** The request frame that a stub sends. *)
Definition request_frame (sb : stub) (seq : Z) (body : bytes) : bytes :=
  frame_bytes (RpcHeader seq RPC_PENDING (st_cmd sb) (Z.of_nat (length body))) body.

(** The stub's call, given the reply that will come back. *)
Lemma stub_call_reply sb request body c h d :
  carries (st_request sb) request body →
  in_u 32 (c_sequence c) = true → in_s 32 (st_cmd sb) = true → tx_outcomes (c_sock c) = [] →
  wf_header h = true → datalen h = Z.of_nat (length d) → status h ≠ RPC_PENDING →
  stream (rx (c_sock c)) = frame_bytes h d →
  ∃ c', stub_call sb request c = (interpret_reply (st_reply sb) (status h) d, c') ∧
    c_sequence c' = c_sequence c + 1 ∧
    tx (c_sock c') = tx (c_sock c) ++ request_frame sb (c_sequence c) body.
Proof.
  intros Hreq Hseq Hcmd Ho Hh Hd Hst Hrx.
  pose proof (send_message_Ok (c_sequence c) (st_cmd sb) body (c_sock c) Hseq Hcmd
    (proj2 Hreq) Ho) as Hs. fold (request_frame sb (c_sequence c) body) in Hs.
  set (s1 := Sock _ _ _ _) in Hs.
  destruct (get_reply_frame h d _ [] s1 (frame_bytes_frame h d Hh Hd) Hst)
    as (s' & Hg & _ & Ht); [by rewrite app_nil_r|].
  exists (Client (c_sequence c + 1) s'). split_and!; [|done|done].
  assert (Hcall : ∀ o, (match o with Some (rc, v) => encode rc v | None => Ok [] end) = Ok body →
    call (st_cmd sb) o (st_reply sb) c =
      (interpret_reply (st_reply sb) (status h) d, Client (c_sequence c + 1) s')).
  { intros o Eo. unfold call. rewrite Eo. simpl. rewrite Hs, Hg. done. }
  unfold stub_call. destruct (st_request sb) as [rc|].
  - destruct (carries_obj _ _ _ Hreq) as [attrs ->]. rewrite decide_True by done.
    apply Hcall. apply Hreq.
  - destruct Hreq as [[-> ->] _]. by apply Hcall.
Qed.

Section EndToEnd.
Context {St : Type} (hs : list (handler St)) (hd : handler St) (sb : stub).
Context (Hcmd : cmds hs !! st_cmd sb = Some hd) (Hcmd_range : in_s 32 (st_cmd sb) = true).
Context (Hreq_class : rpc_request_class hd = st_request sb).

(** The request that the server sees. *)
Definition request_of (seq : Z) (body : bytes) : rpc_request :=
RpcRequest (RpcHeader seq RPC_PENDING (st_cmd sb) (Z.of_nat (length body))) body.

Definition arg_of (request : pyval) : option pyval :=
match st_request sb with Some _ => Some request | None => None end.

Lemma receive_request seq request body s :
carries (st_request sb) request body → in_u 32 seq = true →
stream (rx s) = request_frame sb seq body → tx_outcomes s = [] →
∃ s1, receive s = (Ok (request_of seq body), s1) ∧ tx s1 = tx s ∧ tx_outcomes s1 = [] ∧
lookup_and_decode hs (request_of seq body) = Ok (hd, arg_of request).
Proof using Hcmd Hcmd_range Hreq_class.
intros Hreq Hseq Hrx Ho.
destruct (receive_skips [] [] [] (hdr (request_of seq body)) body
(request_frame sb seq body) [] s ltac:(constructor)) as (s1 & Er & _ & T1 & O1 & _);
[|done|by rewrite app_nil_r|].
{ apply frame_bytes_frame; [|done]. rewrite wf_header_fields. split_and!; try done. apply Hreq. }
exists s1. split_and!; [done|done|congruence|].
unfold request_of, arg_of.
rewrite (lookup_and_decode_carries hs hd _ request); [by rewrite Hreq_class|done|].
by rewrite Hreq_class.
Qed.

Lemma reply_header_wf seq body st rbody :
in_u 32 seq = true → in_s 32 st = true → in_u 32 (Z.of_nat (length rbody)) = true →
wf_header (make_reply_header (request_of seq body) st rbody) = true.
Proof using Hcmd_range. intros. rewrite wf_header_fields. done. Qed.
End EndToEnd.

Lemma reply_Ok req st body s :
  wf_header (make_reply_header req st body) = true → st = 0 ∨ body = [] → tx_outcomes s = [] →
  ∃ s', reply req st body s = (Ok (), s') ∧
    tx s' = tx s ++ frame_bytes (make_reply_header req st body) body.
Proof.
  intros Hw Hb Ho. destruct (header_roundtrip _ Hw) as (hb & E & D & L).
  unfold reply, frame_bytes.
  assert (negb (st =? 0) && negb (bool_decide (body = [])) = false) as ->.
  { destruct Hb as [->| ->]; [done|]. by rewrite andb_false_r. }
  rewrite E. unfold sendall. rewrite Ho. eauto.
Qed.

(** C5.  A remote call returns what the handler returned.  Let the handler
    registered for a stub's command have the stub's request and reply classes,
    and let it return [ret].  Then for every client and every server socket,
    however the network splits the two byte streams, the server dispatches the
    client's request with one reply, which carries the request's sequence
    number and command, and the client's call returns [ret]. *)
Theorem rpc_call_returns {St} (hs : list (handler St)) hd sb request body seq st ret st' rbody :
  cmds hs !! st_cmd sb = Some hd → in_s 32 (st_cmd sb) = true →
  rpc_request_class hd = st_request sb → rpc_reply_class hd = st_reply sb →
  carries (st_request sb) request body → in_u 32 seq = true →
  h_call hd (arg_of sb request) st = (Ok ret, st') → carries (st_reply sb) ret rbody →
  let repb := frame_bytes (RpcHeader seq 0 (st_cmd sb) (Z.of_nat (length rbody))) rbody in
    (∀ c, c_sequence c = seq → tx_outcomes (c_sock c) = [] → stream (rx (c_sock c)) = repb →
       ∃ c', stub_call sb request c = (Ok ret, c') ∧
         tx (c_sock c') = tx (c_sock c) ++ request_frame sb seq body) ∧
    (∀ s, tx_outcomes s = [] → stream (rx s) = request_frame sb seq body →
       ∃ s', dispatch hs s st = (Ok (), s', st') ∧ tx s' = tx s ++ repb).
Proof.
  intros Hcmd Hrange Hreqc Hrepc Hreq Hseq Hrun Hret repb.
  set (h := make_reply_header (request_of sb seq body) 0 rbody).
  assert (Hh : wf_header h = true) by (apply reply_header_wf; by try apply Hret).
  split.
  - intros c <- Ho Hrx.
    destruct (stub_call_reply sb request body c h rbody) as (c' & E & _ & T); try done.
    exists c'. split; [|done]. rewrite E. f_equal. simpl. unfold interpret_reply.
    destruct (st_reply sb); [by apply carries_decode|]. by destruct Hret as [[-> ->] _].
  - intros s Ho Hrx.
    destruct (receive_request hs hd sb Hcmd Hrange Hreqc seq request body s)
      as (s1 & Er & T1 & O1 & El); try done.
    destruct (reply_Ok (request_of sb seq body) 0 rbody s1 Hh) as (s' & E & T); [by left|done|].
    exists s'. split; [|by rewrite T, T1].
    unfold dispatch. rewrite Er. unfold handle. rewrite El, Hrun.
    rewrite (encode_reply_carries hd ret rbody) by (by rewrite Hrepc). by rewrite E.
Qed.

(** C33.  An RPC error raised by the handler reaches the caller as an RPC error
    with the same code. *)
Theorem rpc_call_raises {St} (hs : list (handler St)) hd sb request body seq st code st' :
  cmds hs !! st_cmd sb = Some hd → in_s 32 (st_cmd sb) = true →
  rpc_request_class hd = st_request sb →
  carries (st_request sb) request body → in_u 32 seq = true →
  h_call hd (arg_of sb request) st = (Raise (RPCError code), st') →
  in_s 32 code = true → code ≠ 0 → code ≠ RPC_PENDING →
  ∃ repb,
    (∀ c, c_sequence c = seq → tx_outcomes (c_sock c) = [] → stream (rx (c_sock c)) = repb →
       ∃ c', stub_call sb request c = (Raise (RPCError code), c')) ∧
    (∀ s, tx_outcomes s = [] → stream (rx s) = request_frame sb seq body →
       ∃ s', dispatch hs s st = (Ok (), s', st') ∧ tx s' = tx s ++ repb).
Proof.
  intros Hcmd Hrange Hreqc Hreq Hseq Hrun Hcode Hne Hnp.
  set (h := make_reply_header (request_of sb seq body) code []).
  assert (Hh : wf_header h = true) by (by apply reply_header_wf).
  exists (frame_bytes h []). split.
  - intros c <- Ho Hrx.
    destruct (stub_call_reply sb request body c h []) as (c' & E & _ & T); try done.
    exists c'. rewrite E. f_equal. simpl. unfold interpret_reply.
    apply Z.eqb_neq in Hne. rewrite Hne. simpl.
    assert (G : match get_class RPCError_base code with
      | Ok k => raise_rpc k | Raise KeyError => Raise (RPCError code) | Raise e => Raise e end
      = (Raise (RPCError code) : res pyval)).
    { rewrite get_class_base. destruct (List.find _ _) as [k|] eqn:Ek; [|done].
      apply List.find_some in Ek as [_ Ek%Z.eqb_eq]. simpl. unfold raise_rpc. by rewrite Ek. }
    by destruct (st_reply sb).
  - intros s Ho Hrx.
    destruct (receive_request hs hd sb Hcmd Hrange Hreqc seq request body s)
      as (s1 & Er & T1 & O1 & El); try done.
    destruct (reply_Ok (request_of sb seq body) code [] s1 Hh) as (s' & E & T); [by right|done|].
    exists s'. split; [|by rewrite T, T1].
    unfold dispatch. rewrite Er. unfold handle. rewrite El, Hrun. by rewrite E.
Qed.

Lemma rpc_call_returns_witness :
  let ret := VObj "XDR_object" [("attrs", VList [])] in
  carries (Some XDR_object) ret (be_split 4 0) ∧
  let repb := frame_bytes (RpcHeader 3 0 2 4) (be_split 4 0) in
    (∀ c, c_sequence c = 3 → tx_outcomes (c_sock c) = [] → stream (rx (c_sock c)) = repb →
       ∃ c', stub_call BlastConnection.get_object VNone c = (Ok ret, c') ∧
         tx (c_sock c') = tx (c_sock c) ++ request_frame BlastConnection.get_object 3 []) ∧
    (∀ s, tx_outcomes s = [] → stream (rx s) = request_frame BlastConnection.get_object 3 [] →
       ∃ s', dispatch [ping_handler] s 0%nat = (Ok (), s', 1%nat) ∧ tx s' = tx s ++ repb).
Proof.
  intros ret. split; [split_and!; by vm_compute|].
  apply (rpc_call_returns [ping_handler] ping_handler BlastConnection.get_object
           VNone [] 3 0%nat ret 1%nat (be_split 4 0)); try (by vm_compute);
    split_and!; by vm_compute.
Defined.

(** A handler that refuses with DiamondRPCFCacheMiss. *)
Definition miss_handler : handler nat :=
  Handler 2 None (Some XDR_object) (λ _ n, (raise_rpc DiamondRPCFCacheMiss, n)).

Lemma rpc_call_raises_witness :
  ∃ repb,
    (∀ c, c_sequence c = 3 → tx_outcomes (c_sock c) = [] → stream (rx (c_sock c)) = repb →
       ∃ c', stub_call BlastConnection.get_object VNone c = (Raise (RPCError 501), c')) ∧
    (∀ s, tx_outcomes s = [] → stream (rx s) = request_frame BlastConnection.get_object 3 [] →
       ∃ s', dispatch [miss_handler] s 0%nat = (Ok (), s', 0%nat) ∧ tx s' = tx s ++ repb).
Proof.
  apply (rpc_call_raises [miss_handler] miss_handler BlastConnection.get_object
           VNone [] 3 0%nat 501 0%nat); try (by vm_compute); split_and!; by vm_compute.
Defined.

(** [ControlConnection.session_variables_set] declares [XDR_session_vars] as
    its reply class instead of its request class, so the stub refuses every
    [XDR_session_vars] it is given with [RPCEncodingError], sends nothing, and
    the session variables of the server are never updated through it. *)
Theorem session_variables_set_refused attrs c :
  stub_call ControlConnection.session_variables_set (VObj (xc_name XDR_session_vars) attrs) c =
    (raise_rpc RPCEncodingError, c).
Proof. done. Qed.
