(* ===== verification/SessionVars.v ===== *)
(** Session variables (src/opendiamond/server/sessionvars.py): values accumulated by
    filters and merged across servers by the client.  Every operation of
    [SessionVariables] holds the lock from start to end.  A [SessionVariables] is an
    ordinary object of the search process: every worker process that is forked has
    a copy of its own, and the operations of a process act on its copy alone. *)
From S2P Require Import Prelude Dict Float64.

(** ** One variable *)
Record session_var := SessionVar { global_val : float; local_val : float; between_val : float }.

(** [_SessionVariable.__init__] *)
Definition new_var : session_var := SessionVar fzero fzero fzero.

Definition var_filter_get (v : session_var) : float :=
  fadd (fadd (global_val v) (local_val v)) (between_val v).

Definition var_filter_update (value : float) (between : bool) (v : session_var) : session_var :=
  if between then SessionVar (global_val v) (local_val v) (fadd (between_val v) value)
  else SessionVar (global_val v) (fadd (local_val v) value) (between_val v).

Definition var_client_get (v : session_var) : float := local_val v.

Definition var_client_set (value : float) (v : session_var) : session_var :=
  SessionVar value (between_val v) fzero.

(** ** The set of variables *)
Record SessionVariables := SessionVars {
  vars : dict string session_var;
  between_get_and_set : bool
}.

Definition empty_vars : SessionVariables := SessionVars [] false.

Definition filter_get (keys : list string) (s : SessionVariables) : dict string float :=
  foldl (λ ret key,
    dict_set ret key
      match dict_get (vars s) key with Some v => var_filter_get v | None => fzero end) [] keys.

(** [for key, value in values.items(): var = self._vars.setdefault(key, ...); ...] *)
Definition update_each (f : float → session_var → session_var) (values : dict string float)
    (vs : dict string session_var) : dict string session_var :=
  foldl (λ vs p,
    dict_set vs p.1 (f p.2 (default new_var (dict_get vs p.1)))) vs values.

Definition filter_update (values : dict string float) (s : SessionVariables) : SessionVariables :=
  SessionVars (update_each (λ x, var_filter_update x (between_get_and_set s)) values (vars s))
    (between_get_and_set s).

Definition client_get (s : SessionVariables) : dict string float * SessionVariables :=
  ((λ p, (p.1, var_client_get p.2)) <$> vars s, SessionVars (vars s) true).

Definition client_set (values : dict string float) (s : SessionVariables) : SessionVariables :=
  SessionVars (update_each var_client_set values (vars s)) false.

(** ** Lemmas *)
Lemma dict_get_update_each f values vs k : dict_wf values →
  dict_get (update_each f values vs) k =
    match dict_get values k with
    | Some x => Some (f x (default new_var (dict_get vs k)))
    | None => dict_get vs k
    end.
Proof.
  unfold dict_wf, dict_keys, update_each. revert vs.
  induction values as [|[k' x] values IH]; intros vs Hd; csimpl; [done|].
  apply NoDup_cons in Hd as [Hk Hd]. rewrite IH by done. csimpl. rewrite dict_get_set.
  destruct (decide (k' = k)) as [->|]; [|done].
  assert (dict_get values k = None) as -> by by apply dict_get_None. done.
Qed.

Lemma dict_get_client_get s k :
  dict_get (client_get s).1 k = var_client_get <$> dict_get (vars s) k.
Proof.
  unfold client_get. simpl. induction (vars s) as [|[k' v] l IH]; csimpl; [done|].
  by case_decide.
Qed.

Lemma dict_get_filter_get keys s k :
  dict_get (filter_get keys s) k =
    if decide (k ∈ keys) then
      Some match dict_get (vars s) k with Some v => var_filter_get v | None => fzero end
    else None.
Proof.
  unfold filter_get.
  assert (G : ∀ ret, dict_get (foldl (λ ret key, dict_set ret key
      match dict_get (vars s) key with Some v => var_filter_get v | None => fzero end) ret keys) k =
    if decide (k ∈ keys) then
      Some match dict_get (vars s) k with Some v => var_filter_get v | None => fzero end
    else dict_get ret k); [|apply G].
  induction keys as [|key keys IH]; intros ret; csimpl.
  { done. }
  rewrite IH, dict_get_set. repeat case_decide; set_solver.
Qed.

(** ** Operations, and what they are about *)
Inductive op : Type :=
  | FilterGet (keys : list string)
  | FilterUpdate (values : dict string float)
  | ClientGet
  | ClientSet (values : dict string float).

Definition op_wf (o : op) : Prop :=
  match o with FilterUpdate values | ClientSet values => dict_wf values | _ => True end.

(** An operation on an object. *)
Definition apply_op (s : SessionVariables) (o : op) : SessionVariables :=
  match o with
  | FilterGet _ => s
  | FilterUpdate values => filter_update values s
  | ClientGet => (client_get s).2
  | ClientSet values => client_set values s
  end.
Definition replay (ops : list op) : SessionVariables := foldl apply_op empty_vars ops.

(** What a history of operations says about variable [k]: the values that filters
    added, the value that the client set last, whether anything was said at all. *)
Definition added (k : string) (ops : list op) : list float :=
  omap (λ o, match o with FilterUpdate values => dict_get values k | _ => None end) ops.
Definition last_set (k : string) (ops : list op) : float :=
  foldl (λ g o, match o with ClientSet values => default g (dict_get values k) | _ => g end) fzero ops.
Definition mentioned (k : string) (ops : list op) : bool :=
  existsb (λ o, match o with FilterUpdate values | ClientSet values => dict_mem values k | _ => false end) ops.

(** The partial sums that the client takes over: what [client_get] returned last
    before it set a new value. *)
Fixpoint acked_from (k : string) (s : SessionVariables) (last : float) (ops : list op) : list float :=
  match ops with
  | [] => []
  | o :: ops =>
    let last' := match o with ClientGet => default fzero (dict_get (client_get s).1 k) | _ => last end in
    match o with ClientSet values => if dict_mem values k then [last] else [] | _ => [] end ++ acked_from k (apply_op s o) last' ops
  end.
Definition acked (k : string) (ops : list op) : list float := acked_from k empty_vars fzero ops.

(** The client sets only after it has gotten (since its last set). *)
Fixpoint alternates (between : bool) (ops : list op) : bool :=
  match ops with
  | [] => true
  | ClientGet :: ops => alternates true ops
  | ClientSet _ :: ops => between && alternates false ops
  | _ :: ops => alternates between ops
  end.

(** Left-to-right floating-point sum from 0.0. *)
Definition fsum (l : list float) : float := foldl fadd fzero l.

Lemma fsum_snoc l x : fsum (l ++ [x]) = fadd (fsum l) x.
Proof. unfold fsum. by rewrite foldl_app. Qed.

(** ** What a variable holds

    [pl] and [pb]: the values behind the two accumulators; [g]: the value that the
    client set; [last]: what it got last. *)
Record holds (k : string) (s : SessionVariables) (known : bool) (g last : float) (pl pb : list float) : Prop := {
  h_known : dict_mem (vars s) k = known;
  h_value : default new_var (dict_get (vars s) k) = SessionVar g (fsum pl) (fsum pb);
  h_last : between_get_and_set s = true → last = fsum pl
}.

Lemma holds_update k s known g last pl pb values : holds k s known g last pl pb → dict_wf values →
  ∃ pl' pb', holds k (filter_update values s) (dict_mem values k || known) g last pl' pb' ∧
    pl' ++ pb' ≡ₚ (pl ++ pb) ++ option_list (dict_get values k).
Proof.
  intros [Hk Hv Hl] Hwf.
  assert (E : ∀ k', dict_get (vars (filter_update values s)) k' = match dict_get values k' with
    | Some x => Some (var_filter_update x (between_get_and_set s) (default new_var (dict_get (vars s) k')))
    | None => dict_get (vars s) k' end) by (intros; by apply dict_get_update_each).
  destruct (dict_get values k) as [x|] eqn:Ex.
  - assert (M : dict_mem values k = true) by (unfold dict_mem; by rewrite Ex).
    rewrite M. destruct (between_get_and_set s) eqn:Eb.
    + exists pl, (pb ++ [x]). split; [|cbn; by rewrite app_assoc]. split; [| |intros _; by apply Hl].
      * unfold dict_mem. by rewrite E, Ex.
      * rewrite E, Ex. simpl. rewrite Hv. unfold var_filter_update. simpl. by rewrite fsum_snoc.
    + exists (pl ++ [x]), pb. split; [|rewrite <-!app_assoc; f_equiv; apply Permutation_app_comm]. split.
      * unfold dict_mem. by rewrite E, Ex.
      * rewrite E, Ex. simpl. rewrite Hv. unfold var_filter_update. simpl. by rewrite fsum_snoc.
      * simpl. by rewrite Eb.
  - assert (M : dict_mem values k = false) by (unfold dict_mem; by rewrite Ex).
    rewrite M. exists pl, pb. split; [|by rewrite app_nil_r]. split; [| |done].
    + unfold dict_mem. by rewrite E, Ex.
    + by rewrite E, Ex.
Qed.

Lemma holds_get k s known g last pl pb : holds k s known g last pl pb →
  dict_get (client_get s).1 k = (if known then Some (fsum pl) else None) ∧
  holds k (client_get s).2 known g (default fzero (dict_get (client_get s).1 k)) pl pb.
Proof.
  intros [Hk Hv Hl].
  assert (E : dict_get (client_get s).1 k = if known then Some (fsum pl) else None).
  { rewrite dict_get_client_get. unfold dict_mem in Hk. destruct (dict_get (vars s) k) as [v|].
    - simpl in *. rewrite <-Hk, Hv. done.
    - by rewrite <-Hk. }
  split; [done|]. split; [done|done|]. intros _. rewrite E. unfold dict_mem in Hk.
  destruct (dict_get (vars s) k); simpl in *; rewrite <-Hk; [done|]. simpl. by injection Hv.
Qed.

Lemma holds_set k s known g last pl pb values : holds k s known g last pl pb → dict_wf values → between_get_and_set s = true →
  if dict_mem values k
  then last = fsum pl ∧ holds k (client_set values s) true (default g (dict_get values k)) last pb []
  else holds k (client_set values s) known (default g (dict_get values k)) last pl pb.
Proof.
  intros [Hk Hv Hl] Hwf Hb.
  assert (E : ∀ k', dict_get (vars (client_set values s)) k' = match dict_get values k' with
    | Some x => Some (var_client_set x (default new_var (dict_get (vars s) k')))
    | None => dict_get (vars s) k' end) by (intros; by apply dict_get_update_each).
  unfold dict_mem. destruct (dict_get values k) as [x|] eqn:Ex; simpl.
  - split; [by apply Hl|]. split; [| |done].
    + unfold dict_mem. by rewrite E, Ex.
    + rewrite E, Ex. simpl. by rewrite Hv.
  - split; [| |done].
    + unfold dict_mem in *. by rewrite E, Ex.
    + by rewrite E, Ex.
Qed.

Lemma mentioned_snoc k ops o : mentioned k (ops ++ [o]) = mentioned k [o] || mentioned k ops.
Proof. unfold mentioned. rewrite existsb_app. by rewrite orb_comm. Qed.

(** A history from any state. *)
Lemma holds_run k ops : ∀ s known g last pl pb, holds k s known g last pl pb →
  Forall op_wf ops → alternates (between_get_and_set s) ops = true →
  ∃ last' batches pl' pb',
    holds k (foldl apply_op s ops) (mentioned k ops || known)
      (foldl (λ g o, match o with ClientSet values => default g (dict_get values k) | _ => g end) g ops) last' pl' pb' ∧
    (pl ++ pb) ++ added k ops ≡ₚ mjoin batches ++ pl' ++ pb' ∧ acked_from k s last ops = fsum <$> batches.
Proof.
  induction ops as [|o ops IH]; intros s known g last pl pb Hh Hwf Halt.
  { exists last, [], pl, pb. split_and!; [done| |done]. by rewrite app_nil_r. }
  apply Forall_cons in Hwf as [Ho Hwf]. destruct o as [keys|values| |values].
  - destruct (IH s known g last pl pb Hh Hwf Halt) as (last' & bs & pl' & pb' & ?). by exists last', bs, pl', pb'.
  - destruct (holds_update k s known g last pl pb values Hh Ho) as (pl1 & pb1 & H1 & Hp).
    destruct (IH (filter_update values s) _ g last pl1 pb1 H1 Hwf Halt) as (last' & bs & pl' & pb' & H2 & Hp2 & Ha).
    exists last', bs, pl', pb'. split_and!; [|rewrite <-Hp2, Hp|done].
    + replace (mentioned k (FilterUpdate values :: ops) || known) with (mentioned k ops || (dict_mem values k || known)); [done|].
      cbn [mentioned existsb]. change (existsb _ ops) with (mentioned k ops). by destruct (mentioned k ops), (dict_mem values k), known.
    + rewrite <-!app_assoc. cbn [added]. unfold added. cbn. by destruct (dict_get values k).
  - destruct (holds_get k s known g last pl pb Hh) as [_ H1].
    destruct (IH (client_get s).2 known g _ pl pb H1 Hwf Halt) as (last' & bs & pl' & pb' & ?). by exists last', bs, pl', pb'.
  - cbn in Halt. apply andb_true_iff in Halt as [Hb Halt].
    pose proof (holds_set k s known g last pl pb values Hh Ho Hb) as H1.
    cbn [foldl apply_op mentioned existsb acked_from]. destruct (dict_mem values k) eqn:Em.
    + destruct H1 as [Hlast H1].
      destruct (IH (client_set values s) _ _ last pb [] H1 Hwf Halt) as (last' & bs & pl' & pb' & H2 & Hp2 & Ha).
      exists last', (pl :: bs), pl', pb'. split_and!.
      * by rewrite orb_true_r in H2.
      * rewrite app_nil_r in Hp2. cbn. rewrite <-!app_assoc. f_equiv. exact Hp2.
      * cbn. by rewrite Ha, Hlast.
    + destruct (IH (client_set values s) _ _ last pl pb H1 Hwf Halt) as (last' & bs & pl' & pb' & H2 & Hp2 & Ha).
      by exists last', bs, pl', pb'.
Qed.

(** ** The processes of a search

    Process 0 is the search process, which serves the client and re-executes filters;
    [Fork] starts a worker ([FilterStackRunner] is an [mp.Process]), whose object is
    a copy of what process 0 has at that moment. *)
Inductive proc_event := Fork | At (p : nat) (o : op).

Definition proc_step (ps : list SessionVariables) (e : proc_event) : list SessionVariables :=
  match e with
  | Fork => ps ++ option_list (head ps)
  | At p o => alter (λ s, apply_op s o) p ps
  end.
Definition processes (es : list proc_event) : list SessionVariables := foldl proc_step [empty_vars] es.

(** The operations that made a process's object what it is. *)
Definition history_step (hs : list (list op)) (e : proc_event) : list (list op) :=
  match e with
  | Fork => hs ++ option_list (head hs)
  | At p o => alter (λ h, h ++ [o]) p hs
  end.
Definition histories (es : list proc_event) : list (list op) := foldl history_step [[]] es.

Lemma processes_histories es : processes es = replay <$> histories es.
Proof.
  unfold processes, histories. change [empty_vars] with (replay <$> [[]]). generalize ([[]] : list (list op)).
  induction es as [|e es IH]; intros hs; [done|]. cbn [foldl]. rewrite <-IH. f_equal. destruct e as [|p o]; cbn.
  - rewrite fmap_app. f_equal. by destruct hs.
  - apply list_eq. intros i. rewrite list_lookup_fmap. destruct (decide (p = i)) as [->|Hne].
    + rewrite !list_lookup_alter_eq, list_lookup_fmap. destruct (hs !! i); [|done]. cbn. unfold replay. by rewrite foldl_app.
    + by rewrite !list_lookup_alter_ne, list_lookup_fmap by done.
Qed.


(** The number [n] as a float. *)
Definition fnat (n : Z) : float := match float_of_int n with Ok f => f | Raise _ => S754_nan end.

(** The client re-executes filters in the search process, before a worker is forked
    and afterwards; the worker's filter adds 100. *)
Definition sample_events : list proc_event :=
  [At 0 (FilterUpdate [("x", fnat 1); ("y", fnat 5)]); At 0 ClientGet; Fork; At 0 (FilterUpdate [("x", fnat 2)]);
   At 1 (FilterUpdate [("x", fnat 100)]); At 0 (ClientSet [("x", fnat 10); ("y", fnat 5)]); At 0 (FilterUpdate [("x", fnat 4)])].
Definition sample_history : list op := default [] (histories sample_events !! 0).
Definition sample_vars : SessionVariables := default empty_vars (processes sample_events !! 0).


(** What the filters of the worker processes add never reaches the client, nor the
    other workers; and what the client sets after the start reaches no worker. *)
Example workers_unheard :
  let es := [Fork; Fork; At 1 (FilterUpdate [("x", fnat 1)]); At 2 (FilterUpdate [("x", fnat 2)]); At 0 ClientGet;
             At 0 (ClientSet [("x", fnat 7)])] in
  match processes es with
  | [s0; s1; s2] =>
    (client_get s0).1 = [("x", fnat 0)] ∧ filter_get ["x"] s1 = [("x", fnat 1)] ∧ filter_get ["x"] s2 = [("x", fnat 2)]
  | _ => False
  end.
Proof. vm_compute. split_and!; reflexivity. Qed.
