(* ===== verification/Attributes.v ===== *)
(** Attribute codecs (src/opendiamond/attributes.py), on a little-endian machine:
    [struct]'s native formats are the little-endian ones. *)
From S2P Require Import Prelude PyBytes PyText Float64 FloatText.
Local Open Scope Z_scope.

(** ** struct *)

(** [struct.pack('i', n)] and [struct.unpack('i', data)[0]] *)
Definition pack_i (n : Z) : res bytes := if in_s 32 n then Ok (le_split 4 n) else Raise StructError.
Definition unpack_i (l : bytes) : res Z :=
  if decide (length l = 4%nat) then Ok (wrap_s 32 (le_combine l)) else Raise StructError.

(** [struct.pack('d', x)] and [struct.unpack('d', data)[0]] *)
Definition pack_d (x : float) : bytes := le_split 8 (bits_of_float x).
Definition unpack_d (l : bytes) : res float :=
  if decide (length l = 8%nat) then Ok (float_of_bits (le_combine l)) else Raise StructError.

(** ** StringAttributeCodec *)
Definition string_encode (s : string) : bytes := str_encode s ++ [Byte.x00].
Definition string_decode (data : bytes) : res string :=
  s ← bytes_decode data;
  match last (str_encode s) with
  | None => Raise IndexError
  | Some c => if decide (c = Byte.x00)
              then Ok (String.string_of_list_byte (take (length (str_encode s) - 1) (str_encode s)))
              else Raise ValueError
  end.

(** ** IntegerAttributeCodec and DoubleAttributeCodec *)
Definition integer_encode (n : Z) : res bytes := pack_i n.
Definition integer_decode (data : bytes) : res Z := unpack_i data.
Definition double_encode (x : float) : bytes := pack_d x.
Definition double_decode (data : bytes) : res float := unpack_d data.

(** ** PatchesAttributeCodec *)
Definition coord : Type := Z * Z.
Definition patch : Type := coord * coord.

Definition patch_encode (p : patch) : res bytes :=
  let '((x0, y0), (x1, y1)) := p in
  a ← pack_i x0; b ← pack_i y0; c ← pack_i x1; d ← pack_i y1; Ok (a ++ b ++ c ++ d).

(** [struct.pack('<id', len(patches), distance)], then each patch. *)
Definition patches_encode (distance : float) (patches : list patch) : res bytes :=
  n ← pack_i (Z.of_nat (length patches));
  ps ← mapM_res patch_encode patches;
  Ok (n ++ pack_d distance ++ concat ps).

(** [_parse('<iiii', data)] *)
Definition patch_parse (data : bytes) : res (bytes * patch) :=
  let d := take 16 data in
  if decide (length d = 16%nat) then
    x0 ← unpack_i (take 4 d); y0 ← unpack_i (take 4 (drop 4 d));
    x1 ← unpack_i (take 4 (drop 8 d)); y1 ← unpack_i (drop 12 d);
    Ok (drop 16 data, ((x0, y0), (x1, y1)))
  else Raise StructError.

(** [for _i in range(count)]; a negative count is an empty range. *)
Fixpoint patches_loop (count : nat) (data : bytes) : res (list patch) :=
  match count with
  | O => Ok []
  | S count => '(data, p) ← patch_parse data; ps ← patches_loop count data; Ok (p :: ps)
  end.

Definition patches_decode (data : bytes) : res (float * list patch) :=
  let d := take 12 data in
  if decide (length d = 12%nat) then
    count ← unpack_i (take 4 d);
    distance ← unpack_d (drop 4 d);
    ps ← patches_loop (Z.to_nat count) (drop 12 data);
    Ok (distance, ps)
  else Raise StructError.

(** ** Round trips *)
Lemma unpack_pack_i n b : pack_i n = Ok b → length b = 4%nat ∧ unpack_i b = Ok n.
Proof.
  unfold pack_i. destruct (in_s 32 n) eqn:E; [|done]. intros [= <-].
  split; [apply length_le_split|]. unfold unpack_i. rewrite decide_True by apply length_le_split.
  rewrite le_combine_split. change (256 ^ Z.of_nat 4) with (2 ^ 32). rewrite wrap_s_mod by done.
  f_equal. apply wrap_s_id; [done|]. by apply in_s_spec.
Qed.

Lemma unpack_pack_d x : float_valid x = true → unpack_d (pack_d x) = Ok x.
Proof.
  intros Hx. unfold unpack_d, pack_d. rewrite decide_True by apply length_le_split.
  rewrite le_combine_split. change (256 ^ Z.of_nat 8) with (2 ^ 64).
  rewrite Z.mod_small by by apply bits_of_float_range. by rewrite float_bits_roundtrip.
Qed.

Lemma string_roundtrip s : is_str s = true → string_decode (string_encode s) = Ok s.
Proof.
  intros Hs. unfold string_decode, string_encode.
  assert (∃ t, bytes_decode (str_encode s ++ [Byte.x00]) = Ok t) as [t E].
  { unfold bytes_decode. rewrite utf8_valid_app by done. by eexists. }
  rewrite E. apply bytes_decode_Ok in E as [_ E]. unfold mbind, res_bind. rewrite <-E.
  rewrite last_snoc, decide_True by done.
  rewrite length_app, Nat.add_sub, take_app_length. by rewrite string_of_str_encode.
Qed.

Lemma patch_roundtrip p b rest : patch_encode p = Ok b → patch_parse (b ++ rest) = Ok (rest, p).
Proof.
  destruct p as [[x0 y0] [x1 y1]]. unfold patch_encode.
  destruct (pack_i x0) as [a|] eqn:E0; [|done]. destruct (pack_i y0) as [c|] eqn:E1; [|done].
  destruct (pack_i x1) as [d|] eqn:E2; [|done]. destruct (pack_i y1) as [e|] eqn:E3; [|done].
  intros [= <-].
  apply unpack_pack_i in E0 as [L0 U0]. apply unpack_pack_i in E1 as [L1 U1].
  apply unpack_pack_i in E2 as [L2 U2]. apply unpack_pack_i in E3 as [L3 U3].
  assert (length (a ++ c ++ d ++ e) = 16%nat) as L by (rewrite !length_app; lia).
  unfold patch_parse. rewrite (take_app_length' (a ++ c ++ d ++ e)), (drop_app_length' (a ++ c ++ d ++ e)) by lia.
  rewrite decide_True by done.
  rewrite (take_app_length' a _ 4), (drop_app_length' a _ 4), (take_app_length' c _ 4) by lia.
  replace (drop 8 (a ++ c ++ d ++ e)) with (d ++ e)
    by (rewrite (app_assoc a), drop_app_length'; [done|rewrite !length_app; lia]).
  replace (drop 12 (a ++ c ++ d ++ e)) with e
    by (rewrite (app_assoc c), (app_assoc a), drop_app_length'; [done|rewrite !length_app; lia]).
  rewrite (take_app_length' d _ 4) by lia. unfold mbind, res_bind. by rewrite U0, U1, U2, U3.
Qed.

Lemma patches_loop_roundtrip ps bs rest :
  mapM_res patch_encode ps = Ok bs → patches_loop (length ps) (concat bs ++ rest) = Ok ps.
Proof.
  intros H%mapM_res_Ok. induction H as [|p b ps bs Hp H IH]; [done|].
  cbn [length patches_loop concat]. rewrite <-app_assoc, (patch_roundtrip p b) by done.
  unfold mbind, res_bind in *. by rewrite IH.
Qed.

(** ** The claim *)

(** A value of an attribute, with the codec that carries it. *)
Inductive attribute : Type :=
  | AttrString (s : string)
  | AttrInteger (n : Z)
  | AttrDouble (x : float)
  | AttrPatches (distance : float) (patches : list patch).

Definition attribute_encode (v : attribute) : res bytes :=
  match v with
  | AttrString s => Ok (string_encode s)
  | AttrInteger n => integer_encode n
  | AttrDouble x => Ok (double_encode x)
  | AttrPatches d ps => patches_encode d ps
  end.

(** Decoding with the codec that [v] was encoded with. *)
Definition attribute_decode (v : attribute) (data : bytes) : res attribute :=
  match v with
  | AttrString _ => s ← string_decode data; Ok (AttrString s)
  | AttrInteger _ => n ← integer_decode data; Ok (AttrInteger n)
  | AttrDouble _ => x ← double_decode data; Ok (AttrDouble x)
  | AttrPatches _ _ => '(d, ps) ← patches_decode data; Ok (AttrPatches d ps)
  end.

Definition attribute_valid (v : attribute) : bool :=
  match v with
  | AttrString s => is_str s
  | AttrInteger _ => true
  | AttrDouble x => float_valid x
  | AttrPatches d _ => float_valid d
  end.

(** Whatever value an attribute codec accepts (a string, an integer, a
    double or a list of patches), decoding its encoding gives the value back. *)
Theorem attribute_roundtrip v data :
  attribute_valid v = true → attribute_encode v = Ok data → attribute_decode v data = Ok v.
Proof.
  destruct v as [s|n|x|d ps]; cbn [attribute_valid attribute_encode attribute_decode]; intros Hv E.
  - injection E as <-. unfold mbind, res_bind. by rewrite string_roundtrip.
  - apply unpack_pack_i in E as [_ E]. unfold integer_decode, mbind, res_bind. by rewrite E.
  - injection E as <-. unfold double_decode, double_encode, mbind, res_bind. by rewrite unpack_pack_d.
  - unfold patches_encode in E. destruct (pack_i _) as [n|] eqn:En; [|done].
    destruct (mapM_res _ _) as [bs|] eqn:Ebs; [|done]. injection E as <-.
    apply unpack_pack_i in En as [Ln Un]. unfold patches_decode.
    assert (length (pack_d d) = 8%nat) as Ld by apply length_le_split.
    rewrite app_assoc, take_app_length', drop_app_length' by (rewrite length_app; lia).
    rewrite decide_True by (rewrite length_app; lia).
    rewrite take_app_length', drop_app_length' by lia.
    unfold mbind, res_bind. rewrite Un, unpack_pack_d by done. rewrite Nat2Z.id.
    pose proof (patches_loop_roundtrip ps bs [] Ebs) as G. rewrite app_nil_r in G. by rewrite G.
Qed.

Lemma attribute_roundtrip_witness :
  attribute_decode (AttrPatches (dec "0.5") [((-1, 2), (3, 400))])
    (match attribute_encode (AttrPatches (dec "0.5") [((-1, 2), (3, 400))]) with Ok b => b | Raise _ => [] end)
  = Ok (AttrPatches (dec "0.5") [((-1, 2), (3, 400))]).
Proof. refine (attribute_roundtrip _ _ _ _); by vm_compute. Defined.
