(* ===== verification/Statistics.v ===== *)
(** Search and filter statistics (src/opendiamond/server/statistics.py): counters
    shared by the worker processes as C integers, updated under a lock, so the
    workers' updates are a sequence of atomic events. *)
From S2P Require Import Prelude PyBytes Dict Xdr Protocol.
Local Open Scope Z_scope.

(** ** Counters: [mp.Value('i')], 32 bits, assignment wraps *)
Definition stats := dict string Z.

Definition search_attrs : list string :=
  ["objs_processed"; "objs_dropped"; "objs_passed"; "objs_true_positive"; "objs_false_negative";
   "objs_unloadable"; "execution_us"].
Definition filter_attrs : list string :=
  ["objs_processed"; "objs_dropped"; "objs_true_positive"; "objs_false_negative";
   "objs_cache_dropped"; "objs_cache_passed"; "objs_computed"; "objs_terminate"; "execution_us"].

(** [_Statistics.__init__] *)
Definition stats_init (attrs : list string) : stats := (λ n, (n, 0)) <$> attrs.

(** [getattr(stats, name)] and [stats.name += n] *)
Definition counter (name : string) (s : stats) : Z := default 0 (dict_get s name).
Definition bump (name : string) (n : Z) (s : stats) : stats :=
  dict_set s name (wrap_s 32 (counter name s + n)).

(** [int(flag)] *)
Definition flag (b : bool) : Z := if b then 1 else 0.

(** ** FilterRunnerLogger *)
Definition filter_done_evaluate (accept gt_present : bool) (elapsed : Z) (s : stats) : stats :=
  bump "objs_false_negative" (flag (negb accept && gt_present))
  (bump "objs_true_positive" (flag (accept && gt_present))
  (bump "objs_dropped" (flag (negb accept))
  (bump "objs_computed" 1
  (bump "objs_processed" 1
  (bump "execution_us" elapsed s))))).

Definition filter_cache_hit (accept gt_present : bool) (s : stats) : stats :=
  bump "objs_false_negative" (flag (negb accept && gt_present))
  (bump "objs_true_positive" (flag (accept && gt_present))
  (bump "objs_cache_passed" (flag accept)
  (bump "objs_cache_dropped" (flag (negb accept))
  (bump "objs_dropped" (flag (negb accept))
  (bump "objs_processed" 1 s))))).

Definition filter_terminate (s : stats) : stats := bump "objs_terminate" 1 s.

(** ** FilterStackRunnerLogger *)
Definition search_done_evaluate (accept gt_present : bool) (elapsed : Z) (s : stats) : stats :=
  bump "execution_us" elapsed
  (bump "objs_false_negative" (flag (negb accept && gt_present))
  (bump "objs_true_positive" (flag (accept && gt_present))
  (bump "objs_dropped" (flag (negb accept))
  (bump "objs_passed" (flag accept)
  (bump "objs_processed" 1 s))))).

Definition search_unloadable (s : stats) : stats := bump "objs_unloadable" 1 s.

(** ** Reports *)
Definition stat_val (name : string) (z : Z) : pyval :=
  VObj "XDR_stat" [("name", VStr name); ("value", VInt z)].

(** [old_div(execution_us, objs_processed)], 0 when nothing was processed. *)
Definition average_us (s : stats) : Z :=
  let n := counter "objs_processed" s in
  if n =? 0 then 0 else counter "execution_us" s / n.

Definition report (attrs : list string) (s : stats) : list pyval :=
  (λ n, stat_val n (counter n s)) <$> filter (λ n, n ≠ "execution_us") attrs.

(** [FilterStatistics.xdr] *)
Definition filter_stats_xdr (name : string) (s : stats) : pyval :=
  VObj "XDR_filter_stats"
    [("name", VStr name);
     ("stats", VList (stat_val "avg_exec_time_us" (average_us s) :: report filter_attrs s))].

(** [SearchStatistics.xdr] *)
Definition search_stats_xdr (objs_total : Z) (filters : list pyval) (s : stats) : pyval :=
  VObj "XDR_search_stats"
    [("stats", VList (stat_val "objs_total" objs_total :: stat_val "avg_obj_time_us" (average_us s) ::
                      report search_attrs s));
     ("filter_stats", VList filters)].

(** ** Lemmas *)
Lemma counter_bump name n s k :
  counter k (bump name n s) = if decide (name = k) then wrap_s 32 (counter name s + n) else counter k s.
Proof. unfold counter, bump. rewrite dict_get_set. by case_decide. Qed.

Lemma wrap_s_congr z : (wrap_s 32 z - z) mod 2 ^ 32 = 0.
Proof.
  Transparent wrap_s. unfold wrap_s. Opaque wrap_s.
  pose proof (Z_div_mod_eq_full z (2 ^ 32)) as E. destruct (_ >=? _).
  - replace (_ - _ - z) with ((- (z / 2 ^ 32) - 1) * 2 ^ 32) by lia. apply Z_mod_mult.
  - replace (_ - z) with (- (z / 2 ^ 32) * 2 ^ 32) by lia. apply Z_mod_mult.
Qed.

(** Equality of counters, as 32-bit integers. *)
Definition eq32 (a b : Z) : Prop := (a - b) mod 2 ^ 32 = 0.

Lemma eq32_refl a : eq32 a a.
Proof. unfold eq32. by rewrite Z.sub_diag. Qed.
Lemma eq32_iff a b : eq32 a b ↔ ∃ k, a = b + k * 2 ^ 32.
Proof.
  unfold eq32. rewrite Z.mod_divide by done. split; intros [k Hk]; exists k; lia.
Qed.
Lemma eq32_wrap a b : eq32 a b → eq32 (wrap_s 32 a) b.
Proof.
  intros Ha. pose proof (wrap_s_congr a : eq32 _ _) as Hw.
  rewrite eq32_iff in *. destruct Ha as [k ->], Hw as [k' ->]. exists (k + k'). lia.
Qed.
Lemma eq32_small a b : eq32 a b → in_s 32 a = true → in_s 32 b = true → a = b.
Proof. rewrite eq32_iff, !in_s_spec. intros [k ->] H1 H2. lia. Qed.

(** ** The workers' events *)
Inductive filter_event :=
  | FDone (accept gt_present : bool) (elapsed : Z)
  | FHit (accept gt_present : bool)
  | FTerminate.
Definition filter_step (s : stats) (e : filter_event) : stats :=
  match e with
  | FDone a g t => filter_done_evaluate a g t s
  | FHit a g => filter_cache_hit a g s
  | FTerminate => filter_terminate s
  end.
Definition filter_run (es : list filter_event) : stats :=
  foldl filter_step (stats_init filter_attrs) es.

Inductive search_event :=
  | SDone (accept gt_present : bool) (elapsed : Z)
  | SUnloadable.
Definition search_step (s : stats) (e : search_event) : stats :=
  match e with
  | SDone a g t => search_done_evaluate a g t s
  | SUnloadable => search_unloadable s
  end.
Definition search_run (es : list search_event) : stats :=
  foldl search_step (stats_init search_attrs) es.

(** What a counter counts: the number of events of a kind, or their total time. *)
Definition count {E} (f : E → Z) (es : list E) : Z := foldr (λ e n, f e + n) 0 es.

Lemma count_app {E} (f : E → Z) es1 es2 : count f (es1 ++ es2) = count f es1 + count f es2.
Proof. induction es1; simpl; lia. Qed.

Section Counting.
Context {E : Type} (step : stats → E → stats) (name : string) (f : E → Z).
Context (Hstep : ∀ s e c, eq32 (counter name s) c → eq32 (counter name (step s e)) (c + f e)).
Context (Hrange : ∀ s e, in_s 32 (counter name s) = true → in_s 32 (counter name (step s e)) = true).

Lemma run_counts es s : in_s 32 (counter name s) = true →
eq32 (counter name (foldl step s es)) (counter name s + count f es) ∧
in_s 32 (counter name (foldl step s es)) = true.
Proof.
revert s. induction es as [|e es IH]; intros s Hs; simpl.
- rewrite Z.add_0_r. split; [apply eq32_refl|done].
- destruct (IH (step s e)) as [H1 H2]; [by apply Hrange|]. split; [|done].
pose proof (Hstep s e _ (eq32_refl _)) as H3. rewrite eq32_iff in *.
destruct H1 as [k1 ->], H3 as [k2 ->]. exists (k1 + k2). lia.
Qed.
End Counting.

Ltac bumps := intros; simpl; unfold filter_done_evaluate, filter_cache_hit, filter_terminate,
  search_done_evaluate, search_unloadable; rewrite !counter_bump; simpl.

Definition fcount (name : string) (e : filter_event) : Z :=
  match e with
  | FDone a g t =>
    if String.eqb name "execution_us" then t
    else if String.eqb name "objs_processed" || String.eqb name "objs_computed" then 1
    else if String.eqb name "objs_dropped" then flag (negb a)
    else if String.eqb name "objs_true_positive" then flag (a && g)
    else if String.eqb name "objs_false_negative" then flag (negb a && g)
    else 0
  | FHit a g =>
    if String.eqb name "objs_processed" then 1
    else if String.eqb name "objs_dropped" || String.eqb name "objs_cache_dropped" then flag (negb a)
    else if String.eqb name "objs_cache_passed" then flag a
    else if String.eqb name "objs_true_positive" then flag (a && g)
    else if String.eqb name "objs_false_negative" then flag (negb a && g)
    else 0
  | FTerminate => if String.eqb name "objs_terminate" then 1 else 0
  end.

Definition scount (name : string) (e : search_event) : Z :=
  match e with
  | SDone a g t =>
    if String.eqb name "execution_us" then t
    else if String.eqb name "objs_processed" then 1
    else if String.eqb name "objs_passed" then flag a
    else if String.eqb name "objs_dropped" then flag (negb a)
    else if String.eqb name "objs_true_positive" then flag (a && g)
    else if String.eqb name "objs_false_negative" then flag (negb a && g)
    else 0
  | SUnloadable => if String.eqb name "objs_unloadable" then 1 else 0
  end.

Lemma bump_step name n s k m : eq32 (counter k s) m →
  eq32 (counter k (bump name n s)) (m + if String.eqb name k then n else 0).
Proof.
  intros H. rewrite counter_bump. destruct (String.eqb_spec name k) as [E|E];
    [rewrite decide_True by done|by rewrite decide_False, Z.add_0_r by done].
  subst. apply eq32_wrap. rewrite eq32_iff in *. destruct H as [j ->]. exists j. lia.
Qed.

Lemma bump_range name n s k : in_s 32 (counter k s) = true → in_s 32 (counter k (bump name n s)) = true.
Proof. intros H. rewrite counter_bump. case_decide; [by apply wrap_s_range|done]. Qed.

Lemma eq32_trans_eq a b c : eq32 a b → b = c → eq32 a c.
Proof. by intros ? <-. Qed.


Lemma filter_step_counts name s e c : name ∈ filter_attrs → eq32 (counter name s) c →
  eq32 (counter name (filter_step s e)) (c + fcount name e).
Proof.
  intros Hn Hc.
  destruct e as [a g t|a g|]; unfold filter_step, filter_done_evaluate, filter_cache_hit, filter_terminate;
    (eapply eq32_trans_eq; [repeat apply bump_step; exact Hc|]);
    unfold filter_attrs, search_attrs in Hn;
    repeat (apply elem_of_cons in Hn as [->|Hn]; [try (destruct a, g); cbn; lia|]);
    by apply elem_of_nil in Hn.
Qed.

Lemma search_step_counts name s e c : name ∈ search_attrs → eq32 (counter name s) c →
  eq32 (counter name (search_step s e)) (c + scount name e).
Proof.
  intros Hn Hc.
  destruct e as [a g t|]; unfold search_step, search_done_evaluate, search_unloadable;
    (eapply eq32_trans_eq; [repeat apply bump_step; exact Hc|]);
    unfold filter_attrs, search_attrs in Hn;
    repeat (apply elem_of_cons in Hn as [->|Hn]; [try (destruct a, g); cbn; lia|]);
    by apply elem_of_nil in Hn.
Qed.

Lemma filter_step_range name s e :
  in_s 32 (counter name s) = true → in_s 32 (counter name (filter_step s e)) = true.
Proof. destruct e; simpl; intros H; repeat apply bump_range; done. Qed.
Lemma search_step_range name s e :
  in_s 32 (counter name s) = true → in_s 32 (counter name (search_step s e)) = true.
Proof. destruct e; simpl; intros H; repeat apply bump_range; done. Qed.

(** A counter that has not overflowed holds its count. *)
Lemma filter_counter name es : name ∈ filter_attrs → in_s 32 (count (fcount name) es) = true →
  counter name (filter_run es) = count (fcount name) es.
Proof.
  intros Hn Hr. assert (H0 : counter name (stats_init filter_attrs) = 0).
  { unfold filter_attrs, search_attrs in Hn. repeat (apply elem_of_cons in Hn as [->|Hn]; [done|]). by apply elem_of_nil in Hn. }
  destruct (run_counts filter_step name (fcount name)) with (es := es) (s := stats_init filter_attrs)
    as [H1 H2].
  - intros s e c. by apply filter_step_counts.
  - intros s e. by apply filter_step_range.
  - by rewrite H0.
  - rewrite H0 in H1. by apply eq32_small.
Qed.

Lemma search_counter name es : name ∈ search_attrs → in_s 32 (count (scount name) es) = true →
  counter name (search_run es) = count (scount name) es.
Proof.
  intros Hn Hr. assert (H0 : counter name (stats_init search_attrs) = 0).
  { unfold filter_attrs, search_attrs in Hn. repeat (apply elem_of_cons in Hn as [->|Hn]; [done|]). by apply elem_of_nil in Hn. }
  destruct (run_counts search_step name (scount name)) with (es := es) (s := stats_init search_attrs)
    as [H1 H2].
  - intros s e c. by apply search_step_counts.
  - intros s e. by apply search_step_range.
  - by rewrite H0.
  - rewrite H0 in H1. by apply eq32_small.
Qed.

Lemma count_bounds {E} (f : E → Z) es : (∀ e, 0 <= f e <= 1) →
  0 <= count f es <= Z.of_nat (length es).
Proof. intros H. induction es as [|e es IH]; simpl; [lia|]. specialize (H e). lia. Qed.

Lemma count_le {E} (f g : E → Z) es : (∀ e, f e <= g e) → count f es <= count g es.
Proof. intros H. induction es as [|e es IH]; simpl; [lia|]. specialize (H e). lia. Qed.

Lemma count_add {E} (f g h : E → Z) es : (∀ e, f e = g e + h e) →
  count f es = count g es + count h es.
Proof. intros H. induction es as [|e es IH]; simpl; [lia|]. specialize (H e). lia. Qed.

Ltac stat_event := intros [] ; repeat match goal with b : bool |- _ => destruct b end; cbn; lia.

Lemma filter_counts_in_range name es : name ∈ filter_attrs → name ≠ "execution_us" →
  Z.of_nat (length es) < 2 ^ 31 → in_s 32 (count (fcount name) es) = true.
Proof.
  intros Hn Hne Hl. apply in_s_spec. pose proof (count_bounds (fcount name) es) as B.
  cut (∀ e, 0 <= fcount name e <= 1); [intros H; specialize (B H); lia|].
  unfold filter_attrs, search_attrs in Hn.
  repeat (apply elem_of_cons in Hn as [->|Hn]; [first [done|stat_event]|]). by apply elem_of_nil in Hn.
Qed.

Lemma search_counts_in_range name es : name ∈ search_attrs → name ≠ "execution_us" →
  Z.of_nat (length es) < 2 ^ 31 → in_s 32 (count (scount name) es) = true.
Proof.
  intros Hn Hne Hl. apply in_s_spec. pose proof (count_bounds (scount name) es) as B.
  cut (∀ e, 0 <= scount name e <= 1); [intros H; specialize (B H); lia|].
  unfold filter_attrs, search_attrs in Hn.
  repeat (apply elem_of_cons in Hn as [->|Hn]; [first [done|stat_event]|]). by apply elem_of_nil in Hn.
Qed.

Ltac in_attrs := apply (bool_decide_unpack _); vm_compute; exact I.

(** However the workers' events interleave, the reported counters add up, as
    long as fewer than 2^31 events happened: every object that a filter processed
    was either computed or answered from the cache, and every object that the
    search processed was either passed or dropped. *)
Theorem statistics_consistent fs ss :
  Z.of_nat (length fs) < 2 ^ 31 → Z.of_nat (length ss) < 2 ^ 31 →
  let f n := counter n (filter_run fs) in
  let s n := counter n (search_run ss) in
  f "objs_processed" = f "objs_computed" + (f "objs_cache_dropped" + f "objs_cache_passed") ∧
  f "objs_cache_dropped" <= f "objs_dropped" <= f "objs_processed" ∧
  s "objs_processed" = s "objs_passed" + s "objs_dropped" ∧
  s "objs_true_positive" <= s "objs_passed" ∧ s "objs_false_negative" <= s "objs_dropped".
Proof.
  intros Hf Hs f s.
  assert (F : ∀ n, n ∈ filter_attrs → n ≠ "execution_us" → f n = count (fcount n) fs).
  { intros n Hn Hne. apply filter_counter; [done|]. by apply filter_counts_in_range. }
  assert (S : ∀ n, n ∈ search_attrs → n ≠ "execution_us" → s n = count (scount n) ss).
  { intros n Hn Hne. apply search_counter; [done|]. by apply search_counts_in_range. }
  rewrite !F, !S by first [done|in_attrs]. split_and!.
  - rewrite <-(count_add (λ e, fcount "objs_cache_dropped" e + fcount "objs_cache_passed" e)
      (fcount "objs_cache_dropped") (fcount "objs_cache_passed")) by done.
    apply count_add. stat_event.
  - apply count_le. stat_event.
  - apply count_le. stat_event.
  - apply count_add. stat_event.
  - apply count_le. stat_event.
  - apply count_le. stat_event.
Qed.

Lemma statistics_consistent_witness :
  let fs := [FDone true false 10; FHit false true; FTerminate] in
  let ss := [SDone true true 5; SUnloadable; SDone false false 7] in
  let f n := counter n (filter_run fs) in
  let s n := counter n (search_run ss) in
  f "objs_processed" = f "objs_computed" + (f "objs_cache_dropped" + f "objs_cache_passed") ∧
  f "objs_cache_dropped" <= f "objs_dropped" <= f "objs_processed" ∧
  s "objs_processed" = s "objs_passed" + s "objs_dropped" ∧
  s "objs_true_positive" <= s "objs_passed" ∧ s "objs_false_negative" <= s "objs_dropped".
Proof. apply statistics_consistent; simpl; lia. Defined.

(** The execution time is accumulated in microseconds in a 32-bit counter:
    after 2^31 us (36 minutes of work) the total is negative, and so is the
    average time per object that is reported to the client. *)
Theorem execution_time_overflows :
  let ss := [SDone true false (2 ^ 30); SDone true false (2 ^ 30)] in
  counter "execution_us" (search_run ss) = - 2 ^ 31 ∧ average_us (search_run ss) = - 2 ^ 30 ∧
  encode XDR_search_stats (search_stats_xdr 2 [] (search_run ss)) ≠ Raise XDREncodingError.
Proof. split_and!; vm_compute; [reflexivity..|discriminate]. Qed.
