(* ===== verification/FilterStack.v ===== *)
(** Filter stacks (src/opendiamond/server/filter.py, classes [Filter] and
    [FilterStack]): a filter's configuration, the resolution of declared
    dependencies into an execution order, and de-duplication.  A filter object
    is identified by its index in the list given to the constructor. *)
From S2P Require Import Prelude Dict Float64.
From stdpp Require Import relations.

(** The method that [resolve()] puts in place of [connect]: a child process, a
    container behind socat, a shared container behind a pair of named pipes. *)
Inductive connector :=
  | Unresolved
  | Process
  | Socat (docker_image filter_command : string)
  | Fifo (docker_image filter_command : string).

(** ** Filters: the configuration, and what [resolve()] fills in *)
Record Filter := MkFilter {
  f_name : string;
  code_source : string;
  blob_source : string;
  min_score : float;
  max_score : float;
  arguments : list string;
  dependencies : list string;
  code_path : option string;
  signature : option string;
  f_blob : option bytes;
  cache_digest : option string;
  f_mode : option string;
  f_connect : connector
}.

(** [Filter.__init__] *)
Definition Filter_init (name code_source blob_source : string) (min_score max_score : float)
    (arguments dependencies : list string) : Filter :=
  MkFilter name code_source blob_source min_score max_score arguments dependencies
    None None None None None Unresolved.

(** ** FilterStack.__init__ *)
Section Resolve.
Context (filters : list Filter).

(** [self._filters]: name to filter; with equal names the last one wins. *)
Definition by_name : dict string nat := dict_of (imap (λ i f, (f_name f, i)) filters).

(** The two local sets and [self._order]. *)
Record dfs := Dfs { resolved : gset nat; inprocess : gset nat; order : list nat }.

Fixpoint fold_res {A} (f : A → dfs → res dfs) (l : list A) (st : dfs) : res dfs :=
match l with [] => Ok st | a :: l => st ← f a st; fold_res f l st end.

(** The local function [resolve]: depth-first.  Every nested call has one more
filter in [inprocess], so [S (length filters)] levels are enough. *)
Fixpoint resolve (fuel : nat) (i : nat) (st : dfs) : res dfs :=
match fuel with
| O => Raise RuntimeError
| S fuel =>
if decide (i ∈ resolved st) then Ok st else
if decide (i ∈ inprocess st) then Raise FilterDependencyError else
st ← fold_res (λ depname st,
j ← of_option FilterDependencyError (dict_get by_name depname);
resolve fuel j st)
(default [] (dependencies <$> filters !! i))
(Dfs (resolved st) ({[i]} ∪ inprocess st) (order st));
Ok (Dfs ({[i]} ∪ resolved st) (inprocess st ∖ {[i]}) (order st ++ [i]))
end.

Definition FilterStack_init : res (list nat) :=
st ← fold_res (resolve (S (length filters))) (seq 0 (length filters)) (Dfs ∅ ∅ []);
Ok (order st).

(** ** FilterStack.optimize *)
Fixpoint dedup (seen : gset string) (l : list nat) : res (list nat) :=
match l with
| [] => Ok []
| i :: l =>
match filters !! i ≫= cache_digest with
| None | Some "" => Raise FilterDependencyError
| Some d =>
if decide (d ∈ seen) then dedup seen l
else rest ← dedup ({[d]} ∪ seen) l; Ok (i :: rest)
end
end.

(** The order and the [_optimized] flag. *)
Definition optimize (optimized : bool) (ord : list nat) : res (list nat * bool) :=
if optimized then Ok (ord, true) else ord' ← dedup ∅ ord; Ok (ord', true).

(** ** Specification *)

(** Filter [i] declares a dependency on the filter [j]. *)
Definition depends (i j : nat) : Prop :=
∃ f dep, filters !! i = Some f ∧ dep ∈ dependencies f ∧ dict_get by_name dep = Some j.
Definition missing (i : nat) : Prop :=
∃ f dep, filters !! i = Some f ∧ dep ∈ dependencies f ∧ dict_get by_name dep = None.

(** Every filter comes after all it depends on, and nothing is missing. *)
Inductive ordered : list nat → Prop :=
| ordered_nil : ordered []
| ordered_snoc l i :
ordered l → i ∉ l → (i < length filters)%nat → ¬ missing i →
(∀ j, depends i j → j ∈ l) → ordered (l ++ [i]).

Definition dfs_inv (st : dfs) : Prop :=
ordered (order st) ∧ (∀ i, i ∈ resolved st ↔ i ∈ order st) ∧
(∀ i, i ∈ inprocess st → i ∉ order st ∧ (i < length filters)%nat).

Lemma by_name_lt dep j : dict_get by_name dep = Some j → (j < length filters)%nat.
Proof.
unfold by_name, dict_of, dict_update.
assert (G : ∀ (l : list (string * nat)) d, (∀ k v, dict_get d k = Some v → (v < length filters)%nat) →
(∀ p, p ∈ l → (p.2 < length filters)%nat) →
∀ k v, dict_get (foldl (λ d p, dict_set d p.1 p.2) d l) k = Some v → (v < length filters)%nat).
{ induction l as [|[k v] l IH]; intros d Hd Hl; [done|]. csimpl. apply IH.
- intros k' v'. rewrite dict_get_set. case_decide; [|apply Hd].
intros [= <-]. apply (Hl (k, v)). set_solver.
- intros p Hp. apply Hl. set_solver. }
apply G; [done|]. intros p Hp. apply elem_of_lookup_imap in Hp as (i & f & -> & Hf).
by eapply lookup_lt_Some.
Qed.

Lemma depends_lt i j : depends i j → (i < length filters)%nat ∧ (j < length filters)%nat.
Proof. intros (f & dep & Hf & _ & Hj). split; [by eapply lookup_lt_Some | by eapply by_name_lt]. Qed.

(** What a successful [resolve] of some nodes does to the state. *)
Definition grows (st st' : dfs) (js : list nat) : Prop :=
dfs_inv st' ∧ inprocess st' = inprocess st ∧ (∀ j, j ∈ js → j ∈ order st') ∧
(∃ l, order st' = order st ++ l).

Lemma grows_trans st1 st2 st3 js1 js2 :
grows st1 st2 js1 → grows st2 st3 js2 → grows st1 st3 (js1 ++ js2).
Proof.
intros (H1 & H2 & H3 & l1 & H4) (G1 & G2 & G3 & l2 & G4). split_and!; [done|congruence| |].
- intros j [Hj|Hj]%elem_of_app; [|by apply G3]. rewrite G4. set_solver.
- exists (l1 ++ l2). by rewrite G4, H4, <-app_assoc.
Qed.

Lemma resolve_Ok fuel i st st' : (i < length filters)%nat → dfs_inv st →
resolve fuel i st = Ok st' → grows st st' [i].
Proof.
revert i st st'. induction fuel as [|fuel IH]; intros i st st' Hi Hinv H; [done|].
cbn [resolve] in H. case_decide as Hr.
{ simplify_eq. split_and!; [done|done| |exists []; by rewrite app_nil_r].
intros j ->%list_elem_of_singleton. by apply Hinv. }
case_decide as Hp; [done|]. apply bind_Ok in H as (st1 & H & [= <-]).
set (st0 := Dfs (resolved st) ({[i]} ∪ inprocess st) (order st)) in H.
destruct Hinv as (Ho & Hres & Hip).
assert (Hinv0 : dfs_inv st0).
{ split_and!; [done..|]. simpl. intros j [->%elem_of_singleton|Hj]%elem_of_union; [|by apply Hip].
split; [|done]. by rewrite <-Hres. }
destruct (filters !! i) as [f|] eqn:Hf; [|by apply lookup_ge_None in Hf; lia]. simpl in H.
assert (G : ∀ deps sa sb, dfs_inv sa → fold_res (λ depname st,
j ← of_option FilterDependencyError (dict_get by_name depname); resolve fuel j st) deps sa
= Ok sb → (∀ d, d ∈ deps → is_Some (dict_get by_name d)) ∧
grows sa sb (omap (dict_get by_name) deps)).
{ clear H Hinv0 st0 st1. induction deps as [|d deps IHd]; intros sa sb Hsa H; simpl in H.
{ simplify_eq. split; [set_solver|]. split_and!; [done|done|set_solver|exists []; by rewrite app_nil_r]. }
apply bind_Ok in H as (sc & H1 & H2). destruct (dict_get by_name d) as [j|] eqn:Hd; [|done].
simpl in H1. apply IH in H1; [|by eapply by_name_lt|done].
destruct (IHd _ _ (proj1 H1) H2) as [Hall Hg]. split.
- intros d' [->|Hd']%elem_of_cons; [by rewrite Hd | by apply Hall].
- csimpl. rewrite Hd. by apply (grows_trans sa sc sb [j]). }
destruct (G _ _ _ Hinv0 H) as [Hall ((Ho1 & Hres1 & Hip1) & Hip' & Hdeps & l & Hl)].
assert (Hi1 : i ∉ order st1) by (apply Hip1; rewrite Hip'; simpl; set_solver).
split_and!; simpl.
- split_and!; simpl.
+ constructor; [done|done|done| |].
* intros (f' & d & Hf' & Hd & Hnone). simplify_eq. destruct (Hall d Hd). congruence.
* intros j (f' & d & Hf' & Hd & Hj). simplify_eq. apply Hdeps.
apply list_elem_of_omap. eauto.
+ set_solver.
+ intros j. rewrite Hip'. simpl. rewrite elem_of_difference, elem_of_union, elem_of_singleton.
intros [[->|Hj] Hne]; [done|]. destruct (Hip j Hj). rewrite not_elem_of_app. split; [|done].
split; [|set_solver]. apply Hip1. rewrite Hip'. simpl. set_solver.
- rewrite Hip'. simpl. set_solver.
- set_solver.
- exists (l ++ [i]). rewrite Hl. simpl. by rewrite app_assoc.
Qed.

Lemma resolve_Raise fuel i st e :
(i < length filters)%nat → dfs_inv st →
(length filters < fuel + size (inprocess st))%nat →
(∀ p, p ∈ inprocess st → tc depends p i) →
resolve fuel i st = Raise e →
e = FilterDependencyError ∧ ((∃ j, missing j) ∨ (∃ j, tc depends j j)).
Proof.
revert i st e. induction fuel as [|fuel IH]; intros i st e Hi Hinv Hfuel Hpath H.
{ assert (inprocess st ⊆ list_to_set (seq 0 (length filters))) as Hsub.
{ intros j Hj. apply elem_of_list_to_set, elem_of_seq. destruct Hinv as (_ & _ & Hip).
destruct (Hip j Hj). lia. }
apply subseteq_size in Hsub. rewrite size_list_to_set, length_seq in Hsub by apply NoDup_seq. lia. }
cbn [resolve] in H. case_decide as Hr; [done|]. case_decide as Hp.
{ simplify_eq. split; [done|]. right. exists i. by apply Hpath. }
apply bind_Raise in H as [H|(? & _ & ?)]; [|done].
set (st0 := Dfs (resolved st) ({[i]} ∪ inprocess st) (order st)) in H.
destruct Hinv as (Ho & Hres & Hip).
assert (Hinv0 : dfs_inv st0).
{ split_and!; [done..|]. simpl. intros j [->%elem_of_singleton|Hj]%elem_of_union; [|by apply Hip].
split; [|done]. by rewrite <-Hres. }
destruct (filters !! i) as [f|] eqn:Hf; [|by apply lookup_ge_None in Hf; lia]. simpl in H.
assert (Hin0 : inprocess st0 = {[i]} ∪ inprocess st) by done.
assert (Hdeps : dependencies f ⊆ dependencies f) by done. revert Hdeps H.
generalize (dependencies f) at 1 3 as deps. intros deps. revert Hinv0 Hin0.
generalize st0 as sa. clear st0. induction deps as [|d deps IHd]; intros sa Hinv0 Hin0 Hsub H; [done|].
simpl in H. apply bind_Raise in H as [H|(sb & H1 & H2)].
- destruct (dict_get by_name d) as [j|] eqn:Hd; simpl in H.
+ assert (Hij : depends i j) by (exists f, d; set_solver).
eapply IH; [by eapply by_name_lt|done| | |done].
* rewrite Hin0, size_union, size_singleton by set_solver. lia.
* rewrite Hin0. intros p [->%elem_of_singleton|Hpp]%elem_of_union; [by apply tc_once|].
eapply tc_r; [by apply Hpath | done].
+ simplify_eq. split; [done|]. left. exists i, f, d. set_solver.
- destruct (dict_get by_name d) as [j|] eqn:Hd; simpl in H1; [|done].
apply resolve_Ok in H1 as (Hb & Hin & _); [|by eapply by_name_lt|done].
eapply (IHd sb); [done|congruence|set_solver|done].
Qed.
End Resolve.
#[global] Arguments resolve : simpl never.

Section Stack.
Context (filters : list Filter).
Abbreviation n := (length filters).

Lemma init_inv : dfs_inv filters (Dfs ∅ ∅ []).
Proof. split_and!; simpl; [constructor | set_solver | set_solver]. Qed.

Lemma fold_resolve_Ok l st st' : (∀ i, i ∈ l → (i < n)%nat) → dfs_inv filters st →
fold_res (resolve filters (S n)) l st = Ok st' → grows filters st st' l.
Proof.
revert st. induction l as [|i l IH]; intros st Hl Hinv H; simpl in H.
{ simplify_eq. split_and!; [done|done|set_solver|exists []; by rewrite app_nil_r]. }
apply bind_Ok in H as (st1 & H1 & H2).
apply (resolve_Ok filters) in H1; [|set_solver|done].
apply (grows_trans filters st st1 st' [i] l H1). apply IH; [set_solver|apply H1|done].
Qed.

Lemma fold_resolve_Raise l st e : (∀ i, i ∈ l → (i < n)%nat) → dfs_inv filters st →
inprocess st = ∅ → fold_res (resolve filters (S n)) l st = Raise e →
e = FilterDependencyError ∧ ((∃ j, missing filters j) ∨ (∃ j, tc (depends filters) j j)).
Proof.
revert st. induction l as [|i l IH]; intros st Hl Hinv Hin H; [done|]. simpl in H.
apply bind_Raise in H as [H|(st1 & H1 & H2)].
- eapply (resolve_Raise filters); [| |..|exact H]; [set_solver|done|lia|].
rewrite Hin. set_solver.
- apply (resolve_Ok filters) in H1; [|set_solver|done].
apply (IH st1); [set_solver|apply H1| |done]. destruct H1 as (_ & -> & _). done.
Qed.

Lemma ordered_split l1 i l2 :
ordered filters (l1 ++ i :: l2) → ¬ missing filters i ∧ ∀ j, depends filters i j → j ∈ l1.
Proof.
intros H. remember (l1 ++ i :: l2) as l eqn:E. revert l1 l2 E.
induction H as [|l x Hl IH Hx Hlt Hm Hd]; intros l1 l2 E; [by destruct l1|].
destruct l2 as [|y l2 _] using rev_ind.
- apply app_inj_tail in E as [-> ->]. done.
- rewrite app_comm_cons, app_assoc in E. apply app_inj_tail in E as [-> ->]. by eapply IH.
Qed.

Lemma ordered_NoDup l : ordered filters l → NoDup l ∧ ∀ i, i ∈ l → (i < n)%nat.
Proof.
induction 1 as [|l i Hl [Hnd Hlt] Hi Hin _ _]; [split; [constructor|set_solver]|].
split; [|set_solver]. apply NoDup_app. split_and!; [done|set_solver|apply NoDup_singleton].
Qed.

(** In an ordered list, dependencies (also transitive ones) come strictly before. *)
Lemma ordered_tc l i j : ordered filters l → i ∈ l → tc (depends filters) i j → i ≠ j.
Proof.
intros Hl Hi Hij. assert (G : ∀ i j, tc (depends filters) i j → ∀ l1 l2, l = l1 ++ i :: l2 → j ∈ l1).
{ clear i j Hi Hij. induction 1 as [i j Hij|i k j Hik Hkj IH]; intros l1 l2 ->.
- by apply ordered_split in Hl as [_ Hd]; apply Hd.
- apply ordered_split in Hl as Hd. destruct Hd as [_ Hd].
apply Hd, list_elem_of_split in Hik as (la & lb & ->).
assert (j ∈ la); [|set_solver]. eapply (IH la (lb ++ i :: l2)). by rewrite <-app_assoc. }
intros ->. apply list_elem_of_split in Hi as (l1 & l2 & E).
pose proof (G _ _ Hij l1 l2 E) as Hj. apply ordered_NoDup in Hl as [Hnd _].
rewrite E in Hnd. apply NoDup_app in Hnd as (_ & Hnd & _). apply (Hnd j Hj). set_solver.
Qed.

(** C34.  A filter stack that is constructed contains every filter exactly once,
each one after the filters that its dependency names refer to. *)
Theorem FilterStack_topological ord :
FilterStack_init filters = Ok ord →
ord ≡ₚ seq 0 n ∧
∀ l1 i l2 f dep, ord = l1 ++ i :: l2 → filters !! i = Some f → dep ∈ dependencies f →
∃ j g, dict_get (by_name filters) dep = Some j ∧ filters !! j = Some g ∧ j ∈ l1.
Proof.
unfold FilterStack_init. intros H. apply bind_Ok in H as (st & H & [= <-]).
apply fold_resolve_Ok in H as ((Ho & _ & _) & _ & Hall & _);
[|intros i; rewrite elem_of_seq; lia|apply init_inv].
destruct (ordered_NoDup _ Ho) as [Hnd Hlt]. split.
- apply NoDup_Permutation; [done|apply NoDup_seq|]. intros i. split.
+ intros Hi%Hlt. apply elem_of_seq. lia.
+ apply Hall.
- intros l1 i l2 f dep E Hf Hdep. rewrite E in Ho. apply ordered_split in Ho as [Hm Hd].
destruct (dict_get (by_name filters) dep) as [j|] eqn:Hj.
+ destruct (lookup_lt_is_Some_2 filters j) as [g Hg]; [by eapply by_name_lt|].
exists j, g. split_and!; [done..|]. apply Hd. by exists f, dep.
+ destruct Hm. by exists f, dep.
Qed.

(** Construction fails exactly when some filter names a dependency that no
filter has, or the declared dependencies form a cycle; it always ends, and
the only error is [FilterDependencyError]. *)
Theorem FilterStack_error :
(∀ e, FilterStack_init filters = Raise e → e = FilterDependencyError) ∧
(FilterStack_init filters = Raise FilterDependencyError ↔
 (∃ i, missing filters i) ∨ (∃ i, tc (depends filters) i i)).
Proof.
assert (G : ∀ e, FilterStack_init filters = Raise e →
e = FilterDependencyError ∧ ((∃ i, missing filters i) ∨ (∃ i, tc (depends filters) i i))).
{ unfold FilterStack_init. intros e H. apply bind_Raise in H as [H|(? & _ & ?)]; [|done].
apply fold_resolve_Raise in H; [done| |apply init_inv|done].
intros i. rewrite elem_of_seq. lia. }
split; [by intros e [? _]%G|]. split; [by intros [_ ?]%G|].
intros Hbad. destruct (FilterStack_init filters) as [ord|e] eqn:E; [|by destruct (G e eq_refl) as [-> _]].
exfalso. unfold FilterStack_init in E. apply bind_Ok in E as (st & H & [= <-]).
apply fold_resolve_Ok in H as ((Ho & _ & _) & _ & Hall & _);
[|intros i; rewrite elem_of_seq; lia|apply init_inv].
assert (Hin : ∀ i, (i < n)%nat → i ∈ order st) by (intros i Hi; apply Hall, elem_of_seq; lia).
destruct Hbad as [[i Hi]|[i Hi]].
- assert (i ∈ order st) as (l1 & l2 & E)%list_elem_of_split.
{ apply Hin. destruct Hi as (f & _ & Hf & _). by eapply lookup_lt_Some. }
rewrite E in Ho. by apply ordered_split in Ho as [? _].
- apply (ordered_tc (order st) i i Ho); [|done|done]. apply Hin.
inversion Hi; subst; match goal with H : depends _ _ _ |- _ => apply depends_lt in H end; tauto.
Qed.

(** ** optimize *)
Definition digest_of (i : nat) : option string := filters !! i ≫= cache_digest.

Lemma dedup_spec seen l l' :
dedup filters seen l = Ok l' →
l' `sublist_of` l ∧ (∀ i, i ∈ l → ∃ d, digest_of i = Some d ∧ d ≠ "") ∧
NoDup (omap digest_of l') ∧ (∀ d, d ∈ omap digest_of l' → d ∉ seen) ∧
(∀ i d, i ∈ l → digest_of i = Some d → d ∈ seen ∨ d ∈ omap digest_of l').
Proof.
revert seen l'. induction l as [|i l IH]; intros seen l' H; simpl in H.
{ simplify_eq. split_and!; [done|set_solver|constructor|set_solver|set_solver]. }
fold (digest_of i) in H. destruct (digest_of i) as [[|c s]|] eqn:Ed; [done| |done].
set (d := String.String c s) in *. case_decide as Hs.
- destruct (IH _ _ H) as (H1 & H2 & H3 & H4 & H5). split_and!; try done.
+ by apply sublist_cons.
+ intros j [->|Hj]%elem_of_cons; [by exists d | by apply H2].
+ intros j e [->|Hj]%elem_of_cons He; [|by eapply H5].
left. congruence.
- apply bind_Ok in H as (rest & H & [= <-]).
destruct (IH _ _ H) as (H1 & H2 & H3 & H4 & H5). csimpl. rewrite Ed. split_and!.
+ by apply sublist_skip.
+ intros j [->|Hj]%elem_of_cons; [by exists d | by apply H2].
+ constructor; [|done]. intros Hd%H4. set_solver.
+ intros e [->|He]%elem_of_cons; [done|]. specialize (H4 e He). set_solver.
+ intros j e [->|Hj]%elem_of_cons He; [right; rewrite Ed in He; set_solver|].
destruct (H5 j e Hj He) as [[->%elem_of_singleton|?]%elem_of_union|?]; set_solver.
Qed.

(** [optimize] removes exactly the filters whose cache digest an earlier
filter has: what stays is a subsequence of the order with distinct digests,
every digest is still there, and running it again changes nothing. *)
Theorem optimize_deduplicates ord ord' o :
optimize filters false ord = Ok (ord', o) →
ord' `sublist_of` ord ∧ NoDup (omap digest_of ord') ∧
(∀ i, i ∈ ord → ∃ d, digest_of i = Some d ∧ d ∈ omap digest_of ord') ∧
optimize filters o ord' = Ok (ord', o).
Proof.
unfold optimize. intros H. apply bind_Ok in H as (l & H & [= <- <-]).
destruct (dedup_spec _ _ _ H) as (H1 & H2 & H3 & _ & H5). split_and!; [done|done| |done].
intros i Hi. destruct (H2 i Hi) as (d & Hd & _). exists d. split; [done|].
destruct (H5 i d Hi Hd); set_solver.
Qed.
End Stack.

(** ** A concrete stack *)
Definition sample_filter (name : string) (deps : list string) (digest : string) : Filter :=
  MkFilter name "sha256:00" "sha256:00" fninf finf [] deps
    (Some "/tmp/code") (Some "00") (Some []) (Some digest) (Some "default") Process.

Definition sample_filters : list Filter :=
  [sample_filter "dog" ["RGB"; "grid"] "d1"; sample_filter "RGB" [] "d2";
   sample_filter "grid" ["RGB"] "d3"; sample_filter "RGB" [] "d2"].

Lemma FilterStack_topological_witness :
  FilterStack_init sample_filters = Ok [3; 2; 0; 1] ∧
  [3; 2; 0; 1] ≡ₚ seq 0 (length sample_filters) ∧
  ∀ l1 i l2 f dep, [3; 2; 0; 1] = l1 ++ i :: l2 → sample_filters !! i = Some f →
    dep ∈ dependencies f →
    ∃ j g, dict_get (by_name sample_filters) dep = Some j ∧ sample_filters !! j = Some g ∧ j ∈ l1.
Proof.
  split; [by vm_compute|]. apply FilterStack_topological. by vm_compute.
Defined.

Lemma optimize_deduplicates_witness :
  optimize sample_filters false [3; 2; 0; 1] = Ok ([3; 2; 0], true) ∧
  [3; 2; 0] `sublist_of` [3; 2; 0; 1] ∧ NoDup (omap (digest_of sample_filters) [3; 2; 0]) ∧
  (∀ i, i ∈ [3; 2; 0; 1] →
     ∃ d, digest_of sample_filters i = Some d ∧ d ∈ omap (digest_of sample_filters) [3; 2; 0]) ∧
  optimize sample_filters true [3; 2; 0] = Ok ([3; 2; 0], true).
Proof.
  split; [by vm_compute|]. apply (optimize_deduplicates sample_filters _ _ true). by vm_compute.
Defined.
