(* ===== verification/ResultCache.v ===== *)
(** Result-cache drops (src/opendiamond/server/filter.py, [_FilterResult] and
    [FilterStackRunner._result_cache_can_drop]): deciding from cached results
    alone that an object would be dropped.  Runners are identified by their
    position in [self._runners]. *)
From S2P Require Import Prelude Dict Float64.

(** [_FilterResult]; an input attribute maps to [None] when the filter asked for
    it and the object did not have it. *)
Record FilterResult := MkResult {
  input_attrs : dict string (option string);
  output_attrs : dict string string;
  omit_attrs : gset string;
  score : float;
  cache_output : bool
}.

(** [_FilterResult.__init__] *)
Definition FilterResult_init (input_attrs : dict string (option string))
    (output_attrs : dict string string) (omit_attrs : list string) (score : float) : FilterResult :=
  MkResult input_attrs output_attrs (list_to_set omit_attrs) score false.

Section ResultCache.
(** The cached results, in runner order. *)
Context (cache_results : dict nat FilterResult).

(** [output_attrs]: attribute name to the runners whose cached result has it. *)
Definition build_output_attrs : dict string (list nat) :=
foldl (λ m p,
foldl (λ m k, dict_set m k (default [] (dict_get m k) ++ [p.1])) m (dict_keys (output_attrs p.2)))
[] cache_results.

Definition providers (key : string) : list nat := default [] (dict_get build_output_attrs key).

Record rc_state := RcState { rc_resolved : gmap nat (gset nat); rc_inprocess : gset nat }.

(** The inner loop: the first runner with the right value that resolves. *)
Fixpoint try_providers (rec : nat → rc_state → option (gset nat) * rc_state)
(key sig : string) (curs : list nat) (st : rc_state) : option (gset nat) * rc_state :=
match curs with
| [] => (None, st)
| cur :: curs =>
if decide ((r ← dict_get cache_results cur; dict_get (output_attrs r) key) = Some sig) then
match rec cur st with
| (Some deps, st) => (Some deps, st)
| (None, st) => try_providers rec key sig curs st
end
else try_providers rec key sig curs st
end.

(** The outer loop over the input attributes. *)
Fixpoint resolve_inputs (rec : nat → rc_state → option (gset nat) * rc_state)
(inputs : dict string (option string)) (deps : gset nat) (st : rc_state) :
option (gset nat) * rc_state :=
match inputs with
| [] => (Some deps, st)
| (_, None) :: _ => (None, st)
| (key, Some sig) :: inputs =>
match try_providers rec key sig (providers key) st with
| (Some cur_deps, st) => resolve_inputs rec inputs (deps ∪ cur_deps) st
| (None, st) => (None, st)
end
end.

(** The local function [resolve].  Nested calls have distinct runners in
[inprocess], all with a cached result, so [S (length cache_results)] levels
are enough ([resolve_complete] needs the bound). *)
Fixpoint rc_resolve (fuel : nat) (runner : nat) (st : rc_state) : option (gset nat) * rc_state :=
match fuel with
| O => (None, st)
| S fuel =>
match rc_resolved st !! runner with
| Some deps => (Some deps, st)
| None =>
match dict_get cache_results runner with
| None => (None, st)
| Some result =>
if decide (runner ∈ rc_inprocess st) then (None, st) else
let '(r, st') := resolve_inputs (rc_resolve fuel) (input_attrs result) {[runner]}
(RcState (rc_resolved st) ({[runner]} ∪ rc_inprocess st)) in
let st' := RcState (rc_resolved st') (rc_inprocess st' ∖ {[runner]}) in
match r with
| Some deps => (Some deps, RcState (<[runner := deps]> (rc_resolved st')) (rc_inprocess st'))
| None => (None, st')
end
end
end
end.

(** [for runner, result in cache_results.items(): if not runner.threshold(...)]:
the runners to notify when the object can be dropped. *)
Fixpoint find_drop (threshold : nat → FilterResult → bool) (items : dict nat FilterResult) (st : rc_state) : option (gset nat) :=
match items with
| [] => None
| (runner, result) :: items =>
if threshold runner result then find_drop threshold items st
else match rc_resolve (S (length cache_results)) runner st with
 | (Some deps, _) => Some deps
 | (None, st) => find_drop threshold items st
 end
end.

(** [_result_cache_can_drop]: [Some deps] is [True], after [cache_hit] on every
runner of [deps]; [None] is [False]. *)
Definition result_cache_can_drop (threshold : nat → FilterResult → bool) : option (gset nat) :=
find_drop threshold cache_results (RcState ∅ ∅).

(** ** Specification *)

(** Runner [cur] has a cached result in which [key] has the signature [sig]. *)
Definition provides (cur : nat) (key sig : string) : Prop :=
∃ r, dict_get cache_results cur = Some r ∧ dict_get (output_attrs r) key = Some sig.

(** A cached result is usable when each of its inputs was an output, with the
same value, of a usable cached result: the least such set. *)
Inductive Usable : nat → Prop :=
| usable r res (src : string * option string → nat) :
dict_get cache_results r = Some res →
(∀ k v, (k, v) ∈ input_attrs res → ∃ sig, v = Some sig ∧ provides (src (k, v)) k sig) →
(∀ kv, kv ∈ input_attrs res → Usable (src kv)) →
Usable r.

(** The runners of [deps] justify each other. *)
Definition closed (deps : gset nat) : Prop :=
∀ r, r ∈ deps → ∃ res, dict_get cache_results r = Some res ∧
∀ k v, (k, v) ∈ input_attrs res → ∃ sig cur, v = Some sig ∧ cur ∈ deps ∧ provides cur k sig.

Definition good (r : nat) (deps : gset nat) : Prop :=
r ∈ deps ∧ closed deps ∧ ∀ x, x ∈ deps → Usable x.

Definition rc_inv (st : rc_state) : Prop :=
(∀ r deps, rc_resolved st !! r = Some deps → good r deps) ∧
(∀ p, p ∈ rc_inprocess st → p ∈ dict_keys cache_results).

Lemma closed_union d1 d2 : closed d1 → closed d2 → closed (d1 ∪ d2).
Proof.
intros H1 H2 r [Hr|Hr]%elem_of_union; [destruct (H1 r Hr) as (res & E & H) |
destruct (H2 r Hr) as (res & E & H)]; exists res; split; try done;
intros k v Hin; destruct (H k v Hin) as (sig & cur & ? & ? & ?); exists sig, cur; set_solver.
Qed.

(** ** [providers] *)
Lemma build_inner (m : dict string (list nat)) (ks : list string) (r : nat) (k : string) :
NoDup ks →
default [] (dict_get (foldl (λ m k, dict_set m k (default [] (dict_get m k) ++ [r])) m ks) k) =
default [] (dict_get m k) ++ (if decide (k ∈ ks) then [r] else []).
Proof.
revert m. induction ks as [|k' ks IH]; intros m Hnd; csimpl; [by rewrite app_nil_r|].
apply NoDup_cons in Hnd as [Hk Hnd]. rewrite IH, dict_get_set by done.
destruct (decide (k' = k)) as [->|Hne]; simpl.
- rewrite decide_False by done. rewrite app_nil_r. by rewrite decide_True by set_solver.
- f_equal. repeat case_decide; set_solver.
Qed.

(** Finite choice. *)
Lemma list_choice {A} `{EqDecision A} (l : list A) (P : A → nat → Prop) :
(∀ x, x ∈ l → ∃ y, P x y) → ∃ f, ∀ x, x ∈ l → P x (f x).
Proof.
induction l as [|a l IH]; intros H; [exists (λ _, 0); set_solver|].
destruct IH as [f Hf]; [set_solver|]. destruct (H a) as [y Hy]; [set_solver|].
exists (λ x, if decide (x = a) then y else f x). intros x [->|Hx]%elem_of_cons.
- by rewrite decide_True.
- case_decide; [by subst|auto].
Qed.

(** Results decoded from JSON objects, or built by dict assignment, have no
duplicate attribute names, and a dict has no duplicate runners. *)
Definition cache_wf : Prop :=
dict_wf cache_results ∧ ∀ r res, (r, res) ∈ cache_results → dict_wf (output_attrs res).

Lemma providers_spec key cur : cache_wf →
cur ∈ providers key ↔ ∃ sig, provides cur key sig.
Proof.
intros [Hwf Hout]. unfold providers, build_output_attrs, provides.
assert (G : ∀ l m, (∀ r res, (r, res) ∈ l → dict_wf (output_attrs res)) →
(cur ∈ default [] (dict_get (foldl (λ m p,
 foldl (λ m k, dict_set m k (default [] (dict_get m k) ++ [p.1])) m
 (dict_keys (output_attrs p.2))) m l) key)) ↔
cur ∈ default [] (dict_get m key) ∨
∃ res, (cur, res) ∈ l ∧ key ∈ dict_keys (output_attrs res)).
{ induction l as [|[r res] l IH]; intros m Hl; csimpl; [set_solver|].
rewrite IH by set_solver. rewrite build_inner by (apply (Hl r); set_solver).
rewrite elem_of_app. split.
- intros [[?|H]|(res' & ? & ?)]; [by left| |right; exists res'; set_solver].
case_decide; [|set_solver]. right. exists res. set_solver.
- intros [?|(res' & [E|?]%elem_of_cons & Hk)]; [set_solver| |right; eauto].
simplify_eq. left. right. rewrite decide_True by done. set_solver. }
rewrite (G cache_results []) by done. simpl. split.
- intros [?|(res & Hin & Hk)]; [set_solver|]. apply dict_get_is_Some in Hk as [sig Hsig].
exists sig, res. split; [by apply dict_In_get|done].
- intros (sig & res & Hr & Hk). right. exists res. split; [by apply dict_get_In|].
apply dict_get_is_Some. by exists sig.
Qed.

Lemma provides_guard cur key sig :
(r ← dict_get cache_results cur; dict_get (output_attrs r) key) = Some sig ↔ provides cur key sig.
Proof. unfold provides. destruct (dict_get cache_results cur); simpl; naive_solver. Qed.

(** ** Soundness *)
Section Sound.
Context (rec : nat → rc_state → option (gset nat) * rc_state).
Context (Hrec : ∀ r st, rc_inv st →
rc_inv (rec r st).2 ∧ rc_inprocess (rec r st).2 = rc_inprocess st ∧
∀ deps, (rec r st).1 = Some deps → good r deps).

Lemma try_providers_sound key sig curs st : rc_inv st →
let r := try_providers rec key sig curs st in
rc_inv r.2 ∧ rc_inprocess r.2 = rc_inprocess st ∧
∀ deps, r.1 = Some deps → ∃ cur, provides cur key sig ∧ good cur deps.
Proof.
revert st. induction curs as [|cur curs IH]; intros st Hst; simpl; [done|].
case_decide as Hp; [|by apply IH]. apply provides_guard in Hp.
destruct (Hrec cur st Hst) as (H1 & H2 & H3). destruct (rec cur st) as [[deps|] st1]; simpl in *.
- split_and!; [done..|]. intros ? [= <-]. exists cur. auto.
- destruct (IH st1 H1) as (? & E & ?). split_and!; [done|congruence|done].
Qed.

Lemma resolve_inputs_sound inputs deps0 st : rc_inv st →
let r := resolve_inputs rec inputs deps0 st in
rc_inv r.2 ∧ rc_inprocess r.2 = rc_inprocess st ∧
∀ deps, r.1 = Some deps → ∃ extra, deps = deps0 ∪ extra ∧ closed extra ∧
(∀ x, x ∈ extra → Usable x) ∧
∀ k v, (k, v) ∈ inputs → ∃ sig cur, v = Some sig ∧ cur ∈ extra ∧ provides cur k sig.
Proof.
revert deps0 st. induction inputs as [|[k [sig|]] inputs IH]; intros deps0 st Hst; simpl; [| |done].
{ split_and!; [done..|]. intros deps [= <-]. exists ∅. split_and!; set_solver. }
pose proof (try_providers_sound k sig (providers k) st Hst) as (H1 & H2 & H3).
destruct (try_providers rec k sig (providers k) st) as [[cd|] st1]; simpl in *; [|done].
destruct (IH (deps0 ∪ cd) st1 H1) as (I1 & I2 & I3). split_and!; [done|congruence|].
intros deps Hd. destruct (I3 deps Hd) as (extra & -> & Hc & Hu & Hin).
destruct (H3 cd eq_refl) as (cur & Hp & Hcur & Hcl & Hus).
exists (cd ∪ extra). split_and!; [by rewrite (assoc_L (∪))|by apply closed_union|set_solver|].
intros k' v [E|Hkv]%elem_of_cons.
- simplify_eq. exists sig, cur. set_solver.
- destruct (Hin k' v Hkv) as (s & c & ? & ? & ?). exists s, c. set_solver.
Qed.
End Sound.

Lemma rc_resolve_sound fuel : ∀ r st, rc_inv st →
rc_inv (rc_resolve fuel r st).2 ∧
rc_inprocess (rc_resolve fuel r st).2 = rc_inprocess st ∧
∀ deps, (rc_resolve fuel r st).1 = Some deps → good r deps.
Proof.
induction fuel as [|fuel IH]; intros r st Hst; [done|]. cbn [rc_resolve].
destruct (rc_resolved st !! r) as [deps|] eqn:Er.
{ split_and!; [done..|]. intros ? [= <-]. by apply Hst. }
destruct (dict_get cache_results r) as [res|] eqn:Ec; [|done].
case_decide as Hp; [done|].
set (st0 := RcState (rc_resolved st) ({[r]} ∪ rc_inprocess st)).
assert (Hst0 : rc_inv st0).
{ destruct Hst as [H1 H2]. split; [done|]. simpl. intros p [->%elem_of_singleton|?]%elem_of_union;
[|by apply H2]. apply dict_get_is_Some. by eexists. }
pose proof (resolve_inputs_sound (rc_resolve fuel) IH (input_attrs res) {[r]} st0 Hst0)
as (H1 & H2 & H3).
destruct (resolve_inputs _ _ _ st0) as [o st1]. simpl in *.
assert (Hip : rc_inprocess st1 ∖ {[r]} = rc_inprocess st) by (rewrite H2; set_solver).
assert (Hinv1 : rc_inv (RcState (rc_resolved st1) (rc_inprocess st1 ∖ {[r]}))).
{ split; simpl; [apply H1|]. intros p Hpp. apply H1. set_solver. }
destruct o as [deps|]; simpl; [|done].
destruct (H3 deps eq_refl) as (extra & -> & Hcl & Hus & Hin).
assert (Hg : good r ({[r]} ∪ extra)).
{ split_and!; [set_solver| |].
- intros x [->%elem_of_singleton|Hx]%elem_of_union.
+ exists res. split; [done|]. intros k v Hkv.
destruct (Hin k v Hkv) as (sig & cur & ? & ? & ?). exists sig, cur. set_solver.
+ destruct (Hcl x Hx) as (res' & ? & H). exists res'. split; [done|]. intros k v Hkv.
destruct (H k v Hkv) as (sig & cur & ? & ? & ?). exists sig, cur. set_solver.
- intros x [->%elem_of_singleton|Hx]%elem_of_union; [|by apply Hus].
destruct (list_choice (input_attrs res) (λ kv cur, ∃ sig, kv.2 = Some sig ∧ cur ∈ extra ∧
provides cur kv.1 sig)) as [src Hsrc].
{ intros [k v] Hkv. destruct (Hin k v Hkv) as (sig & cur & ?). by exists cur, sig. }
apply (usable r res src Ec).
* intros k v Hkv. destruct (Hsrc _ Hkv) as (sig & ? & ? & ?). by exists sig.
* intros kv Hkv. destruct (Hsrc _ Hkv) as (sig & ? & ? & ?). by apply Hus. }
split_and!; [|done|by intros ? [= <-]].
split; simpl; [|apply Hinv1]. intros r' deps'. rewrite lookup_insert.
case_decide as E; [|apply Hinv1]. intros [= <-]. by subst.
Qed.

(** ** Completeness: usability by height, executable *)
Definition provides_b (cur : nat) (key sig : string) : bool :=
bool_decide ((r ← dict_get cache_results cur; dict_get (output_attrs r) key) = Some sig).

Fixpoint usable_h (h : nat) (r : nat) : bool :=
match h with
| O => false
| S h =>
match dict_get cache_results r with
| None => false
| Some res => forallb (λ kv : string * option string,
match kv.2 with
| None => false
| Some sig => existsb (λ cur, provides_b cur kv.1 sig && usable_h h cur)
(dict_keys cache_results)
end) (input_attrs res)
end
end.

Lemma usable_h_S h r res : dict_get cache_results r = Some res →
usable_h (S h) r = true ↔ ∀ k v, (k, v) ∈ input_attrs res →
∃ sig cur, v = Some sig ∧ provides cur k sig ∧ usable_h h cur = true.
Proof.
intros E. cbn [usable_h]. rewrite E, forallb_forall. split.
- intros H k v Hin. specialize (H (k, v) (proj1 (list_elem_of_In _ _) Hin)). simpl in H.
destruct v as [sig|]; [|done]. apply existsb_exists in H as (cur & _ & H).
apply andb_true_iff in H as [H1%bool_decide_eq_true H2].
exists sig, cur. by rewrite <-provides_guard.
- intros H [k v] Hin. destruct (H k v) as (sig & cur & -> & Hp & Hu); [by apply list_elem_of_In|].
simpl. apply existsb_exists. exists cur. split.
+ apply list_elem_of_In, dict_get_is_Some. destruct Hp as (? & ? & _). by eexists.
+ apply andb_true_iff. split; [|done]. by apply bool_decide_eq_true, provides_guard.
Qed.

Lemma usable_h_mono h r : usable_h h r = true → usable_h (S h) r = true.
Proof.
revert r. induction h as [|h IH]; intros r H; [done|].
destruct (dict_get cache_results r) as [res|] eqn:E; [|by simpl in H; rewrite E in H].
rewrite usable_h_S by done. rewrite usable_h_S in H by done.
intros k v Hin. destruct (H k v Hin) as (sig & cur & ? & ? & ?). eauto 10.
Qed.

Lemma usable_h_le h h' r : h ≤ h' → usable_h h r = true → usable_h h' r = true.
Proof. induction 1; [done|]. intros H'. by apply usable_h_mono, IHle. Qed.

Lemma list_height (l : list (string * option string)) (src : string * option string → nat) :
(∀ kv, kv ∈ l → ∃ h, usable_h h (src kv) = true) →
∃ h, ∀ kv, kv ∈ l → usable_h h (src kv) = true.
Proof.
induction l as [|x l IH]; intros H; [exists 0; set_solver|].
destruct IH as [h1 H1]; [set_solver|]. destruct (H x) as [h2 H2]; [set_solver|].
exists (h1 `max` h2). intros kv [->|Hin]%elem_of_cons.
- eapply usable_h_le; [|exact H2]. lia.
- eapply usable_h_le; [|by apply H1]. lia.
Qed.

(** Every usable result has a height: the least set is reached by iteration. *)
Lemma Usable_height r : Usable r → ∃ h, usable_h h r = true.
Proof.
induction 1 as [r res src E Hin Hsrc IH].
destruct (list_height (input_attrs res) src IH) as [h Hh].
exists (S h). rewrite usable_h_S by done. intros k v Hkv.
destruct (Hin k v Hkv) as (sig & -> & Hp). exists sig, (src (k, Some sig)). auto.
Qed.

Section Complete.
Context (Hwf : cache_wf) (fuel : nat) (h : nat).
Context (Hrec : ∀ r st, rc_inv st → usable_h h r = true →
(∀ p, p ∈ rc_inprocess st → usable_h h p = false) →
length cache_results < fuel + size (rc_inprocess st) →
is_Some (rc_resolve fuel r st).1).

Lemma try_providers_complete key sig curs st : rc_inv st →
(∀ p, p ∈ rc_inprocess st → usable_h h p = false) →
length cache_results < fuel + size (rc_inprocess st) →
(∃ cur, cur ∈ curs ∧ provides cur key sig ∧ usable_h h cur = true) →
is_Some (try_providers (rc_resolve fuel) key sig curs st).1.
Proof.
revert st. induction curs as [|c curs IH]; intros st Hst Hh Hf (cur & Hin & Hp & Hu); [set_solver|].
simpl. case_decide as Hc.
- pose proof (rc_resolve_sound fuel c st Hst) as (H1 & H2 & _).
destruct (rc_resolve fuel c st) as [[deps|] st1] eqn:E; simpl in *; [done|].
apply IH; [done|by rewrite H2..|]. exists cur. split_and!; [|done..].
apply elem_of_cons in Hin as [->|?]; [|done].
destruct (Hrec c st Hst Hu Hh Hf) as [? Hs]. by rewrite E in Hs.
- apply IH; [done..|]. exists cur. split_and!; [|done..].
apply elem_of_cons in Hin as [->|?]; [|done]. by apply provides_guard in Hp.
Qed.

Lemma resolve_inputs_complete inputs deps st : rc_inv st →
(∀ p, p ∈ rc_inprocess st → usable_h h p = false) →
length cache_results < fuel + size (rc_inprocess st) →
(∀ k v, (k, v) ∈ inputs →
 ∃ sig cur, v = Some sig ∧ provides cur k sig ∧ usable_h h cur = true) →
is_Some (resolve_inputs (rc_resolve fuel) inputs deps st).1.
Proof.
revert deps st. induction inputs as [|[k v] inputs IH]; intros deps st Hst Hh Hf Hin; [done|].
destruct (Hin k v) as (sig & cur & -> & Hp & Hu); [set_solver|]. simpl.
pose proof (try_providers_sound _ (rc_resolve_sound fuel) k sig (providers k) st Hst)
as (H1 & H2 & _).
destruct (try_providers_complete k sig (providers k) st) as [cd Hcd]; [done..| |].
{ exists cur. split_and!; [|done..]. apply providers_spec; [done|]. by exists sig. }
destruct (try_providers _ k sig _ st) as [o st1]. simpl in *. subst.
apply IH; [done|by rewrite H2..|]. set_solver.
Qed.
End Complete.

(** The resolution finds every usable result: a runner that is in process is
never needed to justify another, because justifications are well-founded. *)
Lemma resolve_complete : cache_wf → ∀ h fuel r st, rc_inv st → usable_h h r = true →
(∀ p, p ∈ rc_inprocess st → usable_h h p = false) →
length cache_results < fuel + size (rc_inprocess st) →
is_Some (rc_resolve fuel r st).1.
Proof.
intros Hwf. induction h as [|h IH]; intros fuel r st Hst Hu Hh Hf; [done|].
destruct (usable_h h r) eqn:Eu.
{ apply IH; [done..| |done]. intros p Hp. apply not_true_is_false. intros Hp'%usable_h_mono.
by rewrite Hh in Hp'. }
assert (Hsz : size (rc_inprocess st) ≤ length cache_results).
{ rewrite <-(length_fmap fst), <-(size_list_to_set (C:=gset nat)) by apply Hwf.
apply subseteq_size. intros p Hp. apply elem_of_list_to_set. by apply Hst. }
destruct fuel as [|fuel]; [lia|]. cbn [rc_resolve].
destruct (rc_resolved st !! r); [done|].
destruct (dict_get cache_results r) as [res|] eqn:E; [|by cbn in Hu; rewrite E in Hu].
assert (Hr : r ∉ rc_inprocess st) by (intros Hr; rewrite Hh in Hu by done; done).
rewrite decide_False by done. set (st0 := RcState _ _).
destruct (resolve_inputs_complete Hwf fuel h (IH fuel) (input_attrs res) {[r]} st0) as [deps Hd].
- split; [apply Hst|]. intros p [->%elem_of_singleton|?]%elem_of_union; [|by apply Hst].
apply dict_get_is_Some. by eexists.
- intros p [->%elem_of_singleton|Hp]%elem_of_union; [done|]. apply not_true_is_false.
intros Hp'%usable_h_mono. by rewrite Hh in Hp'.
- simpl. rewrite size_union, size_singleton by set_solver. lia.
- by apply (usable_h_S h r res E).
- destruct (resolve_inputs _ _ _ st0) as [o st1]. simpl in *. by subst.
Qed.

Lemma find_drop_spec threshold items st :
cache_wf → rc_inv st → rc_inprocess st = ∅ →
match find_drop threshold items st with
| Some deps => ∃ r res, (r, res) ∈ items ∧ threshold r res = false ∧ good r deps
| None => ∀ r res, (r, res) ∈ items → threshold r res = false → ¬ Usable r
end.
Proof.
intros Hwf. revert st. induction items as [|[r res] items IH]; intros st Hst Hip; [set_solver|].
cbn [find_drop]. destruct (threshold r res) eqn:Et.
- specialize (IH st Hst Hip). destruct (find_drop threshold items st).
{ destruct IH as (r' & res' & ? & ?). exists r', res'. split; [by right|done]. }
intros r' res' [[= -> ->]|Hin]%elem_of_cons Ht; [congruence|by eapply IH].
- pose proof (rc_resolve_sound (S (length cache_results)) r st Hst) as (H1 & H2 & H3).
pose proof (λ h Hu, resolve_complete Hwf h (S (length cache_results)) r st Hst Hu) as H4.
destruct (rc_resolve _ r st) as [[deps|] st1]; cbn [fst snd] in *.
{ exists r, res. split; [by left|]. split; [done|by apply H3]. }
specialize (IH st1 H1 ltac:(congruence)). destruct (find_drop threshold items st1).
{ destruct IH as (r' & res' & ? & ?). exists r', res'. split; [by right|done]. }
intros r' res' [[= -> ->]|Hin]%elem_of_cons Ht; [|by eapply IH].
intros [h Hu]%Usable_height. destruct (H4 h Hu) as [? ?]; [|lia|done]. rewrite Hip. set_solver.
Qed.

Lemma rc_inv_empty : rc_inv (RcState ∅ ∅).
Proof. split; simpl; [intros ??; by rewrite lookup_empty|set_solver]. Qed.

(** C7.  A drop from the result cache is justified: the runners that are
notified all have a cached result, one of them failed its threshold, and every
input of every one of them was an output, with the same value, of another. *)
Theorem can_drop_sound threshold deps :
cache_wf → result_cache_can_drop threshold = Some deps →
(∃ r res, r ∈ deps ∧ dict_get cache_results r = Some res ∧ threshold r res = false) ∧
closed deps ∧ (∀ r, r ∈ deps → Usable r).
Proof.
intros Hwf H. pose proof (find_drop_spec threshold cache_results _ Hwf rc_inv_empty eq_refl) as G.
unfold result_cache_can_drop in H. rewrite H in G.
destruct G as (r & res & Hin & Ht & Hr & Hc & Hu). split_and!; [|done..].
exists r, res. split_and!; [done| |done]. apply dict_In_get; [apply Hwf|done].
Qed.

(** C8.  The result cache drops an object exactly when some cached result fails
its runner's threshold and is usable, usability being the least solution of
"every input was produced, with the same value, by a usable cached result":
the cyclic dependencies met on the way never hide a usable result. *)
Theorem can_drop_complete threshold :
cache_wf →
is_Some (result_cache_can_drop threshold) ↔
∃ r res, dict_get cache_results r = Some res ∧ threshold r res = false ∧ Usable r.
Proof.
intros Hwf. pose proof (find_drop_spec threshold cache_results _ Hwf rc_inv_empty eq_refl) as G.
unfold result_cache_can_drop. destruct (find_drop _ _) as [deps|].
- split; [intros _|done]. destruct G as (r & res & Hin & Ht & Hr & Hc & Hu).
exists r, res. split_and!; [apply dict_In_get; [apply Hwf|done]|done|by apply Hu].
- split; [by intros [? ?]|]. intros (r & res & Hg & Ht & Hu).
by destruct (G r res (dict_get_In _ _ _ Hg) Ht).
Qed.
End ResultCache.

(** ** A concrete cache: fetcher 0, an RGB filter 1, and a filter 2 that dropped *)
Definition sample_cache : dict nat FilterResult :=
  [(0, FilterResult_init [] [("", "s0")] [] finf);
   (1, FilterResult_init [("", Some "s0")] [("_rgb", "s1")] [] finf);
   (2, FilterResult_init [("_rgb", Some "s1")] [] [] fninf)].
Definition sample_threshold (r : nat) (_ : FilterResult) : bool := negb (Nat.eqb r 2).

Lemma sample_cache_wf : cache_wf sample_cache.
Proof.
  split; [apply (bool_decide_unpack (NoDup _)); by vm_compute|].
  intros r res Hin. apply (bool_decide_unpack (NoDup (dict_keys (output_attrs res)))).
  repeat (apply elem_of_cons in Hin as [[= -> ->]|Hin]; [by vm_compute|]). by apply elem_of_nil in Hin.
Qed.

Lemma can_drop_sound_witness :
  ∃ deps, result_cache_can_drop sample_cache sample_threshold = Some deps ∧
  elements deps ≡ₚ [0; 1; 2] ∧
  (∃ r res, r ∈ deps ∧ dict_get sample_cache r = Some res ∧ sample_threshold r res = false) ∧
  closed sample_cache deps ∧ (∀ r, r ∈ deps → Usable sample_cache r).
Proof.
  eexists. split; [by vm_compute|]. split; [apply (bool_decide_unpack _); by vm_compute|].
  apply can_drop_sound; [apply sample_cache_wf|by vm_compute].
Defined.

Lemma can_drop_complete_witness :
  is_Some (result_cache_can_drop sample_cache sample_threshold) ↔
    ∃ r res, dict_get sample_cache r = Some res ∧ sample_threshold r res = false ∧
      Usable sample_cache r.
Proof. apply can_drop_complete, sample_cache_wf. Defined.
