(* ===== verification/Hex.v ===== *)
(** Hexadecimal text: [bytes.hex()], [binascii.hexlify] and [binascii.unhexlify]. *)
From S2P Require Import Prelude PyBytes PyText.
Local Open Scope Z_scope.

Definition hex_digit (d : Z) : byte := Z_byte (if d <? 10 then 48 + d else 87 + d).
Definition hex_value (b : byte) : option Z :=
  let z := byte_Z b in
  if (48 <=? z) && (z <=? 57) then Some (z - 48)
  else if (97 <=? z) && (z <=? 102) then Some (z - 87)
  else if (65 <=? z) && (z <=? 70) then Some (z - 55)
  else None.

Definition hex_byte (b : byte) : bytes :=
  [hex_digit (byte_Z b / 16); hex_digit (byte_Z b mod 16)].
Definition hexlify (l : bytes) : bytes := l ≫= hex_byte.
Definition hex (l : bytes) : string := String.string_of_list_byte (hexlify l).

(** [binascii.unhexlify]: an odd length or a character that is not a
    hexadecimal digit is [binascii.Error]. *)
Fixpoint unhexlify (l : bytes) : res bytes :=
  match l with
  | [] => Ok []
  | [_] => Raise BinasciiError
  | a :: b :: l =>
    h ← of_option BinasciiError (hex_value a);
    lo ← of_option BinasciiError (hex_value b);
    rest ← unhexlify l;
    Ok (Z_byte (16 * h + lo) :: rest)
  end.

Lemma hex_value_digit d : 0 <= d < 16 → hex_value (hex_digit d) = Some d.
Proof.
  intros Hd. assert (d = 0 ∨ d = 1 ∨ d = 2 ∨ d = 3 ∨ d = 4 ∨ d = 5 ∨ d = 6 ∨ d = 7 ∨ d = 8 ∨ d = 9 ∨
    d = 10 ∨ d = 11 ∨ d = 12 ∨ d = 13 ∨ d = 14 ∨ d = 15) as H by lia.
  repeat destruct H as [->|H]; try (by vm_compute). subst. by vm_compute.
Qed.

Lemma nibbles b : 0 <= byte_Z b / 16 < 16 ∧ 0 <= byte_Z b mod 16 < 16.
Proof.
  pose proof (byte_Z_range b). pose proof (Z.mod_pos_bound (byte_Z b) 16).
  split; [|lia]. split; [apply Z.div_pos; lia|apply Z.div_lt_upper_bound; lia].
Qed.

(** [unhexlify] inverts [hexlify], on every byte string. *)
Lemma unhexlify_hexlify l : unhexlify (hexlify l) = Ok l.
Proof.
  induction l as [|b l IH]; [done|]. unfold hexlify in *. csimpl.
  destruct (nibbles b) as [H1 H2]. rewrite !hex_value_digit by done. simpl. rewrite IH. simpl.
  rewrite <-Z_div_mod_eq_full. by rewrite Z_byte_Z.
Qed.

Lemma length_hexlify l : length (hexlify l) = (2 * length l)%nat.
Proof. induction l as [|b l IH]; [done|]. unfold hexlify in *. csimpl. rewrite IH. lia. Qed.

Definition is_hex (b : byte) : Prop := is_Some (hex_value b).

Lemma hexlify_is_hex l : Forall is_hex (hexlify l).
Proof.
  induction l as [|b l IH]; [constructor|]. unfold hexlify in *. csimpl.
  destruct (nibbles b) as [H1 H2].
  repeat constructor; [eexists; by apply hex_value_digit..|done].
Qed.

Lemma unhexlify_Raise l e : unhexlify l = Raise e → e = BinasciiError.
Proof.
  revert l. fix IH 1. intros [|a [|b l]]; simpl; [done|congruence|].
  destruct (hex_value a), (hex_value b); simpl; try congruence.
  intros [H|(? & _ & ?)]%bind_Raise; [by eapply IH|done].
Qed.

(** Lower-case hexadecimal digits. *)
Definition hex_lower (b : byte) : bool := existsb (λ d, bool_decide (b = hex_digit (Z.of_nat d))) (seq 0 16).

Lemma hexlify_lower l : Forall (λ b, hex_lower b = true) (hexlify l).
Proof.
  assert (Hd : ∀ d, 0 <= d < 16 → hex_lower (hex_digit d) = true).
  { intros d Hd. unfold hex_lower. rewrite existsb_exists. exists (Z.to_nat d).
    rewrite in_seq, Z2Nat.id by lia. split; [lia|by apply bool_decide_true]. }
  induction l as [|b l IH]; [constructor|]. unfold hexlify in *. csimpl.
  destruct (nibbles b). repeat constructor; [by apply Hd..|done].
Qed.

Lemma hex_lower_cases (P : byte → Prop) : Forall P (hex_digit ∘ Z.of_nat <$> seq 0 16) → ∀ b, hex_lower b = true → P b.
Proof.
  intros HP b. unfold hex_lower. rewrite existsb_exists. intros (d & Hd & ->%bool_decide_eq_true).
  rewrite Forall_fmap, Forall_forall in HP. apply HP. by apply list_elem_of_In.
Qed.

Ltac hex_cases := refine (hex_lower_cases _ _); repeat (constructor; [by vm_compute|]); constructor.

Lemma hex_lower_not c : hex_lower c = false → ∀ l, c ∉ hexlify l.
Proof. intros Hc l Hin. pose proof (hexlify_lower l) as H. rewrite Forall_forall in H. specialize (H c Hin). congruence. Qed.
