(* ===== verification/Url.v ===== *)
(** [urllib.parse] as the program uses it ([urlparse], [urljoin]), and
    [split_scheme] of src/opendiamond/helpers.py.  A [str] is its UTF-8 bytes;
    all delimiters are ASCII. *)
From S2P Require Import Prelude PyBytes PyText Hex.
Local Open Scope Z_scope.

(** ** urlsplit *)
Definition is_alpha (b : byte) : bool :=
  let z := byte_Z b in (65 <=? z) && (z <=? 90) || (97 <=? z) && (z <=? 122).
Definition scheme_char (b : byte) : bool :=
  is_alpha b || bool_decide (is_Some (digit_value b)) ||
  bool_decide (b = Byte.x2b ∨ b = Byte.x2d ∨ b = Byte.x2e).

(** [(scheme, rest)] *)
Definition split_colon (url : bytes) : bytes * bytes :=
  match split1 Byte.x3a url with
  | Some (c :: s, rest) =>
    if is_alpha c && forallb scheme_char (c :: s) then (lower (c :: s), rest) else ([], url)
  | _ => ([], url)
  end.

(** The text before the first byte that satisfies [P], and the text after it. *)
Fixpoint before (P : byte → bool) (l : bytes) : bytes :=
  match l with [] => [] | b :: l => if P b then [] else b :: before P l end.
Definition after (P : byte → bool) (l : bytes) : bytes := drop (S (length (before P l))) l.
Definition is_byte (c : byte) : byte → bool := λ b, bool_decide (b = c).

(** [//netloc] *)
Definition split_netloc (url : bytes) : bytes * bytes :=
  match url with
  | Byte.x2f :: Byte.x2f :: r =>
    let n := before (λ b, bool_decide (b = Byte.x2f ∨ b = Byte.x3f ∨ b = Byte.x23)) r in
    (n, drop (length n) r)
  | _ => ([], url)
  end.

Definition uses_params : list bytes :=
  str_encode <$> [""; "ftp"; "hdl"; "prospero"; "http"; "https"; "shttp"; "rtsp"; "rtsps"; "rtspu";
    "sip"; "sips"; "mms"; "sftp"; "tel"].
Definition uses_relative : list bytes :=
  str_encode <$> [""; "ftp"; "http"; "gopher"; "nntp"; "imap"; "wais"; "file"; "https"; "shttp";
    "mms"; "prospero"; "rtsp"; "rtsps"; "rtspu"; "sftp"; "svn"; "svn+ssh"; "ws"; "wss"].
Definition uses_netloc : list bytes :=
  str_encode <$> [""; "ftp"; "http"; "gopher"; "nntp"; "telnet"; "imap"; "wais"; "file"; "mms";
    "https"; "shttp"; "snews"; "prospero"; "rtsp"; "rtsps"; "rtspu"; "rsync"; "svn"; "svn+ssh";
    "sftp"; "nfs"; "git"; "git+ssh"; "ws"; "wss"; "itms-services"].

(** Everything up to the last slash, and the last segment. *)
Fixpoint last_segment (l : bytes) : bytes * bytes :=
  match l with
  | [] => ([], [])
  | b :: l =>
    let '(p, q) := last_segment l in
    if decide (p = [] ∧ b ≠ Byte.x2f) then ([], b :: q) else (b :: p, q)
  end.

Record url_parts := UrlParts {
  u_scheme : bytes; u_netloc : bytes; u_path : bytes; u_params : bytes; u_query : bytes; u_fragment : bytes
}.

(** [urlparse(url, default)] *)
Definition urlparse (url default : bytes) : url_parts :=
  let '(s, rest) := split_colon url in
  let scheme := match s with [] => default | _ => s end in
  let '(netloc, rest) := split_netloc rest in
  let fragment := after (is_byte Byte.x23) rest in
  let rest := before (is_byte Byte.x23) rest in
  let query := after (is_byte Byte.x3f) rest in
  let path := before (is_byte Byte.x3f) rest in
  if decide (scheme ∈ uses_params) then
    let '(p, q) := last_segment path in
    UrlParts scheme netloc (p ++ before (is_byte Byte.x3b) q) (after (is_byte Byte.x3b) q) query fragment
  else UrlParts scheme netloc path [] query fragment.

(** [urlunparse] *)
Definition urlunparse (u : url_parts) : bytes :=
  let url := match u_params u with [] => u_path u | ps => u_path u ++ Byte.x3b :: ps end in
  let url :=
    if decide (u_netloc u ≠ [] ∨
               (u_scheme u ≠ [] ∧ u_scheme u ∈ uses_netloc ∧ take 2 url ≠ [Byte.x2f; Byte.x2f]))
    then [Byte.x2f; Byte.x2f] ++ u_netloc u ++
         (if decide (url ≠ [] ∧ take 1 url ≠ [Byte.x2f]) then [Byte.x2f] else []) ++ url
    else url in
  let url := match u_scheme u with [] => url | s => s ++ Byte.x3a :: url end in
  let url := match u_query u with [] => url | q => url ++ Byte.x3f :: q end in
  match u_fragment u with [] => url | f => url ++ Byte.x23 :: f end.

(** Drop the empty elements except at the two ends. *)
Fixpoint inner_nonempty (l : list bytes) : list bytes :=
  match l with
  | [] => []
  | [x] => [x]
  | x :: l => match x with [] => inner_nonempty l | _ => x :: inner_nonempty l end
  end.
Definition squeeze (l : list bytes) : list bytes :=
  match l with [] => [] | x :: l => x :: inner_nonempty l end.

Definition dot : bytes := [Byte.x2e].
Definition dotdot : bytes := [Byte.x2e; Byte.x2e].

Definition resolve_step (acc : list bytes) (seg : bytes) : list bytes :=
  if decide (seg = dotdot) then take (length acc - 1) acc
  else if decide (seg = dot) then acc else acc ++ [seg].

(** [urljoin(base, url)] *)
Definition urljoin_bytes (base url : bytes) : bytes :=
  match base, url with
  | [], _ => url
  | _, [] => base
  | _, _ =>
    let b := urlparse base [] in
    let u := urlparse url (u_scheme b) in
    if decide (u_scheme u ≠ u_scheme b ∨ u_scheme u ∉ uses_relative) then url
    else if decide (u_scheme u ∈ uses_netloc ∧ u_netloc u ≠ []) then urlunparse u
    else
      let netloc := if decide (u_scheme u ∈ uses_netloc) then u_netloc b else u_netloc u in
      if decide (u_path u = [] ∧ u_params u = []) then
        urlunparse (UrlParts (u_scheme u) netloc (u_path b) (u_params b)
          (match u_query u with [] => u_query b | q => q end) (u_fragment u))
      else
        let base_parts := split Byte.x2f (u_path b) in
        let base_parts := if decide (last base_parts = Some []) then base_parts
                          else take (length base_parts - 1) base_parts in
        let segments := if decide (take 1 (u_path u) = [Byte.x2f]) then split Byte.x2f (u_path u)
                        else squeeze (base_parts ++ split Byte.x2f (u_path u)) in
        let resolved := foldl resolve_step [] segments in
        let resolved := if decide (last segments = Some dot ∨ last segments = Some dotdot)
                        then resolved ++ [[]] else resolved in
        let path := match join [Byte.x2f] resolved with [] => [Byte.x2f] | p => p end in
        urlunparse (UrlParts (u_scheme u) netloc path (u_params u) (u_query u) (u_fragment u))
  end.

Definition urljoin (base url : string) : string :=
  String.string_of_list_byte (urljoin_bytes (str_encode base) (str_encode url)).

(** ** helpers.split_scheme *)
Definition split_scheme (url : string) : string * string :=
  let parts := urlparse (str_encode url) [] in
  (String.string_of_list_byte (u_scheme parts), String.string_of_list_byte (u_path parts)).

Example split_schemes :
  split_scheme <$> ["sha256:00ff"; "http://host:5873/a/b;x?q#f"; "/obj/1"; "SHA256:AB"; "file:///tmp/x"] =
  [("sha256", "00ff"); ("http", "/a/b"); ("", "/obj/1"); ("sha256", "AB"); ("file", "/tmp/x")].
Proof. vm_compute. reflexivity. Qed.

(** RFC 3986, section 5.4. *)
Example urljoins :
  urljoin "http://a/b/c/d;p?q" <$>
    ["g:h"; "g"; "./g"; "g/"; "/g"; "//g"; "?y"; "g?y"; "#s"; "g#s"; ";x"; "g;x"; ""; "."; "./"; "..";
     "../"; "../g"; "../.."; "../../"; "../../g"; "../../../g"; "http://x/y"] =
    ["g:h"; "http://a/b/c/g"; "http://a/b/c/g"; "http://a/b/c/g/"; "http://a/g"; "http://g";
     "http://a/b/c/d;p?y"; "http://a/b/c/g?y"; "http://a/b/c/d;p?q#s"; "http://a/b/c/g#s";
     "http://a/b/c/;x"; "http://a/b/c/g;x"; "http://a/b/c/d;p?q"; "http://a/b/c/"; "http://a/b/c/";
     "http://a/b/"; "http://a/b/"; "http://a/b/g"; "http://a/"; "http://a/"; "http://a/g";
     "http://a/g"; "http://x/y"].
Proof. vm_compute. reflexivity. Qed.

(** ** Lemmas *)
Lemma before_id P l : forallb (λ b, negb (P b)) l = true → before P l = l.
Proof.
  induction l as [|b l IH]; simpl; [done|]. intros [H1 H2]%andb_true_iff.
  apply negb_true_iff in H1. rewrite H1. f_equal. by apply IH.
Qed.

Lemma is_hex_plain c l : hex_value c = None → Forall is_hex l →
  forallb (λ b, negb (is_byte c b)) l = true.
Proof.
  intros Hc H. induction H as [|b l [d Hb] Hl IH]; simpl; [done|].
  rewrite IH. unfold is_byte. rewrite bool_decide_eq_false_2 by congruence. done.
Qed.

(** A blob URI is split into its scheme and its signature, for every signature
    that is hexadecimal text. *)
Lemma split_scheme_sha256 (l : bytes) : Forall is_hex l →
  split_scheme (String.string_of_list_byte (str_encode "sha256:" ++ l)) =
    ("sha256", String.string_of_list_byte l).
Proof.
  intros Hl. unfold split_scheme, urlparse.
  replace (str_encode (String.string_of_list_byte (str_encode "sha256:" ++ l)))
    with (str_encode "sha256:" ++ l) by (symmetry; apply String.list_byte_of_string_of_list_byte).
  assert (E : split_colon (str_encode "sha256:" ++ l) = (str_encode "sha256", l)).
  { unfold split_colon. change (str_encode "sha256:" ++ l) with (str_encode "sha256" ++ Byte.x3a :: l).
    by rewrite split1_app by (apply (bool_decide_unpack _); by vm_compute). }
  rewrite E. assert (D : split_netloc l = ([], l)).
  { destruct Hl as [|b l [d Hb] Hl]; [done|]. unfold split_netloc. by destruct b. }
  rewrite D. rewrite !(before_id (is_byte Byte.x23)), !(before_id (is_byte Byte.x3f)) by by apply is_hex_plain.
  rewrite decide_False by (apply (bool_decide_unpack _); by vm_compute). done.
Qed.
