(* ===== verification/Helpers.v ===== *)
(** src/opendiamond/helpers.py: object signatures. *)
From S2P Require Import Prelude PyBytes Hex.
Local Open Scope Z_scope.

(** [mmh3.hash_bytes(data, seed)] is the MurmurHash3 library's. *)
Class Murmur := hash_bytes : bytes → Z → bytes.

(** [murmur] *)
Definition murmur `{Murmur} (data : bytes) : string := hex (hash_bytes data 314159).
