(* ===== verification/ServerObject.v ===== *)
(** Diamond objects on the server (src/opendiamond/server/object_.py):
    attributes, signatures, the omit set, what is sent to the client
    ([EmptyObject], [Object]), and loading ([ObjectLoader]). *)
From S2P Require Import Prelude PyBytes PyText Dict Float64 FloatText Hex Url Helpers Xdr Protocol.

Definition ATTR_HEADER_URL : string := "x-attributes".
Definition ATTR_HEADER_PREFIX : string := "x-attr-".
Definition ATTR_DATA : string := "".
Definition ATTR_OBJ_ID : string := "_ObjectID".
Definition ATTR_DISPLAY_NAME : string := "Display-Name".
Definition ATTR_DEVICE_NAME : string := "Device-Name".

(** [s + '\0'] *)
Definition nul_terminated (s : string) : string := s +:+ String.String Ascii.zero EmptyString.

(** An attribute value: the data retriever and the filters give [bytes], the
    server itself [str]; a filter may send no value at all. *)
Inductive attr_value := ABytes (b : bytes) | AStr (s : string) | ANone.

#[global] Instance attr_value_eq_dec : EqDecision attr_value.
Proof. solve_decision. Defined.

(** [EmptyObject] and [Object]; without [compute_signature] every signature is
    the integer 0, written here as the empty string, which is no hash. *)
Record Obj := MkObj {
  o_id : string;
  o_attrs : dict string attr_value;
  o_signatures : dict string string;
  o_omit_attrs : gset string;
  o_compute_signature : bool;
  o_src : option string;
  o_meta : option string;
  o_mutable : bool
}.

(** [EmptyObject.__init__] *)
Definition EmptyObject_init : Obj := MkObj "" [] [] ∅ true None None false.

Section Objects.
Context `{Murmur}.

Definition signature_of (o : Obj) (value : attr_value) : res string :=
if o_compute_signature o then
match value with
| ABytes b => Ok (murmur b)
| AStr s => Ok (murmur (str_encode s))
| ANone => Raise TypeError
end
else Ok "".

Definition set_attrs (a : dict string attr_value) (s : dict string string) (o : Obj) : Obj :=
MkObj (o_id o) a s (o_omit_attrs o) (o_compute_signature o) (o_src o) (o_meta o) (o_mutable o).
Definition set_omit (x : gset string) (o : Obj) : Obj :=
MkObj (o_id o) (o_attrs o) (o_signatures o) x (o_compute_signature o) (o_src o) (o_meta o) (o_mutable o).
Definition set_src (x : option string) (o : Obj) : Obj :=
MkObj (o_id o) (o_attrs o) (o_signatures o) (o_omit_attrs o) (o_compute_signature o) x (o_meta o) (o_mutable o).
Definition set_meta (x : option string) (o : Obj) : Obj :=
MkObj (o_id o) (o_attrs o) (o_signatures o) (o_omit_attrs o) (o_compute_signature o) (o_src o) x (o_mutable o).

(** [obj[key] = value]: the value is stored before it is hashed. *)
Definition setitem (key : string) (value : attr_value) : sm Obj unit := λ o,
if negb (o_mutable o) then (Raise TypeError, o) else
let o := set_attrs (dict_set (o_attrs o) key value) (o_signatures o) o in
match signature_of o value with
| Ok s => (Ok tt, set_attrs (o_attrs o) (dict_set (o_signatures o) key s) o)
| Raise e => (Raise e, o)
end.

(** [key in obj], [obj[key]], [get_signature], [omit] *)
Definition contains (key : string) (o : Obj) : bool := dict_mem (o_attrs o) key.
Definition getitem (key : string) (o : Obj) : res attr_value := of_option KeyError (dict_get (o_attrs o) key).
Definition get_signature (key : string) (o : Obj) : res string :=
of_option KeyError (dict_get (o_signatures o) key).
Definition omit (key : string) : sm Obj unit := λ o,
if contains key o then (Ok tt, set_omit ({[key]} ∪ o_omit_attrs o) o) else (Raise KeyError, o).

(** [Object.__init__] *)
Definition Object_init (server_id url : string) (src meta : option string) (compute_signature : bool) : Obj :=
let truthy x := match x with Some "" => None | x => x end in
let o := MkObj url [] [] ∅ compute_signature (truthy src) (truthy meta) true in
let o := (setitem ATTR_DEVICE_NAME (AStr (nul_terminated server_id)) o).2 in
(setitem ATTR_OBJ_ID (AStr (nul_terminated url)) o).2.
End Objects.

(** ** What is sent to the client *)

(** [value if isinstance(value, bytes) else str(value).encode()] *)
Definition attr_bytes (v : attr_value) : bytes :=
  match v with ABytes b => b | AStr s => str_encode s | ANone => str_encode "None" end.

Section Send.
(** The order in which a Python set is iterated is not specified. *)
Context (set_order : gset string → list string).

Definition send_keys (for_drop : bool) (o : Obj) : gset string :=
if for_drop then {[ATTR_OBJ_ID]}
else list_to_set (dict_keys (o_attrs o)) ∖ o_omit_attrs o.

Definition send_values (output_set : option (gset string)) (keys : gset string) : gset string :=
match output_set with
| Some s => keys ∩ (s ∪ {[ATTR_OBJ_ID]})
| None => keys
end.

(** [xdr_attributes]: (name, value) pairs *)
Definition xdr_attributes (output_set : option (gset string)) (for_drop : bool) (o : Obj) :
res (list (string * bytes)) :=
let keys := send_keys for_drop o in
let values := send_values output_set keys in
mapM_res (λ name,
if decide (name ∈ values) then v ← getitem name o; Ok (name, attr_bytes v)
else Ok (name, [])) (set_order keys).

Definition attribute_val (p : string * bytes) : pyval :=
VObj "XDR_attribute" [("name", VStr p.1); ("value", VBytes p.2)].

(** [xdr]: an [XDR_object] *)
Definition xdr (output_set : option (gset string)) (o : Obj) : res pyval :=
attrs ← xdr_attributes output_set false o;
Ok (VObj "XDR_object" [("attrs", VList (attribute_val <$> attrs))]).
End Send.

(** ** Loading *)

(** JSON values, as [simplejson] gives them. *)
Inductive json :=
  | JNull | JBool (b : bool) | JInt (z : Z) | JFloat (f : float) | JStr (s : string)
  | JArray (l : list json) | JObject (d : list (string * json)).

(** What the loader uses: the HTTP client (pycurl), the file system, the JSON
    and XML parsers ([xml_object]: the attributes of the root [object] element,
    with xmltodict's prefix), and the text [str()] gives for JSON containers. *)
Class Environment := {
  http_get : string → res (dict string bytes * bytes);
  read_file : string → res bytes;
  json_loads : bytes → res json;
  xml_object : bytes → res (dict string string);
  json_container_str : json → string
}.

(** What a client of the blob cache relies on (BlobCache.v). *)
Class Blobs := {
  blob_get : string → res bytes;
  blob_contains : string → bool
}.

Section Loader.
Context `{Murmur, Environment, Blobs}.

(** [str(v)] *)
Definition json_str (v : json) : string :=
match v with
| JNull => "None"
| JBool b => if b then "True" else "False"
| JInt z => String.string_of_list_byte (format_d z)
| JFloat f => String.string_of_list_byte (format_float f)
| JStr s => s
| _ => json_container_str v
end.

(** [source_available]; [str(obj)] is the object's ID. *)
Definition source_available (o : Obj) : bool :=
let '(scheme, path) := split_scheme (o_id o) in
if decide (scheme = "sha256") then blob_contains path else true.

(** [_HttpLoader.get]: [curl.error] becomes [ObjectLoadError]. *)
Definition http_loader_get (url : string) : res (dict string bytes * bytes) :=
try_except (http_get url) (λ e, bool_decide (e = CurlError)) (λ _, Raise ObjectLoadError).

(** [for k, v in attrs.items(): obj[k] = str(v) + '\0'] *)
Definition set_json_attrs (attrs : list (string * json)) : sm Obj unit :=
mapM_sm (λ p, setitem p.1 (AStr (nul_terminated (json_str p.2)))) attrs ≫= λ _, mret tt.

(** [_load_attributes] *)
Definition load_attributes (url : string) : sm Obj unit :=
'(_, body) ← lift (http_loader_get url);
attrs ← lift (try_except (json_loads body) is_ValueError (λ _, Raise ObjectLoadError));
match attrs with
| JObject d => set_json_attrs d
| _ => fail ObjectLoadError
end.

(** [_load_attrbutes_localfile] *)
Definition load_attributes_localfile (path : string) : sm Obj unit :=
attrs ← lift (try_except (b ← read_file path; json_loads b)
(λ e, bool_decide (e = OSError) || is_ValueError e) (λ _, Raise ObjectLoadError));
match attrs with
| JObject d => set_json_attrs d
| _ => fail ObjectLoadError
end.

(** [_load_blobcache] *)
Definition load_blobcache (sig : string) : sm Obj unit :=
b ← lift (try_except (blob_get sig) (λ e, bool_decide (e = KeyError)) (λ _, Raise ObjectLoadError));
setitem ATTR_DATA (ABytes b).

(** [_load_localfile] *)
Definition load_localfile (path : string) : sm Obj unit :=
b ← lift (read_file path); setitem ATTR_DATA (ABytes b).

(** [_load_dataretriever].  Header values are [bytes], so adding a [str] to one is
a [TypeError], and so is joining the [str] URL with one unless it is empty. *)
Definition load_dataretriever (url : string) : sm Obj unit :=
'(headers, body) ← lift (http_loader_get url);
setitem ATTR_DATA (ABytes body) ≫= λ _,
mapM_sm (λ p : string * bytes,
if startswith (lower (str_encode p.1)) (str_encode ATTR_HEADER_PREFIX)
then fail TypeError else mret tt) headers ≫= λ _,
match dict_get headers ATTR_HEADER_URL with
| None => mret tt
| Some [] => load_attributes url
| Some _ => fail TypeError
end.

(** [_load_src_maybe_meta] *)
Definition load_src_maybe_meta : sm Obj unit := λ o,
match o_src o with
| Some _ => (Ok tt, o)
| None =>
let uri := o_id o in
if decide ((split_scheme uri).1 = "sha256") then (Ok tt, set_src (Some uri) o)
else
(body ← lift (http_loader_get uri);
 el ← lift (xml_object body.2);
 src ← lift (of_option KeyError (dict_get el "@src"));
 modify (set_src (Some (urljoin uri src))) ≫= λ _,
 match dict_get el "@meta" with
 | Some m => modify (set_meta (Some (urljoin uri m)))
 | None => mret tt
 end) o
end.

(** [load] *)
Definition load : sm Obj unit :=
load_src_maybe_meta ≫= λ _,
m ← gets o_meta;
match m with
| Some uri =>
let '(scheme, path) := split_scheme uri in
if decide (scheme = "file") then load_attributes_localfile path else load_attributes uri
| None => mret tt
end ≫= λ _,
src ← gets o_src;
let uri := default "" src in
let '(scheme, path) := split_scheme uri in
(if decide (scheme = "sha256") then load_blobcache path
 else if decide (scheme = "file") then load_localfile path
 else load_dataretriever uri) ≫= λ _,
o ← get_state;
if contains ATTR_DISPLAY_NAME o then mret tt
else setitem ATTR_DISPLAY_NAME (AStr (nul_terminated (o_id o))).
End Loader.

(** ** Invariant *)
Section Laws.
Context `{Murmur}.

Definition obj_wf (o : Obj) : Prop :=
dict_wf (o_attrs o) ∧
(∀ k, k ∈ o_omit_attrs o → k ∈ dict_keys (o_attrs o)) ∧
(∀ k, match dict_get (o_attrs o) k with
| Some v => ∃ s, signature_of o v = Ok s ∧ dict_get (o_signatures o) k = Some s
| None => dict_get (o_signatures o) k = None
end).

Lemma obj_wf_signature o k v : obj_wf o → dict_get (o_attrs o) k = Some v →
∃ s, signature_of o v = Ok s ∧ dict_get (o_signatures o) k = Some s.
Proof. intros (_ & _ & Hs) Hv. specialize (Hs k). by rewrite Hv in Hs. Qed.

Lemma signature_of_set a s o v : signature_of (set_attrs a s o) v = signature_of o v.
Proof. done. Qed.

Lemma setitem_Ok key value o o' u : obj_wf o → setitem key value o = (Ok u, o') → obj_wf o' ∧
o_attrs o' = dict_set (o_attrs o) key value ∧ o_id o' = o_id o ∧ o_omit_attrs o' = o_omit_attrs o ∧
o_src o' = o_src o ∧ o_meta o' = o_meta o ∧ o_mutable o' = o_mutable o.
Proof.
intros (Hwf & Hom & Hsig). unfold setitem. destruct (o_mutable o) eqn:Em; [|done]. simpl.
rewrite signature_of_set. destruct (signature_of o value) as [s|] eqn:Es; [|done].
intros [= <- <-]. split; [|done]. split_and!; simpl; auto with diamond.
- intros k Hk. rewrite dict_keys_set. specialize (Hom k Hk). case_decide; set_solver.
- intros k. rewrite !dict_get_set.
case_decide; [by exists s|apply Hsig].
Qed.

Lemma setitem_total key value o : o_mutable o = true → value ≠ ANone →
∃ o', setitem key value o = (Ok tt, o').
Proof.
intros Hm Hv. unfold setitem, signature_of. rewrite Hm. simpl.
destruct (o_compute_signature o), value; eauto; done.
Qed.

Lemma omit_Ok key o o' u : obj_wf o → omit key o = (Ok u, o') →
obj_wf o' ∧ o_attrs o' = o_attrs o ∧ o_omit_attrs o' = {[key]} ∪ o_omit_attrs o.
Proof.
intros (Hwf & Hom & Hsig). unfold omit. destruct (contains key o) eqn:E; [|done].
intros [= <- <-]. split; [|done]. split_and!; simpl; auto.
apply dict_mem_spec in E. set_solver.
Qed.

Lemma Object_init_wf server_id url src meta c : obj_wf (Object_init server_id url src meta c).
Proof.
unfold Object_init. set (o0 := MkObj _ _ _ _ _ _ _ _).
assert (H0 : obj_wf o0) by (split_and!; simpl; [constructor|set_solver|done]).
destruct (setitem_total ATTR_DEVICE_NAME (AStr (nul_terminated server_id)) o0) as [o1 E1]; [done..|].
pose proof (setitem_Ok _ _ _ _ _ H0 E1) as (H1 & _ & _ & _ & _ & _ & Hm). rewrite E1. simpl.
destruct (setitem_total ATTR_OBJ_ID (AStr (nul_terminated url)) o1) as [o2 E2]; [by rewrite Hm|done|].
rewrite E2. by apply (setitem_Ok _ _ _ _ _ H1 E2).
Qed.

(** Every attribute of an object carries the hash of its current value, the
attributes to omit are among the object's own, and constructing an object,
setting attributes and omitting them keep it so. *)
Theorem object_invariant :
(∀ server_id url src meta c, obj_wf (Object_init server_id url src meta c)) ∧
(∀ key value o o' u, obj_wf o → setitem key value o = (Ok u, o') →
 obj_wf o' ∧ getitem key o' = Ok value ∧
 get_signature key o' = signature_of o value ∧
 ∀ k, k ≠ key → getitem k o' = getitem k o) ∧
(∀ key o o' u, obj_wf o → omit key o = (Ok u, o') → obj_wf o') ∧
(∀ key o, omit key o = (Raise KeyError, o) ↔ contains key o = false).
Proof.
split_and!.
- apply Object_init_wf.
- intros key value o o' u Ho E. pose proof (setitem_Ok _ _ _ _ _ Ho E) as (H1 & Ha & _).
unfold getitem, get_signature. rewrite Ha. split_and!; [done|by rewrite dict_get_set_eq| |].
+ unfold setitem in E. destruct (o_mutable o); [|done]. simpl in E. rewrite signature_of_set in E.
destruct (signature_of o value); [|done]. injection E as <- <-. simpl. by rewrite dict_get_set_eq.
+ intros k Hk. by rewrite dict_get_set_ne.
- intros key o o' u Ho E. by apply (omit_Ok _ _ _ _ Ho E).
- intros key o. unfold omit. destruct (contains key o); split; congruence.
Qed.

Section Sent.
Context (set_order : gset string → list string).
Context (Hset : ∀ X, set_order X ≡ₚ elements X).

(** The value that is sent for an attribute. *)
Definition sent_value (output_set : option (gset string)) (name : string) (v : attr_value) : bytes :=
match output_set with
| None => attr_bytes v
| Some s => if decide (name ∈ s ∨ name = ATTR_OBJ_ID) then attr_bytes v else []
end.

Lemma elem_of_set_order x X : x ∈ set_order X ↔ x ∈ X.
Proof using Hset. by rewrite Hset, elem_of_elements. Qed.

(** Each attribute that is not omitted is sent once; its value is blank unless the
client asked for it, for everything, or it is the object ID. *)
Lemma xdr_attributes_exact output_set o :
obj_wf o →
∃ l, xdr_attributes set_order output_set false o = Ok l ∧ NoDup l.*1 ∧
∀ name b, (name, b) ∈ l ↔
∃ v, dict_get (o_attrs o) name = Some v ∧ name ∉ o_omit_attrs o ∧
 b = sent_value output_set name v.
Proof using Hset.
intros (Hwf & Hom & _). unfold xdr_attributes.
set (keys := send_keys false o). set (vals := send_values output_set keys).
set (f := λ name, (name, if decide (name ∈ vals) then attr_bytes (default ANone (dict_get (o_attrs o) name)) else [])).
assert (Hk : ∀ n, n ∈ keys ↔ n ∈ dict_keys (o_attrs o) ∧ n ∉ o_omit_attrs o).
{ intros n. unfold keys, send_keys. rewrite elem_of_difference, elem_of_list_to_set. done. }
exists (f <$> set_order keys). split_and!.
- apply mapM_res_Ok, Forall2_fmap_r, Forall_Forall2_diag, Forall_forall. intros n Hn.
apply elem_of_set_order, Hk in Hn as [Hn _]. unfold f, getitem. simpl.
case_decide; [|done]. apply dict_get_is_Some in Hn as [v ->]. done.
- rewrite <-list_fmap_compose. change (fst ∘ f) with (@id string). rewrite list_fmap_id, Hset.
apply NoDup_elements.
- intros n b. rewrite list_elem_of_fmap. split.
+ intros (n' & [= -> ->] & [Hn Hno]%elem_of_set_order%Hk).
apply dict_get_is_Some in Hn as [v Hv]. exists v. split_and!; [done..|]. rewrite Hv. simpl.
unfold vals, send_values, sent_value.
assert (n' ∈ keys) by (apply Hk; split; [apply dict_get_is_Some; by eexists|done]).
destruct output_set; repeat case_decide; set_solver.
+ intros (v & Hv & Hno & ->). exists n.
assert (n ∈ keys) by (apply Hk; split; [apply dict_get_is_Some; by eexists|done]).
split; [|by apply elem_of_set_order]. unfold f. rewrite Hv. simpl. f_equal.
unfold vals, send_values, sent_value. destruct output_set; repeat case_decide; set_solver.
Qed.

(** A re-executed object that was dropped is reported by its ID alone,
whatever its attributes, its omitted ones and the requested output set are. *)
Lemma xdr_attributes_dropped output_set o v :
dict_get (o_attrs o) ATTR_OBJ_ID = Some v →
xdr_attributes set_order output_set true o = Ok [(ATTR_OBJ_ID, attr_bytes v)].
Proof using Hset.
intros Hv. unfold xdr_attributes. cbn [send_keys].
assert (E : set_order {[ATTR_OBJ_ID]} = [ATTR_OBJ_ID]).
{ apply Permutation_singleton_r. rewrite Hset. by rewrite elements_singleton. }
rewrite E. cbn [mapM_res]. rewrite decide_True.
- unfold getitem. by rewrite Hv.
- unfold send_values. destruct output_set; set_solver.
Qed.

(** C36.  The object ID's value is always sent, and of the other attributes what the
client asked for.  For an object with an ID that no filter has omitted: if it is
accepted, it is sent with each of its attributes exactly once and no trace of the
omitted ones; an attribute's value is blank unless the client asked for it, for
everything, or it is the object ID; and the ID is sent with its value whatever the
client asked for.  If it was dropped, the ID with its value is all that is sent. *)
Theorem xdr_attributes_sent output_set o i :
obj_wf o → dict_get (o_attrs o) ATTR_OBJ_ID = Some i → ATTR_OBJ_ID ∉ o_omit_attrs o →
xdr_attributes set_order output_set true o = Ok [(ATTR_OBJ_ID, attr_bytes i)] ∧
∃ l, xdr_attributes set_order output_set false o = Ok l ∧ NoDup l.*1 ∧ (ATTR_OBJ_ID, attr_bytes i) ∈ l ∧
∀ name b, (name, b) ∈ l ↔
∃ v, dict_get (o_attrs o) name = Some v ∧ name ∉ o_omit_attrs o ∧
 b = sent_value output_set name v.
Proof using Hset.
intros Hwf Hi Hno. split; [by apply xdr_attributes_dropped|].
destruct (xdr_attributes_exact output_set o Hwf) as (l & E & Hnd & Hl). exists l. split_and!; [done..| |done].
apply Hl. exists i. split_and!; [done..|]. unfold sent_value. destruct output_set; [|done]. rewrite decide_True by by right. done.
Qed.
End Sent.
End Laws.

Section LoadLaws.
Context `{Murmur, Environment, Blobs}.
(** [sig in cache] and [cache[sig]] agree. *)
Context (Hblobs : ∀ sig, blob_contains sig = true ↔ ∃ b, blob_get sig = Ok b).
Context (Hmiss : ∀ sig e, blob_get sig = Raise e → e = KeyError).

Definition set_display_name : sm Obj unit :=
o ← get_state;
if contains ATTR_DISPLAY_NAME o then mret tt
else setitem ATTR_DISPLAY_NAME (AStr (nul_terminated (o_id o))).

Lemma load_blob_eq o sig : o_src o = None → o_meta o = None →
split_scheme (o_id o) = ("sha256", sig) →
load o = (load_blobcache sig ≫= λ _, set_display_name) (set_src (Some (o_id o)) o).
Proof.
intros Hsrc Hmeta E. unfold load. erewrite sm_bind_eq.
2:{ unfold load_src_maybe_meta. rewrite Hsrc, E. reflexivity. }
erewrite sm_bind_eq by reflexivity. cbn [o_meta set_src]. rewrite Hmeta.
erewrite sm_bind_eq by reflexivity. erewrite sm_bind_eq by reflexivity.
cbn [o_src set_src default]. change (id (o_id o)) with (o_id o). rewrite E. done.
Qed.

Lemma set_display_name_Ok o : obj_wf o → o_mutable o = true →
∃ o', set_display_name o = (Ok tt, o') ∧ obj_wf o' ∧ contains ATTR_DISPLAY_NAME o' = true ∧
∀ k, k ≠ ATTR_DISPLAY_NAME → dict_get (o_attrs o') k = dict_get (o_attrs o) k.
Proof.
intros Hw Hm. unfold set_display_name. erewrite sm_bind_eq by reflexivity.
destruct (contains _ o) eqn:Ec; [by exists o|].
destruct (setitem_total ATTR_DISPLAY_NAME (AStr (nul_terminated (o_id o))) o Hm) as [o' E]; [done|].
exists o'. destruct (setitem_Ok _ _ _ _ _ Hw E) as (Hw' & Ha & _). split_and!; [done..| |].
- apply dict_mem_spec, dict_get_is_Some. rewrite Ha, dict_get_set_eq. done.
- intros k Hk. by rewrite Ha, dict_get_set_ne.
Qed.

(** For an object named by a blob URI, the answer of [source_available] is
right: when it is true, loading succeeds and the object's data is the blob;
when it is false, loading raises [ObjectLoadError]. *)
Theorem load_blob_object server_id (l : bytes) c :
let sig := String.string_of_list_byte l in
let o := Object_init server_id (String.string_of_list_byte (str_encode "sha256:" ++ l)) None None c in
Forall is_hex l →
if source_available o
then ∃ o' b, load o = (Ok tt, o') ∧ blob_get sig = Ok b ∧ getitem ATTR_DATA o' = Ok (ABytes b) ∧
 contains ATTR_DISPLAY_NAME o' = true ∧ obj_wf o'
else ∃ o', load o = (Raise ObjectLoadError, o').
Proof using Hblobs Hmiss.
intros sig o Hl. pose proof (split_scheme_sha256 l Hl) as E.
assert (Hwf : obj_wf o) by apply Object_init_wf.
assert (Hp : o_src o = None ∧ o_meta o = None ∧ o_mutable o = true ∧
o_id o = String.string_of_list_byte (str_encode "sha256:" ++ l)) by by destruct c.
destruct Hp as (Hsrc & Hmeta & Hmut & Hid). rewrite <-Hid in E. fold sig in E. clearbody o.
unfold source_available. rewrite E, decide_True by done.
rewrite (load_blob_eq _ _ Hsrc Hmeta E). set (o1 := set_src _ o).
destruct (blob_get sig) as [b|e] eqn:Hb.
- assert (blob_contains sig = true) as -> by (apply Hblobs; eauto).
destruct (setitem_total ATTR_DATA (ABytes b) o1) as [o2 E2]; [done..|].
destruct (setitem_Ok _ _ _ _ _ (Hwf : obj_wf o1) E2) as (Hw2 & Ha2 & _ & _ & _ & _ & Hm2).
destruct (set_display_name_Ok o2 Hw2) as (o3 & E3 & Hw3 & Hc3 & Hd3); [by rewrite Hm2|].
exists o3, b. split_and!; [|done| |done|done].
+ erewrite sm_bind_eq; [exact E3|]. unfold load_blobcache.
erewrite sm_bind_eq by (unfold lift; by rewrite Hb). exact E2.
+ unfold getitem. by rewrite Hd3, Ha2, dict_get_set_eq.
- pose proof (Hmiss _ _ Hb) as ->. destruct (blob_contains sig) eqn:Ec.
{ apply Hblobs in Ec as [b ?]. congruence. }
exists o1. unfold load_blobcache. unfold mbind, sm_bind, lift. rewrite Hb. done.
Qed.
End LoadLaws.

(** ** A concrete object and store *)
#[local] Instance sample_murmur : Murmur := λ d _, d.
#[local] Instance sample_blobs : Blobs := {|
  blob_get sig := if decide (sig = "00ff") then Ok [Byte.x41] else Raise KeyError;
  blob_contains sig := bool_decide (sig = "00ff")
|}.
#[local] Instance sample_environment : Environment := {|
  http_get _ := Raise CurlError; read_file _ := Raise OSError; json_loads _ := Raise ValueError;
  xml_object _ := Raise KeyError; json_container_str _ := ""
|}.

Definition sample_obj : Obj :=
  (omit "Device-Name" (Object_init "srv" "sha256:00ff" None None true)).2.

Lemma sample_obj_wf : obj_wf sample_obj.
Proof.
  eapply (omit_Ok "Device-Name"); [apply (Object_init_wf "srv" "sha256:00ff" None None true)|by vm_compute].
Qed.

Lemma xdr_attributes_sent_witness :
  xdr_attributes elements (Some {["x"]}) true sample_obj = Ok [(ATTR_OBJ_ID, attr_bytes (AStr (nul_terminated "sha256:00ff")))] ∧
  ∃ l, xdr_attributes elements (Some {["x"]}) false sample_obj = Ok l ∧ NoDup l.*1 ∧
    (ATTR_OBJ_ID, attr_bytes (AStr (nul_terminated "sha256:00ff"))) ∈ l ∧
    ∀ name b, (name, b) ∈ l ↔
      ∃ v, dict_get (o_attrs sample_obj) name = Some v ∧ name ∉ o_omit_attrs sample_obj ∧
           b = sent_value (Some {["x"]}) name v.
Proof.
  apply xdr_attributes_sent; [done|apply sample_obj_wf|by vm_compute|].
  apply (bool_decide_unpack _). vm_compute. exact I.
Defined.

(** The omit set is taken from the attributes first: when a filter omits the object
    ID, an accepted object is sent without it. *)
Example object_id_omitted :
  let o := (omit ATTR_OBJ_ID sample_obj).2 in
  contains ATTR_OBJ_ID o = true ∧ xdr_attributes elements None false o = Ok [].
Proof. by vm_compute. Qed.

Lemma load_blob_object_witness :
  let o := Object_init "srv" "sha256:00ff" None None true in
  if source_available o
  then ∃ o' b, load o = (Ok tt, o') ∧ blob_get "00ff" = Ok b ∧ getitem ATTR_DATA o' = Ok (ABytes b) ∧
         contains ATTR_DISPLAY_NAME o' = true ∧ obj_wf o'
  else ∃ o', load o = (Raise ObjectLoadError, o').
Proof.
  apply (load_blob_object (H1 := sample_blobs)) with (l := str_encode "00ff").
  - intros sig. simpl. rewrite bool_decide_eq_true. case_decide; naive_solver.
  - intros sig e. simpl. case_decide; naive_solver.
  - vm_compute. repeat (constructor; [eexists; reflexivity|]). constructor.
Defined.
