(* ===== verification/FilterProto.v ===== *)
(** The filter protocol's wire format: the server's end
    (src/opendiamond/server/filter.py, [_FilterConnection]) and the filter's end
    (src/opendiamond/filter/__init__.py, [_DiamondConnection]) of a pair of pipes. *)
From S2P Require Import Prelude PyBytes PyText Dict Float64 FloatText.
Local Open Scope Z_scope.

Abbreviation newline := Byte.x0a.

(** ** Pipes

    One process's view: everything it will still read before end of file,
    everything it has written, and what its coming flushes do ([false]: the
    reader is gone, [IOError]; an exhausted list means success). *)
Record pipe := Pipe { p_in : bytes; p_out : bytes; p_flushes : list bool }.

Fixpoint line (l : bytes) : bytes * bytes :=
  match l with
  | [] => ([], [])
  | b :: l => if decide (b = newline) then ([b], l) else let '(x, r) := line l in (b :: x, r)
  end.

Definition set_in (l : bytes) (p : pipe) : pipe := Pipe l (p_out p) (p_flushes p).

(** [fin.readline()] *)
Definition readline : sm pipe bytes := λ p,
  let '(x, r) := line (p_in p) in (Ok x, set_in r p).

(** [fin.read(n)] of a buffered reader: [-1] reads to the end, other negative
    sizes are errors. *)
Definition read (n : Z) : sm pipe bytes := λ p,
  if n <? -1 then (Raise ValueError, p)
  else if n <? 0 then (Ok (p_in p), set_in [] p)
  else (Ok (take (Z.to_nat n) (p_in p)), set_in (drop (Z.to_nat n) (p_in p)) p).

Definition write (b : bytes) : sm pipe unit := λ p,
  (Ok tt, Pipe (p_in p) (p_out p ++ b) (p_flushes p)).

(** A failing write is reported at the flush that ends every message. *)
Definition flush : sm pipe unit := λ p,
  match p_flushes p with
  | false :: l => (Raise OSError, Pipe (p_in p) (p_out p) l)
  | true :: l => (Ok tt, Pipe (p_in p) (p_out p) l)
  | [] => (Ok tt, p)
  end.

(** ** Values to send *)
Inductive pv :=
  | PBytes (b : bytes)
  | PStr (s : string)
  | PInt (z : Z)
  | PFloat (f : float)
  | PBool (b : bool)
  | PNone.
Inductive parg := Scalar (v : pv) | Array (l : list pv).

(** [value if isinstance(value, bytes) else str(value).encode()] *)
Definition pv_bytes (v : pv) : bytes :=
  match v with
  | PBytes b => b
  | PStr s => str_encode s
  | PInt z => format_d z
  | PFloat f => format_float f
  | PBool b => str_encode (if b then "True" else "False")
  | PNone => str_encode "None"
  end.

(** The bytes of one item: its length, a newline, the item, a newline. *)
Definition item (b : bytes) : bytes := format_d (Z.of_nat (length b)) ++ newline :: b ++ [newline].
Definition array (l : list bytes) : bytes := concat (item <$> l) ++ [newline].

(** [while True: x = get_item(); if x is None: return arr; arr.append(x)].  Every
    round consumes at least one byte or raises, so the fuel given is enough. *)
Fixpoint array_loop (get_item : sm pipe (option bytes)) (fuel : nat) (arr : list bytes) :
    sm pipe (list bytes) :=
  match fuel with
  | O => fail RuntimeError
  | S fuel => x ← get_item;
    match x with None => mret arr | Some b => array_loop get_item fuel (arr ++ [b]) end
  end.

Module FilterConnection.
(** [_FilterConnection.get_tag] *)
Definition get_tag : sm pipe bytes := l ← readline; mret (strip l).

(** [_FilterConnection.get_item]; [None] for a blank line. *)
Definition get_item : sm pipe (option bytes) :=
sizebuf ← readline;
if decide (sizebuf = []) then fail OSError
else if decide (strip sizebuf = []) then mret None
else size ← lift (py_int sizebuf);
 it ← read size;
 if decide (Z.of_nat (length it) ≠ size) then fail OSError
 else read 1 ≫= λ _, mret (Some it).

(** [_FilterConnection.get_array] *)
Definition get_array : sm pipe (list bytes) := λ p, array_loop get_item (S (length (p_in p))) [] p.

(** [_FilterConnection._send_value] *)
Definition send_value (v : pv) : sm pipe unit := write (item (pv_bytes v)).

(** One argument of [_FilterConnection.send]. *)
Definition send_arg (a : parg) : sm pipe unit :=
match a with
| Array l => mapM_sm send_value l ≫= λ _, write [newline]
| Scalar (PBool b) => send_value (PStr (if b then "true" else "false"))
| Scalar PNone => write [newline]
| Scalar v => send_value v
end.

(** [_FilterConnection.send] *)
Definition send (values : list parg) : sm pipe unit :=
mapM_sm send_arg values ≫= λ _, flush.

(** [_FilterConnection.send_dict] *)
Definition send_dict (d : dict string pv) : sm pipe unit :=
send [Array (PStr <$> d.*1)] ≫= λ _, send [Array d.*2].

(** [_FilterConnection.__init__]: the handshake. *)
Definition init (name : string) (args : list string) (blob : bytes) : sm pipe unit :=
try_with (send [Scalar (PInt 1); Scalar (PStr name); Array (PStr <$> args); Scalar (PBytes blob)])
(λ e, bool_decide (e = OSError)) (λ _, fail FilterExecutionError).
End FilterConnection.

Module DiamondConnection.
(** [_DiamondConnection.get_item]: as at the server, but the size is decoded to
a [str] first. *)
Definition get_item : sm pipe (option bytes) :=
l ← readline;
sizebuf ← lift (bytes_decode l);
if decide (sizebuf = "") then fail OSError
else if decide (str_strip (str_encode sizebuf) = []) then mret None
else size ← lift (py_int_str (str_encode sizebuf));
 it ← read size;
 if decide (Z.of_nat (length it) ≠ size) then fail OSError
 else read 1 ≫= λ _, mret (Some it).

(** [_DiamondConnection.get_array] *)
Definition get_array : sm pipe (list bytes) := λ p, array_loop get_item (S (length (p_in p))) [] p.

(** [_DiamondConnection.get_boolean] *)
Definition get_boolean : sm pipe bool :=
x ← get_item; mret (bool_decide (x = Some (str_encode "true"))).

(** [_DiamondConnection.get_dict] *)
Definition get_dict : sm pipe (dict bytes bytes) :=
keys ← get_array; values ← get_array; mret (dict_of (zip keys values)).

(** [_DiamondConnection._send_value] *)
Definition send_value (v : pv) : sm pipe unit := write (item (pv_bytes v)).

(** [_DiamondConnection.send_message]: under the output lock, one atomic write. *)
Definition send_arg (a : parg) : sm pipe unit :=
match a with
| Array l => mapM_sm send_value l ≫= λ _, write [newline]
| Scalar v => send_value v
end.
Definition send_message (tag : string) (values : list parg) : sm pipe unit :=
write (str_encode tag ++ [newline]) ≫= λ _, mapM_sm send_arg values ≫= λ _, flush.
End DiamondConnection.

(** ** The bytes that the senders write *)
Definition server_arg_bytes (a : parg) : bytes :=
  match a with
  | Array l => array (pv_bytes <$> l)
  | Scalar (PBool b) => item (str_encode (if b then "true" else "false"))
  | Scalar PNone => [newline]
  | Scalar v => item (pv_bytes v)
  end.
Definition filter_arg_bytes (a : parg) : bytes :=
  match a with Array l => array (pv_bytes <$> l) | Scalar v => item (pv_bytes v) end.
Definition message_bytes (tag : string) (values : list parg) : bytes :=
  str_encode tag ++ newline :: concat (filter_arg_bytes <$> values).

Lemma write_all {A} (f : A → sm pipe unit) (g : A → bytes) l p :
  (∀ a p, f a p = (Ok tt, Pipe (p_in p) (p_out p ++ g a) (p_flushes p))) →
  ∃ us, mapM_sm f l p = (Ok us, Pipe (p_in p) (p_out p ++ concat (g <$> l)) (p_flushes p)).
Proof.
  intros Hf. revert p. induction l as [|a l IH]; intros p; csimpl.
  - exists []. rewrite app_nil_r. by destruct p.
  - erewrite sm_bind_eq by apply Hf. edestruct IH as [us E]. exists (tt :: us).
    erewrite sm_bind_eq by exact E. simpl. by rewrite <-app_assoc.
Qed.

Lemma send_arg_spec a p :
  FilterConnection.send_arg a p = (Ok tt, Pipe (p_in p) (p_out p ++ server_arg_bytes a) (p_flushes p)).
Proof.
  destruct a as [[]|l]; try reflexivity. simpl.
  edestruct (write_all FilterConnection.send_value (item ∘ pv_bytes) l p) as [us E]; [done|].
  erewrite sm_bind_eq by exact E. unfold write. simpl. unfold array.
  by rewrite <-app_assoc, <-list_fmap_compose.
Qed.

(** [send] writes its arguments' bytes and then reports the flush. *)
Lemma send_spec values p :
  FilterConnection.send values p =
    flush (Pipe (p_in p) (p_out p ++ concat (server_arg_bytes <$> values)) (p_flushes p)).
Proof.
  unfold FilterConnection.send.
  edestruct (write_all FilterConnection.send_arg server_arg_bytes values p) as [us E];
    [apply send_arg_spec|]. by erewrite sm_bind_eq by exact E.
Qed.

Lemma filter_send_arg_spec a p :
  DiamondConnection.send_arg a p = (Ok tt, Pipe (p_in p) (p_out p ++ filter_arg_bytes a) (p_flushes p)).
Proof.
  destruct a as [v|l]; [reflexivity|]. simpl.
  edestruct (write_all DiamondConnection.send_value (item ∘ pv_bytes) l p) as [us E]; [done|].
  erewrite sm_bind_eq by exact E. unfold write. simpl. unfold array.
  by rewrite <-app_assoc, <-list_fmap_compose.
Qed.

Lemma send_message_spec tag values p :
  DiamondConnection.send_message tag values p =
    flush (Pipe (p_in p) (p_out p ++ message_bytes tag values) (p_flushes p)).
Proof.
  unfold DiamondConnection.send_message. erewrite sm_bind_eq by reflexivity.
  edestruct (write_all DiamondConnection.send_arg filter_arg_bytes values) as [us E];
    [apply filter_send_arg_spec|]. erewrite sm_bind_eq by exact E. simpl. unfold message_bytes.
  by rewrite <-!app_assoc.
Qed.

(** ** Reading back *)
Lemma line_app l r : newline ∉ l → line (l ++ newline :: r) = (l ++ [newline], r).
Proof.
  induction l as [|b l IH]; simpl; intros H; [done|].
  rewrite decide_False by set_solver. by rewrite IH by set_solver.
Qed.

Lemma digits_no_newline n : 0 <= n → newline ∉ format_d n.
Proof.
  intros Hn. destruct (format_d_nonneg n Hn) as (Hd & _). intros Hin.
  rewrite Forall_forall in Hd. destruct (Hd _ Hin) as [? H]. by vm_compute in H.
Qed.

Lemma item_split b rest : item b ++ rest = format_d (Z.of_nat (length b)) ++ newline :: (b ++ newline :: rest).
Proof. unfold item. by rewrite <-app_assoc; simpl; rewrite <-app_assoc. Qed.

Lemma format_d_line_nonempty n : format_d n ++ [newline] ≠ [].
Proof. by destruct (format_d n). Qed.

Lemma strip_format_d n : 0 <= n → strip (format_d n ++ [newline]) ≠ [].
Proof.
  intros Hn. destruct (format_d_nonneg n Hn) as (Hd & Hne & _).
  by destruct (strip_digits _ Hd) as [-> _].
Qed.

(** The rest of both [get_item]s, after the size. *)
Lemma read_item b rest p : p_in p = b ++ newline :: rest →
  (it ← read (Z.of_nat (length b));
   if decide (Z.of_nat (length it) ≠ Z.of_nat (length b)) then fail OSError
   else read 1 ≫= λ _, mret (Some it)) p = (Ok (Some b), set_in rest p).
Proof.
  intros Hp. assert (E : read (Z.of_nat (length b)) p = (Ok b, set_in (newline :: rest) p)).
  { unfold read. destruct (Z.ltb_spec (Z.of_nat (length b)) (-1)); [lia|].
    destruct (Z.ltb_spec (Z.of_nat (length b)) 0); [lia|].
    by rewrite Nat2Z.id, Hp, take_app_length, drop_app_length. }
  erewrite sm_bind_eq by exact E. cbv beta. by rewrite decide_False by auto.
Qed.

Lemma server_get_item b rest p : p_in p = item b ++ rest →
  FilterConnection.get_item p = (Ok (Some b), set_in rest p).
Proof.
  intros Hp. rewrite item_split in Hp. unfold FilterConnection.get_item.
  erewrite sm_bind_eq by (unfold readline; rewrite Hp, line_app by (apply digits_no_newline; lia); done).
  cbv beta. rewrite decide_False by apply format_d_line_nonempty.
  rewrite decide_False by (apply strip_format_d; lia).
  erewrite sm_bind_eq by (unfold lift; by rewrite (proj1 (py_int_format_d _ (Nat2Z.is_nonneg _)))).
  by erewrite read_item.
Qed.

Lemma digits_ascii l : Forall is_digit l → utf8_valid (l ++ [newline]) = true.
Proof.
  induction 1 as [|b l [d Hd] Hl IH]; [by vm_compute|]. simpl.
  unfold digit_value in Hd. destruct (Z.ltb_spec (byte_Z b) 128); [done|].
  destruct (Z.leb_spec 48 (byte_Z b)), (Z.leb_spec (byte_Z b) 57); try done; lia.
Qed.

Lemma filter_get_item b rest p : p_in p = item b ++ rest →
  DiamondConnection.get_item p = (Ok (Some b), set_in rest p).
Proof.
  intros Hp. rewrite item_split in Hp. unfold DiamondConnection.get_item.
  set (n := Z.of_nat (length b)) in *. assert (Hn : 0 <= n) by lia.
  destruct (format_d_nonneg n Hn) as (Hd & Hne & _).
  set (s := String.string_of_list_byte (format_d n ++ [newline])).
  assert (Es : str_encode s = format_d n ++ [newline]) by apply String.list_byte_of_string_of_list_byte.
  erewrite sm_bind_eq by (unfold readline; rewrite Hp, line_app by (by apply digits_no_newline); done).
  erewrite sm_bind_eq by (unfold lift, bytes_decode; rewrite digits_ascii by done; done).
  cbv beta. fold s. rewrite decide_False.
  2:{ intros E. apply (f_equal str_encode) in E. rewrite Es in E. by destruct (format_d n). }
  rewrite Es. rewrite decide_False by (by rewrite (proj2 (str_strip_digits _ Hd))).
  erewrite sm_bind_eq by (unfold lift; by rewrite (proj2 (py_int_str_format_d _ Hn))).
  exact (read_item b rest (set_in (b ++ newline :: rest) p) eq_refl).
Qed.

Lemma server_get_none rest p : p_in p = newline :: rest →
  FilterConnection.get_item p = (Ok None, set_in rest p).
Proof. intros Hp. unfold FilterConnection.get_item. by erewrite sm_bind_eq by (unfold readline; by rewrite Hp). Qed.

Lemma filter_get_none rest p : p_in p = newline :: rest →
  DiamondConnection.get_item p = (Ok None, set_in rest p).
Proof.
  intros Hp. unfold DiamondConnection.get_item.
  erewrite sm_bind_eq by (unfold readline; by rewrite Hp).
  by erewrite sm_bind_eq by by vm_compute.
Qed.

(** ** Arrays, for either end *)
Section Arrays.
Context (get_item : sm pipe (option bytes)).
Context (Hitem : ∀ b rest p, p_in p = item b ++ rest → get_item p = (Ok (Some b), set_in rest p)).
Context (Hnone : ∀ rest p, p_in p = newline :: rest → get_item p = (Ok None, set_in rest p)).

Lemma array_loop_spec l rest fuel arr p :
p_in p = array l ++ rest → (length l < fuel)%nat →
array_loop get_item fuel arr p = (Ok (arr ++ l), set_in rest p).
Proof.
revert fuel arr p. induction l as [|b l IH]; intros fuel arr p Hp Hf;
destruct fuel as [|fuel]; try (simpl in Hf; lia); cbn [array_loop].
- erewrite sm_bind_eq by (apply Hnone; exact Hp). by rewrite app_nil_r.
- unfold array in Hp. csimpl in Hp. rewrite <-!app_assoc in Hp.
erewrite sm_bind_eq by (apply Hitem; exact Hp).
rewrite (IH fuel (arr ++ [b])); [by rewrite <-app_assoc| |simpl in Hf; lia].
unfold array. simpl. by rewrite <-app_assoc.
Qed.

Lemma length_item b : (0 < length (item b))%nat.
Proof. unfold item. rewrite length_app. simpl. lia. Qed.

Lemma length_array l : (length l < length (array l))%nat.
Proof.
unfold array. induction l as [|b l IH]; csimpl; [lia|].
pose proof (length_item b). rewrite !length_app in *. simpl in *. lia.
Qed.

Lemma get_array_spec l rest p : p_in p = array l ++ rest →
array_loop get_item (S (length (p_in p))) [] p = (Ok l, set_in rest p).
Proof.
intros Hp. rewrite (array_loop_spec l rest); [done..|].
rewrite Hp, length_app. pose proof (length_array l). lia.
Qed.
End Arrays.

Lemma server_get_array l rest p : p_in p = array l ++ rest →
  FilterConnection.get_array p = (Ok l, set_in rest p).
Proof. apply get_array_spec; [apply server_get_item|apply server_get_none]. Qed.

Lemma filter_get_array l rest p : p_in p = array l ++ rest →
  DiamondConnection.get_array p = (Ok l, set_in rest p).
Proof. apply get_array_spec; [apply filter_get_item|apply filter_get_none]. Qed.

(** ** Messages end to end

    [expect] reads what a sender is known to have sent: an item per scalar, an
    array per list. *)
Inductive received := GotItem (x : option bytes) | GotArray (l : list bytes).

Definition expect (get_item : sm pipe (option bytes)) (get_array : sm pipe (list bytes)) (a : parg) :
    sm pipe received :=
  match a with
  | Scalar _ => x ← get_item; mret (GotItem x)
  | Array _ => l ← get_array; mret (GotArray l)
  end.

(** What the other end makes of an argument. *)
Definition server_arg_value (a : parg) : received :=
  match a with
  | Array l => GotArray (pv_bytes <$> l)
  | Scalar (PBool b) => GotItem (Some (str_encode (if b then "true" else "false")))
  | Scalar PNone => GotItem None
  | Scalar v => GotItem (Some (pv_bytes v))
  end.
Definition filter_arg_value (a : parg) : received :=
  match a with
  | Array l => GotArray (pv_bytes <$> l)
  | Scalar v => GotItem (Some (pv_bytes v))
  end.

Lemma expect_all get_item get_array (enc : parg → bytes) (val : parg → received) values rest p :
  (∀ a rest p, p_in p = enc a ++ rest →
     expect get_item get_array a p = (Ok (val a), set_in rest p)) →
  p_in p = concat (enc <$> values) ++ rest →
  mapM_sm (expect get_item get_array) values p = (Ok (val <$> values), set_in rest p).
Proof.
  intros H. revert p. induction values as [|a values IH]; intros p Hp; csimpl in Hp; csimpl.
  - by destruct p; simpl in *; subst.
  - rewrite <-app_assoc in Hp. erewrite sm_bind_eq by by apply H.
    erewrite sm_bind_eq by by apply IH. done.
Qed.

Lemma filter_expect a rest p : p_in p = server_arg_bytes a ++ rest →
  expect DiamondConnection.get_item DiamondConnection.get_array a p = (Ok (server_arg_value a), set_in rest p).
Proof.
  destruct a as [v|l]; simpl; intros Hp.
  - destruct v; erewrite sm_bind_eq by (first [apply filter_get_item; exact Hp|apply filter_get_none; exact Hp]); done.
  - by erewrite sm_bind_eq by (apply filter_get_array; exact Hp).
Qed.

Lemma server_expect a rest p : p_in p = filter_arg_bytes a ++ rest →
  expect FilterConnection.get_item FilterConnection.get_array a p = (Ok (filter_arg_value a), set_in rest p).
Proof.
  destruct a as [v|l]; simpl; intros Hp.
  - by erewrite sm_bind_eq by (apply server_get_item; exact Hp).
  - by erewrite sm_bind_eq by (apply server_get_array; exact Hp).
Qed.

(** Whatever the server sends to a filter with [send], the filter reads back
    with [get_item] and [get_array]: the same items and arrays in order, [None]
    for [None], and nothing of what follows, whatever bytes the values hold. *)
Theorem server_to_filter values ps ps' pf rest :
  FilterConnection.send values ps = (Ok tt, ps') → p_out ps = [] →
  p_in pf = p_out ps' ++ rest →
  mapM_sm (expect DiamondConnection.get_item DiamondConnection.get_array) values pf =
    (Ok (server_arg_value <$> values), set_in rest pf).
Proof.
  rewrite send_spec. intros Hs Ho Hp. apply (expect_all _ _ server_arg_bytes); [apply filter_expect|].
  rewrite Hp. f_equal. unfold flush in Hs. simpl in Hs. rewrite Ho in Hs.
  destruct (p_flushes ps) as [|[] ?]; by simplify_eq/=.
Qed.

(** A tag: no newline inside, no white space at the ends. *)
Definition clean_tag (tag : string) : bool :=
  bool_decide (newline ∉ str_encode tag) && bool_decide (strip (str_encode tag) = str_encode tag).

Lemma get_tag_spec tag rest p : clean_tag tag = true →
  p_in p = str_encode tag ++ newline :: rest →
  FilterConnection.get_tag p = (Ok (str_encode tag), set_in rest p).
Proof.
  unfold clean_tag. intros [H1%bool_decide_eq_true H2%bool_decide_eq_true]%andb_true_iff Hp.
  unfold FilterConnection.get_tag.
  erewrite sm_bind_eq by (unfold readline; rewrite Hp, line_app by done; done).
  unfold mret, sm_ret. f_equal. f_equal. rewrite <-H2 at 2. unfold strip.
  destruct (str_encode tag) as [|b l] eqn:E; [by vm_compute|].
  assert (Hb : is_space b = false).
  { destruct (is_space b) eqn:Hb; [|done]. exfalso. unfold strip, rstrip in H2. simpl in H2.
    rewrite Hb in H2. apply (f_equal length) in H2. rewrite length_reverse in H2.
    assert (G : ∀ l, (length (lstrip is_space l) ≤ length l)%nat).
    { intros l'. induction l' as [|c l' IH]; simpl; [done|]. case_match; simpl; lia. }
    pose proof (G (reverse (lstrip is_space l))). pose proof (G l).
    rewrite length_reverse in *. simpl in *. lia. }
  simpl. rewrite Hb. rewrite app_comm_cons. by rewrite rstrip_app_space.
Qed.

(** C35.  Every message that a filter sends is read back by the server's parser as
    the same tag and the same values, and nothing of what follows is consumed. *)
Theorem filter_to_server tag values pf pf' ps rest :
  clean_tag tag = true → DiamondConnection.send_message tag values pf = (Ok tt, pf') → p_out pf = [] →
  p_in ps = p_out pf' ++ rest →
  (t ← FilterConnection.get_tag;
   vs ← mapM_sm (expect FilterConnection.get_item FilterConnection.get_array) values;
   mret (t, vs)) ps =
    (Ok (str_encode tag, filter_arg_value <$> values), set_in rest ps).
Proof.
  rewrite send_message_spec. intros Ht Hs Ho Hp.
  assert (E : p_in ps = str_encode tag ++ newline :: (concat (filter_arg_bytes <$> values) ++ rest)).
  { rewrite Hp. change (newline :: ?l ++ rest) with ((newline :: l) ++ rest). rewrite app_assoc.
    f_equal. unfold flush in Hs. simpl in Hs. rewrite Ho in Hs.
    destruct (p_flushes pf) as [|[] ?]; by simplify_eq/=. }
  erewrite sm_bind_eq by by apply get_tag_spec.
  erewrite sm_bind_eq by (by apply (expect_all _ _ filter_arg_bytes); [apply server_expect|]).
  done.
Qed.

(** ** Concrete messages *)
Definition sample_values : list parg :=
  [Scalar (PInt 1); Scalar (PStr "dog"); Array [PStr "a"; PStr ""]; Scalar PNone;
   Scalar (PBool true); Scalar (PBytes [Byte.x0a; Byte.x00]); Array []; Scalar (PFloat (dec "0.5"))].

Lemma server_to_filter_witness :
  mapM_sm (expect DiamondConnection.get_item DiamondConnection.get_array) sample_values
    (Pipe (concat (server_arg_bytes <$> sample_values) ++ [Byte.x41]) [] []) =
    (Ok (server_arg_value <$> sample_values), Pipe [Byte.x41] [] []).
Proof.
  apply (server_to_filter sample_values (Pipe [] [] [])
    (Pipe [] (concat (server_arg_bytes <$> sample_values)) [])
    (Pipe (concat (server_arg_bytes <$> sample_values) ++ [Byte.x41]) [] []));
    [by vm_compute|done|done].
Defined.

Lemma filter_to_server_witness :
  (t ← FilterConnection.get_tag;
   vs ← mapM_sm (expect FilterConnection.get_item FilterConnection.get_array)
     [Scalar (PStr "key"); Scalar (PBytes [Byte.x0a])];
   mret (t, vs)) (Pipe (message_bytes "set-attribute" [Scalar (PStr "key"); Scalar (PBytes [Byte.x0a])]) [] []) =
    (Ok (str_encode "set-attribute", [GotItem (Some (str_encode "key")); GotItem (Some [Byte.x0a])]),
     Pipe [] [] []).
Proof.
  apply (filter_to_server "set-attribute" [Scalar (PStr "key"); Scalar (PBytes [Byte.x0a])]
    (Pipe [] [] []) (Pipe [] (message_bytes "set-attribute" [Scalar (PStr "key"); Scalar (PBytes [Byte.x0a])]) [])
    (Pipe (message_bytes "set-attribute" [Scalar (PStr "key"); Scalar (PBytes [Byte.x0a])]) [] []) []);
    [by vm_compute|by vm_compute|done|by rewrite app_nil_r].
Defined.
