(* ===== verification/FilterRunner.v ===== *)
(** Running a filter on an object (src/opendiamond/server/filter.py,
    [_FilterRunner]): the interpreter of the filter protocol's commands. *)
From S2P Require Import Prelude PyBytes PyText Dict Float64 FloatText Helpers ServerObject.
From S2P Require Import FilterProto SessionVars Statistics FilterStack ResultCache.
Local Open Scope Z_scope.

Definition ATTR_GT_LABEL : string := "_gt_label".
Definition ATTRIBUTE_CACHE_THRESHOLD : Z := Z.shiftl 2 20.

(** [SearchState.context.ensure_resource(rtype, args...)] (Resource.v). *)
Class Resources (C : Type) := ensure_resource : string → list string → sm C (dict string string).

(** [threshold] *)
Definition threshold (f : Filter) (r : FilterResult) : bool :=
  fle (min_score f) (score r) && fle (score r) (max_score f).

(** ** Updates of a result *)
Definition set_input (k : string) (v : option string) (r : FilterResult) : FilterResult :=
  MkResult (dict_set (input_attrs r) k v) (output_attrs r) (omit_attrs r) (score r) (cache_output r).
Definition set_output (k : string) (v : string) (r : FilterResult) : FilterResult :=
  MkResult (input_attrs r) (dict_set (output_attrs r) k v) (omit_attrs r) (score r) (cache_output r).
Definition add_omit (k : string) (r : FilterResult) : FilterResult :=
  MkResult (input_attrs r) (output_attrs r) ({[k]} ∪ omit_attrs r) (score r) (cache_output r).
Definition set_score (x : float) (r : FilterResult) : FilterResult :=
  MkResult (input_attrs r) (output_attrs r) (omit_attrs r) x (cache_output r).
Definition set_cache_output (b : bool) (r : FilterResult) : FilterResult :=
  MkResult (input_attrs r) (output_attrs r) (omit_attrs r) (score r) b.
Definition empty_result : FilterResult := FilterResult_init [] [] [] fzero.

Section Runner.
Context `{Murmur} {C : Type} `{Resources C}.

(** The runner's state ([_proc], [_proc_initialized], the statistics), and what an
evaluation works on: the object, the session variables and the resource
context of the search, the result being built. *)
Record ev := Ev {
e_obj : Obj;
e_proc : option pipe;
e_initialized : bool;
e_session : SessionVariables;
e_ctx : C;
e_stats : stats;
e_result : FilterResult
}.

Definition set_obj (x : Obj) (e : ev) : ev :=
Ev x (e_proc e) (e_initialized e) (e_session e) (e_ctx e) (e_stats e) (e_result e).
Definition set_proc (x : option pipe) (e : ev) : ev :=
Ev (e_obj e) x (e_initialized e) (e_session e) (e_ctx e) (e_stats e) (e_result e).
Definition set_initialized (x : bool) (e : ev) : ev :=
Ev (e_obj e) (e_proc e) x (e_session e) (e_ctx e) (e_stats e) (e_result e).
Definition set_session (x : SessionVariables) (e : ev) : ev :=
Ev (e_obj e) (e_proc e) (e_initialized e) x (e_ctx e) (e_stats e) (e_result e).
Definition set_ctx (x : C) (e : ev) : ev :=
Ev (e_obj e) (e_proc e) (e_initialized e) (e_session e) x (e_stats e) (e_result e).
Definition set_stats (x : stats) (e : ev) : ev :=
Ev (e_obj e) (e_proc e) (e_initialized e) (e_session e) (e_ctx e) x (e_result e).
Definition set_result (x : FilterResult) (e : ev) : ev :=
Ev (e_obj e) (e_proc e) (e_initialized e) (e_session e) (e_ctx e) (e_stats e) x.
Definition on_result (f : FilterResult → FilterResult) : sm ev unit :=
modify (λ e, set_result (f (e_result e)) e).

Definition no_pipe : pipe := Pipe [] [] [].
Definition on_proc {A} : sm pipe A → sm ev A :=
zoom (λ e, default no_pipe (e_proc e)) (λ p, set_proc (Some p)).
Definition on_obj {A} : sm Obj A → sm ev A := zoom e_obj set_obj.

(** [proc.get_item().decode()]: no item is an [AttributeError]. *)
Definition item_str : sm ev string :=
x ← on_proc FilterConnection.get_item;
b ← lift (of_option AttributeError x);
lift (bytes_decode b).
(** [list(map(bytes.decode, proc.get_array()))] *)
Definition array_str : sm ev (list string) :=
l ← on_proc FilterConnection.get_array; lift (mapM_res bytes_decode l).
(** [int(proc.get_item())], [float(proc.get_item())] *)
Definition item_int : sm ev Z :=
x ← on_proc FilterConnection.get_item; b ← lift (of_option TypeError x); lift (py_int b).
Definition item_float : sm ev float :=
x ← on_proc FilterConnection.get_item; b ← lift (of_option TypeError x); lift (py_float b).

Definition send_to_filter (a : parg) : sm ev unit := on_proc (FilterConnection.send [a]).

Definition attr_pv (v : attr_value) : parg :=
Scalar match v with ABytes b => PBytes b | AStr s => PStr s | ANone => PNone end.

(** One command; [true] ends the loop. *)
Definition do_get_attribute : sm ev bool :=
key ← item_str;
o ← gets e_obj;
match getitem key o with
| Ok v =>
send_to_filter (attr_pv v) ≫= λ _,
sig ← lift (get_signature key o);
on_result (set_input key (Some sig)) ≫= λ _, mret false
| Raise _ =>
send_to_filter (Scalar PNone) ≫= λ _,
on_result (set_input key None) ≫= λ _, mret false
end.

Definition do_set_attribute : sm ev bool :=
key ← item_str;
value ← on_proc FilterConnection.get_item;
on_obj (setitem key match value with Some b => ABytes b | None => ANone end) ≫= λ _,
o ← gets e_obj;
sig ← lift (get_signature key o);
on_result (set_output key sig) ≫= λ _, mret false.

Definition do_omit_attribute : sm ev bool :=
key ← item_str;
try_with
(on_obj (omit key) ≫= λ _, on_result (add_omit key) ≫= λ _, send_to_filter (Scalar (PBool true)))
(λ e, bool_decide (e = KeyError))
(λ _, send_to_filter (Scalar (PBool false))) ≫= λ _, mret false.

Definition do_get_session_variables : sm ev bool :=
keys ← array_str;
s ← gets e_session;
let valuemap := filter_get keys s in
values ← lift (mapM_res (λ k, of_option KeyError (dict_get valuemap k)) keys);
send_to_filter (Array (PFloat <$> values)) ≫= λ _, mret false.

Definition do_update_session_variables : sm ev bool :=
keys ← array_str;
texts ← on_proc FilterConnection.get_array;
values ← lift (try_except (mapM_res py_float texts) is_ValueError (λ _, Raise FilterExecutionError));
if decide (length keys ≠ length values) then fail FilterExecutionError
else modify (λ e, set_session (filter_update (dict_of (zip keys values)) (e_session e)) e) ≫= λ _,
 mret false.

(** The message goes to the log only. *)
Definition do_log : sm ev bool :=
item_int ≫= λ _, item_str ≫= λ _, mret false.

Definition do_ensure_resource : sm ev bool :=
scope ← item_str;
rtype ← item_str;
args ← array_str;
if decide (scope = "session") then
uri ← zoom e_ctx set_ctx (ensure_resource rtype args);
on_proc (FilterConnection.send_dict (prod_map id PStr <$> uri)) ≫= λ _, mret false
else
(* "Unrecognized resource scope" % scope *)
fail TypeError.

Definition commands : list (string * sm ev bool) :=
[("init-success", modify (set_initialized true) ≫= λ _, mret false);
 ("get-attribute", do_get_attribute);
 ("set-attribute", do_set_attribute);
 ("omit-attribute", do_omit_attribute);
 ("get-session-variables", do_get_session_variables);
 ("update-session-variables", do_update_session_variables);
 ("log", do_log);
 ("stdout", item_str ≫= λ _, mret false);
 ("result", x ← item_float; on_result (set_score x) ≫= λ _, mret true);
 ("ensure-resource", do_ensure_resource);
 (* the size is only a hint to the pipe *)
 ("hint-large-attribute", item_int ≫= λ _, mret true);
 ("", fail OSError)].

Definition command : sm ev bool :=
tag ← on_proc FilterConnection.get_tag;
cmd ← lift (bytes_decode tag);
match dict_get commands cmd with Some m => m | None => fail FilterExecutionError end.

(** [while True]: every command that does not end the loop reads at least its
tag line, so the length of the filter's output bounds the rounds. *)
Fixpoint command_loop (fuel : nat) : sm ev unit :=
match fuel with
| O => fail RuntimeError
| S fuel => stop ← command; if (stop : bool) then mret tt else command_loop fuel
end.
Definition run_commands : sm ev unit := λ e,
command_loop (S (length (p_in (default no_pipe (e_proc e))))) e.

(** [except IOError] *)
Definition filter_died : sm ev unit :=
i ← gets e_initialized;
if (i : bool) then
modify (λ e, set_proc None (set_stats (filter_terminate (e_stats e)) e)) ≫= λ _, fail DropObject
else fail FilterExecutionError.

(** [len(obj[k])] *)
Definition attr_length (o : Obj) (k : string) : res Z :=
v ← getitem k o;
match v with
| ABytes b => Ok (Z.of_nat (length b))
| AStr s => Ok (Z.of_nat (length (filter (λ b, cont b = false) (str_encode s))))
| ANone => Raise TypeError
end.

(** [int(old_div(sum(lengths), timer.elapsed_seconds))] *)
Definition throughput (lengths : list Z) (elapsed_seconds : float) : res Z :=
total ← float_of_int (foldr Z.add 0 lengths);
if fle elapsed_seconds fzero && fle fzero elapsed_seconds then Raise ZeroDivisionError
else float_to_int (fdiv total elapsed_seconds).

(** The [finally] block; the timers are read from the clock. *)
Definition finish (f : Filter) (elapsed_us : Z) (elapsed_seconds : float) : sm ev unit :=
e ← get_state;
let accept := threshold f (e_result e) in
let gt_present := dict_mem (input_attrs (e_result e)) ATTR_GT_LABEL in
modify (λ e, set_stats (filter_done_evaluate accept gt_present elapsed_us (e_stats e)) e) ≫= λ _,
lengths ← lift (mapM_res (attr_length (e_obj e)) (dict_keys (output_attrs (e_result e))));
rate ← lift (throughput lengths elapsed_seconds);
if rate <? ATTRIBUTE_CACHE_THRESHOLD then on_result (set_cache_output true) else mret tt.

(** [self._filter.connect()]: start the process and send it the handshake. *)
Definition connect (f : Filter) (spawn : res pipe) : sm ev unit :=
p ← lift spawn;
let '(r, p) := FilterConnection.init (f_name f) (arguments f) (default [] (f_blob f)) p in
lift r ≫= λ _,
modify (set_proc (Some p)) ≫= λ _,
modify (set_initialized false).

(** [_FilterRunner.evaluate] *)
Definition evaluate (f : Filter) (spawn : res pipe) (elapsed_us : Z) (elapsed_seconds : float) :
sm ev FilterResult :=
p ← gets e_proc;
match p with Some _ => mret tt | None => connect f spawn end ≫= λ _,
modify (set_result empty_result) ≫= λ _,
finally (try_with run_commands (λ e, bool_decide (e = OSError)) (λ _, filter_died))
(finish f elapsed_us elapsed_seconds) ≫= λ _,
gets e_result.

(** ** Specification: the meaning of a filter's messages

A script is what a filter sends during an evaluation.  [script_step] is the
effect of one message on the server, with the reply. *)
Inductive cmd :=
| CInit
| CGet (k : string)
| CSet (k : string) (v : bytes)
| COmit (k : string)
| CGetVars (ks : list string)
| CUpdateVars (kvs : list (string * float))
| CLog (level : Z) (msg : string)
| CStdout (text : string).

#[global] Instance cmd_eq_dec : EqDecision cmd.
Proof. solve_decision. Defined.
#[global] Opaque cmd_eq_dec.

Definition cmd_message (c : cmd) : string * list parg :=
match c with
| CInit => ("init-success", [])
| CGet k => ("get-attribute", [Scalar (PStr k)])
| CSet k v => ("set-attribute", [Scalar (PStr k); Scalar (PBytes v)])
| COmit k => ("omit-attribute", [Scalar (PStr k)])
| CGetVars ks => ("get-session-variables", [Array (PStr <$> ks)])
| CUpdateVars kvs => ("update-session-variables", [Array (PStr <$> kvs.*1); Array (PFloat <$> kvs.*2)])
| CLog level msg => ("log", [Scalar (PInt level); Scalar (PStr msg)])
| CStdout text => ("stdout", [Scalar (PStr text)])
end.
Definition cmd_bytes (c : cmd) : bytes := message_bytes (cmd_message c).1 (cmd_message c).2.
Definition result_bytes (x : float) : bytes := message_bytes "result" [Scalar (PFloat x)].

(** Text is UTF-8; numbers are printed so that they parse back. *)
Definition cmd_wf (c : cmd) : Prop :=
match c with
| CInit => True
| CGet k | CSet k _ | COmit k => is_str k = true
| CGetVars ks => Forall (λ k, is_str k = true) ks
| CUpdateVars kvs => Forall (λ p, is_str p.1 = true ∧ repr_ok p.2 = true) kvs
| CLog level msg => 0 <= level ∧ is_str msg = true
| CStdout text => is_str text = true
end.

Definition script_step (c : cmd) (e : ev) : ev * bytes :=
let o := e_obj e in
match c with
| CInit => (set_initialized true e, [])
| CGet k =>
match dict_get (o_attrs o) k with
| Some v => (set_result (set_input k (dict_get (o_signatures o) k) (e_result e)) e,
 server_arg_bytes (attr_pv v))
| None => (set_result (set_input k None (e_result e)) e, [newline])
end
| CSet k v =>
let o := (setitem k (ABytes v) o).2 in
(set_result (set_output k (default "" (dict_get (o_signatures o) k)) (e_result e)) (set_obj o e), [])
| COmit k =>
if contains k o
then (set_result (add_omit k (e_result e)) (set_obj (omit k o).2 e), item (str_encode "true"))
else (e, item (str_encode "false"))
| CGetVars ks =>
(e, array ((λ k, format_float (default fzero (dict_get (filter_get ks (e_session e)) k))) <$> ks))
| CUpdateVars kvs => (set_session (filter_update (dict_of kvs) (e_session e)) e, [])
| CLog _ _ | CStdout _ => (e, [])
end.

Fixpoint run_script (cs : list cmd) (e : ev) : ev * bytes :=
match cs with
| [] => (e, [])
| c :: cs => let '(e, b) := script_step c e in let '(e, b') := run_script cs e in (e, b ++ b')
end.

Definition ev_wf (e : ev) : Prop := obj_wf (e_obj e) ∧ o_mutable (e_obj e) = true.

(** [e] with the pipe [p]. *)
Definition with_pipe (e : ev) (l out : bytes) : ev := set_proc (Some (Pipe l out [])) e.

Lemma on_proc_eq {A} (m : sm pipe A) e l out r p' :
m (Pipe l out []) = (r, p') → on_proc m (with_pipe e l out) = (r, set_proc (Some p') e).
Proof. intros E. unfold on_proc, zoom. simpl. by rewrite E. Qed.

Lemma send_eq a e l out :
send_to_filter a (with_pipe e l out) = (Ok tt, with_pipe e l (out ++ server_arg_bytes a)).
Proof.
unfold send_to_filter. erewrite on_proc_eq; [|rewrite send_spec; reflexivity].
simpl. by rewrite app_nil_r.
Qed.

Lemma item_str_eq s rest e out : is_str s = true →
item_str (with_pipe e (item (str_encode s) ++ rest) out) = (Ok s, with_pipe e rest out).
Proof.
intros Hs. unfold item_str. erewrite sm_bind_eq.
2:{ eapply on_proc_eq. by apply server_get_item. }
erewrite sm_bind_eq by reflexivity. unfold lift. by rewrite bytes_decode_encode.
Qed.

Lemma array_str_eq ks rest e out : Forall (λ k, is_str k = true) ks →
array_str (with_pipe e (array (str_encode <$> ks) ++ rest) out) = (Ok ks, with_pipe e rest out).
Proof.
intros Hs. unfold array_str. erewrite sm_bind_eq.
2:{ eapply on_proc_eq. by apply server_get_array. }
unfold lift. f_equal. apply mapM_res_Ok. apply Forall2_fmap_l, Forall_Forall2_diag.
eapply Forall_impl; [exact Hs|]. intros k Hk. by apply bytes_decode_encode.
Qed.

Lemma command_eq tag m values rest e out : clean_tag tag = true → is_str tag = true →
dict_get commands tag = Some m →
command (with_pipe e (message_bytes tag values ++ rest) out) =
m (with_pipe e (concat (filter_arg_bytes <$> values) ++ rest) out).
Proof.
intros Ht Hs Hm. unfold command. erewrite sm_bind_eq.
2:{ eapply on_proc_eq. apply (get_tag_spec tag (concat (filter_arg_bytes <$> values) ++ rest)); [done|].
unfold message_bytes. simpl. by rewrite <-app_assoc. }
erewrite sm_bind_eq.
2:{ unfold lift. by rewrite bytes_decode_encode. }
by rewrite Hm.
Qed.

Lemma script_step_wf c e : ev_wf e → ev_wf (script_step c e).1.
Proof.
intros [Hw Hm]. destruct c; simpl; try done.
- by case_match.
- destruct (setitem_total k (ABytes v) (e_obj e) Hm) as [o' E]; [done|]. rewrite E. simpl.
destruct (setitem_Ok _ _ _ _ _ Hw E) as (Hw' & _ & _ & _ & _ & _ & Hm').
split; [done|]. simpl. by rewrite Hm'.
- case_match; [|done]. split; [|by simpl; unfold omit; case_match].
destruct (omit k (e_obj e)) as [[u|err] o'] eqn:E; simpl.
+ by apply (omit_Ok _ _ _ _ Hw E).
+ unfold omit in E. by case_match; simplify_eq.
Qed.

Lemma wf_signature e k v : ev_wf e → dict_get (o_attrs (e_obj e)) k = Some v →
∃ s, dict_get (o_signatures (e_obj e)) k = Some s.
Proof. intros [Hw _] Hv. destruct (obj_wf_signature _ k v Hw Hv) as (s & _ & ?). by exists s. Qed.

(** Enter the command of a tag, and read its arguments. *)
Ltac enter := erewrite command_eq; [|by vm_compute..|reflexivity]; csimpl; rewrite ?app_nil_r, <-?app_assoc.
Ltac run H := erewrite sm_bind_eq by (exact H || apply H; done); cbv beta.

#[local] Arguments server_arg_bytes : simpl never.
#[local] Arguments attr_pv : simpl never.

Lemma step_get k e rest out : ev_wf e → is_str k = true →
command (with_pipe e (cmd_bytes (CGet k) ++ rest) out) =
(Ok false, with_pipe (script_step (CGet k) e).1 rest (out ++ (script_step (CGet k) e).2)).
Proof.
intros Hw Hk. unfold cmd_bytes. enter. unfold do_get_attribute. run item_str_eq.
erewrite sm_bind_eq by reflexivity. cbn [e_obj set_proc with_pipe script_step]. unfold getitem.
destruct (dict_get (o_attrs (e_obj e)) k) as [v|] eqn:Ev; cbn [of_option fst snd].
- run send_eq. destruct (wf_signature e k v Hw Ev) as [s Hs].
erewrite sm_bind_eq by (unfold lift, get_signature; by rewrite Hs).
erewrite sm_bind_eq by reflexivity. simpl. by rewrite Hs.
- run send_eq. by erewrite sm_bind_eq by reflexivity.
Qed.

Lemma step_set k v e rest out : ev_wf e → is_str k = true →
command (with_pipe e (cmd_bytes (CSet k v) ++ rest) out) =
(Ok false, with_pipe (script_step (CSet k v) e).1 rest (out ++ (script_step (CSet k v) e).2)).
Proof.
intros Hw Hk. unfold cmd_bytes. enter. unfold do_set_attribute. run item_str_eq.
erewrite sm_bind_eq by (eapply on_proc_eq; by apply server_get_item). cbv beta.
destruct (setitem_total k (ABytes v) (e_obj e)) as [o' E]; [apply Hw|done|].
destruct (setitem_Ok _ _ _ _ _ (proj1 Hw) E) as (Hw' & Ha & _).
destruct (obj_wf_signature o' k (ABytes v) Hw') as (s & _ & Hs); [by rewrite Ha, dict_get_set_eq|].
erewrite sm_bind_eq by (unfold on_obj, zoom; simpl; by rewrite E).
erewrite sm_bind_eq by reflexivity. cbn [e_obj set_proc with_pipe set_obj].
erewrite sm_bind_eq by (unfold lift, get_signature; by rewrite Hs).
erewrite sm_bind_eq by reflexivity. rewrite E. cbn [fst snd]. by rewrite Hs.
Qed.

Lemma step_omit k e rest out : ev_wf e → is_str k = true →
command (with_pipe e (cmd_bytes (COmit k) ++ rest) out) =
(Ok false, with_pipe (script_step (COmit k) e).1 rest (out ++ (script_step (COmit k) e).2)).
Proof.
intros Hw Hk. unfold cmd_bytes. enter. unfold do_omit_attribute. run item_str_eq.
unfold try_with. cbn [script_step]. destruct (contains k (e_obj e)) eqn:Ec.
- set (o' := set_omit ({[k]} ∪ o_omit_attrs (e_obj e)) (e_obj e)).
assert (Eo : omit k (e_obj e) = (Ok tt, o')) by (unfold omit; by rewrite Ec).
rewrite Eo. erewrite sm_bind_eq.
2:{ erewrite sm_bind_eq by (unfold on_obj, zoom; simpl; by rewrite Eo).
erewrite sm_bind_eq by reflexivity.
exact (send_eq (Scalar (PBool true)) (set_result (add_omit k (e_result e)) (set_obj o' e)) rest out). }
done.
- erewrite sm_bind_eq.
2:{ unfold mbind, sm_bind, on_obj, zoom, omit. simpl. rewrite Ec.
rewrite bool_decide_eq_true_2 by done. apply (send_eq (Scalar (PBool false)) e rest out). }
done.
Qed.

Lemma filter_get_mem ks vs k : k ∈ ks → is_Some (dict_get (filter_get ks vs) k).
Proof.
intros Hk. apply dict_get_is_Some. unfold filter_get.
assert (G : ∀ d : dict string float, k ∈ ks ∨ k ∈ dict_keys d → k ∈ dict_keys (foldl (λ ret key,
dict_set ret key match dict_get (vars vs) key with Some v => var_filter_get v | None => fzero end) d ks)).
{ induction ks as [|k' ks' IH]; intros d; simpl; [set_solver|]. intros Hd.
destruct (decide (k ∈ ks')) as [Hin|Hni]; [apply IH; [done|by left]|].
clear Hk. assert (G : ∀ l (d' : dict string float), k ∈ dict_keys d' → k ∈ dict_keys (foldl (λ ret key,
dict_set ret key match dict_get (vars vs) key with Some v => var_filter_get v | None => fzero end) d' l)).
{ induction l as [|k2 l IHl]; intros d' Hd'; simpl; [done|]. apply IHl.
rewrite dict_keys_set. case_decide; set_solver. }
apply G. rewrite dict_keys_set. case_decide; set_solver. }
apply G. by left.
Qed.

Lemma step_get_vars ks e rest out : Forall (λ k, is_str k = true) ks →
command (with_pipe e (cmd_bytes (CGetVars ks) ++ rest) out) =
(Ok false, with_pipe (script_step (CGetVars ks) e).1 rest (out ++ (script_step (CGetVars ks) e).2)).
Proof.
intros Hk. unfold cmd_bytes. enter. unfold do_get_session_variables.
rewrite <-list_fmap_compose. change (pv_bytes ∘ PStr) with str_encode. run array_str_eq.
erewrite sm_bind_eq by reflexivity. cbn [e_session set_proc with_pipe].
set (get := λ k, default fzero (dict_get (filter_get ks (e_session e)) k)).
erewrite sm_bind_eq.
2:{ unfold lift. erewrite (proj2 (mapM_res_Ok _ ks (get <$> ks))); [reflexivity|].
apply Forall2_fmap_r, Forall_Forall2_diag, Forall_forall. intros k Hin. simpl. unfold get.
by destruct (filter_get_mem ks (e_session e) k Hin) as [v ->]. }
cbv beta. run send_eq. unfold server_arg_bytes. rewrite <-!list_fmap_compose. done.
Qed.

Lemma step_update_vars kvs e rest out :
Forall (λ p : string * float, is_str p.1 = true ∧ repr_ok p.2 = true) kvs →
command (with_pipe e (cmd_bytes (CUpdateVars kvs) ++ rest) out) =
(Ok false, with_pipe (script_step (CUpdateVars kvs) e).1 rest (out ++ (script_step (CUpdateVars kvs) e).2)).
Proof.
intros Hk. unfold cmd_bytes. enter. unfold do_update_session_variables.
rewrite <-!list_fmap_compose. change (pv_bytes ∘ PStr ∘ fst) with (str_encode ∘ (fst : string * float → string)).
rewrite (list_fmap_compose fst str_encode). erewrite sm_bind_eq.
2:{ apply array_str_eq. apply Forall_fmap. eapply Forall_impl; [exact Hk|]. by intros p [? _]. }
cbv beta. erewrite sm_bind_eq by (eapply on_proc_eq; by apply server_get_array). cbv beta.
erewrite sm_bind_eq.
2:{ unfold lift. erewrite (proj2 (mapM_res_Ok _ _ (kvs.*2))); [reflexivity|].
apply Forall2_fmap_l, Forall2_fmap_r, Forall_Forall2_diag.
eapply Forall_impl; [exact Hk|]. intros p [_ Hr%bool_decide_eq_true]. exact Hr. }
cbv beta. rewrite decide_False by (rewrite !length_fmap; auto).
erewrite sm_bind_eq by reflexivity. cbn [script_step fst snd].
replace (zip kvs.*1 kvs.*2) with kvs; [done|].
clear. induction kvs as [|[k v] kvs IH]; [done|]. csimpl. by f_equal.
Qed.

Lemma step_log level msg e rest out : 0 <= level → is_str msg = true →
command (with_pipe e (cmd_bytes (CLog level msg) ++ rest) out) = (Ok false, with_pipe e rest (out ++ [])).
Proof.
intros Hl Hm. unfold cmd_bytes. enter. unfold do_log. erewrite sm_bind_eq.
2:{ unfold item_int. erewrite sm_bind_eq by (eapply on_proc_eq; by apply server_get_item).
erewrite sm_bind_eq by reflexivity. unfold lift. simpl pv_bytes.
by rewrite (proj2 (py_int_format_d _ Hl)). }
cbv beta. by erewrite sm_bind_eq by (by apply item_str_eq).
Qed.

Lemma step_stdout text e rest out : is_str text = true →
command (with_pipe e (cmd_bytes (CStdout text) ++ rest) out) = (Ok false, with_pipe e rest (out ++ [])).
Proof.
intros Hm. unfold cmd_bytes. enter. by erewrite sm_bind_eq by (by apply item_str_eq).
Qed.

Lemma command_step c e rest out : ev_wf e → cmd_wf c →
command (with_pipe e (cmd_bytes c ++ rest) out) =
(Ok false, with_pipe (script_step c e).1 rest (out ++ (script_step c e).2)).
Proof.
intros Hw Hc. destruct c; simpl in Hc.
- unfold cmd_bytes. by enter.
- by apply step_get.
- by apply step_set.
- by apply step_omit.
- by apply step_get_vars.
- by apply step_update_vars.
- apply step_log; tauto.
- by apply step_stdout.
Qed.

Lemma step_result x e rest out : repr_ok x = true →
command (with_pipe e (result_bytes x ++ rest) out) =
(Ok true, with_pipe (set_result (set_score x (e_result e)) e) rest out).
Proof.
intros Hx%bool_decide_eq_true. unfold result_bytes. enter. erewrite sm_bind_eq.
2:{ unfold item_float. erewrite sm_bind_eq by (eapply on_proc_eq; by apply server_get_item).
erewrite sm_bind_eq by reflexivity. unfold lift. simpl pv_bytes. by rewrite Hx. }
done.
Qed.

Definition script_bytes (cs : list cmd) (x : float) : bytes := concat (cmd_bytes <$> cs) ++ result_bytes x.

Lemma run_script_wf cs e : ev_wf e → ev_wf (run_script cs e).1.
Proof.
revert e. induction cs as [|c cs IH]; intros e Hw; simpl; [done|].
pose proof (script_step_wf c e Hw) as H1. destruct (script_step c e) as [e1 b1]. simpl in H1.
specialize (IH e1 H1). destruct (run_script cs e1). done.
Qed.

Lemma command_loop_script cs x e rest out fuel : ev_wf e → Forall cmd_wf cs → repr_ok x = true →
(length cs < fuel)%nat →
command_loop fuel (with_pipe e (script_bytes cs x ++ rest) out) =
(Ok tt, with_pipe (set_result (set_score x (e_result (run_script cs e).1)) (run_script cs e).1) rest
(out ++ (run_script cs e).2)).
Proof.
intros Hw Hcs Hx. revert fuel e out Hw. induction Hcs as [|c cs Hc Hcs IH]; intros fuel e out Hw Hf;
destruct fuel as [|fuel]; try (simpl in Hf; lia); cbn [command_loop].
- unfold script_bytes. simpl. rewrite app_nil_r. by run step_result.
- unfold script_bytes. csimpl. rewrite <-!app_assoc. rewrite (app_assoc (concat _)).
change (concat (cmd_bytes <$> cs) ++ result_bytes x) with (script_bytes cs x).
erewrite sm_bind_eq by (by apply command_step). cbv beta iota.
pose proof (script_step_wf c e Hw) as H1. destruct (script_step c e) as [e1 b1]. simpl in H1 |- *.
rewrite IH by (done || (simpl in Hf; lia)). destruct (run_script cs e1). simpl. by rewrite app_assoc.
Qed.

Lemma length_script cs x rest : (length cs < S (length (script_bytes cs x ++ rest)))%nat.
Proof.
assert (length cs ≤ length (concat (cmd_bytes <$> cs)))%nat.
{ induction cs as [|c cs IH]; csimpl; [lia|]. rewrite length_app.
assert (0 < length (cmd_bytes c))%nat; [|lia]. unfold cmd_bytes, message_bytes.
rewrite length_app. simpl. lia. }
unfold script_bytes. rewrite !length_app. lia.
Qed.

(** The attributes that a filter has set are there. *)
Definition outputs_present (e : ev) : Prop :=
∀ k, k ∈ dict_keys (output_attrs (e_result e)) →
∃ v, dict_get (o_attrs (e_obj e)) k = Some v ∧ v ≠ ANone.

Lemma setitem_attrs k v o : o_mutable o = true → o_attrs (setitem k v o).2 = dict_set (o_attrs o) k v.
Proof. intros Hm. unfold setitem. rewrite Hm. simpl. by case_match. Qed.

Lemma script_step_present c e : ev_wf e → outputs_present e → outputs_present (script_step c e).1.
Proof.
intros [_ Hm] Hp. destruct c; simpl; try done.
- case_match; exact Hp.
- intros k'. simpl. rewrite setitem_attrs by done. rewrite dict_keys_set, dict_get_set.
intros Hk. destruct (decide (k = k')) as [->|Hne]; [by exists (ABytes v)|].
apply Hp. case_decide; set_solver.
- case_match; [|exact Hp]. intros k' Hk'. simpl in *. unfold omit. case_match; simpl; by apply Hp.
Qed.

Lemma run_script_present cs e : ev_wf e → outputs_present e → outputs_present (run_script cs e).1.
Proof.
revert e. induction cs as [|c cs IH]; intros e Hw Hp; simpl; [done|].
pose proof (script_step_wf c e Hw) as Hw1. pose proof (script_step_present c e Hw Hp) as Hp1.
destruct (script_step c e) as [e1 b1]. specialize (IH e1 Hw1 Hp1).
destruct (run_script cs e1). done.
Qed.

Lemma attr_lengths e : outputs_present e → ∃ lengths,
mapM_res (attr_length (e_obj e)) (dict_keys (output_attrs (e_result e))) = Ok lengths.
Proof.
unfold outputs_present. generalize (dict_keys (output_attrs (e_result e))). intros ks.
induction ks as [|k ks IH]; intros Hp; simpl; [by eexists|].
destruct (Hp k) as (v & Hv & Hn); [set_solver|]. destruct IH as [ls ->]; [set_solver|].
unfold attr_length, getitem. rewrite Hv. destruct v; simpl; [by eexists..|done].
Qed.

(** C11.  The interpreter implements the meaning of the protocol: when a running
filter sends a sequence of messages and then a result, the evaluation ends
with exactly the effects of those messages in order on the object, the
session variables and the result, the filter receives exactly the replies,
and nothing beyond the result is read from it; the outputs are marked for
the attribute cache when they were produced at less than 2 MB/s. *)
Theorem evaluate_script f cs x rest out e spawn us secs :
ev_wf e → Forall cmd_wf cs → repr_ok x = true →
let '(e1, replies) := run_script cs (set_result empty_result e) in
let r := set_score x (e_result e1) in
∃ lengths, mapM_res (attr_length (e_obj e1)) (dict_keys (output_attrs r)) = Ok lengths ∧
match throughput lengths secs with
| Ok rate =>
let r := if rate <? ATTRIBUTE_CACHE_THRESHOLD then set_cache_output true r else r in
evaluate f spawn us secs (with_pipe e (script_bytes cs x ++ rest) out) =
(Ok r, set_stats (filter_done_evaluate (threshold f r) (dict_mem (input_attrs r) ATTR_GT_LABEL) us
 (e_stats e1))
 (set_result r (with_pipe e1 rest (out ++ replies))))
| Raise err => (evaluate f spawn us secs (with_pipe e (script_bytes cs x ++ rest) out)).1 = Raise err
end.
Proof.
intros Hw Hcs Hx. set (e0 := set_result empty_result e).
assert (Hw0 : ev_wf e0) by exact Hw. assert (Hp0 : outputs_present e0) by (intros k Hk; by apply elem_of_nil in Hk).
pose proof (run_script_present cs e0 Hw0 Hp0) as Hp1.
pose proof (command_loop_script cs x e0 rest out _ Hw0 Hcs Hx (length_script cs x rest)) as L.
destruct (run_script cs e0) as [e1 replies]. simpl in L, Hp1.
destruct (attr_lengths e1 Hp1) as [lengths El]. exists lengths. split; [exact El|].
assert (G : evaluate f spawn us secs (with_pipe e (script_bytes cs x ++ rest) out) =
(finally (try_with run_commands (λ e, bool_decide (e = OSError)) (λ _, filter_died))
(finish f us secs) ≫= λ _, gets e_result)
(set_result empty_result (with_pipe e (script_bytes cs x ++ rest) out))).
{ unfold evaluate. erewrite sm_bind_eq by reflexivity.
cbn [e_proc with_pipe set_proc]. erewrite sm_bind_eq by reflexivity. cbv beta.
by erewrite sm_bind_eq by reflexivity. }
rewrite G.
assert (R : run_commands (set_result empty_result (with_pipe e (script_bytes cs x ++ rest) out)) =
(Ok tt, with_pipe (set_result (set_score x (e_result e1)) e1) rest (out ++ replies))) by exact L.
assert (F : finish f us secs (with_pipe (set_result (set_score x (e_result e1)) e1) rest (out ++ replies)) =
(rate ← lift (throughput lengths secs);
 if rate <? ATTRIBUTE_CACHE_THRESHOLD then on_result (set_cache_output true) else mret tt)
(set_stats (filter_done_evaluate (threshold f (set_score x (e_result e1)))
 (dict_mem (input_attrs (e_result e1)) ATTR_GT_LABEL) us (e_stats e1))
 (with_pipe (set_result (set_score x (e_result e1)) e1) rest (out ++ replies)))).
{ unfold finish. erewrite sm_bind_eq by reflexivity. erewrite sm_bind_eq by reflexivity. cbv beta.
by erewrite sm_bind_eq by (unfold lift; cbn [e_obj e_result with_pipe set_proc set_result set_score output_attrs];
by rewrite El). }
unfold mbind, sm_bind, finally, try_with. rewrite R. cbv beta iota zeta. rewrite F.
unfold gets, mbind, sm_bind, lift. destruct (throughput lengths secs) as [rate|err]; [|done].
cbv beta iota zeta. destruct (rate <? ATTRIBUTE_CACHE_THRESHOLD); reflexivity.
Qed.

(** ** Determinism: what a recorded result says about another object

What a filter is told depends on the values of the attributes it reads, on the
session variables, and on the presence of the attributes it asks to omit.
[same e1 e2 k]: the two evaluations see the same value of [k]. *)
Definition reads (cs : list cmd) : list string := omap (λ c, match c with CGet k => Some k | _ => None end) cs.
Definition writes (cs : list cmd) : list string := omap (λ c, match c with CSet k _ => Some k | _ => None end) cs.
Definition omits (cs : list cmd) : list string := omap (λ c, match c with COmit k => Some k | _ => None end) cs.
(** No attribute is read after it has been set. *)
Fixpoint reads_first (cs : list cmd) : Prop :=
match cs with
| [] => True
| c :: cs => match c with CSet k _ => k ∉ reads cs | _ => True end ∧ reads_first cs
end.

Definition same (o1 o2 : Obj) (k : string) : Prop :=
dict_get (o_signatures o1) k = dict_get (o_signatures o2) k ∧
attr_bytes <$> dict_get (o_attrs o1) k = attr_bytes <$> dict_get (o_attrs o2) k ∧
dict_get (o_attrs o1) k ≠ Some ANone ∧ dict_get (o_attrs o2) k ≠ Some ANone.

Lemma setitem_same k v o1 o2 k' : o_mutable o1 = true → o_mutable o2 = true →
o_compute_signature o1 = o_compute_signature o2 →
(k = k' ∨ same o1 o2 k') →
same (setitem k (ABytes v) o1).2 (setitem k (ABytes v) o2).2 k'.
Proof.
intros H1 H2 Hc Hk. unfold same, setitem, signature_of. rewrite H1, H2. simpl. rewrite Hc.
destruct (o_compute_signature o2); simpl; rewrite !dict_get_set; case_decide; simplify_eq;
destruct Hk as [?|(? & ? & ? & ?)]; done.
Qed.

Lemma setitem_fields k v o : let o' := (setitem k v o).2 in
o_mutable o' = o_mutable o ∧ o_compute_signature o' = o_compute_signature o.
Proof. unfold setitem. destruct (o_mutable o) eqn:E; [|done]. simpl. by case_match. Qed.

Lemma same_reply o1 o2 k v1 v2 : same o1 o2 k →
dict_get (o_attrs o1) k = Some v1 → dict_get (o_attrs o2) k = Some v2 →
server_arg_bytes (attr_pv v1) = server_arg_bytes (attr_pv v2).
Proof.
intros (_ & Hb & Hn1 & Hn2) E1 E2. rewrite E1, E2 in *. simpl in Hb. injection Hb as Hb.
destruct v1, v2; simpl in *; try done; unfold server_arg_bytes; simpl in *; by rewrite Hb.
Qed.

Lemma script_step_contains c e k : ev_wf e →
contains k (e_obj (script_step c e).1) =
match c with CSet k' _ => bool_decide (k' = k) || contains k (e_obj e) | _ => contains k (e_obj e) end.
Proof.
intros Hw. destruct c as [|k'|k' v|k'|ks|kvs|l m|t]; try done; cbn [script_step].
- by case_match.
- cbn [fst e_obj set_result set_obj]. unfold contains, dict_mem. rewrite setitem_attrs by apply Hw. rewrite dict_get_set.
destruct (decide (k' = k)); [by rewrite (bool_decide_eq_true_2 (k' = k))|by rewrite (bool_decide_eq_false_2 (k' = k))].
- destruct (contains k' (e_obj e)) eqn:E; [|done]. cbn. unfold omit. by rewrite E.
Qed.

Lemma run_script_same cs e1 e2 :
ev_wf e1 → ev_wf e2 →
o_compute_signature (e_obj e1) = o_compute_signature (e_obj e2) →
e_session e1 = e_session e2 → e_result e1 = e_result e2 →
(∀ k, k ∈ reads cs → same (e_obj e1) (e_obj e2) k) →
(∀ k, k ∈ omits cs → contains k (e_obj e1) = contains k (e_obj e2)) →
(run_script cs e1).2 = (run_script cs e2).2 ∧
e_result (run_script cs e1).1 = e_result (run_script cs e2).1 ∧
e_session (run_script cs e1).1 = e_session (run_script cs e2).1 ∧
∀ k, k ∈ writes cs ∨ same (e_obj e1) (e_obj e2) k →
same (e_obj (run_script cs e1).1) (e_obj (run_script cs e2).1) k.
Proof.
revert e1 e2. induction cs as [|c cs IH]; intros e1 e2 Hw1 Hw2 Hc Hv Hr Hk Hom.
{ split_and!; [done..|]. intros k [Hin|Hs]; [by apply elem_of_nil in Hin|done]. }
pose proof (script_step_wf c e1 Hw1) as Hw1'. pose proof (script_step_wf c e2 Hw2) as Hw2'.
assert (S : (script_step c e1).2 = (script_step c e2).2 ∧
o_compute_signature (e_obj (script_step c e1).1) = o_compute_signature (e_obj (script_step c e2).1) ∧
e_session (script_step c e1).1 = e_session (script_step c e2).1 ∧
e_result (script_step c e1).1 = e_result (script_step c e2).1 ∧
∀ k, (match c with CSet k' _ => k' = k | _ => False end) ∨ same (e_obj e1) (e_obj e2) k →
same (e_obj (script_step c e1).1) (e_obj (script_step c e2).1) k).
{ destruct c as [|k|k v|k|ks|kvs|l m|t]; simpl.
- split_and!; [done..|]. by intros k [?|?].
- pose proof (Hk k) as Hs. destruct Hs as (Hsig & Hb & Hn); [by left|].
destruct (dict_get (o_attrs (e_obj e1)) k) as [v1|] eqn:E1,
 (dict_get (o_attrs (e_obj e2)) k) as [v2|] eqn:E2; try done; simpl.
+ split_and!; [|done|done|by rewrite Hr, Hsig|by intros ? [?|?]].
apply (same_reply (e_obj e1) (e_obj e2) k); try done. apply Hk. by left.
+ split_and!; [done..|by rewrite Hr|by intros ? [?|?]].
- pose proof (setitem_fields k (ABytes v) (e_obj e1)) as [_ F1].
pose proof (setitem_fields k (ABytes v) (e_obj e2)) as [_ F2].
destruct (setitem_same k v (e_obj e1) (e_obj e2) k) as (Hs & _); [apply Hw1|apply Hw2|done|by left|].
split_and!; [done|by rewrite F1, F2|done|by rewrite Hr, Hs|].
intros k' Hk'. apply setitem_same; [apply Hw1|apply Hw2|done|done].
- rewrite <-(Hom k) by (by left). destruct (contains k (e_obj e1)) eqn:Ek; simpl.
+ pose proof (Hom k ltac:(by left)) as Ek2. rewrite Ek in Ek2. unfold omit. rewrite Ek, <-Ek2. simpl.
split_and!; [done..|by rewrite Hr|by intros ? [?|?]].
+ split_and!; [done..|by intros ? [?|?]].
- split_and!; [by rewrite Hv|done..|]. by intros ? [?|?].
- split_and!; [done|done|by rewrite Hv|done|]. by intros ? [?|?].
- split_and!; [done..|]. by intros ? [?|?].
- split_and!; [done..|]. by intros ? [?|?]. }
destruct S as (S1 & S2 & S3 & S4 & S5).
destruct (IH (script_step c e1).1 (script_step c e2).1 Hw1' Hw2' S2 S3 S4) as (I1 & I2 & I3 & I4).
{ intros k Hin. apply S5. right. apply Hk. unfold reads. simpl. destruct c; simpl; try done. by right. }
{ intros k Hin. rewrite !script_step_contains by done.
assert (Hin' : k ∈ omits (c :: cs)) by (unfold omits; destruct c; simpl; try done; by right).
rewrite (Hom k Hin'). by destruct c. }
simpl. destruct (script_step c e1) as [e1' b1], (script_step c e2) as [e2' b2]. simpl in *.
destruct (run_script cs e1') as [e1'' b1'], (run_script cs e2') as [e2'' b2']. simpl in *.
split_and!; [congruence|done|done|]. intros k Hin. apply I4.
destruct Hin as [Hin|Hs]; [|right; apply S5; by right].
unfold writes in *. destruct c; simpl in Hin; try (by left); [].
apply elem_of_cons in Hin as [->|Hin]; [|by left]. right. apply S5. by left.
Qed.

(** A step changes only the attribute that it sets, and records only the one that
it reads. *)
Lemma script_step_other c e k : ev_wf e → (match c with CSet k' _ => k' ≠ k | _ => True end) →
let e' := (script_step c e).1 in
dict_get (o_attrs (e_obj e')) k = dict_get (o_attrs (e_obj e)) k ∧
dict_get (o_signatures (e_obj e')) k = dict_get (o_signatures (e_obj e)) k.
Proof.
intros Hw Hk. destruct c as [|k'|k' v|k'|ks|kvs|l m|t]; try done; simpl.
- by case_match.
- rewrite setitem_attrs by apply Hw. rewrite dict_get_set_ne by done. split; [done|].
unfold setitem. destruct (negb _); [done|]. destruct (signature_of _ _); simpl; [by rewrite dict_get_set_ne|done].
- case_match; [|done]. simpl. unfold omit. by case_match.
Qed.
Lemma script_step_input c e k : ev_wf e →
dict_get (input_attrs (e_result (script_step c e).1)) k =
if decide (c = CGet k) then
Some (dict_get (o_attrs (e_obj e)) k ≫= λ _, dict_get (o_signatures (e_obj e)) k)
else dict_get (input_attrs (e_result e)) k.
Proof.
intros Hw. destruct c as [|k'|k' v|k'|ks|kvs|l m|t]; try (by (simpl; rewrite ?decide_False)); simpl.
- destruct (dict_get (o_attrs (e_obj e)) k') as [v|] eqn:E; simpl; rewrite dict_get_set;
(destruct (decide (k' = k)) as [->|];
[rewrite decide_True by done; by rewrite E | rewrite decide_False by congruence; done]).
- rewrite decide_False by done. by case_match.
Qed.

(** An attribute that the filter never sets keeps its value. *)
Lemma run_script_unset cs e k : ev_wf e → k ∉ writes cs →
let e' := (run_script cs e).1 in
dict_get (o_attrs (e_obj e')) k = dict_get (o_attrs (e_obj e)) k ∧
dict_get (o_signatures (e_obj e')) k = dict_get (o_signatures (e_obj e)) k.
Proof.
revert e. induction cs as [|c cs IH]; intros e Hw Hk; [done|].
assert (Hk' : k ∉ writes cs) by (intros Hin; apply Hk; unfold writes; destruct c; simpl; try done; by right).
specialize (IH _ (script_step_wf c e Hw) Hk'). simpl.
assert (S : match c with CSet k' _ => k' ≠ k | _ => True end).
{ destruct c; try done. intros ->. apply Hk. by left. }
destruct (script_step_other c e k Hw S) as (S1 & S2). destruct (script_step c e) as [e1 b1]. simpl in *.
destruct (run_script cs e1) as [e2 b2]. simpl in *. destruct IH. split; congruence.
Qed.

(** The value recorded for an attribute that the filter reads, and does not set
before, is the one that the object had at the start. *)
Lemma run_script_reads cs e k : ev_wf e → reads_first cs →
dict_get (input_attrs (e_result (run_script cs e).1)) k =
if decide (k ∈ reads cs) then
Some (dict_get (o_attrs (e_obj e)) k ≫= λ _, dict_get (o_signatures (e_obj e)) k)
else dict_get (input_attrs (e_result e)) k.
Proof.
revert e. induction cs as [|c cs IH]; intros e Hw Hrf; [done|]. destruct Hrf as [Hc Hf].
specialize (IH _ (script_step_wf c e Hw) Hf). pose proof (script_step_input c e k Hw) as S3.
pose proof (script_step_other c e k Hw) as S. simpl.
destruct (script_step c e) as [e1 b1]. simpl in *.
destruct (run_script cs e1) as [e2 b2]. simpl in *. rewrite IH, S3. clear IH S3.
destruct (decide (k ∈ reads cs)) as [Hin|Hni].
- rewrite decide_True by (unfold reads in *; destruct c; simpl; try done; by right).
destruct S as [-> ->]; [|done]. destruct c; try done. by intros ->.
- destruct (decide (c = CGet k)) as [->|Hne].
+ by rewrite decide_True by (by left).
+ rewrite decide_False; [done|]. unfold reads. destruct c; simpl; try done.
apply not_elem_of_cons. split; [congruence|done].
Qed.

Lemma run_script_keys cs e :
(∀ k, k ∈ dict_keys (output_attrs (e_result (run_script cs e).1)) ↔
k ∈ writes cs ∨ k ∈ dict_keys (output_attrs (e_result e))) ∧
(∀ k, k ∈ dict_keys (input_attrs (e_result (run_script cs e).1)) ↔
k ∈ reads cs ∨ k ∈ dict_keys (input_attrs (e_result e))).
Proof.
revert e. induction cs as [|c cs IH]; intros e; [simpl; split; intros k; set_solver|].
destruct (IH (script_step c e).1) as [I1 I2].
simpl. assert (D : ∀ {V} (d : dict string V) k' v k, k ∈ dict_keys (dict_set d k' v) ↔ k = k' ∨ k ∈ dict_keys d).
{ intros V d k' v k. rewrite dict_keys_set. case_decide; set_solver. }
destruct (script_step c e) as [e1 b1] eqn:Es. simpl in I1, I2.
destruct (run_script cs e1) as [e2 b2]. simpl in *.
destruct c as [|k'|k' v|k'|ks|kvs|l m|t]; unfold reads, writes in *; simpl in *;
try (injection Es as <- <-; simpl in *; split; intros k; [rewrite I1|rewrite I2]; done).
- assert (E : output_attrs (e_result e1) = output_attrs (e_result e) ∧
∀ k, k ∈ dict_keys (input_attrs (e_result e1)) ↔ k = k' ∨ k ∈ dict_keys (input_attrs (e_result e))).
{ case_match; injection Es as <- <-; simpl; split; try done; intros k; apply D. }
destruct E as [E1 E2]. split; intros k; [rewrite I1, E1; done|rewrite I2, E2]. set_solver.
- injection Es as <- <-. simpl in *. split; intros k; [rewrite I1, D|rewrite I2; done]. set_solver.
- case_match; injection Es as <- <-; split; intros k; [rewrite I1|rewrite I2|rewrite I1|rewrite I2]; done.
Qed.

(** The last value that a script gives an attribute. *)
Fixpoint last_write (cs : list cmd) (k : string) : option bytes :=
match cs with
| [] => None
| c :: cs =>
match last_write cs k, c with
| Some v, _ => Some v
| None, CSet k' v => if decide (k' = k) then Some v else None
| None, _ => None
end
end.

Lemma last_write_writes cs k : k ∈ writes cs → is_Some (last_write cs k).
Proof.
induction cs as [|c cs IH]; intros Hk; [by apply elem_of_nil in Hk|]. simpl.
destruct (last_write cs k) eqn:E; [done|]. unfold writes in *. destruct c; simpl in Hk;
try (by apply IH). apply elem_of_cons in Hk as [->|Hk]; [by rewrite decide_True|].
by destruct (IH Hk).
Qed.

Lemma run_script_writes cs e k : ev_wf e →
dict_get (o_attrs (e_obj (run_script cs e).1)) k =
match last_write cs k with Some v => Some (ABytes v) | None => dict_get (o_attrs (e_obj e)) k end.
Proof.
revert e. induction cs as [|c cs IH]; intros e Hw; [done|].
specialize (IH _ (script_step_wf c e Hw)). pose proof (script_step_other c e k Hw) as So. simpl.
destruct (script_step c e) as [e1 b1] eqn:Es. simpl in IH, So.
destruct (run_script cs e1) as [e2 b2]. simpl in *. rewrite IH.
destruct (last_write cs k); [done|].
destruct c as [|k'|k' v|k'|ks|kvs|l m|t]; try (by apply So). destruct (decide (k' = k)) as [->|]; [|by apply So].
injection Es as <- <-. simpl. rewrite setitem_attrs by apply Hw. by rewrite dict_get_set_eq.
Qed.

(** Each recorded output is the hash of the attribute's final value, and the
result lists no attribute twice. *)
Lemma run_script_outputs cs e : ev_wf e →
dict_wf (output_attrs (e_result e)) →
let e' := (run_script cs e).1 in
dict_wf (output_attrs (e_result e')) ∧
∀ k, (k ∈ dict_keys (output_attrs (e_result e)) →
dict_get (output_attrs (e_result e)) k = dict_get (o_signatures (e_obj e)) k) →
k ∈ dict_keys (output_attrs (e_result e')) →
dict_get (output_attrs (e_result e')) k = dict_get (o_signatures (e_obj e')) k.
Proof.
revert e. induction cs as [|c cs IH]; intros e Hw Hd; [simpl; auto|].
pose proof (script_step_wf c e Hw) as Hw1.
assert (S : dict_wf (output_attrs (e_result (script_step c e).1)) ∧
∀ k, (k ∈ dict_keys (output_attrs (e_result e)) →
dict_get (output_attrs (e_result e)) k = dict_get (o_signatures (e_obj e)) k) →
k ∈ dict_keys (output_attrs (e_result (script_step c e).1)) →
dict_get (output_attrs (e_result (script_step c e).1)) k =
dict_get (o_signatures (e_obj (script_step c e).1)) k).
{ destruct c as [|k'|k' v|k'|ks|kvs|l m|t]; simpl; try (by split_and!; auto).
- case_match; simpl; by split_and!; auto.
- destruct (setitem_total k' (ABytes v) (e_obj e)) as [o' Eo]; [apply Hw|done|]. rewrite Eo. simpl.
destruct (setitem_Ok _ _ _ _ _ (proj1 Hw) Eo) as (Hw' & Ha & _).
destruct (obj_wf_signature o' k' (ABytes v) Hw') as (s & _ & Hs); [by rewrite Ha, dict_get_set_eq|].
rewrite Hs. simpl. split_and!; [auto with diamond|]. intros k Hk.
rewrite dict_keys_set, dict_get_set.
destruct (decide (k' = k)) as [->|Hne]; [by rewrite Hs|].
intros Hin. rewrite Hk by (case_decide; set_solver).
unfold setitem in Eo. destruct (negb _); [done|]. destruct (signature_of _ _); [|done].
injection Eo as <-. simpl. by rewrite dict_get_set_ne.
- destruct (contains k' (e_obj e)) eqn:Ek; simpl; [|by auto]. unfold omit. rewrite Ek. by auto. }
destruct S as (S1 & S3). specialize (IH _ Hw1 S1). simpl.
destruct (script_step c e) as [e1 b1]. simpl in *. destruct (run_script cs e1) as [e2 b2]. simpl in *.
destruct IH as (I1 & I3). split; [done|]. intros k Hk Hin. apply I3; [|done].
intros Hin1. by apply S3.
Qed.

(** The object's omit set grows by what the result records. *)
Lemma run_script_object cs e : ev_wf e →
(∃ X, o_omit_attrs (e_obj (run_script cs e).1) = X ∪ o_omit_attrs (e_obj e) ∧
omit_attrs (e_result (run_script cs e).1) = X ∪ omit_attrs (e_result e)) ∧
o_compute_signature (e_obj (run_script cs e).1) = o_compute_signature (e_obj e).
Proof.
revert e. induction cs as [|c cs IH]; intros e Hw.
{ split; [|done]. exists ∅. by rewrite !union_empty_l_L. }
specialize (IH _ (script_step_wf c e Hw)). simpl.
assert (S : (∃ Y, o_omit_attrs (e_obj (script_step c e).1) = Y ∪ o_omit_attrs (e_obj e) ∧
omit_attrs (e_result (script_step c e).1) = Y ∪ omit_attrs (e_result e)) ∧
o_compute_signature (e_obj (script_step c e).1) = o_compute_signature (e_obj e)).
{ destruct c as [|k'|k' v|k'|ks|kvs|l m|t]; simpl;
try (split; [exists ∅; by rewrite !union_empty_l_L|done]).
- case_match; (split; [exists ∅; by rewrite !union_empty_l_L|done]).
- unfold setitem. destruct (negb _); [|destruct (signature_of _ _)]; (split; [exists ∅; by rewrite !union_empty_l_L|done]).
- destruct (contains k' (e_obj e)) eqn:Ek; [|split; [exists ∅; by rewrite !union_empty_l_L|done]].
simpl. unfold omit. rewrite Ek. simpl. split; [by exists {[k']}|done]. }
destruct (script_step c e) as [e1 b1]. simpl in *. destruct (run_script cs e1). simpl in *.
destruct IH as [(X & -> & ->) ->], S as [(Y & -> & ->) ->]. split; [|done]. exists (X ∪ Y). by rewrite !assoc_L by apply _.
Qed.

(** ** A filter that dies *)
Lemma command_loop_eof cs e out fuel : ev_wf e → Forall cmd_wf cs → (length cs < fuel)%nat →
command_loop fuel (with_pipe e (concat (cmd_bytes <$> cs)) out) =
(Raise OSError, with_pipe (run_script cs e).1 [] (out ++ (run_script cs e).2)).
Proof.
intros Hw Hcs. revert fuel e out Hw. induction Hcs as [|c cs Hc Hcs IH]; intros fuel e out Hw Hf;
destruct fuel as [|fuel]; try (simpl in Hf; lia); cbn [command_loop].
- csimpl. rewrite app_nil_r. reflexivity.
- csimpl. erewrite sm_bind_eq by (by apply command_step). cbv beta iota.
pose proof (script_step_wf c e Hw) as Hw1. destruct (script_step c e) as [e1 b1]. simpl in Hw1 |- *.
rewrite IH by (done || (simpl in Hf; lia)). destruct (run_script cs e1). simpl. by rewrite app_assoc.
Qed.

Lemma length_cmds cs : (length cs < S (length (concat (cmd_bytes <$> cs))))%nat.
Proof.
pose proof (length_script cs fzero []) as Hl. rewrite app_nil_r in Hl. unfold script_bytes in Hl.
induction cs as [|c cs IH]; csimpl; [lia|]. rewrite length_app.
assert (0 < length (cmd_bytes c))%nat.
{ unfold cmd_bytes, message_bytes. rewrite length_app. simpl. lia. }
pose proof (length_script cs fzero []) as Hl'. rewrite app_nil_r in Hl'. specialize (IH Hl'). lia.
Qed.

(** A filter whose output ends before a result: if it had initialized, the
object is dropped, the event is counted and the process is forgotten, so
that the next evaluation starts a new one; if it had not, the search fails
with [FilterExecutionError].  Either way the attributes it set stay set. *)
Theorem evaluate_filter_died f cs out e spawn us secs rate :
ev_wf e → Forall cmd_wf cs →
let e1 := (run_script cs (set_result empty_result e)).1 in
(∀ lengths, mapM_res (attr_length (e_obj e1)) (dict_keys (output_attrs (e_result e1))) = Ok lengths →
 throughput lengths secs = Ok rate) →
∃ e', evaluate f spawn us secs (with_pipe e (concat (cmd_bytes <$> cs)) out) =
(Raise (if e_initialized e1 then DropObject else FilterExecutionError), e') ∧
e_obj e' = e_obj e1 ∧
(e_initialized e1 = true → e_proc e' = None ∧
 counter "objs_terminate" (e_stats e') = wrap_s 32 (counter "objs_terminate" (e_stats e1) + 1)).
Proof.
intros Hw Hcs. cbv zeta. set (e0 := set_result empty_result e).
assert (Hw0 : ev_wf e0) by exact Hw. assert (Hp0 : outputs_present e0) by (intros k Hk; by apply elem_of_nil in Hk).
pose proof (run_script_present cs e0 Hw0 Hp0) as Hp1.
pose proof (command_loop_eof cs e0 out _ Hw0 Hcs (length_cmds cs)) as L.
destruct (run_script cs e0) as [e1 replies]. cbn [fst snd] in *. intros Hrate.
destruct (attr_lengths e1 Hp1) as [lengths El]. specialize (Hrate lengths El).
assert (R : run_commands (set_result empty_result (with_pipe e (concat (cmd_bytes <$> cs)) out)) =
(Raise OSError, with_pipe e1 [] (out ++ replies))) by exact L.
assert (F : ∀ e', e_obj e' = e_obj e1 → e_result e' = e_result e1 → ∃ e'', finish f us secs e' = (Ok tt, e'') ∧
e_obj e'' = e_obj e1 ∧ e_proc e'' = e_proc e' ∧
e_stats e'' = filter_done_evaluate (threshold f (e_result e1))
(dict_mem (input_attrs (e_result e1)) ATTR_GT_LABEL) us (e_stats e')).
{ intros e' Ho Hr. unfold finish. erewrite sm_bind_eq by reflexivity. erewrite sm_bind_eq by reflexivity.
cbv beta. erewrite sm_bind_eq by (unfold lift; by rewrite Ho, Hr, El).
erewrite sm_bind_eq by (unfold lift; by rewrite Hrate). rewrite ?Hr.
destruct (rate <? ATTRIBUTE_CACHE_THRESHOLD); eexists; (split; [reflexivity|done]). }
assert (G : evaluate f spawn us secs (with_pipe e (concat (cmd_bytes <$> cs)) out) =
(finally (try_with run_commands (λ e, bool_decide (e = OSError)) (λ _, filter_died))
(finish f us secs) ≫= λ _, gets e_result)
(set_result empty_result (with_pipe e (concat (cmd_bytes <$> cs)) out))).
{ unfold evaluate. erewrite sm_bind_eq by reflexivity.
cbn [e_proc with_pipe set_proc]. erewrite sm_bind_eq by reflexivity. cbv beta.
by erewrite sm_bind_eq by reflexivity. }
rewrite G. unfold mbind, sm_bind, finally, try_with. rewrite R.
rewrite bool_decide_eq_true_2 by done. unfold filter_died.
erewrite sm_bind_eq by reflexivity. cbn [e_initialized with_pipe set_proc].
destruct (e_initialized e1).
- erewrite sm_bind_eq by reflexivity. unfold fail. cbv beta iota zeta.
edestruct F as (e'' & -> & Ho & Hpr & Hs); [..|exists e''; split_and!; [done|done|]]; [done..|].
intros _. rewrite Hpr, Hs. split; [done|]. unfold filter_done_evaluate.
rewrite !counter_bump. simpl. unfold filter_terminate. by rewrite counter_bump.
- unfold fail. cbv beta iota zeta.
edestruct F as (e'' & -> & Ho & Hpr & Hs); [..|exists e''; split_and!; [done|done|done]]; done.
Qed.
End Runner.

(** ** A concrete filter and object *)
#[local] Existing Instance sample_murmur.
#[local] Instance sample_resources : Resources unit := λ _ _, mret [("name", "c"); ("IPAddress", "10.0.0.2")].

Definition sample_data_obj : Obj :=
  (setitem "" (ABytes [Byte.x01; Byte.x02; Byte.x03]) (Object_init "srv" "http://h/1" None None true)).2.
Definition sample_ev : ev (C := unit) :=
  Ev sample_data_obj None true empty_vars tt (stats_init filter_attrs) empty_result.
Definition sample_script : list cmd := [CInit; CLog 4 "hello"; CGet ""; CSet "_rgb" [Byte.x0a; Byte.x0b]; CGet "missing"].
Definition rgb_filter : Filter := sample_filter "RGB" [] "d2".

Lemma sample_ev_wf : ev_wf sample_ev.
Proof.
  split; [|by vm_compute].
  eapply (setitem_Ok "" (ABytes [Byte.x01; Byte.x02; Byte.x03])
    (Object_init "srv" "http://h/1" None None true)); [apply Object_init_wf|by vm_compute].
Qed.

Lemma sample_script_wf : Forall cmd_wf sample_script.
Proof. repeat (constructor; [by vm_compute|]). constructor. Qed.

Lemma evaluate_script_witness :
  let '(e1, replies) := run_script sample_script (set_result empty_result sample_ev) in
  let r := set_score (dec "0.5") (e_result e1) in
  ∃ lengths, mapM_res (attr_length (e_obj e1)) (dict_keys (output_attrs r)) = Ok lengths ∧
  match throughput lengths (dec "0.25") with
  | Ok rate =>
    let r := if rate <? ATTRIBUTE_CACHE_THRESHOLD then set_cache_output true r else r in
    evaluate rgb_filter (Ok no_pipe) 7 (dec "0.25")
      (with_pipe sample_ev (script_bytes sample_script (dec "0.5") ++ [Byte.x41]) []) =
      (Ok r, set_stats (filter_done_evaluate (threshold rgb_filter r)
               (dict_mem (input_attrs r) ATTR_GT_LABEL) 7 (e_stats e1))
               (set_result r (with_pipe e1 [Byte.x41] ([] ++ replies))))
  | Raise err => (evaluate rgb_filter (Ok no_pipe) 7 (dec "0.25")
      (with_pipe sample_ev (script_bytes sample_script (dec "0.5") ++ [Byte.x41]) [])).1 = Raise err
  end.
Proof.
  apply (evaluate_script rgb_filter sample_script (dec "0.5") [Byte.x41] [] sample_ev (Ok no_pipe) 7 (dec "0.25"));
    [apply sample_ev_wf|apply sample_script_wf|by vm_compute].
Defined.

Lemma evaluate_filter_died_witness :
  let e1 := (run_script sample_script (set_result empty_result sample_ev)).1 in
  ∃ e', evaluate rgb_filter (Ok no_pipe) 7 (dec "0.25") (with_pipe sample_ev (concat (cmd_bytes <$> sample_script)) []) =
      (Raise (if e_initialized e1 then DropObject else FilterExecutionError), e') ∧
    e_obj e' = e_obj e1 ∧
    (e_initialized e1 = true → e_proc e' = None ∧
       counter "objs_terminate" (e_stats e') = wrap_s 32 (counter "objs_terminate" (e_stats e1) + 1)).
Proof.
  apply (evaluate_filter_died rgb_filter sample_script [] sample_ev (Ok no_pipe) 7 (dec "0.25") 8);
    [apply sample_ev_wf|apply sample_script_wf|].
  intros lengths Hl. enough (lengths = [2]) as -> by by vm_compute.
  assert (E : mapM_res (attr_length (e_obj (run_script sample_script (set_result empty_result sample_ev)).1))
    (dict_keys (output_attrs (e_result (run_script sample_script (set_result empty_result sample_ev)).1))) = Ok [2])
    by by vm_compute.
  congruence.
Defined.
