(* ===== verification/Evaluate.v ===== *)
(** Evaluating an object with a filter stack (src/opendiamond/server/filter.py,
    [FilterStackRunner]): the result cache and the attribute cache in Redis, the
    runners in order, and the updates of the caches afterwards. *)
From S2P Require Import Prelude PyBytes PyText Dict Float64 FloatText Hex Helpers ServerObject.
From S2P Require Import FilterProto SessionVars Statistics FilterStack ResultCache FilterRunner.
Local Open Scope Z_scope.

(** [simplejson.dumps]; [json_loads] is in [Environment]. *)
Class JsonDumps := json_dumps : json → bytes.

(** ** _FilterResult.encode and decode *)
Definition attrs_json (d : dict string (option string)) : json :=
  JObject ((λ p, (p.1, match p.2 with Some s => JStr s | None => JNull end)) <$> d).

Definition result_json (r : FilterResult) : json :=
  JObject ([("input_attrs", attrs_json (input_attrs r));
            ("output_attrs", attrs_json ((λ p, (p.1, Some p.2)) <$> output_attrs r));
            ("score", JFloat (score r))] ++
           if decide (omit_attrs r = ∅) then []
           else [("omit_attrs", JArray (JStr <$> elements (omit_attrs r)))]).

Definition json_attrs (j : json) : res (dict string (option string)) :=
  match j with
  | JObject d => mapM_res (λ p : string * json,
      match p.2 with JStr s => Ok (p.1, Some s) | JNull => Ok (p.1, None) | _ => Raise TypeError end) d
  | _ => Raise TypeError
  end.
Definition json_outputs (j : json) : res (dict string string) :=
  d ← json_attrs j;
  mapM_res (λ p : string * option string,
    match p.2 with Some s => Ok (p.1, s) | None => Raise TypeError end) d.
Definition json_strings (j : json) : res (list string) :=
  match j with
  | JArray l => mapM_res (λ x, match x with JStr s => Ok s | _ => Raise TypeError end) l
  | _ => Raise TypeError
  end.

(** The recorded inputs are what the object has now. *)
Definition inputs_match (result : FilterResult) (o : Obj) : bool :=
  forallb (λ p : string * option string,
    match p.2 with
    | None => negb (contains p.1 o)
    | Some sig => contains p.1 o && bool_decide (get_signature p.1 o = Ok sig)
    end) (input_attrs result).

Section Evaluate.
Context `{Murmur, Environment, Blobs, JsonDumps} {C : Type} `{Resources C}.

Definition FilterResult_encode (r : FilterResult) : bytes := json_dumps (result_json r).

(** A missing member makes the entry unusable ([None]). *)
Definition FilterResult_decode (data : option bytes) : res (option FilterResult) :=
match data with
| None => Ok None
| Some b =>
j ← json_loads b;
match j with
| JObject d =>
match dict_get d "input_attrs", dict_get d "output_attrs", dict_get d "score" with
| Some ji, Some jo, Some (JFloat s) =>
i ← json_attrs ji; o ← json_outputs jo;
om ← match dict_get d "omit_attrs" with
 | None | Some JNull => Ok []
 | Some jm => json_strings jm
 end;
Ok (Some (FilterResult_init i o om s))
| Some _, Some _, Some _ => Raise TypeError
| _, _, _ => Ok None
end
| _ => Raise TypeError
end
end.

(** ** Runners *)

(** [_ObjectFetcher] ([r_filter] is [None]) or [_FilterRunner], with the state
that survives from one object to the next. *)
Record runner := Runner {
r_filter : option Filter;
r_proc : option pipe;
r_initialized : bool;
r_stats : stats
}.

(** The runner list of a [FilterStackRunner]. *)
Definition fetcher : runner := Runner None None false [].
Definition bind (f : Filter) : runner := Runner (Some f) None false (stats_init filter_attrs).
Definition bind_stack (filters : list Filter) : list runner := fetcher :: (bind <$> filters).

(** [_get_cache_digest], [get_cache_key], [threshold] *)
Definition runner_digest (r : runner) : string :=
match r_filter r with None => "dataretriever" | Some f => default "" (FilterStack.cache_digest f) end.
Definition get_cache_key (r : runner) (o : Obj) : string :=
"result:" +:+ murmur (str_encode (runner_digest r +:+ " " +:+ o_id o)).
Definition get_attribute_key (value_sig : string) : string := "attribute:" +:+ value_sig.
Definition runner_threshold (r : runner) (res : FilterResult) : bool :=
match r_filter r with None => true | Some f => threshold f res end.

(** [cache_hit] *)
Definition cache_hit (res : FilterResult) (r : runner) : runner :=
match r_filter r with
| None => r
| Some f => Runner (r_filter r) (r_proc r) (r_initialized r)
(filter_cache_hit (threshold f res) (dict_mem (input_attrs res) ATTR_GT_LABEL) (r_stats r))
end.

(** ** The worker's state *)
Record ws := Ws {
ws_obj : Obj;
ws_runners : list runner;
ws_session : SessionVariables;
ws_ctx : C;
ws_redis : option (gmap string bytes);   (* [None]: no cache configured *)
ws_stats : stats;
ws_new : dict nat FilterResult           (* [new_results] *)
}.

Definition ws_set_obj (x : Obj) (w : ws) : ws :=
Ws x (ws_runners w) (ws_session w) (ws_ctx w) (ws_redis w) (ws_stats w) (ws_new w).
Definition ws_set_runners (x : list runner) (w : ws) : ws :=
Ws (ws_obj w) x (ws_session w) (ws_ctx w) (ws_redis w) (ws_stats w) (ws_new w).
Definition ws_set_redis (x : option (gmap string bytes)) (w : ws) : ws :=
Ws (ws_obj w) (ws_runners w) (ws_session w) (ws_ctx w) x (ws_stats w) (ws_new w).
Definition ws_set_stats (x : stats) (w : ws) : ws :=
Ws (ws_obj w) (ws_runners w) (ws_session w) (ws_ctx w) (ws_redis w) x (ws_new w).
Definition ws_set_new (x : dict nat FilterResult) (w : ws) : ws :=
Ws (ws_obj w) (ws_runners w) (ws_session w) (ws_ctx w) (ws_redis w) (ws_stats w) x.
Definition on_ws_obj {A} : sm Obj A → sm ws A := zoom ws_obj ws_set_obj.

(** What the world does during one evaluation: starting a filter process, the two
clocks of each runner and of the search, and Redis's answer to the update. *)
Record world := World {
w_spawn : nat → res pipe;
w_us : nat → Z;
w_seconds : nat → float;
w_search_us : Z;
w_mset : res unit
}.
Context (wd : world).

(** ** Attribute cache *)

(** [for key in result.omit_attrs: try: obj.omit(key) except KeyError: ...]; the
order does not matter. *)
Definition omit_all (keys : gset string) : sm Obj unit :=
mapM_sm (λ k, try_with (omit k) (λ e, bool_decide (e = KeyError)) (λ _, mret tt)) (elements keys)
≫= λ _, mret tt.

(** [_attribute_cache_try_load] *)
Definition attribute_cache_try_load (i : nat) (result : FilterResult) : sm ws bool :=
w ← get_state;
if negb (inputs_match result (ws_obj w)) then mret false else
let keys := dict_keys (output_attrs result) in
let cache_keys := (λ p : string * string, get_attribute_key p.2) <$> output_attrs result in
let values := match ws_redis w with
| Some m => (λ k, m !! k) <$> cache_keys
| None => (λ _, None) <$> cache_keys
end in
match mapM id values with
| None => mret false
| Some vs =>
mapM_sm (λ p : string * bytes, on_ws_obj (setitem p.1 (ABytes p.2))) (zip keys vs) ≫= λ _,
on_ws_obj (omit_all (omit_attrs result)) ≫= λ _,
modify (λ w, ws_set_runners (alter (cache_hit result) i (ws_runners w)) w) ≫= λ _,
mret true
end.

(** ** Evaluation *)

(** [_ObjectFetcher.evaluate] *)
Definition fetch : sm ws FilterResult :=
on_ws_obj load ≫= λ _,
o ← gets ws_obj;
sigs ← lift (mapM_res (λ k, s ← get_signature k o; Ok (k, s)) (dict_keys (o_attrs o)));
lift (getitem ATTR_OBJ_ID o) ≫= λ _,
lift (getitem ATTR_DATA o) ≫= λ _,
mret (FilterResult_init [] (dict_of sigs) [] fzero).

(** [runner.evaluate(obj)]: the runner's own state and the search's are one [ev]. *)
Definition runner_evaluate (i : nat) : sm ws FilterResult := λ w,
match ws_runners w !! i with
| None => (Raise IndexError, w)
| Some r =>
match r_filter r with
| None => fetch w
| Some f =>
let e := Ev (ws_obj w) (r_proc r) (r_initialized r) (ws_session w) (ws_ctx w) (r_stats r) empty_result in
let '(res, e) := evaluate f (w_spawn wd i) (w_us wd i) (w_seconds wd i) e in
(res, Ws (e_obj e) (<[i := Runner (r_filter r) (e_proc e) (e_initialized e) (e_stats e)]> (ws_runners w))
(e_session e) (e_ctx e) (ws_redis w) (ws_stats w) (ws_new w))
end
end.

(** [ATTR_FILTER_SCORE % runner], and the value stored under it. *)
Definition score_attr (f : Filter) : string := "_filter." +:+ f_name f +:+ "_score".
Definition score_text (x : float) : string :=
nul_terminated (String.string_of_list_byte (format_float x)).

(** [for runner in self._runners]: [true] when the object passes all of them. *)
Fixpoint run_runners (cache_results : dict nat FilterResult) (idxs : list nat) : sm ws bool :=
match idxs with
| [] => mret true
| i :: idxs =>
cached ← match dict_get cache_results i with
 | Some r => hit ← attribute_cache_try_load i r; mret (if hit : bool then Some r else None)
 | None => mret None
 end;
result ← match cached with
 | Some r => mret r
 | None => r ← runner_evaluate i;
 modify (λ w, ws_set_new (dict_set (ws_new w) i r) w) ≫= λ _, mret r
 end;
rs ← gets ws_runners;
match rs !! i with
| None => fail IndexError
| Some r =>
if negb (runner_threshold r result) then mret false
else
match r_filter r with
| Some f => on_ws_obj (setitem (score_attr f) (AStr (score_text (score result))))
| None => mret tt
end ≫= λ _, run_runners cache_results idxs
end
end.

(** The cached results, in runner order. *)
Definition lookup_results (w : ws) : res (dict nat FilterResult) :=
match ws_redis w with
| None => Ok []
| Some m =>
results ← mapM_res (λ r, FilterResult_decode (m !! get_cache_key r (ws_obj w))) (ws_runners w);
Ok (omap (λ p, (λ r, (p.1, r)) <$> p.2) (imap pair results))
end.

(** The Redis keys to set after an evaluation. *)
Definition new_entries (w : ws) : res (list (string * bytes)) :=
l ← mapM_res (λ p : nat * FilterResult,
r ← of_option IndexError (ws_runners w !! p.1);
let entry := (get_cache_key r (ws_obj w), FilterResult_encode p.2) in
if cache_output p.2 then
attrs ← mapM_res (λ q : string * string,
s ← get_signature q.1 (ws_obj w);
if decide (q.2 = s) then
v ← getitem q.1 (ws_obj w); Ok [(get_attribute_key q.2, attr_bytes v)]
else Ok []) (output_attrs p.2);
Ok (entry :: concat attrs)
else Ok [entry]) (ws_new w);
Ok (concat l).

(** The [finally] block of [_evaluate]. *)
Definition update_cache : sm ws unit := λ w,
match ws_redis w with
| None => (Ok tt, w)
| Some m =>
match new_entries w with
| Raise e => (Raise e, w)
| Ok [] => (Ok tt, w)
| Ok l =>
match w_mset wd with
| Ok _ => (Ok tt, ws_set_redis (Some (foldl (λ m p, <[p.1 := p.2]> m) m l)) w)
| Raise ResponseError => (Ok tt, w)
| Raise e => (Raise e, w)
end
end
end.

(** [_evaluate] *)
Definition evaluate_object : sm ws bool :=
w ← get_state;
cache_results ← lift (lookup_results w);
match result_cache_can_drop cache_results
(λ i res, match ws_runners w !! i with Some r => runner_threshold r res | None => true end) with
| Some deps =>
modify (λ w, ws_set_runners (imap (λ i r,
if decide (i ∈ deps) then
match dict_get cache_results i with Some res => cache_hit res r | None => r end
else r) (ws_runners w)) w) ≫= λ _,
mret false
| None =>
modify (ws_set_new []) ≫= λ _,
finally
(try_with
(try_with (run_runners cache_results (seq 0 (length (ws_runners w))))
(λ e, bool_decide (e = ObjectLoadError))
(λ _, modify (λ w, ws_set_stats (search_unloadable (ws_stats w)) w) ≫= λ _, mret false))
(λ e, bool_decide (e = DropObject)) (λ _, mret false))
update_cache
end.

(** [evaluate]: with the search statistics, updated also when it raises. *)
Definition evaluate_counted : sm ws bool := λ w,
let '(r, w) := evaluate_object w in
let accept := match r with Ok b => b | Raise _ => false end in
let gt_present := match r with Ok _ => contains ATTR_GT_LABEL (ws_obj w) | Raise _ => false end in
(r, ws_set_stats (search_done_evaluate accept gt_present (w_search_us wd) (ws_stats w)) w).
End Evaluate.

(** ** What is stored in the result cache *)
Section Stored.
Context `{Environment, JsonDumps}.

#[local] Arguments json_attrs : simpl never.
#[local] Arguments json_outputs : simpl never.
#[local] Arguments json_strings : simpl never.
#[local] Arguments attrs_json : simpl never.

Lemma json_attrs_json d : json_attrs (attrs_json d) = Ok d.
Proof.
apply mapM_res_Ok, Forall2_fmap_l, Forall_Forall2_diag, Forall_forall.
by intros [k [s|]] _.
Qed.

Lemma json_outputs_json d : json_outputs (attrs_json ((λ p, (p.1, Some p.2)) <$> d)) = Ok d.
Proof.
unfold json_outputs. rewrite json_attrs_json. simpl.
apply mapM_res_Ok, Forall2_fmap_l, Forall_Forall2_diag, Forall_forall. by intros [k s] _.
Qed.

Lemma json_strings_json l : json_strings (JArray (JStr <$> l)) = Ok l.
Proof. apply mapM_res_Ok, Forall2_fmap_l, Forall_Forall2_diag, Forall_forall. done. Qed.

(** A result that is stored in the result cache comes back as it was, except
for the flag that only matters when it is stored; an absent entry is no
result. *)
Theorem FilterResult_roundtrip r :
json_loads (json_dumps (result_json r)) = Ok (result_json r) →
FilterResult_decode (Some (FilterResult_encode r)) = Ok (Some (set_cache_output false r)) ∧
FilterResult_decode None = Ok None.
Proof.
intros Hj. split; [|done]. unfold FilterResult_decode, FilterResult_encode. rewrite Hj. simpl.
rewrite json_attrs_json. simpl. rewrite json_outputs_json. simpl.
destruct r as [i o om s c]. simpl. unfold set_cache_output, FilterResult_init. simpl.
case_decide as E; simpl; [by rewrite E|].
rewrite json_strings_json. simpl. by rewrite list_to_set_elements_L.
Qed.
End Stored.

(** ** Recorded inputs determine an evaluation *)
Section Determined.
Context `{Murmur} {C : Type} `{Resources C}.
Implicit Types e : ev (C := C).

Lemma inputs_match_spec r o k v : inputs_match r o = true → dict_get (input_attrs r) k = Some v →
match v with
| None => dict_get (o_attrs o) k = None
| Some sig => is_Some (dict_get (o_attrs o) k) ∧ dict_get (o_signatures o) k = Some sig
end.
Proof.
unfold inputs_match. rewrite forallb_forall. intros Hm Hk. apply dict_get_In, list_elem_of_In in Hk.
specialize (Hm _ Hk). simpl in Hm. destruct v as [sig|].
- apply andb_true_iff in Hm as [Hc Hs]. apply bool_decide_eq_true in Hs.
unfold contains, dict_mem in Hc. apply bool_decide_eq_true in Hc. split; [done|].
unfold get_signature in Hs. destruct (dict_get (o_signatures o) k); naive_solver.
- apply negb_true_iff in Hm. unfold contains, dict_mem in Hm. apply bool_decide_eq_false in Hm.
by destruct (dict_get (o_attrs o) k); [destruct Hm|].
Qed.

(** No attribute value is [None], and no two values of the same attribute collide. *)
Definition no_collision (o1 o2 : Obj) : Prop :=
∀ k v1 v2, dict_get (o_attrs o1) k = Some v1 → dict_get (o_attrs o2) k = Some v2 →
v1 ≠ ANone ∧ v2 ≠ ANone ∧
(dict_get (o_signatures o1) k = dict_get (o_signatures o2) k → attr_bytes v1 = attr_bytes v2).

(** A hash without collisions gives this. *)
Lemma no_collision_injective o1 o2 :
(∀ a b, murmur a = murmur b → a = b) → obj_wf o1 → obj_wf o2 →
o_compute_signature o1 = true → o_compute_signature o2 = true → no_collision o1 o2.
Proof.
intros Hinj Hw1 Hw2 Hc1 Hc2 k v1 v2 H1 H2.
destruct (obj_wf_signature o1 k v1 Hw1 H1) as (s1 & E1 & G1).
destruct (obj_wf_signature o2 k v2 Hw2 H2) as (s2 & E2 & G2).
unfold signature_of in E1, E2. rewrite Hc1 in E1. rewrite Hc2 in E2.
split_and!; [by intros ->|by intros ->|]. rewrite G1, G2. intros [= ->].
destruct v1, v2; try done; injection E1 as E1; injection E2 as E2; apply Hinj; simpl; congruence.
Qed.

Lemma matched_same cs e1 e2 k : ev_wf e1 → ev_wf e2 → reads_first cs →
no_collision (e_obj e1) (e_obj e2) →
inputs_match (e_result (run_script cs e1).1) (e_obj e2) = true → k ∈ reads cs → same (e_obj e1) (e_obj e2) k.
Proof.
intros Hw1 Hw2 Hf Hcol Hm Hk.
pose proof (run_script_reads cs e1 k Hw1 Hf) as Hr. rewrite decide_True in Hr by done.
pose proof (inputs_match_spec _ (e_obj e2) k _ Hm Hr) as Hv.
pose proof (proj2 (proj2 (proj1 Hw1)) k) as Hs1. pose proof (proj2 (proj2 (proj1 Hw2)) k) as Hs2.
destruct (dict_get (o_attrs (e_obj e1)) k) as [v1|] eqn:E1; simpl in Hv.
- destruct Hs1 as (s & _ & Es). rewrite Es in Hv. destruct Hv as [[v2 E2] Hs].
destruct (Hcol k v1 v2 E1 E2) as (N1 & N2 & Hb). split; [by rewrite Es|]. rewrite E1, E2. simpl.
split_and!; [|congruence..]. f_equal. apply Hb. by rewrite Es.
- rewrite Hv in Hs2. split; [congruence|]. by rewrite E1, Hv.
Qed.

Section Rerun.
Context (f : Filter) (cs : list cmd) (x : float) (rest out : bytes) (e1 e2 : ev (C := C)).
Context (spawn : res pipe) (us : Z) (secs : float) (r1 : FilterResult) (e1' : ev (C := C)).
Context (Hw1 : ev_wf e1) (Hw2 : ev_wf e2) (Hcs : Forall cmd_wf cs) (Hx : repr_ok x = true).
Context (Hf : reads_first cs) (Hv : e_session e1 = e_session e2).
Context (Hom : ∀ k, k ∈ omits cs → contains k (e_obj e1) = contains k (e_obj e2)).
Context (Hc : o_compute_signature (e_obj e1) = o_compute_signature (e_obj e2)).
Context (Hcol : no_collision (e_obj e1) (e_obj e2)).
Context (E1 : evaluate f spawn us secs (with_pipe e1 (script_bytes cs x ++ rest) out) = (Ok r1, e1')).
Context (Hm : inputs_match r1 (e_obj e2) = true).

Lemma rerun :
∃ e2', evaluate f spawn us secs (with_pipe e2 (script_bytes cs x ++ rest) out) = (Ok r1, e2') ∧
e_proc e2' = e_proc e1' ∧
(∀ k, k ∈ dict_keys (output_attrs r1) →
dict_get (o_attrs (e_obj e2')) k = dict_get (o_attrs (e_obj e1')) k ∧
dict_get (o_signatures (e_obj e2')) k = dict_get (o_signatures (e_obj e1')) k) ∧
(∀ k, k ∉ dict_keys (output_attrs r1) →
dict_get (o_attrs (e_obj e2')) k = dict_get (o_attrs (e_obj e2)) k ∧
dict_get (o_signatures (e_obj e2')) k = dict_get (o_signatures (e_obj e2)) k) ∧
o_omit_attrs (e_obj e2') = omit_attrs r1 ∪ o_omit_attrs (e_obj e2) ∧
dict_wf (output_attrs r1) ∧ obj_wf (e_obj e2') ∧
(∀ k, k ∈ dict_keys (output_attrs r1) →
dict_get (output_attrs r1) k = dict_get (o_signatures (e_obj e1')) k) ∧
obj_wf (e_obj e1') ∧ o_compute_signature (e_obj e1') = o_compute_signature (e_obj e1).
Proof.
pose proof (evaluate_script f cs x rest out e1 spawn us secs Hw1 Hcs Hx) as V1.
pose proof (evaluate_script f cs x rest out e2 spawn us secs Hw2 Hcs Hx) as V2.
set (a1 := set_result empty_result e1) in *. set (a2 := set_result empty_result e2) in *.
destruct (run_script_keys cs a1) as [Ko _].
pose proof (λ k, run_script_writes cs a1 k Hw1) as W1.
pose proof (λ k, run_script_writes cs a2 k Hw2) as W2.
pose proof (λ k, run_script_unset cs a2 k Hw2) as R2.
pose proof (run_script_object cs a1 Hw1) as O1.
pose proof (run_script_object cs a2 Hw2) as O2.
pose proof (run_script_wf cs a1 Hw1) as Wb. pose proof (run_script_wf cs a2 Hw2) as Wb2.
pose proof (run_script_outputs cs a1 Hw1 (NoDup_nil_2 : dict_wf [])) as T1.
pose proof (λ k, matched_same cs a1 a2 k Hw1 Hw2 Hf Hcol) as M.
pose proof (run_script_same cs a1 a2 Hw1 Hw2 Hc Hv eq_refl) as S.
destruct (run_script cs a1) as [b1 o1], (run_script cs a2) as [b2 o2]. simpl in *.
destruct V1 as (l1 & L1 & V1), V2 as (l2 & L2 & V2).
destruct (throughput l1 secs) as [rate|err] eqn:Er; [|by rewrite E1 in V1].
rewrite V1 in E1. injection E1 as <- <-.
set (fin (r : FilterResult) := if rate <? ATTRIBUTE_CACHE_THRESHOLD then set_cache_output true (set_score x r) else set_score x r) in *.
assert (Hi : ∀ r, input_attrs (fin r) = input_attrs r ∧ output_attrs (fin r) = output_attrs r ∧ omit_attrs (fin r) = omit_attrs r).
{ intros r. unfold fin. destruct (rate <? ATTRIBUTE_CACHE_THRESHOLD); split_and!; reflexivity. }
change (if rate <? ATTRIBUTE_CACHE_THRESHOLD then set_cache_output true (set_score x (e_result b1))
else set_score x (e_result b1)) with (fin (e_result b1)) in *.
destruct (Hi (e_result b1)) as (Hi1 & Ho1 & Hm1). rewrite Ho1, Hm1 in *.
assert (Hm' : inputs_match (e_result b1) (e_obj e2) = true) by (unfold inputs_match in *; by rewrite Hi1 in Hm).
destruct S as (S1 & S2 & _ & S3); [intros k; by apply M|exact Hom|].
assert (Hw : ∀ k, k ∈ dict_keys (output_attrs (e_result b1)) → k ∈ writes cs).
{ intros k [?|Hk]%Ko; [done|by apply elem_of_nil in Hk]. }
assert (Ha : ∀ k, k ∈ dict_keys (output_attrs (e_result b1)) →
dict_get (o_attrs (e_obj b2)) k = dict_get (o_attrs (e_obj b1)) k).
{ intros k Hk%Hw. destruct (last_write_writes cs k Hk) as [v Ev]. by rewrite W1, W2, Ev. }
assert (l2 = l1) as ->.
{ rewrite <-S2 in L2. enough (Ok l2 = Ok l1) by congruence. rewrite <-L1, <-L2.
clear -Ha. induction (dict_keys _) as [|k ks IH]; [done|]. simpl.
assert (attr_length (e_obj b2) k = attr_length (e_obj b1) k) as ->.
{ unfold attr_length, getitem. by rewrite (Ha k) by by left. }
rewrite IH; [done|].
intros k' Hk'. apply Ha. by right. }
rewrite Er in V2. rewrite <-S2 in V2. eexists. split; [exact V2|]. split; [by rewrite S1|].
assert (Hni : ∀ k, k ∉ dict_keys (output_attrs (e_result b1)) → k ∉ writes cs).
{ intros k Hk Hin. apply Hk, Ko. by left. }
split_and!.
- intros k Hk. split; [by apply Ha|]. symmetry. apply S3. left. by apply Hw.
- intros k Hk. by apply R2, Hni.
- destruct O2 as [(X & OX & RX) _]. change (o_omit_attrs (e_obj b2) = omit_attrs (e_result b1) ∪ o_omit_attrs (e_obj e2)).
rewrite OX, S2, RX. simpl. by rewrite union_empty_r_L.
- apply T1.
- apply Wb2.
- intros k Hk. apply T1; [|done]. intros Hin. by apply elem_of_nil in Hin.
- apply Wb.
- apply O1.
Qed.
End Rerun.

(** The recorded inputs are enough: if a filter that reads no attribute after
setting it produced a result on one object, and the inputs recorded in that
result match another object, which has the same of the attributes that the
filter asks to omit, then the same filter run on the other object with the
same session variables receives the same replies, produces the same result,
sets the same values and changes no other. *)
Theorem recorded_inputs_determine f cs x rest out (e1 e2 : ev (C := C)) spawn us secs r1 e1' :
ev_wf e1 → ev_wf e2 → Forall cmd_wf cs → repr_ok x = true → reads_first cs → e_session e1 = e_session e2 →
(∀ k, k ∈ omits cs → contains k (e_obj e1) = contains k (e_obj e2)) →
o_compute_signature (e_obj e1) = o_compute_signature (e_obj e2) →
no_collision (e_obj e1) (e_obj e2) →
evaluate f spawn us secs (with_pipe e1 (script_bytes cs x ++ rest) out) = (Ok r1, e1') →
inputs_match r1 (e_obj e2) = true →
∃ e2', evaluate f spawn us secs (with_pipe e2 (script_bytes cs x ++ rest) out) = (Ok r1, e2') ∧
e_proc e2' = e_proc e1' ∧
(∀ k, k ∈ dict_keys (output_attrs r1) →
dict_get (o_attrs (e_obj e2')) k = dict_get (o_attrs (e_obj e1')) k) ∧
(∀ k, k ∉ dict_keys (output_attrs r1) →
dict_get (o_attrs (e_obj e2')) k = dict_get (o_attrs (e_obj e2)) k) ∧
o_omit_attrs (e_obj e2') = omit_attrs r1 ∪ o_omit_attrs (e_obj e2).
Proof.
intros. edestruct (rerun f cs x rest out e1 e2) as (e2' & E & Hpr & Ho & Hu & Hom & _); [done..|].
exists e2'. split_and!; [done|done| | |done]; intros k Hk; [by apply Ho|by apply Hu].
Qed.
End Determined.

(** ** Loading from the attribute cache is as good as running the filter *)
Section Transparent.
Context `{Murmur} {C : Type} `{Resources C}.
Implicit Types w : ws (C := C).

Lemma set_all_spec (ps : list (string * bytes)) w :
o_mutable (ws_obj w) = true → o_compute_signature (ws_obj w) = true →
∃ us w', mapM_sm (λ p : string * bytes, on_ws_obj (setitem p.1 (ABytes p.2))) ps w = (Ok us, w') ∧
o_attrs (ws_obj w') = dict_update (o_attrs (ws_obj w)) (prod_map id ABytes <$> ps) ∧
o_signatures (ws_obj w') = dict_update (o_signatures (ws_obj w)) (prod_map id murmur <$> ps) ∧
o_omit_attrs (ws_obj w') = o_omit_attrs (ws_obj w) ∧ w' = ws_set_obj (ws_obj w') w.
Proof.
revert w. induction ps as [|[k b] ps IH]; intros w Hm Hc; csimpl.
{ exists [], w. split_and!; [done..|]. by destruct w. }
assert (E : setitem k (ABytes b) (ws_obj w) = (Ok tt,
set_attrs (dict_set (o_attrs (ws_obj w)) k (ABytes b)) (dict_set (o_signatures (ws_obj w)) k (murmur b))
(ws_obj w))).
{ unfold setitem, signature_of. rewrite Hm. simpl. by rewrite Hc. }
destruct (IH (ws_set_obj (setitem k (ABytes b) (ws_obj w)).2 w)) as (us & w' & E' & Ha & Hs & Ho & Hw');
[by rewrite E..|]. exists (tt :: us), w'. split_and!.
- erewrite sm_bind_eq by (unfold on_ws_obj, zoom; by rewrite E). rewrite E in E'.
by erewrite sm_bind_eq by exact E'.
- rewrite Ha, E. done.
- rewrite Hs, E. done.
- rewrite Ho, E. done.
- rewrite Hw'. done.
Qed.

Lemma mapM_id_Some {A} (l : list A) : mapM id (Some <$> l) = Some l.
Proof. apply mapM_Some, Forall2_fmap_l, Forall_Forall2_diag. by apply Forall_true. Qed.

(** What is in the cache under an output's hash is the output. *)
Definition attributes_cached (m : gmap string bytes) (r : FilterResult) (o : Obj) : Prop :=
∀ k, k ∈ dict_keys (output_attrs r) →
∃ b, dict_get (o_attrs o) k = Some (ABytes b) ∧
m !! get_attribute_key (default "" (dict_get (output_attrs r) k)) = Some b.

(** Omitting attributes that the object has. *)
Lemma omit_keys_spec ks : ∀ o, (∀ k, k ∈ ks → contains k o = true) →
∃ us, mapM_sm (λ k, try_with (omit k) (λ e, bool_decide (e = KeyError)) (λ _, mret tt)) ks o =
(Ok us, set_omit (list_to_set ks ∪ o_omit_attrs o) o).
Proof.
induction ks as [|k ks IH]; intros o Hk; csimpl.
{ exists []. unfold mret, sm_ret. rewrite union_empty_l_L. by destruct o. }
assert (E : try_with (omit k) (λ e, bool_decide (e = KeyError)) (λ _, mret tt) o = (Ok tt, set_omit ({[k]} ∪ o_omit_attrs o) o)).
{ unfold try_with, omit. by rewrite (Hk k) by by left. }
destruct (IH (set_omit ({[k]} ∪ o_omit_attrs o) o)) as [us Eu]; [intros k' Hk'; apply Hk; by right|].
exists (tt :: us). erewrite sm_bind_eq by exact E. erewrite sm_bind_eq by exact Eu.
assert (list_to_set ks ∪ ({[k]} ∪ o_omit_attrs o) = ({[k]} ∪ list_to_set ks) ∪ o_omit_attrs o) as <- by set_solver.
reflexivity.
Qed.
Lemma omit_all_spec X o : (∀ k, k ∈ X → contains k o = true) → omit_all X o = (Ok tt, set_omit (X ∪ o_omit_attrs o) o).
Proof.
intros Hk. destruct (omit_keys_spec (elements X) o) as [us E]; [intros k Hin; by apply Hk, elem_of_elements|].
unfold omit_all. erewrite sm_bind_eq by exact E. by rewrite list_to_set_elements_L.
Qed.

End Transparent.

(** ** A concrete filter run on two objects with the same data *)
#[local] Existing Instance sample_murmur.
#[local] Existing Instance sample_resources.

Definition sample_ev2 : ev (C := unit) :=
  Ev (setitem "" (ABytes [Byte.x01; Byte.x02; Byte.x03]) (Object_init "srv" "http://h/2" None None true)).2
    None true empty_vars tt (stats_init filter_attrs) empty_result.

Lemma sample_ev2_wf : ev_wf sample_ev2.
Proof.
  split; [|by vm_compute].
  eapply (setitem_Ok "" (ABytes [Byte.x01; Byte.x02; Byte.x03])
    (Object_init "srv" "http://h/2" None None true)); [apply Object_init_wf|by vm_compute].
Qed.

(** The sample filter, which then withholds what it read and what it computed, and
an attribute that the objects do not have. *)
Definition omit_script : list cmd := sample_script ++ [COmit ""; COmit "_rgb"; COmit "missing"].
Abbreviation sample_evaluate e := (evaluate rgb_filter (Ok no_pipe) 7 (dec "0.25")
  (with_pipe e (script_bytes omit_script (dec "0.5") ++ [Byte.x41]) [])).
Definition sample_r1 : FilterResult := match (sample_evaluate sample_ev).1 with Ok r => r | _ => empty_result end.

Lemma sample_no_collision : no_collision sample_data_obj (e_obj sample_ev2).
Proof.
  apply no_collision_injective; [|apply sample_ev_wf|apply sample_ev2_wf|by vm_compute..].
  intros a b E. unfold murmur, hash_bytes, sample_murmur, hex in E.
  apply (f_equal String.list_byte_of_string) in E. rewrite !String.list_byte_of_string_of_list_byte in E.
  apply (f_equal unhexlify) in E. rewrite !unhexlify_hexlify in E. by injection E.
Qed.

Lemma sample_evaluate_Ok : sample_evaluate sample_ev = (Ok sample_r1, (sample_evaluate sample_ev).2).
Proof. by vm_compute. Qed.

Lemma omit_script_wf : Forall cmd_wf omit_script.
Proof. repeat (constructor; [by vm_compute|]). constructor. Qed.
Lemma omit_script_reads_first : reads_first omit_script.
Proof. cbn. repeat split. unfold reads. cbn. rewrite list_elem_of_singleton. done. Qed.
Lemma omit_script_omits k : k ∈ omits omit_script → contains k (e_obj sample_ev) = contains k (e_obj sample_ev2).
Proof.
  assert (H : Forall (λ k, contains k (e_obj sample_ev) = contains k (e_obj sample_ev2)) (omits omit_script))
    by (apply (bool_decide_unpack _); vm_compute; exact I).
  rewrite Forall_forall in H. apply H.
Qed.

Lemma recorded_inputs_determine_witness :
  ∃ e2', sample_evaluate sample_ev2 = (Ok sample_r1, e2') ∧
    e_proc e2' = e_proc (sample_evaluate sample_ev).2 ∧
    (∀ k, k ∈ dict_keys (output_attrs sample_r1) →
      dict_get (o_attrs (e_obj e2')) k = dict_get (o_attrs (e_obj (sample_evaluate sample_ev).2)) k) ∧
    (∀ k, k ∉ dict_keys (output_attrs sample_r1) →
      dict_get (o_attrs (e_obj e2')) k = dict_get (o_attrs (e_obj sample_ev2)) k) ∧
    o_omit_attrs (e_obj e2') = omit_attrs sample_r1 ∪ o_omit_attrs (e_obj sample_ev2).
Proof.
  refine (recorded_inputs_determine rgb_filter omit_script (dec "0.5") [Byte.x41] [] sample_ev sample_ev2
    (Ok no_pipe) 7 (dec "0.25") sample_r1 (sample_evaluate sample_ev).2 sample_ev_wf sample_ev2_wf
    omit_script_wf _ omit_script_reads_first _ omit_script_omits _ sample_no_collision sample_evaluate_Ok _); by vm_compute.
Defined.

Definition sample_redis : gmap string bytes :=
  {[get_attribute_key (default "" (dict_get (output_attrs sample_r1) "_rgb")) := [Byte.x0a; Byte.x0b]]}.
Definition sample_ws : ws (C := unit) :=
  Ws (e_obj sample_ev2) [fetcher; bind rgb_filter] empty_vars tt (Some sample_redis)
    (stats_init search_attrs) [].

Lemma sample_cached : attributes_cached sample_redis sample_r1 (e_obj (sample_evaluate sample_ev).2).
Proof.
  assert (K : dict_keys (output_attrs sample_r1) = ["_rgb"]) by by vm_compute.
  intros k Hk. rewrite K in Hk. apply list_elem_of_singleton in Hk as ->.
  exists [Byte.x0a; Byte.x0b]. split; by vm_compute.
Qed.


(** The presence of an attribute that is omitted is not recorded: on an object without
    it the filter withholds nothing; the result of that run, loaded from the cache for
    an object that has the attribute, lets it go to the client. *)
Definition secret_script : list cmd := [CInit; COmit "secret"].
Definition secret_ev : ev (C := unit) := set_obj (setitem "secret" (ABytes [Byte.x73]) sample_data_obj).2 sample_ev.
Example omit_not_recorded :
  let run e := evaluate rgb_filter (Ok no_pipe) 7 (dec "0.25") (with_pipe e (script_bytes secret_script (dec "0.5")) []) in
  match run sample_ev with
  | (Ok r, _) =>
    inputs_match r (e_obj secret_ev) = true ∧
    elements (o_omit_attrs (ws_obj (attribute_cache_try_load 1 r (ws_set_obj (e_obj secret_ev) sample_ws)).2)) = [] ∧
    elements (o_omit_attrs (e_obj (run secret_ev).2)) = ["secret"]
  | _ => False
  end.
Proof. vm_compute. split_and!; reflexivity. Qed.

(** A store of one document. *)
#[local] Instance sample_json : Environment := {|
  http_get _ := Raise CurlError; read_file _ := Raise OSError;
  json_loads b := if decide (b = [Byte.x31]) then Ok (result_json sample_r1) else Raise ValueError;
  xml_object _ := Raise KeyError; json_container_str _ := ""
|}.
#[local] Instance sample_dumps : JsonDumps := λ _, [Byte.x31].

Lemma FilterResult_roundtrip_witness :
  FilterResult_decode (Some (FilterResult_encode sample_r1)) = Ok (Some (set_cache_output false sample_r1)) ∧
  FilterResult_decode None = Ok None.
Proof. apply FilterResult_roundtrip. reflexivity. Defined.
