(* ===== verification/FilterSession.v ===== *)
(** The filter's side of an evaluation (src/opendiamond/filter/__init__.py and
    filter/parameters.py): the session, the filter's parameters, the main loop,
    and the object proxy with its attribute cache. *)
From S2P Require Import Prelude PyBytes PyText Dict Float64 FloatText Helpers ServerObject.
From S2P Require Import FilterProto SessionVars Statistics FilterStack ResultCache FilterRunner Attributes.
Local Open Scope Z_scope.

(** ** Parameters (filter/parameters.py) *)
Inductive filter_parameter := BooleanParameter (name : string) | StringParameter (name : string)
  | NumberParameter (name : string).
Inductive param_value := VBoolean (b : bool) | VString (s : string) | VNumber (x : float).

(** [str(param)] *)
Definition param_name (p : filter_parameter) : string :=
  match p with BooleanParameter n | StringParameter n | NumberParameter n => n end.

(** [float(str)]: non-ASCII decimal digits are not modelled. *)
Definition py_float_str (s : string) : res float := py_float (str_strip (str_encode s)).

Definition parse (p : filter_parameter) (s : string) : res param_value :=
  match p with
  | BooleanParameter _ =>
    if decide (s = "true") then Ok (VBoolean true)
    else if decide (s = "false") then Ok (VBoolean false) else Raise ValueError
  | StringParameter _ => Ok (VString s)
  | NumberParameter _ => x ← py_float_str s; Ok (VNumber x)
  end.

(** ** Session *)
Module Session.
(** [level] to [lval]; an unknown level leaves [lval] unbound. *)
Definition lval (level : string) : res Z :=
if decide (level = "critical") then Ok 1
else if decide (level = "error") then Ok 2
else if decide (level = "info") then Ok 4
else if decide (level = "trace") then Ok 8
else if decide (level = "debug") then Ok 16
else Raise NameError.

Definition log (name level message : string) : sm pipe unit :=
v ← lift (lval level);
DiamondConnection.send_message "log" [Scalar (PInt v); Scalar (PStr (name +:+ " : " +:+ message))].

Definition get_vars (vars : list string) : sm pipe (dict string float) :=
DiamondConnection.send_message "get-session-variables" [Array (PStr <$> vars)] ≫= λ _,
l ← DiamondConnection.get_array;
xs ← lift (mapM_res py_float l);
mret (dict_of (zip vars xs)).

(** [names, values = zip( *vars.items() )] cannot unpack an empty dict. *)
Definition update_vars (vars : dict string float) : sm pipe unit :=
if decide (vars = []) then fail ValueError
else DiamondConnection.send_message "update-session-variables"
 [Array (PStr <$> vars.*1); Array (PFloat <$> vars.*2)].

Definition ensure_resource (scope rtype : string) (params : list string) : sm pipe (dict string string) :=
DiamondConnection.send_message "ensure-resource" [Scalar (PStr scope); Scalar (PStr rtype); Array (PStr <$> params)] ≫= λ _,
d ← DiamondConnection.get_dict;
l ← lift (mapM_res (λ p : bytes * bytes, k ← bytes_decode p.1; v ← bytes_decode p.2; Ok (k, v)) d);
mret (dict_of l).

Definition hint_large_attribute (size : Z) : sm pipe unit :=
DiamondConnection.send_message "hint-large-attribute" [Scalar (PInt size)].
End Session.

(** ** Filter construction and the handshake *)
Section Construction.
(** [zipfile] ([namelist], [read]) and [PIL.Image.open]; [BytesIO(None)] is empty. *)
Context (namelist : bytes → res (list string)) (zip_read : bytes → string → res bytes).
Context {Image : Type} (image_open : bytes → res Image).

Definition EXAMPLE_DIR : string := "examples".

Record FilterClass := MkClass {
class_name : string;
params : list filter_parameter;
blob_is_zip : bool;
load_examples : bool
}.

Record filter_instance := MkInstance {
fi_args : dict string param_value;
fi_blob : option bytes;
fi_examples : list Image
}.

Definition is_example (path : string) : bool :=
startswith (str_encode path) (str_encode (EXAMPLE_DIR +:+ "/")) && negb (endswith (str_encode path) (str_encode "/")).

(** [Filter.__init__] *)
Definition Filter_init (c : FilterClass) (args : list string) (blob : option bytes) : res filter_instance :=
if decide (length args ≠ length (params c)) then Raise ValueError else
attrs ← mapM_res (λ p : filter_parameter * string, v ← parse p.1 p.2; Ok (param_name p.1, v)) (zip (params c) args);
_ ← (if blob_is_zip c then namelist (default [] blob) else Ok []);
examples ← (if load_examples c then
names ← namelist (default [] blob);
mapM_res (λ path, d ← zip_read (default [] blob) path; image_open d) (filter is_example names)
else Ok []);
Ok (MkInstance (dict_of attrs) blob examples).

(** "Read arguments and initialize filter": what [_run_loop] reads first. *)
Definition read_handshake : sm pipe (string * list string * option bytes) :=
v ← DiamondConnection.get_item;
v ← lift (of_option TypeError v);
ver ← lift (py_int v);
if decide (ver ≠ 1) then fail ValueError else
n ← DiamondConnection.get_item;
n ← lift (of_option AttributeError n);
name ← lift (bytes_decode n);
l ← DiamondConnection.get_array;
args ← lift (mapM_res bytes_decode l);
blob ← DiamondConnection.get_item;
mret (name, args, blob).

(** The class that handles the search: [cls], or the one named by the first
argument, which is then stripped. *)
Definition select_class (cls : FilterClass) (classes : option (list FilterClass)) (args : list string) :
res (FilterClass * list string) :=
match classes with
| None => Ok (cls, args)
| Some classes =>
match args with
| [] => Raise IndexError
| target :: args =>
match filter (λ c, class_name c = target) classes with
| c :: _ => Ok (c, args)
| [] => Raise ValueError
end
end
end.

(** [_run_loop] up to the main loop; [traceback] is the text of a traceback. *)
Definition start (traceback : exn → string) (cls : FilterClass) (classes : option (list FilterClass)) :
sm pipe filter_instance :=
'(name, args, blob) ← read_handshake;
f ← try_with (lift ('(c, args) ← select_class cls classes args; Filter_init c args blob))
(λ _, true)
(λ e, Session.log name "critical" (traceback e) ≫= λ _, fail e);
DiamondConnection.send_message "init-success" [] ≫= λ _, mret f.
End Construction.

(** ** Objects

    A filter's view of the object: the attributes read or written so far ([None]
    for one that the server does not have), and whether the server still works
    on it. *)
Record FObj := MkFObj { fo_attrs : dict string (option bytes); fo_valid : bool; fo_conn : pipe }.

Definition set_fo_attrs (d : dict string (option bytes)) (o : FObj) : FObj := MkFObj d (fo_valid o) (fo_conn o).
Definition set_fo_conn (p : pipe) (o : FObj) : FObj := MkFObj (fo_attrs o) (fo_valid o) p.
Definition on_conn {A} : sm pipe A → sm FObj A := zoom fo_conn set_fo_conn.

(** What [Object] leaves to its subclasses. *)
Class Backend := {
  get_attribute : string → sm FObj (option bytes);
  set_attribute : string → bytes → sm FObj unit;
  omit_attribute : string → sm FObj unit
}.

(** [Object]: a dummy object with the given attributes only. *)
Definition dummy : Backend := {|
  get_attribute _ := mret None;
  set_attribute _ _ := mret tt;
  omit_attribute key := d ← gets fo_attrs; if dict_mem d key then mret tt else fail KeyError
|}.

(** [_DiamondObject]: ask the server. *)
Definition diamond : Backend := {|
  get_attribute key :=
    on_conn (DiamondConnection.send_message "get-attribute" [Scalar (PStr key)] ≫= λ _, DiamondConnection.get_item);
  set_attribute key value :=
    on_conn (DiamondConnection.send_message "set-attribute" [Scalar (PStr key); Scalar (PBytes value)]);
  omit_attribute key :=
    on_conn (DiamondConnection.send_message "omit-attribute" [Scalar (PStr key)]) ≫= λ _,
    b ← on_conn DiamondConnection.get_boolean;
    if (b : bool) then mret tt else fail KeyError
|}.

Module Object.
Section Operations.
Context (B : Backend).

(** [Object.__init__] *)
Definition init (attrs : dict string (option bytes)) (p : pipe) : FObj := MkFObj attrs true p.

Definition check_valid : sm FObj unit :=
v ← gets fo_valid; if (v : bool) then mret tt else fail LingeringObjectError.
Definition invalidate (o : FObj) : FObj := MkFObj (fo_attrs o) false (fo_conn o).

Definition get_binary (key : string) : sm FObj bytes :=
check_valid ≫= λ _,
d ← gets fo_attrs;
(if dict_mem d key then mret tt
 else v ← get_attribute key; modify (λ o, set_fo_attrs (dict_set (fo_attrs o) key v) o)) ≫= λ _,
d ← gets fo_attrs;
match dict_get d key with Some (Some v) => mret v | _ => fail KeyError end.

(** [None] cannot be stored. *)
Definition set_binary (key : string) (value : option bytes) : sm FObj unit :=
check_valid ≫= λ _,
match value with
| None => fail ValueError
| Some v => set_attribute key v ≫= λ _, modify (λ o, set_fo_attrs (dict_set (fo_attrs o) key (Some v)) o)
end.

Definition contains (key : string) : sm FObj bool :=
check_valid ≫= λ _,
try_with (get_binary key ≫= λ _, mret true) (λ e, bool_decide (e = KeyError)) (λ _, mret false).

Definition omit (key : string) : sm FObj unit := check_valid ≫= λ _, omit_attribute key.

(** The typed accessors: [get_string], [get_int], [get_double], [get_patches]
and their setters; [obj[key]] is [get_string], [obj.data] is the attribute
with the empty name. *)
Definition get_string (key : string) : sm FObj string := b ← get_binary key; lift (string_decode b).
Definition set_string (key value : string) : sm FObj unit := set_binary key (Some (string_encode value)).
Definition get_int (key : string) : sm FObj Z := b ← get_binary key; lift (integer_decode b).
Definition set_int (key : string) (value : Z) : sm FObj unit :=
b ← lift (integer_encode value); set_binary key (Some b).
Definition get_double (key : string) : sm FObj float := b ← get_binary key; lift (double_decode b).
Definition set_double (key : string) (value : float) : sm FObj unit :=
set_binary key (Some (double_encode value)).
Definition get_patches (key : string) : sm FObj (float * list patch) := b ← get_binary key; lift (patches_decode b).
Definition set_patches (key : string) (distance : float) (patches : list patch) : sm FObj unit :=
b ← lift (patches_encode distance patches); set_binary key (Some b).
Definition data : sm FObj bytes := get_binary "".
End Operations.
End Object.

(** ** The main loop

    One round: the filter is called on a fresh object and its result is sent;
    an exception is logged and ends the process. *)
Definition result_value (r : pv) : pv :=
  match r with PBool true => PInt 1 | PBool false | PNone => PInt 0 | r => r end.

Definition evaluate_round (traceback : exn → string) (name : string) (body : sm FObj pv) : sm pipe unit := λ p,
  let '(r, o) := body (Object.init [] p) in
  match r with
  | Raise e => (Session.log name "error" (traceback e) ≫= λ _, fail e) (fo_conn o)
  | Ok v => DiamondConnection.send_message "result" [Scalar (result_value v)] (fo_conn (Object.invalidate o))
  end.

(** ** Specification: working directly on the server's object

    A filter's body as a sequence of operations whose exceptions it handles; a
    [FGet] or [FContains] of a known attribute sends nothing. *)
Inductive fop := FGet (k : string) | FSet (k : string) (v : bytes) | FOmit (k : string) | FContains (k : string).
Inductive outcome := GotBytes (b : bytes) | GotBool (b : bool) | Done.

Definition run_op (B : Backend) (op : fop) : sm FObj outcome :=
  match op with
  | FGet k => b ← Object.get_binary B k; mret (GotBytes b)
  | FSet k v => Object.set_binary B k (Some v) ≫= λ _, mret Done
  | FOmit k => Object.omit B k ≫= λ _, mret Done
  | FContains k => b ← Object.contains B k; mret (GotBool b)
  end.

Fixpoint run_ops (B : Backend) (ops : list fop) (o : FObj) : list (res outcome) * FObj :=
  match ops with
  | [] => ([], o)
  | op :: ops =>
    let '(r, o) := run_op B op o in
    let '(rs, o) := run_ops B ops o in (r :: rs, o)
  end.

(** The attribute as the filter sees it: no value is as good as no attribute. *)
Definition view (o : Obj) (k : string) : option bytes :=
  match dict_get (o_attrs o) k with
  | Some (ABytes b) => Some b
  | Some (AStr s) => Some (str_encode s)
  | _ => None
  end.

Section Direct.
Context `{Murmur}.

Definition direct_op (op : fop) (o : Obj) : res outcome * Obj :=
match op with
| FGet k => (match view o k with Some b => Ok (GotBytes b) | None => Raise KeyError end, o)
| FContains k => (Ok (GotBool (bool_decide (is_Some (view o k)))), o)
| FSet k v => (Ok Done, (setitem k (ABytes v) o).2)
| FOmit k => let '(r, o) := omit k o in (_ ← r; Ok Done, o)
end.
Fixpoint direct_ops (ops : list fop) (o : Obj) : list (res outcome) * Obj :=
match ops with
| [] => ([], o)
| op :: ops =>
let '(r, o) := direct_op op o in
let '(rs, o) := direct_ops ops o in (r :: rs, o)
end.
End Direct.

(** The messages that the operations send, given the known attributes. *)
Definition sent_op (op : fop) (known : list string) : list cmd * list string :=
  match op with
  | FGet k | FContains k => if decide (k ∈ known) then ([], known) else ([CGet k], k :: known)
  | FSet k v => ([CSet k v], k :: known)
  | FOmit k => ([COmit k], known)
  end.
Fixpoint sent (ops : list fop) (known : list string) : list cmd :=
  match ops with
  | [] => []
  | op :: ops => let '(cs, known) := sent_op op known in cs ++ sent ops known
  end.

Section Refinement.
Context `{Murmur} {C : Type} `{Resources C}.

(** What the filter knows agrees with the server's object. *)
Definition cache_ok (o : FObj) (srv : Obj) (known : list string) : Prop :=
fo_valid o = true ∧ o_mutable srv = true ∧ (∀ k, k ∈ known ↔ is_Some (dict_get (fo_attrs o) k)) ∧
∀ k v, dict_get (fo_attrs o) k = Some v → v = view srv k.

Definition fobj_at (o : FObj) (l out : bytes) : FObj := set_fo_conn (Pipe l out []) o.

Lemma send_cmd tag values o l out :
on_conn (DiamondConnection.send_message tag values) (fobj_at o l out) =
(Ok tt, fobj_at o l (out ++ message_bytes tag values)).
Proof. unfold on_conn, zoom. simpl. by rewrite send_message_spec. Qed.

Lemma ask_attribute k o srv l rest out :
l = match dict_get (o_attrs srv) k with Some v => server_arg_bytes (attr_pv v) | None => [newline] end ++ rest →
@get_attribute diamond k (fobj_at o l out) =
(Ok (view srv k), fobj_at o rest (out ++ cmd_bytes (CGet k))).
Proof.
intros ->. unfold get_attribute, diamond, on_conn, zoom. cbn [fobj_at set_fo_conn fo_conn].
erewrite sm_bind_eq by (rewrite send_message_spec; reflexivity).
unfold view. destruct (dict_get (o_attrs srv) k) as [[b|s|]|]; cbn [attr_pv server_arg_bytes pv_bytes];
first [erewrite filter_get_item by reflexivity; reflexivity
|erewrite filter_get_none by reflexivity; reflexivity].
Qed.

Lemma check_valid_ok o : fo_valid o = true → Object.check_valid o = (Ok tt, o).
Proof. intros Hv. unfold Object.check_valid. erewrite sm_bind_eq by reflexivity. by rewrite Hv. Qed.

Lemma get_binary_spec k o srv known l rest out : cache_ok o srv known →
l = (if decide (k ∈ known) then [] else
 match dict_get (o_attrs srv) k with Some v => server_arg_bytes (attr_pv v) | None => [newline] end) ++ rest →
∃ o', Object.get_binary diamond k (fobj_at o l out) =
(match view srv k with Some b => Ok b | None => Raise KeyError end,
 fobj_at o' rest (out ++ concat (cmd_bytes <$> (sent_op (FGet k) known).1))) ∧
cache_ok o' srv (sent_op (FGet k) known).2.
Proof.
intros (Hv & Hm & Hk & Hc) ->. unfold Object.get_binary.
erewrite sm_bind_eq by by apply check_valid_ok. cbv beta.
erewrite sm_bind_eq by reflexivity. cbn [fo_attrs fobj_at set_fo_conn]. cbn [sent_op].
destruct (decide (k ∈ known)) as [Hin|Hin]; cbn [fst snd].
- assert (is_Some (dict_get (fo_attrs o) k)) as [v Ev] by by apply Hk.
unfold dict_mem. rewrite Ev, bool_decide_true by done.
erewrite sm_bind_eq by reflexivity. erewrite sm_bind_eq by reflexivity.
cbn [fo_attrs fobj_at set_fo_conn]. rewrite Ev, (Hc _ _ Ev). exists o.
cbn [app fmap list_fmap concat]. rewrite app_nil_r. split; [|done].
by destruct (view srv k).
- assert (¬ is_Some (dict_get (fo_attrs o) k)) as Hno by by rewrite <-Hk.
unfold dict_mem. rewrite bool_decide_false by done.
erewrite sm_bind_eq by (erewrite sm_bind_eq by (apply (ask_attribute k o srv); reflexivity); reflexivity).
erewrite sm_bind_eq by reflexivity. cbn [fo_attrs fobj_at set_fo_conn set_fo_attrs].
rewrite dict_get_set_eq. exists (set_fo_attrs (dict_set (fo_attrs o) k (view srv k)) o).
cbn [fmap list_fmap concat]. rewrite app_nil_r. split; [by destruct (view srv k)|].
split; [done|]. split; [done|]. cbn [set_fo_attrs fo_attrs]. split.
+ intros k'. rewrite dict_get_set, elem_of_cons, Hk. case_decide; subst; naive_solver.
+ intros k' v. rewrite dict_get_set. case_decide; [by intros [= <-]; subst|]. apply Hc.
Qed.

Lemma view_setitem k v o k' : o_mutable o = true →
view (setitem k (ABytes v) o).2 k' = if decide (k = k') then Some v else view o k'.
Proof.
intros Hm. unfold view. rewrite setitem_attrs by done. rewrite dict_get_set. by case_decide.
Qed.

Lemma omit_message k o l out : fo_valid o = true →
run_op diamond (FOmit k) (fobj_at o l out) =
(b ← on_conn DiamondConnection.get_boolean; if (b : bool) then mret Done else fail KeyError)
(fobj_at o l (out ++ cmd_bytes (COmit k))).
Proof.
intros Hv. cbn [run_op]. unfold Object.omit, mbind, sm_bind. rewrite check_valid_ok by done.
cbn [omit_attribute diamond]. unfold mbind, sm_bind. rewrite send_cmd.
change (message_bytes _ _) with (cmd_bytes (COmit k)).
by destruct (on_conn DiamondConnection.get_boolean _) as [[[]|] ?].
Qed.

Lemma omit_reply (b : bool) o rest out :
(b ← on_conn DiamondConnection.get_boolean; if (b : bool) then mret Done else fail KeyError)
(fobj_at o (item (str_encode (if b then "true" else "false")) ++ rest) out) =
(if b then Ok Done else Raise KeyError, fobj_at o rest out).
Proof.
unfold mbind, sm_bind, on_conn, zoom. cbn [fobj_at set_fo_conn fo_conn].
unfold DiamondConnection.get_boolean, mbind, sm_bind. erewrite filter_get_item by reflexivity.
cbn [fst snd]. unfold mret, sm_ret. destruct b; reflexivity.
Qed.

(** One operation: result, object, messages and cache. *)
Lemma run_op_spec op o (e : ev (C := C)) known rest out : cache_ok o (e_obj e) known →
let cs := (sent_op op known).1 in
∃ o', run_op diamond op (fobj_at o ((run_script cs e).2 ++ rest) out) =
((direct_op op (e_obj e)).1, fobj_at o' rest (out ++ concat (cmd_bytes <$> cs))) ∧
e_obj (run_script cs e).1 = (direct_op op (e_obj e)).2 ∧
cache_ok o' (direct_op op (e_obj e)).2 (sent_op op known).2.
Proof.
intros Hc. set (srv := e_obj e) in *.
assert (Hreply : ∀ k, (run_script (sent_op (FGet k) known).1 e).2 =
(if decide (k ∈ known) then [] else
 match dict_get (o_attrs srv) k with Some v => server_arg_bytes (attr_pv v) | None => [newline] end) ∧
e_obj (run_script (sent_op (FGet k) known).1 e).1 = srv).
{ intros k. cbn [sent_op]. case_decide; [done|]. cbn [fst run_script script_step]. fold srv.
destruct (dict_get (o_attrs srv) k); cbn; by rewrite ?app_nil_r. }
destruct op as [k|k v|k|k]; cbn zeta.
- destruct (get_binary_spec k o srv known _ rest out Hc eq_refl) as (o' & E & Hc').
destruct (Hreply k) as [-> ->]. exists o'. split; [|done]. cbn [run_op direct_op fst].
unfold mbind, sm_bind. rewrite E. by destruct (view srv k).
- exists (set_fo_attrs (dict_set (fo_attrs o) k (Some v)) o). destruct Hc as (Hv & Hm & Hk & Hc).
cbn [sent_op fst snd run_op run_script script_step direct_op]. fold srv.
split; [|split; [done|]].
+ unfold Object.set_binary. erewrite sm_bind_eq; [reflexivity|].
erewrite sm_bind_eq by by apply check_valid_ok. cbv beta.
erewrite sm_bind_eq by (cbn [set_attribute diamond]; apply send_cmd).
cbn [fmap list_fmap concat app]. rewrite app_nil_r. reflexivity.
+ split; [done|]. split; [unfold setitem; rewrite Hm; cbn; by case_match|]. split.
* intros k'. cbn [fo_attrs set_fo_attrs]. rewrite dict_get_set, elem_of_cons, Hk. case_decide; subst; naive_solver.
* intros k' w. cbn [fo_attrs set_fo_attrs]. rewrite dict_get_set, view_setitem by done.
case_decide; [congruence|]. apply Hc.
- destruct Hc as (Hv & Hm & Hk & Hc). exists o.
cbn [sent_op fst snd run_script script_step direct_op]. fold srv.
assert (Ho : o_attrs (omit k srv).2 = o_attrs srv) by (unfold omit; by case_match).
assert (Hvw : ∀ k', view (omit k srv).2 k' = view srv k') by (intros; unfold view; by rewrite Ho).
assert (Hok : cache_ok o (omit k srv).2 known).
{ split; [done|]. split; [unfold omit; by case_match|]. split; [done|]. intros. rewrite Hvw. by apply Hc. }
cbn [fmap list_fmap concat]. rewrite app_nil_r.
rewrite omit_message by done. revert Hok. unfold omit. destruct (contains k srv); cbn [fst snd e_obj set_obj set_result];
intros Hok; (split; [|done]); rewrite app_nil_r; [by apply (omit_reply true)|by apply (omit_reply false)].
- destruct (get_binary_spec k o srv known _ rest out Hc eq_refl) as (o' & E & Hc').
change (sent_op (FContains k) known) with (sent_op (FGet k) known).
destruct (Hreply k) as [-> ->]. exists o'. split; [|done]. cbn [run_op direct_op fst].
unfold Object.contains. erewrite sm_bind_eq; [reflexivity|].
erewrite sm_bind_eq by (apply check_valid_ok, Hc). unfold try_with, mbind, sm_bind. rewrite E.
by destruct (view srv k).
Qed.

Lemma run_script_app cs1 cs2 (e : ev (C := C)) :
run_script (cs1 ++ cs2) e =
((run_script cs2 (run_script cs1 e).1).1, (run_script cs1 e).2 ++ (run_script cs2 (run_script cs1 e).1).2).
Proof.
revert e. induction cs1 as [|c cs1 IH]; intros e; cbn [run_script app fst snd]; [by destruct (run_script cs2 e)|].
destruct (script_step c e) as [e1 b]. rewrite IH. destruct (run_script cs1 e1) as [e2 b2]. cbn [fst snd].
by rewrite app_assoc.
Qed.

Lemma run_ops_spec ops o (e : ev (C := C)) known rest out : cache_ok o (e_obj e) known →
let cs := sent ops known in
∃ o', run_ops diamond ops (fobj_at o ((run_script cs e).2 ++ rest) out) =
((direct_ops ops (e_obj e)).1, fobj_at o' rest (out ++ concat (cmd_bytes <$> cs))) ∧
e_obj (run_script cs e).1 = (direct_ops ops (e_obj e)).2 ∧
∃ known', cache_ok o' (direct_ops ops (e_obj e)).2 known'.
Proof.
revert o e known out. induction ops as [|op ops IH]; intros o e known out Hc.
- exists o. cbn. rewrite app_nil_r. eauto.
- cbn [sent run_ops direct_ops]. destruct (run_op_spec op o e known
((run_script (sent ops (sent_op op known).2) (run_script (sent_op op known).1 e).1).2 ++ rest) out Hc) as (o1 & E & Ho & Hc1).
destruct (sent_op op known) as [cs1 known1]. cbn [fst snd] in *.
rewrite <-Ho in Hc1. destruct (IH _ _ _ (out ++ concat (cmd_bytes <$> cs1)) Hc1) as (o2 & E2 & Ho2 & Hc2).
rewrite run_script_app. cbn [fst snd]. rewrite <-app_assoc, E, E2. exists o2.
rewrite fmap_app, concat_app, app_assoc.
destruct (direct_op op (e_obj e)) as [r o3]. cbn [fst snd] in *. rewrite Ho in *.
destruct (direct_ops ops o3). done.
Qed.
End Refinement.

Section Claims.
Context `{Murmur} {C : Type} `{Resources C}.

(** C12.  A filter works on the server's object as if it held it: run the filter's
reads, writes, omissions and membership tests against the replies that the
server gives to the messages they send, and every operation has the outcome
(result or exception) of doing it directly on the server's object, which ends
up the same.  Attributes read before or written by the filter are not asked
for again, and no reply is left over. *)
Theorem filter_sees_object ops (e : ev (C := C)) :
o_mutable (e_obj e) = true →
let cs := sent ops [] in
let run := run_ops diamond ops (Object.init [] (Pipe (run_script cs e).2 [] [])) in
run.1 = (direct_ops ops (e_obj e)).1 ∧
e_obj (run_script cs e).1 = (direct_ops ops (e_obj e)).2 ∧
fo_conn run.2 = Pipe [] (concat (cmd_bytes <$> cs)) [] ∧
∀ k v, dict_get (fo_attrs run.2) k = Some v → v = view (direct_ops ops (e_obj e)).2 k.
Proof.
intros Hm cs run.
destruct (run_ops_spec ops (Object.init [] no_pipe) e [] [] []) as (o' & E & Ho & known' & _ & _ & _ & Hc).
{ split; [done|]. split; [done|]. split; [|done]. intros k. cbn. split; [set_solver|]. by intros [? ?]. }
unfold fobj_at in E. rewrite app_nil_r in E. unfold run. unfold set_fo_conn at 1 in E. cbn [fo_attrs fo_valid Object.init] in E.
unfold Object.init, cs. rewrite E. done.
Qed.
End Claims.

(** ** The handshake *)

(** A filter process gets its name, arguments and blob as the server has
    them: what [_FilterConnection.__init__] sends is what [_run_loop] reads, and
    what follows stays in the pipe. *)
Theorem handshake_received name args blob ps ps' pf rest :
  is_str name = true → Forall (λ a, is_str a = true) args →
  FilterConnection.init name args blob ps = (Ok tt, ps') → p_out ps = [] →
  p_in pf = p_out ps' ++ rest →
  read_handshake pf = (Ok (name, args, Some blob), set_in rest pf).
Proof.
  intros Hn Ha Hi Ho Hp. unfold FilterConnection.init, try_with in Hi.
  rewrite send_spec in Hi. unfold flush in Hi. rewrite Ho in Hi. cbn [p_flushes app] in Hi.
  assert (E : p_in pf = item (format_d 1) ++ item (str_encode name) ++ array (str_encode <$> args) ++ item blob ++ rest).
  { rewrite Hp. destruct (p_flushes ps) as [|[] ?]; simplify_eq/=;
      rewrite app_nil_r, <-list_fmap_compose, <-!app_assoc; done. }
  unfold read_handshake. erewrite sm_bind_eq by by apply filter_get_item. cbv beta.
  erewrite sm_bind_eq by reflexivity. erewrite sm_bind_eq by reflexivity. rewrite decide_False by auto.
  erewrite sm_bind_eq by by apply filter_get_item.
  erewrite sm_bind_eq by reflexivity.
  erewrite sm_bind_eq by (unfold lift; by rewrite bytes_decode_encode).
  erewrite sm_bind_eq by by apply filter_get_array.
  assert (mapM_res bytes_decode (str_encode <$> args) = Ok args) as Em.
  { apply mapM_res_Ok. apply Forall2_fmap_l, Forall_Forall2_diag.
    eapply Forall_impl; [exact Ha|]. intros k Hk. by apply bytes_decode_encode. }
  erewrite sm_bind_eq by (unfold lift; by rewrite Em).
  erewrite sm_bind_eq by by apply filter_get_item. done.
Qed.

(** ** Concrete runs *)
#[local] Existing Instance sample_murmur.
#[local] Instance filter_resources : Resources unit := λ _ _, mret [].

Definition sample_ops : list fop :=
  [FGet ""; FGet "missing"; FContains "missing"; FSet "_rgb" [Byte.x0a; Byte.x0b]; FGet "_rgb"; FOmit "_rgb"; FOmit "nope"; FGet ""].

Lemma filter_sees_object_witness :
  (run_ops diamond sample_ops (Object.init [] (Pipe (run_script (sent sample_ops []) sample_ev).2 [] []))).1 =
    (direct_ops sample_ops (e_obj sample_ev)).1.
Proof. refine (proj1 (filter_sees_object sample_ops sample_ev _)). by vm_compute. Defined.

(** Three of the eight operations above need no message. *)
Example sample_sent : sent sample_ops [] = [CGet ""; CGet "missing"; CSet "_rgb" [Byte.x0a; Byte.x0b]; COmit "_rgb"; COmit "nope"].
Proof. by vm_compute. Qed.

Lemma handshake_received_witness :
  read_handshake (Pipe ((FilterConnection.init "dog" ["true"; "0.5"] [Byte.x00] (Pipe [] [] [])).2.(p_out) ++ [Byte.x41]) [] []) =
    (Ok ("dog", ["true"; "0.5"], Some [Byte.x00]), Pipe [Byte.x41] [] []).
Proof.
  refine (handshake_received "dog" ["true"; "0.5"] [Byte.x00] (Pipe [] [] [])
    (FilterConnection.init "dog" ["true"; "0.5"] [Byte.x00] (Pipe [] [] [])).2
    (Pipe ((FilterConnection.init "dog" ["true"; "0.5"] [Byte.x00] (Pipe [] [] [])).2.(p_out) ++ [Byte.x41]) [] [])
    [Byte.x41] _ _ _ _ _); first [by vm_compute | done | idtac].
  repeat (constructor; [by vm_compute|]). constructor.
Defined.
