(* ===== verification/Sha256.v ===== *)
(** SHA-256 ([hashlib.sha256]), which names the blobs of the cache. *)
From S2P Require Import Prelude PyBytes PyText Hex.
Local Open Scope Z_scope.

(** The constants: the first 32 bits of the fractional parts of the cube roots of
    the first 64 primes, and of the square roots of the first eight. *)
Definition is_prime (n : nat) : bool := forallb (λ d, negb (Nat.eqb (n mod d) 0)) (seq 2 (n - 2)).
Definition primes (bound : nat) : list Z := Z.of_nat <$> filter (λ n, is_prime n = true) (seq 2 (bound - 2)).

(** The largest [r < 2 ^ bits], with [root]'s bits given, whose cube is at most [n]. *)
Fixpoint cube_root (bits : nat) (root n : Z) : Z :=
  match bits with
  | O => root
  | S k => let r := root + 2 ^ Z.of_nat k in cube_root k (if r * r * r <=? n then r else root) n
  end.
Definition K256 : list Z := Eval vm_compute in (λ p, cube_root 36 0 (p * 2 ^ 96) mod 2 ^ 32) <$> primes 312.
Definition H256 : list Z := Eval vm_compute in (λ p, Z.sqrt (p * 2 ^ 64) mod 2 ^ 32) <$> primes 20.

Definition add32 (x y : Z) : Z := wrap_u 32 (x + y).
Definition rotr (n x : Z) : Z := Z.lor (Z.shiftr x n) (wrap_u 32 (Z.shiftl x (32 - n))).
Definition xor3 (x y z : Z) : Z := Z.lxor x (Z.lxor y z).

(** Padding: a one bit, zeros, the length in bits; a multiple of 64 bytes. *)
Definition sha_pad (l : bytes) : bytes :=
  let n := length l in
  l ++ Byte.x80 :: replicate (Z.to_nat ((55 - Z.of_nat n) mod 64)) Byte.x00 ++ be_split 8 (8 * Z.of_nat n).

Fixpoint words (n : nat) (l : bytes) : list Z :=
  match n with O => [] | S n => be_combine (take 4 l) :: words n (drop 4 l) end.

(** The message schedule, most recent word first. *)
Fixpoint schedule (n : nat) (w : list Z) : list Z :=
  match n with
  | O => w
  | S n =>
    let at' i := default 0 (w !! i) in
    let s0 := xor3 (rotr 7 (at' 14%nat)) (rotr 18 (at' 14%nat)) (Z.shiftr (at' 14%nat) 3) in
    let s1 := xor3 (rotr 17 (at' 1%nat)) (rotr 19 (at' 1%nat)) (Z.shiftr (at' 1%nat) 10) in
    schedule n (add32 (add32 (at' 15%nat) s0) (add32 (at' 6%nat) s1) :: w)
  end.

Definition sha_round (h : list Z) (kw : Z * Z) : list Z :=
  match h with
  | [a; b; c; d; e; f; g; h] =>
    let s1 := xor3 (rotr 6 e) (rotr 11 e) (rotr 25 e) in
    let ch := Z.lxor (Z.land e f) (Z.land (0xffffffff - e) g) in
    let t1 := add32 (add32 h s1) (add32 ch (kw.1 + kw.2)) in
    let s0 := xor3 (rotr 2 a) (rotr 13 a) (rotr 22 a) in
    let maj := xor3 (Z.land a b) (Z.land a c) (Z.land b c) in
    [add32 t1 (add32 s0 maj); a; b; c; add32 d t1; e; f; g]
  | h => h
  end.

Definition sha_block (h : list Z) (block : bytes) : list Z :=
  let w := reverse (schedule 48 (reverse (words 16 block))) in
  zip_with add32 h (foldl sha_round h (zip K256 w)).

Fixpoint sha_blocks (n : nat) (h : list Z) (l : bytes) : list Z :=
  match n with O => h | S n => sha_blocks n (sha_block h (take 64 l)) (drop 64 l) end.

Definition sha256 (l : bytes) : bytes :=
  let p := sha_pad l in concat (be_split 4 <$> sha_blocks (length p / 64) H256 p).

(** [sha256(l).hexdigest()] *)
Definition sha256_hex (l : bytes) : string := hex (sha256 l).

(** The examples of FIPS 180-2. *)
Example sha256_vectors : map sha256_hex [[]; str_encode "abc"; str_encode "abcdbcdecdefdefgefghfghighijhijkijkljklmklmnlmnomnopnopq"] =
  ["e3b0c44298fc1c149afbf4c8996fb92427ae41e4649b934ca495991b7852b855";
   "ba7816bf8f01cfea414140de5dae2223b00361a396177a9cb410ff61f20015ad";
   "248d6a61d20638b8e5c026930c3e6039a33ce45964ff2167f6ecedd419db06c1"].
Proof. by vm_compute. Qed.
