(* ===== verification/BlobCache.v ===== *)
(** The blob cache (src/opendiamond/blobcache.py): lookups that keep blobs alive,
    the two-pass garbage collection, and their interleavings. *)
From S2P Require Import Prelude PyBytes PyText Hex Sha256.
Local Open Scope Z_scope.

(** ** The cache directory

    Names with contents and modification time, and the clock.  A link is a
    copy: the temporary name of a new blob is removed right after it. *)
Record FS := MkFS { files : gmap string (bytes * Z); clock : Z }.

Inductive fsop :=
  | Utime (p : string)
  | Rename (p q : string)
  | ReadFile (p : string)
  | Stat (p : string)
  | Unlink (p : string)
  | Create (p : string) (data : bytes)
  | Link (p q : string)
  | Listdir
  | Exists (p : string).

Inductive reply := RUnit | RData (b : bytes) | RStat (mtime : Z) | RNames (l : list string) | RBool (b : bool).

Definition set_files (m : gmap string (bytes * Z)) (fs : FS) : FS := MkFS m (clock fs).

(** System calls are atomic; a missing source, or a link to an existing name, is
    an [OSError]. *)
Definition apply_op (o : fsop) (fs : FS) : res reply * FS :=
  match o with
  | Utime p =>
    match files fs !! p with
    | Some (d, _) => (Ok RUnit, set_files (<[p := (d, clock fs)]> (files fs)) fs)
    | None => (Raise OSError, fs)
    end
  | Rename p q =>
    match files fs !! p with
    | Some f => (Ok RUnit, set_files (<[q := f]> (delete p (files fs))) fs)
    | None => (Raise OSError, fs)
    end
  | ReadFile p => (match files fs !! p with Some (d, _) => Ok (RData d) | None => Raise OSError end, fs)
  | Stat p => (match files fs !! p with Some (_, t) => Ok (RStat t) | None => Raise OSError end, fs)
  | Unlink p =>
    match files fs !! p with
    | Some _ => (Ok RUnit, set_files (delete p (files fs)) fs)
    | None => (Raise OSError, fs)
    end
  | Create p d => (Ok RUnit, set_files (<[p := (d, clock fs)]> (files fs)) fs)
  | Link p q =>
    match files fs !! p, files fs !! q with
    | Some f, None => (Ok RUnit, set_files (<[q := f]> (files fs)) fs)
    | _, _ => (Raise OSError, fs)
    end
  | Listdir => (Ok (RNames (map_to_list (files fs)).*1), fs)
  | Exists p => (Ok (RBool (bool_decide (is_Some (files fs !! p)))), fs)
  end.

(** ** Programs: sequences of system calls *)
Inductive prog (A : Type) : Type :=
  | Ret (r : res A)
  | Op (o : fsop) (k : res reply → prog A).
Arguments Ret {A} r.
Arguments Op {A} o k.

Fixpoint prog_bind {A B} (f : A → prog B) (m : prog A) : prog B :=
  match m with
  | Ret (Ok a) => f a
  | Ret (Raise e) => Ret (Raise e)
  | Op o k => Op o (λ r, prog_bind f (k r))
  end.
#[global] Instance prog_MRet : MRet prog := λ A a, Ret (Ok a).
#[global] Instance prog_MBind : MBind prog := λ A B f m, prog_bind f m.

(** [try: m except <P>: h()] *)
Fixpoint prog_try {A} (m : prog A) (P : exn → bool) (h : exn → prog A) : prog A :=
  match m with
  | Ret (Ok a) => Ret (Ok a)
  | Ret (Raise e) => if P e then h e else Ret (Raise e)
  | Op o k => Op o (λ r, prog_try (k r) P h)
  end.

Definition call (o : fsop) : prog reply := Op o Ret.
Definition do (o : fsop) : prog unit := Op o (λ r, Ret (_ ← r; Ok tt)).

(** A program alone. *)
Fixpoint run {A} (m : prog A) (fs : FS) : res A * FS :=
  match m with
  | Ret r => (r, fs)
  | Op o k => let '(r, fs) := apply_op o fs in run (k r) fs
  end.

Definition is_OSError (e : exn) : bool := bool_decide (e = OSError).

(** ** BlobCache *)
Definition GC_SUFFIX : string := "-".

(** [_path]: names are relative to [basedir]. *)
Definition path (sig : string) : string := on_str lower sig.

(** [_try_with_rescue]; every caller's exceptions are [OSError]. *)
Definition try_with_rescue {A} (sig : string) (operation_func : prog A) : prog A :=
  prog_try operation_func is_OSError (λ _,
    prog_try (do (Rename (path sig +:+ GC_SUFFIX) (path sig))) is_OSError (λ _, mret tt) ≫= λ _,
    operation_func).

Definition access (sig : string) : prog unit :=
  prog_try (try_with_rescue sig (do (Utime (path sig)))) is_OSError (λ _, Ret (Raise KeyError)).

Definition contains (sig : string) : prog bool :=
  prog_try (access sig ≫= λ _, mret true) (λ e, bool_decide (e = KeyError)) (λ _, mret false).

(** [open(p).read()] *)
Definition read_file (p : string) : prog bytes :=
  Op (ReadFile p) (λ r, Ret (match r with Ok (RData d) => Ok d | Ok _ => Raise TypeError | Raise e => Raise e end)).

Definition getitem (sig : string) : prog bytes :=
  access sig ≫= λ _, try_with_rescue sig (read_file (path sig)).

(** [tmp] is the name that [mkstemp] chose. *)
Definition add (tmp : string) (data : bytes) : prog string :=
  let sig := sha256_hex data in
  do (Create tmp data) ≫= λ _,
  prog_try (do (Link tmp (path sig))) is_OSError (λ _, mret tt) ≫= λ _,
  do (Unlink tmp) ≫= λ _,
  mret sig.

(** [os.stat(p).st_mtime] *)
Definition mtime (p : string) : prog Z :=
  Op (Stat p) (λ r, Ret (match r with Ok (RStat t) => Ok t | Ok _ => Raise TypeError | Raise e => Raise e end)).
Definition listdir : prog (list string) :=
  Op Listdir (λ r, Ret (match r with Ok (RNames l) => Ok l | Ok _ => Raise TypeError | Raise e => Raise e end)).

Definition is_gc (file : string) : bool := endswith (str_encode file) (str_encode GC_SUFFIX).

Definition expired (expires : Z) (p : string) (action : fsop) : prog unit :=
  prog_try (t ← mtime p; if t <? expires then do action else mret tt) is_OSError (λ _, mret tt).

Fixpoint prune_rename (expires : Z) (l : list string) : prog unit :=
  match l with
  | [] => mret tt
  | file :: l =>
    (if is_gc file then mret tt else expired expires file (Rename file (file +:+ GC_SUFFIX))) ≫= λ _,
    prune_rename expires l
  end.
Fixpoint prune_delete (expires : Z) (l : list string) : prog unit :=
  match l with
  | [] => mret tt
  | file :: l =>
    (if is_gc file then expired expires file (Unlink file) else mret tt) ≫= λ _,
    prune_delete expires l
  end.

(** [prune], from the clock it reads first. *)
Definition prune (now max_days : Z) : prog unit :=
  let expires := now - 60 * 60 * 24 * max_days in
  l ← listdir; prune_rename expires l ≫= λ _,
  l ← listdir; prune_delete expires l.

(** ** ExecutableBlobCache

    The executables' directory is a set of names of its own, written with a
    prefix that no blob has; [tmp] is the temporary name that is chosen in it. *)
Definition dest_path (sig : string) : string := "executable/" +:+ sig.

Definition make_dest (tmp sig : string) : prog unit :=
  prog_try (do (Link (path sig) tmp)) is_OSError
    (λ _, d ← read_file (path sig); do (Create tmp d)) ≫= λ _,
  do (Rename tmp (dest_path sig)).

Definition executable_path (tmp sig : string) : prog string :=
  access sig ≫= λ _,
  b ← call (Exists (dest_path sig));
  match b with
  | RBool true => mret tt
  | _ => try_with_rescue sig (make_dest tmp sig)
  end ≫= λ _,
  mret (dest_path sig).

(** ** Interleavings

    The supervisor's garbage collection and the lookups of any number of
    searches, one system call at a time; the clock only moves forward. *)
Inductive thread :=
  | TPrune (m : prog unit)
  | TGet (m : prog bytes)
  | TContains (m : prog bool)
  | TAdd (m : prog string).

Definition step_prog {A} (m : prog A) (fs : FS) : prog A * FS :=
  match m with Ret r => (Ret r, fs) | Op o k => let '(r, fs) := apply_op o fs in (k r, fs) end.

Definition step_thread (t : thread) (fs : FS) : thread * FS :=
  match t with
  | TPrune m => let '(m, fs) := step_prog m fs in (TPrune m, fs)
  | TGet m => let '(m, fs) := step_prog m fs in (TGet m, fs)
  | TContains m => let '(m, fs) := step_prog m fs in (TContains m, fs)
  | TAdd m => let '(m, fs) := step_prog m fs in (TAdd m, fs)
  end.

Inductive event := Tick (d : N) | Run (i : nat).
Abbreviation config := (FS * list thread)%type.

Definition exec1 (c : config) (e : event) : config :=
  match e with
  | Tick d => (MkFS (files c.1) (clock c.1 + Z.of_N d), c.2)
  | Run i =>
    match c.2 !! i with
    | Some t => let '(t, fs) := step_thread t c.1 in (fs, <[i := t]> c.2)
    | None => c
    end
  end.
Definition exec (c : config) (es : list event) : config := foldl exec1 c es.

(** What a search does with the cache. *)
Inductive client := Get (sig : string) | Contains (sig : string) | Add (tmp : string) (data : bytes).
Definition client_thread (c : client) : thread :=
  match c with Get s => TGet (getitem s) | Contains s => TContains (contains s) | Add tmp data => TAdd (add tmp data) end.

Definition start_config (fs : FS) (max_days : Z) (clients : list client) : config :=
  (fs, TPrune (prune (clock fs) max_days) :: (client_thread <$> clients)).

(** A signature names no garbage: it does not end in [GC_SUFFIX]. *)
Definition sig_ok (sig : string) : bool := negb (is_gc (path sig)).
Definition is_lookup (c : client) : bool :=
  match c with Get s | Contains s => sig_ok s | Add _ _ => false end.

(** *** Names *)
Lemma is_gc_suffix s : is_gc (s +:+ GC_SUFFIX) = true.
Proof.
  unfold is_gc, endswith. rewrite str_encode_app.
  change (str_encode GC_SUFFIX) with [Byte.x2d]. rewrite reverse_snoc. simpl. by destruct (reverse _).
Qed.

Lemma suffix_inj s1 s2 : s1 +:+ GC_SUFFIX = s2 +:+ GC_SUFFIX → s1 = s2.
Proof.
  intros E%(f_equal str_encode). rewrite !str_encode_app in E. apply str_encode_inj.
  by apply app_inj_2 in E as [E _].
Qed.

(** *** One blob

    [p] and [q] are the names of the blob, alive and renamed by the collector. *)
Section OneBlob.
Context (sig : string) (Hsig : sig_ok sig = true) (d : bytes) (E : Z).
Abbreviation p := (path sig).
Abbreviation q := (path sig +:+ GC_SUFFIX).

Inductive loc := Main (t : Z) | Pend (t : Z) | Gone.

Definition at_loc (fs : FS) (l : loc) : Prop :=
files fs !! p = match l with Main t => Some (d, t) | _ => None end ∧
files fs !! q = match l with Pend t => Some (d, t) | _ => None end.

Definition fresh (l : loc) : Prop := match l with Main t | Pend t => E <= t | Gone => False end.

Lemma p_not_gc : is_gc p = false.
Proof. unfold sig_ok in Hsig. by destruct (is_gc p). Qed.
Lemma p_ne_q : p ≠ q.
Proof. intros H. pose proof p_not_gc as G. rewrite H, is_gc_suffix in G. done. Qed.

(** An operation on other names. *)
Definition elsewhere (o : fsop) : Prop :=
match o with
| Utime x | Unlink x | Create x _ => x ≠ p ∧ x ≠ q
| Rename x y => x ≠ p ∧ x ≠ q ∧ y ≠ p ∧ y ≠ q
| Link _ y => y ≠ p ∧ y ≠ q
| _ => True
end.

Lemma elsewhere_loc o fs l : elsewhere o → at_loc fs l → at_loc (apply_op o fs).2 l.
Proof.
unfold at_loc. destruct o; cbn [elsewhere apply_op]; intros Ho [Hp Hq]; repeat case_match;
cbn [snd set_files files] in *; rewrite ?lookup_insert_ne, ?lookup_delete_ne by naive_solver; done.
Qed.

Lemma apply_op_clock o fs : clock (apply_op o fs).2 = clock fs.
Proof. destruct o; simpl; by repeat case_match. Qed.

(** Clients look only at the blobs' names. *)
Definition client_op (o : fsop) : Prop :=
elsewhere o ∨ o = Utime p ∨ o = Rename q p.

Lemma client_op_sig sig' : sig_ok sig' = true →
client_op (Utime (path sig')) ∧ client_op (Rename (path sig' +:+ GC_SUFFIX) (path sig')) ∧
client_op (ReadFile (path sig')).
Proof.
intros H. destruct (decide (path sig' = p)) as [->|Hne]; [unfold client_op; naive_solver|].
assert (is_gc (path sig') = false) as G by (unfold sig_ok in H; by destruct (is_gc _)).
assert (path sig' ≠ q) by (intros E'; rewrite E', is_gc_suffix in G; done).
assert (path sig' +:+ GC_SUFFIX ≠ p) by (intros E'; pose proof p_not_gc as G'; rewrite <-E', is_gc_suffix in G'; done).
assert (path sig' +:+ GC_SUFFIX ≠ q) by (intros ?%suffix_inj; done).
unfold client_op. simpl. naive_solver.
Qed.

Fixpoint client_safe {A} (m : prog A) : Prop :=
match m with Ret _ => True | Op o k => client_op o ∧ ∀ r, client_safe (k r) end.

(** Where a client's call leaves the blob. *)
Inductive client_move (now : Z) : loc → loc → Prop :=
| cm_stay l : client_move now l l
| cm_touch t : client_move now (Main t) (Main now)
| cm_rescue t : client_move now (Pend t) (Main t).

Definition touch (now : Z) (l : loc) : loc := match l with Main _ => Main now | l => l end.
Definition rescued (l : loc) : loc := match l with Pend t => Main t | l => l end.

Lemma op_utime fs l : at_loc fs l → ∃ fs', clock fs' = clock fs ∧ at_loc fs' (touch (clock fs) l) ∧
apply_op (Utime p) fs = (match l with Main _ => Ok RUnit | _ => Raise OSError end, fs').
Proof.
intros [Hp Hq]. cbn [apply_op]. rewrite Hp. pose proof p_ne_q.
destruct l as [t|t|]; (eexists; split; [|split; [|reflexivity]]; [done|]); split; try done; cbn [set_files files touch].
- by rewrite lookup_insert_eq.
- by rewrite lookup_insert_ne.
Qed.

Lemma op_rescue fs l : at_loc fs l → ∃ fs', clock fs' = clock fs ∧ at_loc fs' (rescued l) ∧
apply_op (Rename q p) fs = (match l with Pend _ => Ok RUnit | _ => Raise OSError end, fs').
Proof.
intros [Hp Hq]. cbn [apply_op]. rewrite Hq. pose proof p_ne_q.
destruct l as [t|t|]; (eexists; split; [|split; [|reflexivity]]; [done|]); split; try done; cbn [set_files files rescued].
- by rewrite lookup_insert_eq.
- by rewrite lookup_insert_ne, lookup_delete_eq.
Qed.

Lemma op_read fs l : at_loc fs l →
apply_op (ReadFile p) fs = (match l with Main _ => Ok (RData d) | _ => Raise OSError end, fs).
Proof. intros [Hp Hq]. cbn [apply_op]. rewrite Hp. by destruct l. Qed.

Lemma client_move_loc o fs l : client_op o → at_loc fs l →
∃ l', at_loc (apply_op o fs).2 l' ∧ client_move (clock fs) l l'.
Proof.
intros [Ho|[->| ->]] H; [exists l; split; [by apply elsewhere_loc|constructor]|..].
- destruct (op_utime fs l H) as (fs' & _ & H' & ->). eexists; split; [exact H'|]. destruct l; constructor.
- destruct (op_rescue fs l H) as (fs' & _ & H' & ->). eexists; split; [exact H'|]. destruct l; constructor.
Qed.

Lemma client_safe_bind {A B} (m : prog A) (f : A → prog B) :
client_safe m → (∀ a, client_safe (f a)) → client_safe (m ≫= f).
Proof.
intros Hm Hf. induction m as [[a|e]|o k IH]; [exact (Hf a)|done|].
destruct Hm as [Ho Hk]. split; [done|]. intros r. by apply IH.
Qed.

Lemma client_safe_try {A} (m : prog A) P (h : exn → prog A) :
client_safe m → (∀ e, client_safe (h e)) → client_safe (prog_try m P h).
Proof.
intros Hm Hh. induction m as [[a|e]|o k IH]; cbn; [done|by destruct (P e)|].
destruct Hm as [Ho Hk]. split; [done|]. intros r. by apply IH.
Qed.

Lemma client_safe_step {A} (m : prog A) fs : client_safe m → client_safe (step_prog m fs).1.
Proof. destruct m as [r|o k]; [done|]. intros [_ Hk]. cbn. destruct (apply_op o fs). apply Hk. Qed.

Lemma client_step {A} (m : prog A) fs l : client_safe m → at_loc fs l →
∃ l', at_loc (step_prog m fs).2 l' ∧ client_move (clock fs) l l' ∧ clock (step_prog m fs).2 = clock fs.
Proof.
destruct m as [r|o k]; [exists l; split; [done|split; [constructor|done]]|]. intros [Ho _] Hl.
destruct (client_move_loc o fs l Ho Hl) as (l' & Hl' & Hm). exists l'.
pose proof (apply_op_clock o fs). cbn. by destruct (apply_op o fs).
Qed.

Section Lookups.
Context (sig' : string) (Hok : sig_ok sig' = true).

Lemma rescue_safe {A} (m : prog A) : client_safe m → client_safe (try_with_rescue sig' m).
Proof.
intros Hm. destruct (client_op_sig sig' Hok) as (_ & H2 & _).
apply client_safe_try; [done|]. intros _. apply client_safe_bind; [|by intros _].
by apply client_safe_try; [split; [|by intros []]|].
Qed.

Lemma access_safe : client_safe (access sig').
Proof.
destruct (client_op_sig sig' Hok) as (H1 & _ & _).
apply client_safe_try; [|done]. apply rescue_safe. split; [done|]. by intros [].
Qed.

Lemma getitem_safe : client_safe (getitem sig').
Proof.
destruct (client_op_sig sig' Hok) as (_ & _ & H3).
apply client_safe_bind; [apply access_safe|]. intros _. by apply rescue_safe; split.
Qed.

Lemma contains_safe : client_safe (contains sig').
Proof. apply client_safe_try; [|done]. by apply client_safe_bind; [apply access_safe|]. Qed.
End Lookups.

(** The collector: [Idle] until it finds the blob expired; it then renames it
once ([Moving] to [Moved]), and unlinks it only when it finds the renamed
file expired ([Doomed]). *)
Inductive mode := Idle | Moving | Moved | Doomed.

Definition allowed (md : mode) (o : fsop) : Prop :=
elsewhere o ∨ (o = Rename p q ∧ md = Moving) ∨ (o = Unlink q ∧ md = Doomed).

Definition next_mode (md : mode) (o : fsop) (r : res reply) : mode :=
match o, r, md with
| Stat x, Ok (RStat t), Idle =>
if decide (x = p ∧ t < E) then Moving else if decide (x = q ∧ t < E) then Doomed else Idle
| Stat x, Ok (RStat t), Moved => if decide (x = q ∧ t < E) then Doomed else Moved
| Rename x _, _, Moving => if decide (x = p) then Moved else Moving
| _, _, md => md
end.

Definition reply_ok (o : fsop) (r : res reply) : Prop :=
match o, r with Listdir, Ok (RNames l) => NoDup l | _, _ => True end.

Fixpoint gc_safe (md : mode) (m : prog unit) : Prop :=
match m with
| Ret _ => True
| Op o k => allowed md o ∧ ∀ r, reply_ok o r → gc_safe (next_mode md o r) (k r)
end.

Lemma apply_op_reply_ok o fs : reply_ok o (apply_op o fs).1.
Proof. destruct o; simpl; try done. apply NoDup_fst_map_to_list. Qed.

Lemma expired_safe md file action (K : prog unit) :
allowed md (Stat file) →
(∀ t, t < E → let md' := next_mode md (Stat file) (Ok (RStat t)) in
allowed md' action ∧ ∀ r, gc_safe (next_mode md' action r) K) →
(∀ r, (∀ t, r = Ok (RStat t) → E <= t) → gc_safe (next_mode md (Stat file) r) K) →
gc_safe md (expired E file action ≫= λ _, K).
Proof.
intros Ha Hact HK. split; [done|]. intros r _. destruct r as [[|b|t|l|b]|e].
- exact I.
- exact I.
- specialize (Hact t). specialize (HK (Ok (RStat t))).
cbn -[next_mode]. destruct (Z.ltb_spec t E) as [Ht|Ht]; cbn -[next_mode].
+ destruct (Hact Ht) as [Hal Hn]. split; [done|]. intros r' _. specialize (Hn r').
destruct r' as [r'|e]; cbn -[next_mode]; [exact Hn|]. by destruct (is_OSError e).
+ apply HK. by intros ? [= <-].
- exact I.
- exact I.
- cbn -[next_mode]. destruct (is_OSError e); [|exact I]. by apply HK.
Qed.

Lemma gc_safe_assoc (m : prog unit) (f : unit → prog unit) (K : prog unit) md :
gc_safe md (m ≫= λ a, (f a ≫= λ _, K)) → gc_safe md ((m ≫= f) ≫= λ _, K).
Proof.
revert md. induction m as [[a|e]|o k IH]; intros md; cbn; [done..|].
intros [Ha Hk]. split; [done|]. intros r Hr. by apply IH, Hk.
Qed.

Lemma prune_rename_safe l md K : NoDup l →
md = Idle ∨ (md = Moved ∧ p ∉ l) →
gc_safe Idle K → gc_safe Moved K →
gc_safe md (prune_rename E l ≫= λ _, K).
Proof.
intros Hl Hmd HI HM. revert md Hmd. induction Hl as [|file l Hfile Hl IH]; intros md Hmd; [by destruct Hmd as [->|[-> _]]|].
cbn [prune_rename]. destruct (is_gc file) eqn:Hgc.
{ apply IH. set_solver. }
assert (file ≠ q) as Hq by (intros ->; by rewrite is_gc_suffix in Hgc).
assert (file +:+ GC_SUFFIX ≠ p) as Hp' by (intros Hp; pose proof p_not_gc as G; by rewrite <-Hp, is_gc_suffix in G).
apply gc_safe_assoc, expired_safe; [by left| |].
- intros t Ht. cbn zeta. destruct (decide (file = p)) as [->|Hp].
+ destruct Hmd as [->|[_ Hmd]]; [|set_solver]. cbn. rewrite decide_True by done.
split; [right; by left|]. intros r. cbn. rewrite decide_True by done. apply IH. by right.
+ assert (next_mode md (Stat file) (Ok (RStat t)) = md) as ->.
{ cbn. destruct Hmd as [->|[-> _]]; rewrite !decide_False by naive_solver; done. }
split; [left; cbn; split_and!; try done; by intros ?%suffix_inj|].
intros r. assert (next_mode md (Rename file (file +:+ GC_SUFFIX)) r = md) as ->.
{ destruct Hmd as [->|[-> _]]; by destruct r as [[]|]. }
apply IH. set_solver.
- intros r Hr. assert (next_mode md (Stat file) r = md) as ->; [|apply IH; set_solver].
destruct r as [[| |t| |]|]; try by (destruct Hmd as [->|[-> _]]).
specialize (Hr t eq_refl). cbn. destruct Hmd as [->|[-> _]]; rewrite !decide_False by (intros [? ?]; lia); done.
Qed.

Lemma prune_delete_safe l md : md ≠ Moving → gc_safe md (prune_delete E l).
Proof.
revert md. induction l as [|file l IH]; intros md Hmd; [done|].
cbn [prune_delete]. destruct (is_gc file) eqn:Hgc; [|by apply IH].
assert (file ≠ p) as Hp by (intros ->; by rewrite p_not_gc in Hgc).
assert (Hn : ∀ r, next_mode md (Stat file) r ≠ Moving).
{ intros r. unfold next_mode. destruct r as [[]|], md; try done; repeat case_decide; naive_solver. }
apply expired_safe; [by left| |].
- intros t Ht. cbn zeta. split.
+ destruct (decide (file = q)) as [->|Hq]; [|by left]. right; right. split; [done|].
cbn. destruct md; try done; rewrite ?decide_False by naive_solver; by rewrite decide_True by done.
+ intros r. apply IH. intros Hm. apply (Hn (Ok (RStat t))). revert Hm. by destruct (next_mode md _ _).
- intros r _. by apply IH.
Qed.

Lemma prune_safe now max_days : now - 60 * 60 * 24 * max_days = E → gc_safe Idle (prune now max_days).
Proof.
intros HE. unfold prune. rewrite HE. split; [by left|].
assert (Hphase2 : ∀ md, md ≠ Moving → gc_safe md (l ← listdir; prune_delete E l)).
{ intros md Hmd. split; [by left|]. intros r _.
assert (next_mode md Listdir r = md) as -> by by destruct r as [[]|].
destruct r as [[]|]; try exact I. by apply prune_delete_safe. }
intros r Hr. change (next_mode Idle Listdir r) with Idle. destruct r as [[| | |l|]|]; try exact I.
apply prune_rename_safe; [exact Hr|by left|by apply Hphase2..].
Qed.

(** *** A lookup of the blob, call by call *)
Inductive point := A0 | A1 | A2 | B0 | B1 | B2 | Fin (r : res bytes).

Definition not_found (e : exn) : prog unit := Ret (Raise KeyError).
Definition rescue : prog unit := prog_try (do (Rename q p)) is_OSError (λ _, mret tt).
Definition after_access : prog bytes := try_with_rescue sig (read_file p).

Definition point_prog (pt : point) : prog bytes :=
match pt with
| A0 => getitem sig
| A1 => prog_try (rescue ≫= λ _, do (Utime p)) is_OSError not_found ≫= λ _, after_access
| A2 => prog_try (do (Utime p)) is_OSError not_found ≫= λ _, after_access
| B0 => after_access
| B1 => rescue ≫= λ _, read_file p
| B2 => read_file p
| Fin r => Ret r
end.

Context (young : Prop).

(** The collector has had its one chance to rename the blob. *)
Definition spent (md : mode) : Prop := md = Moved ∨ md = Doomed.

Definition point_inv (md : mode) (l : loc) (pt : point) : Prop :=
match pt with
| A0 | A1 => True
| A2 => young → ∃ t, l = Main t
| B0 => fresh l ∧ ∀ t, l = Pend t → spent md
| B1 => fresh l ∧ spent md
| B2 => spent md ∧ ∃ t, l = Main t
| Fin r => r = Ok d ∨ r = Raise KeyError ∧ ¬ young
end.

Definition shared_inv (md : mode) (l : loc) : Prop :=
(md = Doomed → ∀ t, l = Pend t → t < E) ∧ (young → fresh l ∧ md = Idle).

Lemma client_move_inv now md l l' pt : E <= now → client_move now l l' →
shared_inv md l → point_inv md l pt → shared_inv md l' ∧ point_inv md l' pt.
Proof.
intros Hnow Hm [H1 H2] Hp. destruct Hm as [l|t|t]; [done|..].
- split; [split; [done|intros Hy; split; [done|by apply H2]]|].
destruct pt; cbn in *; naive_solver.
- split; [split; [done|intros Hy; destruct (H2 Hy); done]|].
destruct pt; cbn in *; naive_solver.
Qed.

(** The reader's own call. *)
Lemma reader_step md fs l pt : E <= clock fs → at_loc fs l → shared_inv md l → point_inv md l pt →
∃ pt' fs' l', step_prog (point_prog pt) fs = (point_prog pt', fs') ∧ clock fs' = clock fs ∧
at_loc fs' l' ∧ shared_inv md l' ∧ point_inv md l' pt'.
Proof.
intros Hnow Hl Hs Hp.
destruct pt; cbn [point_inv] in Hp.
- destruct (op_utime fs l Hl) as (fs' & Hc & Hl' & Eo).
destruct (client_move_inv (clock fs) md l (touch (clock fs) l) A0 Hnow) as [Hs' _]; [by destruct l; constructor|done..|].
exists (match l with Main _ => B0 | _ => A1 end), fs', (touch (clock fs) l).
split; [|split; [done|split; [done|split; [done|by destruct l]]]].
cbn -[apply_op]. rewrite Eo. by destruct l.
- destruct (op_rescue fs l Hl) as (fs' & Hc & Hl' & Eo).
destruct (client_move_inv (clock fs) md l (rescued l) A0 Hnow) as [Hs' _]; [by destruct l; constructor|done..|].
exists A2, fs', (rescued l). split; [|split; [done|split; [done|split; [done|]]]].
+ cbn -[apply_op]. rewrite Eo. by destruct l.
+ intros Hy. destruct l; [by eexists..|]. by destruct Hs as [_ Hs], (Hs Hy).
- destruct (op_utime fs l Hl) as (fs' & Hc & Hl' & Eo).
destruct (client_move_inv (clock fs) md l (touch (clock fs) l) A0 Hnow) as [Hs' _]; [by destruct l; constructor|done..|].
exists (match l with Main _ => B0 | _ => Fin (Raise KeyError) end), fs', (touch (clock fs) l).
split; [|split; [done|split; [done|split; [done|]]]].
+ cbn -[apply_op]. rewrite Eo. by destruct l.
+ destruct l; cbn; [done|..]; (right; split; [done|]; intros Hy; by destruct (Hp Hy)).
- exists (match l with Main _ => Fin (Ok d) | _ => B1 end), fs, l.
split; [|split; [done|split; [done|split; [done|]]]].
+ cbn -[apply_op]. rewrite (op_read fs l) by done. by destruct l.
+ destruct Hp as [Hf Hsp]. destruct l as [t|t|]; [by left|split; [done|by eapply Hsp]|by destruct Hf].
- destruct (op_rescue fs l Hl) as (fs' & Hc & Hl' & Eo).
destruct (client_move_inv (clock fs) md l (rescued l) A0 Hnow) as [Hs' _]; [by destruct l; constructor|done..|].
exists B2, fs', (rescued l). split; [|split; [done|split; [done|split; [done|]]]].
+ cbn -[apply_op]. rewrite Eo. by destruct l.
+ destruct Hp as [Hf Hsp]. split; [done|]. destruct l; [by eexists..|done].
- destruct Hp as [Hsp [t ->]]. exists (Fin (Ok d)), fs, (Main t).
split; [|split; [done|split; [done|split; [done|by left]]]].
cbn -[apply_op]. by rewrite (op_read fs (Main t)).
- by exists (Fin r), fs, l.
Qed.

(** The collector's call: only the mode and the place of the blob matter. *)
Lemma gc_elsewhere md fs l o pt : at_loc fs l → elsewhere o → shared_inv md l → point_inv md l pt →
shared_inv (next_mode md o (apply_op o fs).1) l ∧ point_inv (next_mode md o (apply_op o fs).1) l pt.
Proof.
intros [Hp Hq] He Hs Hpt. destruct o as [x|x y|x|x|x|x y|x y| |x]; try by destruct (apply_op _ fs).1 as [[]|].
- assert (next_mode md (Rename x y) (apply_op (Rename x y) fs).1 = md) as ->; [|done].
destruct He as (Hx & _). destruct md; cbn; repeat case_match; try done; by rewrite decide_False.
- cbn [apply_op]. destruct (files fs !! x) as [[d' t]|] eqn:Ex; [|by destruct md]. cbn [fst next_mode].
assert (Hcase : x = p ∧ t < E → l = Main t) by (intros [-> _]; destruct l; rewrite Ex in Hp; by simplify_eq).
assert (Hcase' : x = q ∧ t < E → l = Pend t) by (intros [-> _]; destruct l; rewrite Ex in Hq; by simplify_eq).
destruct Hs as [Hs1 Hs2].
destruct md; try done; repeat case_decide; try done.
+ destruct H as [-> Ht]. rewrite Hcase in * by done. split; [split; [done|intros Hy; destruct (Hs2 Hy); simpl in *; lia]|].
destruct pt; simpl in *; unfold spent in *; naive_solver.
+ destruct H0 as [-> Ht]. rewrite Hcase' in * by done.
split; [split; [naive_solver|intros Hy; destruct (Hs2 Hy); simpl in *; lia]|].
destruct pt; simpl in *; unfold spent in *; try naive_solver lia.
+ destruct H as [-> Ht]. rewrite Hcase' in * by done.
split; [split; [naive_solver|intros Hy; destruct (Hs2 Hy); simpl in *; lia]|].
destruct pt; simpl in *; unfold spent in *; try naive_solver lia.
Qed.

Lemma gc_step md fs l m pt : at_loc fs l → gc_safe md m → shared_inv md l → point_inv md l pt →
∃ md' m' fs' l', step_prog m fs = (m', fs') ∧ clock fs' = clock fs ∧ gc_safe md' m' ∧
at_loc fs' l' ∧ shared_inv md' l' ∧ point_inv md' l' pt.
Proof.
intros Hl Hm Hs Hp. destruct m as [r|o k]; [by exists md, (Ret r), fs, l|].
destruct Hm as [Ha Hk]. specialize (Hk _ (apply_op_reply_ok o fs)). pose proof (apply_op_clock o fs) as Hc.
assert (∃ l', at_loc (apply_op o fs).2 l' ∧ shared_inv (next_mode md o (apply_op o fs).1) l' ∧
point_inv (next_mode md o (apply_op o fs).1) l' pt) as (l' & Hl' & Hs' & Hp').
{ pose proof p_ne_q as Hne. destruct Ha as [He|[[-> ->]|[-> ->]]].
- exists l. split; [by apply elsewhere_loc|by apply gc_elsewhere].
- assert (next_mode Moving (Rename p q) (apply_op (Rename p q) fs).1 = Moved) as ->.
{ cbn. repeat case_match; naive_solver. }
destruct Hl as [Hlp Hlq]. destruct Hs as [Hs1 Hs2]. cbn [apply_op]. rewrite Hlp.
assert (Hy : ¬ young) by (intros Hy; by destruct (Hs2 Hy)).
destruct l as [t|t|]; [exists (Pend t)|exists (Pend t)|exists Gone]; cbn [snd].
+ split; [split; cbn [set_files files]; [by rewrite lookup_insert_ne, lookup_delete_eq|by rewrite lookup_insert_eq]|].
split; [split; [done|done]|]. destruct pt; simpl in *; unfold spent in *; naive_solver.
+ split; [done|]. split; [done|]. destruct pt; simpl in *; unfold spent in *; naive_solver.
+ split; [done|]. split; [done|]. destruct pt; simpl in *; unfold spent in *; naive_solver.
- assert (next_mode Doomed (Unlink q) (apply_op (Unlink q) fs).1 = Doomed) as ->.
{ cbn. by repeat case_match. }
destruct Hl as [Hlp Hlq]. destruct Hs as [Hs1 Hs2]. cbn [apply_op]. rewrite Hlq.
assert (Hy : ¬ young) by (intros Hy; by destruct (Hs2 Hy)).
destruct l as [t|t|]; [exists (Main t)|exists Gone|exists Gone]; cbn [snd]; [done| |done].
split; [split; cbn [set_files files]; [by rewrite lookup_delete_ne|by rewrite lookup_delete_eq]|].
split; [done|]. specialize (Hs1 eq_refl t eq_refl).
destruct pt; simpl in *; unfold spent in *; naive_solver lia. }
exists (next_mode md o (apply_op o fs).1), (k (apply_op o fs).1), (apply_op o fs).2, l'.
split; [cbn [step_prog]; by destruct (apply_op o fs)|done].
Qed.
(** *** All the threads; the lookup of the blob is thread [i] after the collector *)
Definition thread_safe (t : thread) : Prop :=
match t with TGet m => client_safe m | TContains m => client_safe m | _ => False end.

Lemma thread_step t fs l : thread_safe t → at_loc fs l →
thread_safe (step_thread t fs).1 ∧
∃ l', at_loc (step_thread t fs).2 l' ∧ client_move (clock fs) l l' ∧ clock (step_thread t fs).2 = clock fs.
Proof.
destruct t as [m|m|m|m]; cbn [thread_safe]; try done; intros Ht Hl;
pose proof (client_safe_step m fs Ht); pose proof (client_step m fs l Ht Hl);
cbn [step_thread]; by destruct (step_prog m fs).
Qed.

Definition config_inv (i : nat) (c : config) : Prop :=
E <= clock c.1 ∧ ∃ md l m rest pt, c.2 = TPrune m :: rest ∧ gc_safe md m ∧ at_loc c.1 l ∧
shared_inv md l ∧ rest !! i = Some (TGet (point_prog pt)) ∧ point_inv md l pt ∧ Forall thread_safe rest.

Lemma exec1_inv i c e : config_inv i c → config_inv i (exec1 c e).
Proof.
destruct c as [fs ts]. intros (Hnow & md & l & m & rest & pt & Hts & Hm & Hl & Hs & Hi & Hp & Hrest).
cbn [fst snd] in *. subst ts. destruct e as [n|[|j]]; cbn [exec1 fst snd].
- split; [cbn; lia|]. exists md, l, m, rest, pt. done.
- change ((TPrune m :: rest) !! 0%nat) with (Some (TPrune m)). cbn [step_thread].
destruct (gc_step md fs l m pt) as (md' & m' & fs' & l' & -> & Hc & ?); [done..|].
split; [cbn; lia|]. exists md', l', m', rest, pt. naive_solver.
- change ((TPrune m :: rest) !! S j) with (rest !! j).
destruct (rest !! j) as [t|] eqn:Ej; [|split; [done|]; by exists md, l, m, rest, pt].
assert (Ht : thread_safe t) by by eapply Forall_lookup_1.
destruct (thread_step t fs l Ht Hl) as (Ht' & l1 & Hl1 & Hmove & Hc1).
destruct (decide (j = i)) as [->|Hj].
+ rewrite Hi in Ej. injection Ej as <-. cbn [step_thread] in *.
destruct (reader_step md fs l pt) as (pt' & fs' & l' & E' & Hc & Hl' & Hs' & Hp'); [done..|].
rewrite E' in *. split; [cbn; lia|].
exists md, l', m, (<[i:=TGet (point_prog pt')]> rest), pt'. split_and!; try done.
* apply list_lookup_insert_eq. by eapply lookup_lt_Some.
* by apply Forall_insert.
+ destruct (step_thread t fs) as [t' fs']. cbn [fst snd] in *.
destruct (client_move_inv (clock fs) md l l1 pt) as [Hs' Hp']; [done..|].
split; [cbn; lia|]. exists md, l1, m, (<[j:=t']> rest), pt. split_and!; try done.
* by rewrite list_lookup_insert_ne.
* by apply Forall_insert.
Qed.

Lemma exec_inv i c es : config_inv i c → config_inv i (exec c es).
Proof. revert c. induction es as [|e es IH]; intros c Hc; [done|]. by apply IH, exec1_inv. Qed.

Lemma finished_point pt r : point_prog pt = Ret r → pt = Fin r.
Proof. destruct pt; try done. by intros [= ->]. Qed.

Lemma lookup_result fs max_days clients es i l r :
clock fs - 60 * 60 * 24 * max_days = E → E <= clock fs → forallb is_lookup clients = true →
clients !! i = Some (Get sig) → at_loc fs l → (young → fresh l) →
(exec (start_config fs max_days clients) es).2 !! S i = Some (TGet (Ret r)) →
r = Ok d ∨ r = Raise KeyError ∧ ¬ young.
Proof.
intros HE Hnow Hc Hi Hl Hy Hr.
destruct (exec_inv i (start_config fs max_days clients) es) as (_ & md & l' & m & rest & pt & Ets & _ & _ & _ & Hpt & Hp & _).
{ split; [done|]. exists Idle, l, (prune (clock fs) max_days), (client_thread <$> clients), A0.
split_and!; try done.
- by apply prune_safe.
- split; [done|]. intros Hy0. split; [by apply Hy|done].
- by rewrite list_lookup_fmap, Hi.
- apply Forall_fmap, Forall_forall. intros c Hin. rewrite forallb_forall in Hc.
specialize (Hc c). rewrite <-list_elem_of_In in Hc. specialize (Hc Hin).
destruct c; [by apply getitem_safe|by apply contains_safe|done]. }
rewrite Ets in Hr. change (rest !! i = Some (TGet (Ret r))) in Hr. rewrite Hpt in Hr.
injection Hr as Hr. apply finished_point in Hr as ->. done.
Qed.
End OneBlob.

(** The blob's contents and modification time, under either name. *)
Definition blob (fs : FS) (sig : string) : option (bytes * Z) :=
  match files fs !! path sig with Some f => Some f | None => files fs !! (path sig +:+ GC_SUFFIX) end.

(** C13.  Garbage collection is safe for readers: in every interleaving of one
    garbage collection with lookups by any number of searches (and a clock that
    moves as it likes), a lookup of a blob that is on disk once returns its
    contents; or it fails with [KeyError], but only if the blob had expired.  A
    lookup of a missing blob fails with [KeyError].  In particular no lookup
    fails halfway, after its access check. *)
Theorem lookup_during_gc fs max_days clients es i sig r :
  0 <= max_days → forallb is_lookup clients = true → clients !! i = Some (Get sig) →
  files fs !! path sig = None ∨ files fs !! (path sig +:+ GC_SUFFIX) = None →
  (exec (start_config fs max_days clients) es).2 !! S i = Some (TGet (Ret r)) →
  match blob fs sig with
  | Some (d, t) => r = Ok d ∨ r = Raise KeyError ∧ t < clock fs - 60 * 60 * 24 * max_days
  | None => r = Raise KeyError
  end.
Proof.
  intros Hd Hc Hi Hone Hr. set (E := clock fs - 60 * 60 * 24 * max_days).
  assert (Hs : sig_ok sig = true).
  { rewrite forallb_forall in Hc. apply (Hc (Get sig)), list_elem_of_In. by eapply list_elem_of_lookup_2. }
  assert (Hnow : E <= clock fs) by (unfold E; lia). unfold blob.
  destruct (files fs !! path sig) as [[d t]|] eqn:Ep.
  - assert (Eq : files fs !! (path sig +:+ GC_SUFFIX) = None) by naive_solver.
    destruct (lookup_result sig Hs d E (E <= t) fs max_days clients es i (Main t) r) as [->|[-> Hy]];
      try done; [by left|right; split; [done|]; lia].
  - destruct (files fs !! (path sig +:+ GC_SUFFIX)) as [[d t]|] eqn:Eq.
    + destruct (lookup_result sig Hs d E (E <= t) fs max_days clients es i (Pend t) r) as [->|[-> Hy]];
        try done; [by left|right; split; [done|]; lia].
    + destruct (lookup_result sig Hs [] E False fs max_days clients es i Gone r) as [->|[-> _]]; try done.
      by destruct (lookup_result sig Hs [Byte.x00] E False fs max_days clients es i Gone (Ok [])) as [|[? _]].
Qed.

(** ** A new blob *)

(** A blob that is added to the cache is found under its SHA-256 signature,
    in either case, with the same contents (unless a file of that name, which
    would be a corrupt blob, was there before), and expires no earlier. *)
Theorem add_getitem tmp data fs sig :
  on_str lower sig = on_str lower (sha256_hex data) →
  tmp ≠ path sig → tmp ≠ path sig +:+ GC_SUFFIX →
  (∀ d t, files fs !! path sig = Some (d, t) → d = data) →
  let '(r, fs1) := run (add tmp data) fs in
  let '(r', fs2) := run (getitem sig) fs1 in
  r = Ok (sha256_hex data) ∧ r' = Ok data ∧ files fs2 !! path sig = Some (data, clock fs) ∧
  files fs2 !! tmp = None.
Proof.
  intros Hs Hp Hq Hd. set (h := sha256_hex data) in *. unfold path in *. set (x := on_str lower sig) in *.
  unfold add, getitem, access, try_with_rescue, path. fold h. rewrite <-Hs. fold x. cbn [run do prog_try prog_bind mbind prog_MBind].
  cbn [apply_op set_files files clock]. cbn -[apply_op]. cbn [apply_op set_files files clock].
  rewrite lookup_insert_eq, lookup_insert_ne by done.
  destruct (files fs !! x) as [[d t]|] eqn:Ex; cbn -[apply_op]; cbn [apply_op set_files files clock].
  - change (is_OSError OSError) with true. cbn -[apply_op]. cbn [apply_op set_files files clock].
    destruct (Hd _ _ eq_refl). rewrite lookup_insert_eq. cbn -[apply_op]. cbn [apply_op set_files files clock].
    rewrite lookup_delete_ne, lookup_insert_ne, Ex by done. cbn -[apply_op]. cbn [apply_op set_files files clock].
    rewrite lookup_insert_eq. cbn -[apply_op]. split_and!; try done.
    + by rewrite lookup_insert_eq.
    + by rewrite lookup_insert_ne, lookup_delete_eq.
  - rewrite lookup_insert_ne, lookup_insert_eq by done. cbn -[apply_op]. cbn [apply_op set_files files clock].
    rewrite lookup_delete_ne, lookup_insert_eq by done. cbn -[apply_op]. cbn [apply_op set_files files clock].
    rewrite lookup_insert_eq. cbn -[apply_op]. split_and!; try done.
    + by rewrite lookup_insert_eq.
    + by rewrite lookup_insert_ne, lookup_delete_eq.
Qed.

(** ** Concrete interleavings

    The collector renames the blob between the reader's two calls; the reader
    rescues it. *)
Definition old_blob : FS := MkFS {["ab" := ([Byte.x01], 0)]} 100000.
Definition rescue_schedule : list event := Run <$> [0; 0; 1; 0; 1; 1; 1; 0; 0; 0]%nat.

Lemma lookup_during_gc_witness :
  match blob old_blob "AB" with
  | Some (d, t) => Ok [Byte.x01] = Ok d ∨ Ok [Byte.x01] = Raise KeyError ∧ t < clock old_blob - 60 * 60 * 24 * 1
  | None => Ok [Byte.x01] = Raise KeyError
  end.
Proof.
  refine (lookup_during_gc old_blob 1 [Get "AB"] rescue_schedule 0 "AB" (Ok [Byte.x01]) _ _ _ _ _);
    first [by vm_compute | by right; vm_compute].
Defined.

Lemma add_getitem_witness :
  let '(r, fs1) := run (add "tmp1" [Byte.x01]) old_blob in
  let '(r', fs2) := run (getitem (sha256_hex [Byte.x01])) fs1 in
  r = Ok (sha256_hex [Byte.x01]) ∧ r' = Ok [Byte.x01] ∧
  files fs2 !! path (sha256_hex [Byte.x01]) = Some ([Byte.x01], clock old_blob) ∧ files fs2 !! "tmp1" = None.
Proof.
  refine (add_getitem "tmp1" [Byte.x01] old_blob (sha256_hex [Byte.x01]) _ _ _ _);
    [done|by vm_compute|by vm_compute|intros d t H; by vm_compute in H].
Defined.

(** With an [add] at the wrong moment a second copy appears and the guarantee is
    lost: another search, about to rescue an old renamed copy, overwrites the new
    blob with it after the reader's access check; the collector then removes the
    blob, and the reader fails with the [OSError] that the class promises to
    avoid. *)
Definition raced_sig : string := sha256_hex [Byte.x01].
Definition leftover : FS := MkFS {[raced_sig +:+ "-" := ([Byte.x01], 0)]} 100000.
Definition race_schedule : list event := Run <$> [1; 2; 2; 2; 3; 0; 1; 0; 0; 0; 0; 0; 3; 3; 3]%nat.

Example rescue_race :
  (exec (start_config leftover 1 [Contains raced_sig; Add "tmp" [Byte.x01]; Get raced_sig]) race_schedule).2 !! 3%nat =
    Some (TGet (Ret (Raise OSError))).
Proof. by vm_compute. Qed.
