(* ===== verification/BlobStore.v ===== *)
(** The blob cache as a store: what its operations, run alone, do to the blobs it
    holds.  A lookup changes no blob; an addition adds one; every blob stays under
    its own SHA-256. *)
From S2P Require Import Prelude PyBytes PyText Hex Sha256 BlobCache.
Local Open Scope Z_scope.

(** ** Running programs *)
Lemma run_bind {A B} (f : A → prog B) (m : prog A) fs :
  run (m ≫= f) fs = match run m fs with (Ok a, fs) => run (f a) fs | (Raise e, fs) => (Raise e, fs) end.
Proof.
  revert fs. change (m ≫= f) with (prog_bind f m). induction m as [[a|e]|o k IH]; intros fs; [done..|].
  cbn [prog_bind run]. destruct (apply_op o fs) as [r fs']. apply IH.
Qed.

Lemma run_try {A} (m : prog A) P h fs :
  run (prog_try m P h) fs =
    match run m fs with (Ok a, fs) => (Ok a, fs) | (Raise e, fs) => if P e then run (h e) fs else (Raise e, fs) end.
Proof.
  revert fs. induction m as [[a|e]|o k IH]; intros fs; [done|cbn; by destruct (P e)|].
  cbn [prog_try run]. destruct (apply_op o fs) as [r fs']. apply IH.
Qed.

(** ** Contents *)

(** The SHA-256 signatures, in either case. *)
Definition is_sig (sig : string) : bool := forallb hex_lower (str_encode (path sig)).
(** Names of no blob: those of temporary files and executables. *)
Definition other_name (s : string) : bool :=
  existsb (λ b, negb (hex_lower b) && negb (bool_decide (b = Byte.x2d))) (str_encode s).

(** The data of a blob, found under its name or under the collector's. *)
Definition contents (fs : FS) (sig : string) : option bytes := fst <$> blob fs sig.

Definition same_blobs (fs fs' : FS) : Prop := ∀ s, is_sig s = true → contents fs' s = contents fs s.

(** Every blob is stored under its own hash. *)
Definition addressed (fs : FS) : Prop := ∀ s d, is_sig s = true → contents fs s = Some d → sha256_hex d = path s.

#[export] Instance same_blobs_equivalence : Equivalence same_blobs.
Proof.
  split; [by intros fs s|intros f1 f2 H s Hs; by rewrite H|].
  intros f1 f2 f3 H12 H23 s Hs. by rewrite H23, H12.
Qed.

Lemma same_blobs_addressed fs fs' : same_blobs fs fs' → addressed fs → addressed fs'.
Proof. intros H Ha s d Hs Hc. apply Ha; [done|]. by rewrite <-(H s Hs). Qed.

Lemma contents_None fs sig :
  contents fs sig = None → files fs !! path sig = None ∧ files fs !! (path sig +:+ GC_SUFFIX) = None.
Proof.
  unfold contents, blob. destruct (files fs !! path sig); [done|]. by destruct (files fs !! (path sig +:+ GC_SUFFIX)).
Qed.

(** *** Names *)
Lemma sig_not_gc sig : is_sig sig = true → is_gc (path sig) = false.
Proof.
  unfold is_sig, is_gc, endswith. intros H. change (str_encode GC_SUFFIX) with [Byte.x2d].
  change (reverse [Byte.x2d]) with [Byte.x2d]. destruct (reverse (str_encode (path sig))) as [|b l] eqn:E; [done|].
  rewrite forallb_forall in H. assert (Hb : hex_lower b = true).
  { apply H, list_elem_of_In. rewrite <-elem_of_reverse, E. set_solver. }
  cbn [startswith]. rewrite bool_decide_false; [done|]. intros <-. done.
Qed.

Lemma other_name_path tmp sig : other_name tmp = true → is_sig sig = true →
  tmp ≠ path sig ∧ tmp ≠ path sig +:+ GC_SUFFIX.
Proof.
  intros (b & Hb & [Hh%negb_true_iff Hd%negb_true_iff]%andb_true_iff)%existsb_exists Hs.
  unfold is_sig in Hs. rewrite forallb_forall in Hs. split; intros ->.
  - rewrite (Hs b Hb) in Hh. done.
  - rewrite str_encode_app, in_app_iff in Hb. destruct Hb as [Hb|[<-|[]]]; [|done]. rewrite (Hs b Hb) in Hh. done.
Qed.

Lemma dest_path_other sig : other_name (dest_path sig) = true.
Proof.
  unfold other_name, dest_path. rewrite str_encode_app, existsb_app.
  by replace (existsb _ (str_encode "executable/")) with true by by vm_compute.
Qed.

Lemma sig_names s s' : is_sig s = true → is_sig s' = true → path s' ≠ path s +:+ GC_SUFFIX.
Proof. intros Hs Hs' E. pose proof (sig_not_gc s' Hs') as G. rewrite E, is_gc_suffix in G. done. Qed.

(** Writing a file that is no blob. *)
Lemma same_blobs_other fs fs' : (∀ n, other_name n = false → files fs' !! n = files fs !! n) → same_blobs fs fs'.
Proof.
  intros H s Hs. unfold contents, blob. rewrite !H; [done|..]; apply not_true_iff_false; intros Ho;
    by destruct (other_name_path _ s Ho Hs).
Qed.

(** ** Lookups *)

(** A successful access: the blob is under its name, and current. *)
Definition revive (sig : string) (fs : FS) : FS :=
  match files fs !! path sig with
  | Some (d, _) => set_files (<[path sig := (d, clock fs)]> (files fs)) fs
  | None =>
    match files fs !! (path sig +:+ GC_SUFFIX) with
    | Some (d, _) => set_files (<[path sig := (d, clock fs)]> (delete (path sig +:+ GC_SUFFIX) (files fs))) fs
    | None => fs
    end
  end.

Ltac run_op := cbn -[apply_op path GC_SUFFIX String.append]; cbn [apply_op set_files files clock].

Lemma access_run sig fs : is_sig sig = true → run (access sig) fs =
  match contents fs sig with Some _ => (Ok tt, revive sig fs) | None => (Raise KeyError, fs) end.
Proof.
  intros Hs. unfold access, try_with_rescue, contents, blob, revive.
  destruct (files fs !! path sig) as [[d t]|] eqn:Ep; [by run_op; rewrite Ep; run_op|].
  destruct (files fs !! (path sig +:+ GC_SUFFIX)) as [[d t]|] eqn:Eq.
  - run_op. rewrite Ep. run_op. change (is_OSError OSError) with true. run_op. rewrite Eq. run_op.
    rewrite lookup_insert_eq. run_op. by rewrite insert_insert_eq.
  - run_op. rewrite Ep. run_op. change (is_OSError OSError) with true. run_op. rewrite Eq. run_op.
    change (is_OSError OSError) with true. run_op. rewrite Ep. run_op. by change (is_OSError OSError) with true.
Qed.

Lemma revive_path sig fs d : contents fs sig = Some d → files (revive sig fs) !! path sig = Some (d, clock fs).
Proof.
  unfold contents, blob, revive. destruct (files fs !! path sig) as [[d' t]|]; [intros [= ->]|].
  - by cbn; rewrite lookup_insert_eq.
  - destruct (files fs !! (path sig +:+ GC_SUFFIX)) as [[d' t]|]; [intros [= ->]|done]. by cbn; rewrite lookup_insert_eq.
Qed.

Lemma revive_other sig fs n : n ≠ path sig → n ≠ path sig +:+ GC_SUFFIX → files (revive sig fs) !! n = files fs !! n.
Proof.
  intros Hp Hq. unfold revive. destruct (files fs !! path sig) as [[d' t]|]; [by cbn; rewrite lookup_insert_ne|].
  destruct (files fs !! (path sig +:+ GC_SUFFIX)) as [[d' t]|]; [|done].
  cbn. by rewrite lookup_insert_ne, lookup_delete_ne.
Qed.

Lemma revive_blobs sig fs : is_sig sig = true → same_blobs fs (revive sig fs).
Proof.
  intros Hs s Hs'. destruct (decide (path s = path sig)) as [E|E].
  - unfold contents at 2. unfold blob. rewrite E. destruct (contents fs sig) as [d|] eqn:Ec.
    + unfold contents, blob in Ec |- *. by rewrite E, (revive_path _ _ d Ec), Ec.
    + apply contents_None in Ec as [Ep Eq]. unfold contents, blob, revive. by rewrite E, Ep, Eq, Ep, Eq.
  - unfold contents, blob. rewrite !revive_other; try done.
    + intros F. symmetry in F. by destruct (sig_names s sig Hs' Hs).
    + by intros F%suffix_inj.
    + by apply sig_names.
Qed.

Lemma contains_run sig fs : is_sig sig = true →
  run (contains sig) fs = (Ok (bool_decide (is_Some (contents fs sig))), revive sig fs).
Proof.
  intros Hs. unfold contains. rewrite run_try, run_bind, access_run by done.
  destruct (contents fs sig) as [d|] eqn:Ec; [done|]. cbn.
  apply contents_None in Ec as [Ep Eq]. unfold revive. by rewrite Ep, Eq.
Qed.

Lemma getitem_run sig fs : is_sig sig = true → run (getitem sig) fs =
  match contents fs sig with Some d => (Ok d, revive sig fs) | None => (Raise KeyError, fs) end.
Proof.
  intros Hs. unfold getitem. rewrite run_bind, access_run by done.
  destruct (contents fs sig) as [d|] eqn:Ec; [|done].
  unfold try_with_rescue. rewrite run_try. run_op. rewrite (revive_path _ _ _ Ec). done.
Qed.

(** ** Additions *)
Lemma hash_is_sig d : is_sig (sha256_hex d) = true ∧ path (sha256_hex d) = sha256_hex d.
Proof.
  assert (E : path (sha256_hex d) = sha256_hex d).
  { unfold path, on_str, sha256_hex, hex. rewrite str_encode_of_bytes. f_equal. unfold lower.
    rewrite <-(list_fmap_id (hexlify (sha256 d))) at 2. apply list_fmap_ext. intros i b Hb.
    pose proof (hexlify_lower (sha256 d)) as Hl. rewrite Forall_lookup in Hl. specialize (Hl i b Hb).
    clear Hb. revert b Hl. hex_cases. }
  split; [|done]. unfold is_sig. rewrite E. unfold sha256_hex, hex. rewrite str_encode_of_bytes.
  apply forallb_forall. intros b Hb. pose proof (hexlify_lower (sha256 d)) as Hl. rewrite Forall_forall in Hl.
  by apply Hl, list_elem_of_In.
Qed.

Lemma add_run tmp data fs : other_name tmp = true → ∃ fs', run (add tmp data) fs = (Ok (sha256_hex data), fs') ∧
  (∀ s, is_sig s = true → contents fs' s =
    if decide (path s = sha256_hex data) then
      Some (match files fs !! path s with Some (d, _) => d | None => data end)
    else contents fs s) ∧
  ∀ n, other_name n = true → files fs' !! n = if decide (n = tmp) then None else files fs !! n.
Proof.
  intros Ht. destruct (hash_is_sig data) as [Hh Eh].
  assert (Hn : ∀ n, other_name n = true → n ≠ sha256_hex data).
  { intros n Hn. rewrite <-Eh. by apply other_name_path. }
  destruct (other_name_path tmp _ Ht Hh) as [Hp Hq]. rewrite Eh in Hp, Hq.
  assert (Hother : ∀ s, is_sig s = true → tmp ≠ path s ∧ tmp ≠ path s +:+ GC_SUFFIX) by (intros; by apply other_name_path).
  unfold add. rewrite Eh. generalize dependent (sha256_hex data). intros h Hh Eh Hn Hp Hq.
  destruct (files fs !! h) as [[d t]|] eqn:Ef; eexists; split.
  - run_op. run_op. rewrite lookup_insert_eq, lookup_insert_ne, Ef by done. run_op. change (is_OSError OSError) with true. run_op.
    rewrite lookup_insert_eq. run_op. reflexivity.
  - rewrite delete_insert_eq. cbn [set_files files]. split.
    + intros s Hs. destruct (Hother s Hs) as [H1 H2]. unfold contents, blob. cbn [set_files files].
      rewrite !lookup_delete_ne by done. case_decide as E; [by rewrite E, Ef|done].
    + intros n Hn1. case_decide as E; [subst n; apply lookup_delete_eq|by rewrite lookup_delete_ne].
  - run_op. run_op. rewrite lookup_insert_eq, lookup_insert_ne, Ef by done. run_op.
    rewrite lookup_insert_ne, lookup_insert_eq by done. run_op. reflexivity.
  - cbn [set_files files]. split.
    + intros s Hs. destruct (Hother s Hs) as [H1 H2]. unfold contents, blob. cbn [set_files files].
      rewrite !lookup_delete_ne by done. case_decide as E; [by rewrite E, lookup_insert_eq, Ef|].
      rewrite !lookup_insert_ne; first [done|congruence|rewrite <-Eh; by apply sig_names].
    + intros n Hn1. specialize (Hn n Hn1). case_decide as E; [subst n; apply lookup_delete_eq|].
      by rewrite lookup_delete_ne, !lookup_insert_ne by done.
Qed.

(** ** Executables *)

(** The executable's contents. *)
Definition executable (fs : FS) (p : string) : option bytes := fst <$> files fs !! p.

Lemma executable_path_run tmp sig fs : is_sig sig = true → other_name tmp = true → files fs !! tmp = None →
  match contents fs sig with
  | Some d => ∃ fs', run (executable_path tmp sig) fs = (Ok (dest_path sig), fs') ∧ same_blobs fs fs' ∧
      executable fs' (dest_path sig) = Some (default d (executable fs (dest_path sig))) ∧
      ∀ n, other_name n = true → n ≠ dest_path sig → files fs' !! n = files fs !! n
  | None => run (executable_path tmp sig) fs = (Raise KeyError, fs)
  end.
Proof.
  intros Hs Ht Hn. unfold executable_path. rewrite run_bind, access_run by done.
  destruct (contents fs sig) as [d|] eqn:Ec; [|done].
  pose proof (revive_blobs sig fs Hs) as Hsame. pose proof (revive_path sig fs d Ec) as Hp.
  destruct (other_name_path tmp sig Ht Hs) as [Ht1 Ht2].
  destruct (other_name_path _ sig (dest_path_other sig) Hs) as [Hd1 Hd2].
  pose proof (revive_other sig fs tmp Ht1 Ht2) as Hn'. rewrite Hn in Hn'.
  unfold executable. rewrite <-(revive_other sig fs (dest_path sig)) by done.
  assert (Hr : ∀ n, other_name n = true → files (revive sig fs) !! n = files fs !! n).
  { intros n Hn1. destruct (other_name_path n sig Hn1 Hs). by apply revive_other. }
  generalize dependent (revive sig fs). intros fs1 Hsame Hp Hn' Hr.
  destruct (files fs1 !! dest_path sig) as [[d' t]|] eqn:Ed; eexists.
  - split; [run_op; rewrite bool_decide_true by (by eexists); reflexivity|]. split_and!; [done|by rewrite Ed|]. intros n Hn1 _. by apply Hr.
  - split_and!.
    + run_op. rewrite bool_decide_false by (rewrite Ed; by intros [? ?]). run_op. rewrite Hp, Hn'. run_op.
      rewrite lookup_insert_eq. run_op. reflexivity.
    + etransitivity; [exact Hsame|]. apply same_blobs_other. cbn [set_files files]. intros n Hn1.
      rewrite lookup_insert_ne, lookup_delete_ne, lookup_insert_ne; [done|..]; intros <-;
        rewrite ?Ht, ?dest_path_other in Hn1; done.
    + cbn [set_files files]. by rewrite lookup_insert_eq.
    + cbn [set_files files]. intros n Hn1 Hn2. rewrite lookup_insert_ne by done. destruct (decide (tmp = n)) as [<-|Hne].
      * by rewrite lookup_delete_eq, Hn.
      * rewrite lookup_delete_ne, lookup_insert_ne by done. by apply Hr.
Qed.

(** ** The invariant of a search's cache

    Blobs and executables are under their own hashes, and [tmp] is free. *)
Definition exec_ok (fs : FS) : Prop :=
  ∀ s d, is_sig s = true → path s = s → executable fs (dest_path s) = Some d → sha256_hex d = s.
Definition store_ok (tmp : string) (fs : FS) : Prop := addressed fs ∧ exec_ok fs ∧ files fs !! tmp = None.

(** A lookup: it changes neither blobs nor other files. *)
Definition quiet (fs fs' : FS) : Prop :=
  same_blobs fs fs' ∧ ∀ n, other_name n = true → files fs' !! n = files fs !! n.

#[export] Instance quiet_preorder : PreOrder quiet.
Proof.
  split; [done|]. intros f1 f2 f3 [H1 H1'] [H2 H2']. split; [by etransitivity|]. intros n Hn. by rewrite H2', H1'.
Qed.

Lemma revive_quiet sig fs : is_sig sig = true → quiet fs (revive sig fs).
Proof.
  intros Hs. split; [by apply revive_blobs|]. intros n Hn. destruct (other_name_path n sig Hn Hs). by apply revive_other.
Qed.

Lemma quiet_store_ok tmp fs fs' : other_name tmp = true → quiet fs fs' → store_ok tmp fs → store_ok tmp fs'.
Proof.
  intros Ht [Hb Ho] (Ha & Hx & Hn). split_and!; [by eapply same_blobs_addressed| |by rewrite Ho].
  intros s d Hs Hp. unfold executable. rewrite Ho by apply dest_path_other. by apply Hx.
Qed.

Lemma add_store_ok tmp data fs : other_name tmp = true → store_ok tmp fs → ∃ fs',
  run (add tmp data) fs = (Ok (sha256_hex data), fs') ∧ store_ok tmp fs' ∧ is_Some (contents fs' (sha256_hex data)) ∧
  ∀ s, is_sig s = true → is_Some (contents fs s) → is_Some (contents fs' s).
Proof.
  intros Ht (Ha & Hx & Hn). destruct (hash_is_sig data) as [Hh Eh].
  destruct (add_run tmp data fs Ht) as (fs' & E & Hc & Ho). exists fs'. split; [done|]. split_and!.
  - split_and!.
    + intros s d Hs. rewrite Hc by done. case_decide as Ed; [|by apply Ha]. intros [= <-].
      destruct (files fs !! path s) as [[d t]|] eqn:Ef; [|done]. apply Ha; [done|]. unfold contents, blob. by rewrite Ef.
    + intros s d Hs Hp. unfold executable. rewrite Ho by apply dest_path_other. case_decide; [done|]. by apply Hx.
    + rewrite Ho by done. by rewrite decide_True.
  - rewrite Hc by done. rewrite decide_True by done. by eexists.
  - intros s Hs Hd. rewrite Hc by done. case_decide; [by eexists|done].
Qed.

(** What the operations of a running search do: no blob and no executable changes. *)
Definition extends (tmp : string) (fs fs' : FS) : Prop :=
  same_blobs fs fs' ∧ (store_ok tmp fs → store_ok tmp fs') ∧ (files fs !! tmp = None → files fs' !! tmp = None) ∧
  ∀ p d, other_name p = true → executable fs p = Some d → executable fs' p = Some d.

#[export] Instance extends_preorder tmp : PreOrder (extends tmp).
Proof.
  split; [by intros fs; split_and!|]. intros f1 f2 f3 (H1 & H2 & H3 & H4) (G1 & G2 & G3 & G4).
  split_and!; [by etransitivity|by auto..].
Qed.

Lemma quiet_extends tmp fs fs' : other_name tmp = true → quiet fs fs' → extends tmp fs fs'.
Proof.
  intros Ht Hq. split_and!; [apply Hq|by apply quiet_store_ok|by rewrite (proj2 Hq)|].
  intros p d Hp. unfold executable. by rewrite (proj2 Hq).
Qed.

Lemma dest_path_inj s s' : dest_path s = dest_path s' → s = s'.
Proof.
  unfold dest_path. intros E%(f_equal str_encode). rewrite !str_encode_app in E.
  apply str_encode_inj. by apply app_inv_head in E.
Qed.

Lemma executable_path_extends tmp sig fs : is_sig sig = true → path sig = sig → other_name tmp = true →
  files fs !! tmp = None → (∀ s, is_sig s = true → tmp ≠ dest_path s) → extends tmp fs (run (executable_path tmp sig) fs).2.
Proof.
  intros Hs Hps Ht Hn Hd. pose proof (executable_path_run tmp sig fs Hs Ht Hn) as Hx.
  destruct (contents fs sig) as [d|] eqn:Ec; [|by rewrite Hx].
  destruct Hx as (fs' & -> & Hsame & Hexec & Ho). cbn [snd].
  assert (Ht' : files fs' !! tmp = None) by (rewrite Ho; [done|done|by apply Hd]).
  split_and!; [done| |done|].
  - intros (Ha & Hx & _). split_and!; [by eapply same_blobs_addressed| |done].
    intros s d' Hs' Hp'. destruct (decide (dest_path s = dest_path sig)) as [E|E].
    + rewrite E, Hexec. intros [= <-]. assert (s = sig) as ->.
      { by apply dest_path_inj. }
      destruct (executable fs (dest_path sig)) as [x|] eqn:Ex; [by apply Hx|]. cbn. rewrite <-Hps. by apply Ha.
    + unfold executable. rewrite Ho; [|apply dest_path_other|done]. by apply Hx.
  - intros p x Hp Hpx. destruct (decide (p = dest_path sig)) as [->|E].
    + by rewrite Hexec, Hpx.
    + unfold executable in *. by rewrite Ho.
Qed.
