(* ===== verification/FilterCode.v ===== *)
(** Filter code (src/opendiamond/server/filter.py, class [Filter]): the resolution
    of a filter's code and blob argument from the blob cache, the result-cache
    digest, and the choice of the way its process will be started. *)
From S2P Require Import Prelude PyBytes PyText Dict Float64 Hex Sha256 Url Helpers FilterStack BlobCache BlobStore.
Local Open Scope Z_scope.

(** ** Reading text: [open(p, 'r').read(100)]

    The reader decodes the first 8192 bytes; a character that is cut off there, or
    that is beyond the 100, is no error. *)
Definition TEXT_CHUNK : nat := 8192.

Definition char_count (l : bytes) : nat := length (filter (λ b, cont b = false) l).
Definition incomplete (l : bytes) : bool :=
  negb (utf8_valid l) && existsb (λ x, utf8_valid (l ++ x))
    [[Byte.x80]; [Byte.x80; Byte.x80]; [Byte.x80; Byte.x80; Byte.x80]; [Byte.xa0; Byte.x80]; [Byte.x90; Byte.x80; Byte.x80]].

Fixpoint take_chars (n : nat) (l : bytes) : bytes :=
  match l with
  | [] => []
  | b :: l => if cont b then b :: take_chars n l else match n with O => [] | S n => b :: take_chars n l end
  end.

(** Universal newlines. *)
Fixpoint newlines (l : bytes) : bytes :=
  match l with
  | [] => []
  | b :: l' =>
    if decide (b = Byte.x0d) then
      Byte.x0a :: match l' with b' :: l'' => if decide (b' = Byte.x0a) then newlines l'' else newlines l' | [] => [] end
    else b :: newlines l'
  end.

Definition text_head (l : bytes) : res bytes :=
  let c := take TEXT_CHUNK l in
  if utf8_valid c then Ok (take_chars 100 (newlines c))
  else if incomplete c && (100 <? char_count (newlines c))%nat then Ok (take_chars 100 (newlines c))
  else Raise UnicodeDecodeError.

(** [p in s] *)
Fixpoint is_infix (p l : bytes) : bool :=
  startswith l p || match l with [] => false | _ :: l => is_infix p l end.

(** The whole text. *)
Definition read_text (l : bytes) : res string :=
  if utf8_valid l then Ok (String.string_of_list_byte (newlines l)) else Raise UnicodeDecodeError.

Definition is_KeyError (e : exn) : bool := bool_decide (e = KeyError).

(** ** Sources *)

(** The signature that a source URI names. *)
Definition source_sig (uri : string) : res string :=
  let '(scheme, p) := split_scheme uri in
  if decide (scheme = "sha256") then Ok p else Raise FilterUnsupportedSource.

(** [source_available] *)
Definition source_available (uri : string) : prog bool :=
  match source_sig uri with Ok p => contains p | Raise e => Ret (Raise e) end.

(** [_resolve_code]; [tmp] is the temporary name for the executable. *)
Definition resolve_code (tmp : string) (f : Filter) : prog (string * string) :=
  match source_sig (code_source f) with
  | Ok p =>
    let sig := on_str lower p in
    prog_try (c ← executable_path tmp sig; mret (c, sig)) is_KeyError (λ _, Ret (Raise FilterDependencyError))
  | Raise e => Ret (Raise e)
  end.

(** [_resolve_blob] *)
Definition resolve_blob (f : Filter) : prog (bytes * string) :=
  match source_sig (blob_source f) with
  | Ok p =>
    let sig := on_str lower p in
    prog_try (b ← getitem sig; mret (b, sig)) is_KeyError (λ _, Ret (Raise FilterDependencyError))
  | Raise e => Ret (Raise e)
  end.

Section Resolve.
Context `{Murmur}.
(** [yaml.full_load], for documents that map names to texts. *)
Context (full_load : string → res (dict string string)).

(** The filter, and the search's files. *)
Abbreviation state := (Filter * FS)%type.
Definition on_fs {A} (m : prog A) : sm state A := λ s, let '(r, fs) := run m s.2 in (r, (s.1, fs)).
Definition on_filter (g : Filter → Filter) : sm state unit := λ s, (Ok tt, (g s.1, s.2)).

Definition set_resolved (p sig : string) (b : bytes) (digest : string) (f : Filter) : Filter :=
MkFilter (f_name f) (code_source f) (blob_source f) (min_score f) (max_score f) (arguments f) (dependencies f)
(Some p) (Some sig) (Some b) (Some digest) (f_mode f) (f_connect f).
Definition set_mode (m : string) (f : Filter) : Filter :=
MkFilter (f_name f) (code_source f) (blob_source f) (min_score f) (max_score f) (arguments f) (dependencies f)
(code_path f) (signature f) (f_blob f) (cache_digest f) (Some m) (f_connect f).
Definition set_connect (c : connector) (f : Filter) : Filter :=
MkFilter (f_name f) (code_source f) (blob_source f) (min_score f) (max_score f) (arguments f) (dependencies f)
(code_path f) (signature f) (f_blob f) (cache_digest f) (f_mode f) c.

(** [' '.join([code_signature, self.name] + self.arguments + [blob_signature])] *)
Definition summary (f : Filter) (code_signature blob_signature : string) : bytes :=
join [Byte.x20] (str_encode <$> [code_signature; f_name f] ++ arguments f ++ [blob_signature]).

(** The local function [scan_mode]. *)
Definition scan_mode (file : bytes) : res string :=
head ← text_head file;
Ok (if is_infix (str_encode "diamond-docker-filter") head then "docker" else "default").

(** The docker configuration; every exception there is a dependency error. *)
Definition docker_config (file : res bytes) : res (string * string * string) :=
try_except
(b ← file; text ← read_text b; config ← full_load text;
 docker_image ← of_option KeyError (dict_get config "docker_image");
 filter_command ← of_option KeyError (dict_get config "filter_command");
 Ok (docker_image, filter_command, default "default" (dict_get config "connect_method")))
(λ _, true) (λ _, Raise FilterDependencyError).

(** [_resolve_mode] *)
Definition resolve_mode : sm state connector := λ s,
match code_path s.1 with
| None => (Raise AssertionError, s)
| Some p =>
(b ← on_fs (read_file p);
 mode ← lift (scan_mode b);
 on_filter (set_mode mode) ≫= λ _,
 if decide (mode = "default") then mret Process else
 file ← (λ s, let '(r, s) := on_fs (read_file p) s in (Ok r, s));
 '(image, command, method) ← lift (docker_config file);
 if decide (method = "default") then mret (Socat image command)
 else if decide (method = "fifo") then mret (Fifo image command)
 else fail FilterDependencyError) s
end.

(** [resolve]; [tmp] as above. *)
Definition resolve (tmp : string) : sm state unit := λ s,
match code_path s.1 with
| Some _ => (Ok tt, s)
| None =>
('(p, code_signature) ← on_fs (resolve_code tmp s.1);
 '(b, blob_signature) ← on_fs (resolve_blob s.1);
 on_filter (set_resolved p code_signature b (murmur (summary s.1 code_signature blob_signature))) ≫= λ _,
 c ← resolve_mode;
 on_filter (set_connect c)) s
end.
End Resolve.

(** ** Specification *)

(** The URI of a signature. *)
Definition sig_uri (l : bytes) : string := String.string_of_list_byte (str_encode "sha256:" ++ l).
Definition sig_of (l : bytes) : string := String.string_of_list_byte (lower l).

Lemma source_sig_uri l : Forall is_hex l → source_sig (sig_uri l) = Ok (String.string_of_list_byte l).
Proof. intros Hl. unfold source_sig, sig_uri. by rewrite split_scheme_sha256. Qed.

Lemma is_hex_lower b : is_hex b → hex_lower (lower_byte b) = true.
Proof. unfold is_hex. destruct b; intros [x Hx]; try done; by vm_compute in Hx |- *. Qed.

Lemma hex_lower_lower b : hex_lower b = true → lower_byte b = b.
Proof. revert b. hex_cases. Qed.

Lemma sig_of_path l : Forall is_hex l → path (sig_of l) = sig_of l ∧ path (String.string_of_list_byte l) = sig_of l ∧
  is_sig (sig_of l) = true ∧ is_sig (String.string_of_list_byte l) = true.
Proof.
  intros Hl. unfold is_sig, path, on_str, sig_of. rewrite !str_encode_of_bytes.
  assert (Hlow : Forall (λ b, hex_lower b = true) (lower l)).
  { unfold lower. rewrite Forall_fmap. eapply Forall_impl; [exact Hl|]. apply is_hex_lower. }
  assert (E : lower (lower l) = lower l).
  { unfold lower at 1. rewrite <-(list_fmap_id (lower l)) at 2. apply list_fmap_ext. intros i b Hb.
    rewrite Forall_lookup in Hlow. by apply hex_lower_lower, (Hlow i). }
  rewrite E. split_and!; [done..| |]; rewrite ?str_encode_of_bytes; apply forallb_forall; intros b Hb;
    rewrite Forall_forall in Hlow; by apply Hlow, list_elem_of_In.
Qed.

Section ResolveSpec.
Context `{Murmur} (full_load : string → res (dict string string)).

(** What the code of the filter decides. *)
Definition connector_of (code : bytes) : res connector :=
mode ← scan_mode code;
if decide (mode = "default") then Ok Process else
'(image, command, method) ← docker_config full_load (Ok code);
if decide (method = "default") then Ok (Socat image command)
else if decide (method = "fifo") then Ok (Fifo image command)
else Raise FilterDependencyError.

Lemma on_fs_eq {A} (m : prog A) f fs r fs' : run m fs = (r, fs') → on_fs m (f, fs) = (r, (f, fs')).
Proof. intros E. unfold on_fs. cbn [fst snd]. by rewrite E. Qed.

Lemma read_file_run p fs code : executable fs p = Some code → run (read_file p) fs = (Ok code, fs).
Proof. unfold executable. intros E. cbn. destruct (files fs !! p) as [[d t]|]; [|done]. by injection E as ->. Qed.

Lemma resolve_mode_run f fs p code : code_path f = Some p → executable fs p = Some code →
∃ m, resolve_mode full_load (f, fs) = (connector_of code, (match m with Some m => set_mode m f | None => f end, fs)).
Proof.
intros Hp Hx. apply read_file_run in Hx. unfold resolve_mode, connector_of. cbn [fst]. rewrite Hp.
erewrite sm_bind_eq by by apply on_fs_eq. cbv beta. destruct (scan_mode code) as [m|e]; [|by exists None].
exists (Some m). erewrite sm_bind_eq by done. cbv beta. erewrite sm_bind_eq by done. cbn beta. cbn [mbind res_bind fst snd].
destruct (decide (m = "default")) as [->|Hm]; [done|].
erewrite sm_bind_eq by (cbv beta; by erewrite on_fs_eq by done). cbv beta.
destruct (docker_config full_load (Ok code)) as [[[image command] method]|e]; [|done].
erewrite sm_bind_eq by done. cbv beta. cbn [mbind res_bind].
destruct (decide (method = "default")); [done|]. by destruct (decide (method = "fifo")).
Qed.

(** Resolving a filter from the blob cache. *)
Lemma resolve_run tmp f fs cl bl :
code_path f = None → code_source f = sig_uri cl → blob_source f = sig_uri bl →
Forall is_hex cl → Forall is_hex bl →
other_name tmp = true → files fs !! tmp = None → (∀ s, is_sig s = true → tmp ≠ dest_path s) →
∃ r f' fs', resolve full_load tmp (f, fs) = (r, (f', fs')) ∧ extends tmp fs fs' ∧
match contents fs (sig_of cl), contents fs (sig_of bl) with
| Some code, Some blob =>
let code := default code (executable fs (dest_path (sig_of cl))) in
executable fs' (dest_path (sig_of cl)) = Some code ∧
code_path f' = Some (dest_path (sig_of cl)) ∧ signature f' = Some (sig_of cl) ∧ f_blob f' = Some blob ∧
cache_digest f' = Some (murmur (summary f (sig_of cl) (sig_of bl))) ∧
match connector_of code with
| Ok c => r = Ok tt ∧ f_connect f' = c
| Raise e => r = Raise e ∧ f_connect f' = f_connect f
end
| _, _ => r = Raise FilterDependencyError ∧ f' = f
end.
Proof.
intros Hc Hcs Hbs Hcl Hbl Ht Hn Hd.
destruct (sig_of_path cl Hcl) as (Hc1 & Hc2 & Hc3 & _), (sig_of_path bl Hbl) as (Hb1 & Hb2 & Hb3 & _).
unfold resolve. cbn [fst]. rewrite Hc. unfold resolve_code, resolve_blob. rewrite Hcs, Hbs, !source_sig_uri by done.
change (on_str lower (String.string_of_list_byte cl)) with (path (String.string_of_list_byte cl)).
change (on_str lower (String.string_of_list_byte bl)) with (path (String.string_of_list_byte bl)). rewrite Hc2, Hb2.
pose proof (executable_path_run tmp (sig_of cl) fs Hc3 Ht Hn) as Hx.
pose proof (executable_path_extends tmp (sig_of cl) fs Hc3 Hc1 Ht Hn Hd) as Hext.
destruct (contents fs (sig_of cl)) as [code|] eqn:Ec.
2: { exists (Raise FilterDependencyError), f, fs. split; [|done]. apply sm_bind_raise, on_fs_eq.
 by rewrite run_try, run_bind, Hx. }
destruct Hx as (fs1 & Hx & Hsame & Hexec & _). rewrite Hx in Hext. cbn [snd] in Hext.
erewrite sm_bind_eq by (apply on_fs_eq; rewrite run_try, run_bind, Hx; done). cbv beta iota.
pose proof (getitem_run (sig_of bl) fs1 Hb3) as Hg. rewrite (Hsame _ Hb3) in Hg.
destruct (contents fs (sig_of bl)) as [blob|] eqn:Eb.
2: { exists (Raise FilterDependencyError), f, fs1. split; [|done]. apply sm_bind_raise, on_fs_eq.
 by rewrite run_try, run_bind, Hg. }
erewrite sm_bind_eq by (apply on_fs_eq; rewrite run_try, run_bind, Hg; done). cbv beta iota.
erewrite sm_bind_eq by done. cbv beta. cbn [fst snd].
set (f1 := set_resolved _ _ _ _ f). set (fs2 := revive (sig_of bl) fs1).
assert (Hexec2 : executable fs2 (dest_path (sig_of cl)) = executable fs1 (dest_path (sig_of cl))).
{ unfold executable, fs2. destruct (other_name_path _ (sig_of bl) (dest_path_other (sig_of cl)) Hb3). by rewrite revive_other. }
rewrite Hexec in Hexec2.
destruct (resolve_mode_run f1 fs2 (dest_path (sig_of cl)) _ eq_refl Hexec2) as [m Hm].
assert (Hs2 : extends tmp fs fs2) by (etransitivity; [exact Hext|by apply quiet_extends, revive_quiet]).
destruct (connector_of _) as [c|e].
- erewrite sm_bind_eq by exact Hm. cbv beta. eexists _, _, _. split; [reflexivity|]. cbn zeta.
destruct m; split_and!; done.
- eexists _, _, _. split; [by apply sm_bind_raise|]. cbn zeta. destruct m; split_and!; done.
Qed.

(** C38.  Resolving a filter whose sources are SHA-256 URIs, from a blob cache: if
both blobs are there, the filter gets the path of an executable with the code,
the blob argument and the digest of all that identifies it, and the code
decides how it will run; if one is missing the filter is left as it was and a
[FilterDependencyError] is raised.  No blob is lost. *)
Theorem resolve_spec tmp f fs cl bl :
code_path f = None → code_source f = sig_uri cl → blob_source f = sig_uri bl →
Forall is_hex cl → Forall is_hex bl →
other_name tmp = true → files fs !! tmp = None → (∀ s, is_sig s = true → tmp ≠ dest_path s) →
∃ r f' fs', resolve full_load tmp (f, fs) = (r, (f', fs')) ∧ same_blobs fs fs' ∧
match contents fs (sig_of cl), contents fs (sig_of bl) with
| Some code, Some blob =>
let code := default code (executable fs (dest_path (sig_of cl))) in
executable fs' (dest_path (sig_of cl)) = Some code ∧
code_path f' = Some (dest_path (sig_of cl)) ∧ signature f' = Some (sig_of cl) ∧ f_blob f' = Some blob ∧
cache_digest f' = Some (murmur (summary f (sig_of cl) (sig_of bl))) ∧
match connector_of code with
| Ok c => r = Ok tt ∧ f_connect f' = c
| Raise e => r = Raise e ∧ f_connect f' = f_connect f
end
| _, _ => r = Raise FilterDependencyError ∧ f' = f
end.
Proof.
intros. destruct (resolve_run tmp f fs cl bl) as (r & f' & fs' & E & Hx & Hr); [done..|].
exists r, f', fs'. split; [exact E|]. split; [apply Hx|exact Hr].
Qed.

(** The text that the digest is taken of determines the filter's code, name,
arguments and blob, as long as none of them contains a space. *)
Lemma summary_injective f1 f2 c1 c2 b1 b2 :
(∀ x, x ∈ [c1; f_name f1] ++ arguments f1 ++ [b1] → Byte.x20 ∉ str_encode x) →
(∀ x, x ∈ [c2; f_name f2] ++ arguments f2 ++ [b2] → Byte.x20 ∉ str_encode x) →
summary f1 c1 b1 = summary f2 c2 b2 →
c1 = c2 ∧ f_name f1 = f_name f2 ∧ arguments f1 = arguments f2 ∧ b1 = b2.
Proof.
unfold summary. intros H1 H2 E%(f_equal (split Byte.x20)).
assert (Inj (=) (=) str_encode) by (intros ??; apply str_encode_inj).
rewrite !join_split in E by (done || (apply Forall_fmap, Forall_forall; auto)).
apply (inj (fmap str_encode)) in E. injection E as E1 E2 E3. by apply app_inj_2 in E3 as [E3 [= ->]].
Qed.
End ResolveSpec.

(** ** Examples *)
#[local] Instance sample_murmur : Murmur := λ d _, d.
Definition sample_load (_ : string) : res (dict string string) :=
  Ok [("docker_image", "opendiamond/base"); ("filter_command", "/fil"); ("connect_method", "fifo")].

Definition code_text : bytes := str_encode "#!/usr/bin/env python".
Definition docker_text : bytes := str_encode "diamond-docker-filter: true".
(** An ELF header. *)
Definition binary : bytes := [Byte.x7f; Byte.x45; Byte.x4c; Byte.x46; Byte.x02; Byte.xff].
Definition sig_bytes (d : bytes) : bytes := hexlify (sha256 d).
Definition sample_fs : FS :=
  MkFS (list_to_map ((λ d, (sha256_hex d, (d, 5))) <$> [code_text; docker_text; binary; []])) 10.
Definition sample_code_filter (name : string) (code : bytes) (args : list string) : Filter :=
  Filter_init name (sig_uri (sig_bytes code)) (sig_uri (sig_bytes [])) fninf finf args [].

Example sample_modes :
  scan_mode code_text = Ok "default" ∧ scan_mode docker_text = Ok "docker" ∧ scan_mode binary = Raise UnicodeDecodeError ∧
  scan_mode (replicate 100 Byte.x61 ++ docker_text) = Ok "default" ∧
  scan_mode (replicate 50 Byte.x0d ++ replicate 60 Byte.x0a ++ docker_text) = Ok "default" ∧
  connector_of sample_load docker_text = Ok (Fifo "opendiamond/base" "/fil").
Proof. by vm_compute. Qed.

Lemma sample_tmp s : is_sig s = true → "executable/tmp1" ≠ dest_path s.
Proof. intros Hs E. change "executable/tmp1" with (dest_path "tmp1") in E. by apply dest_path_inj in E as <-. Qed.
Lemma sig_bytes_hex d : Forall is_hex (sig_bytes d).
Proof. apply hexlify_is_hex. Qed.
#[local] Opaque sig_bytes.

Lemma resolve_spec_witness :
  ∃ r f' fs', resolve sample_load "executable/tmp1" (sample_code_filter "RGB" code_text ["2"], sample_fs) = (r, (f', fs')) ∧
    same_blobs sample_fs fs' ∧ r = Ok tt ∧ f_connect f' = Process ∧ f_blob f' = Some [].
Proof.
  destruct (resolve_spec sample_load "executable/tmp1" (sample_code_filter "RGB" code_text ["2"]) sample_fs
    (sig_bytes code_text) (sig_bytes []) eq_refl eq_refl eq_refl (sig_bytes_hex _) (sig_bytes_hex _)
    ltac:(by vm_compute) ltac:(by vm_compute) sample_tmp) as (r & f' & fs' & E & Hs & G).
  exists r, f', fs'. split; [exact E|]. split; [exact Hs|].
  assert (Ec : contents sample_fs (sig_of (sig_bytes code_text)) = Some code_text) by (vm_compute; reflexivity).
  assert (Eb : contents sample_fs (sig_of (sig_bytes [])) = Some []) by (vm_compute; reflexivity).
  assert (Ex : executable sample_fs (dest_path (sig_of (sig_bytes code_text))) = None) by (vm_compute; reflexivity).
  rewrite Ec, Eb, Ex in G.
  cbn [default option_rect] in G. cbv zeta in G.
  assert (Hc : connector_of sample_load code_text = Ok Process) by (vm_compute; reflexivity).
  rewrite Hc in G. destruct G as (_ & _ & _ & Hb & _ & -> & Hf). split; [reflexivity|split; [exact Hf|exact Hb]].
Defined.

(** The code of a filter that is not text: the first attempt to resolve it fails
    after the filter's path and digest have been set, the second one succeeds and
    leaves it without a way to start. *)
Example binary_half_resolved :
  let s := resolve sample_load "executable/tmp1" (sample_code_filter "bin" binary [], sample_fs) in
  s.1 = Raise UnicodeDecodeError ∧ is_Some (code_path s.2.1) ∧
  let s' := resolve sample_load "executable/tmp1" s.2 in s'.1 = Ok tt ∧ f_connect s'.2.1 = Unresolved.
Proof. vm_compute. split_and!; by try eexists. Qed.

(** Arguments with spaces: different filters, one digest. *)
Example summary_collision :
  summary (sample_code_filter "RGB" code_text ["a b"]) "c" "d" = summary (sample_code_filter "RGB" code_text ["a"; "b"]) "c" "d".
Proof. by vm_compute. Qed.
