(* ===== verification/Resource.v ===== *)
(** Resource contexts (src/opendiamond/server/resource.py): the catalog of
    containers that the filters of a search share, their creation on demand and
    their removal.  The Docker daemon is the environment. *)
From S2P Require Import Prelude PyBytes PyText Dict Hex Helpers FilterStack FilterProto FilterRunner.
Local Open Scope Z_scope.

(** ** [shlex.split] (POSIX mode, no comments) *)
Inductive lexer := Between | InWord | InQuote (q : byte) | Escaped (back : option byte).

Definition sh_space (b : byte) : bool := bool_decide (b ∈ [Byte.x20; Byte.x09; Byte.x0d; Byte.x0a]).
Definition sh_quote (b : byte) : bool := bool_decide (b = Byte.x22 ∨ b = Byte.x27).
Definition sh_escape (b : byte) : bool := bool_decide (b = Byte.x5c).

(** [tok] is the token so far, reversed; [quoted]: it has a quoted part. *)
Fixpoint sh_lex (st : lexer) (tok : bytes) (quoted : bool) (l : bytes) : res (list bytes) :=
  match l with
  | [] =>
    match st with
    | InQuote _ | Escaped _ => Raise ValueError
    | _ => Ok (if bool_decide (tok = []) && negb quoted then [] else [reverse tok])
    end
  | b :: l =>
    match st with
    | Between | InWord =>
      if sh_space b then
        if bool_decide (tok = []) && negb quoted then sh_lex Between [] false l
        else ts ← sh_lex Between [] false l; Ok (reverse tok :: ts)
      else if sh_escape b then sh_lex (Escaped None) tok quoted l
      else if sh_quote b then sh_lex (InQuote b) tok true l
      else sh_lex InWord (b :: tok) quoted l
    | InQuote q =>
      if decide (b = q) then sh_lex InWord tok true l
      else if sh_escape b && bool_decide (q = Byte.x22) then sh_lex (Escaped (Some q)) tok true l
      else sh_lex (InQuote q) (b :: tok) true l
    | Escaped None => sh_lex InWord (b :: tok) quoted l
    | Escaped (Some q) =>
      (* within quotes a backslash stays, but for itself and the quote *)
      let tok := if sh_escape b || bool_decide (b = q) then tok else Byte.x5c :: tok in
      sh_lex (InQuote q) (b :: tok) quoted l
    end
  end.
Definition shlex_split (s : string) : res (list string) :=
  ts ← sh_lex Between [] false (str_encode s);
  Ok (map String.string_of_list_byte ts).

Definition dquote : string := String.string_of_list_byte [Byte.x22].

Example shlex_examples :
  shlex_split ("socat TCP4-LISTEN:5555,fork EXEC:" +:+ dquote +:+ "/f --filter" +:+ dquote) =
    Ok ["socat"; "TCP4-LISTEN:5555,fork"; "EXEC:/f --filter"] ∧
  shlex_split ("a 'b c'\ d " +:+ dquote +:+ dquote +:+ " x") = Ok ["a"; "b c d"; ""; "x"] ∧
  shlex_split "it's" = Raise ValueError.
Proof. by vm_compute. Qed.

(** ** The Docker daemon *)
Record container := Container { c_name : string; c_network_mode : string; c_ip : string }.

Class Docker (W : Type) := {
  uuid4 : W → string * W;
  from_env : sm W unit;
  pull : string → sm W unit;
  run_container : string → list string → string → dict string string → sm W container;
  reload : container → sm W container;
  get_container : string → sm W container;
  remove_container : container → sm W unit;
  (* [subprocess.check_call], with the value of NV_GPU *)
  check_call : list string → string → sm W unit
}.

Definition is_APIError (e : exn) : bool := bool_decide (e = DockerAPIError ∨ e = DockerNotFound).
Definition is_NotFound (e : exn) : bool := bool_decide (e = DockerNotFound).

Abbreviation handle := (dict string string).

Section Resources.
Context {W : Type} `{Docker W} `{Murmur}.
(** How often the code asks for an address, or for a container that was just
created; it asks forever. *)
Context (patience : nat).
(** [config.nv_gpu] *)
Context (nv_gpu : string).

(** The context's state.  [c_shared]: the catalog is a proxy ([Manager().dict()]),
whose values are copies. *)
Record ctx := Ctx { catalog : dict string handle; c_shared : bool; c_world : W }.
Definition set_catalog (x : dict string handle) (c : ctx) : ctx := Ctx x (c_shared c) (c_world c).
Definition set_world (x : W) (c : ctx) : ctx := Ctx (catalog c) (c_shared c) x.
Definition on_world {A} (m : sm W A) : sm ctx A := zoom c_world set_world m.

(** [ResourceContext.__init__] *)
Definition ResourceContext_init (shared : bool) (w : W) : ctx := Ctx [] shared w.

(** [get_signature] *)
Definition get_signature (rtype : string) (args : list string) (kargs : dict string string) : string :=
murmur (str_encode rtype ++ concat (str_encode <$> args) ++ concat (str_encode <$> kargs.*1) ++ concat (str_encode <$> kargs.*2)).

(** Guard against "pull all tags". *)
Definition image_tag (image : string) : bytes :=
let i := str_strip (str_encode image) in
if bool_decide (Byte.x3a ∈ i) then i else i ++ str_encode ":latest".

Fixpoint wait_ip (n : nat) (c : container) : sm ctx container :=
if decide (c_ip c ≠ "") then mret c else
match n with O => fail RuntimeError | S n => c ← on_world (reload c); wait_ip n c end.
Fixpoint wait_container (n : nat) (name : string) : sm ctx container :=
match n with
| O => fail RuntimeError
| S n => try_with (on_world (get_container name)) is_NotFound (λ _, wait_container n name)
end.

(** The pull that both kinds of resource start with. *)
Definition pull_image (image : string) : sm ctx unit :=
try_with (on_world from_env ≫= λ _, on_world (pull image)) is_APIError (λ _, fail ResourceCreationError).

(** [_Docker.create]: a generator; [yield] is what its consumer does with a
handle.  Between the two handles it starts the container. *)
Definition Docker_start (image command : string) (kargs : dict string string) (name : string) : sm ctx container :=
pull_image image ≫= λ _,
words ← lift (shlex_split command);
c ← try_with (on_world (run_container image words name kargs)) is_APIError (λ _, fail ResourceCreationError);
if decide (c_network_mode c = "default") then
try_with (wait_ip patience c) is_APIError
(λ _, on_world (remove_container c) ≫= λ _, fail ResourceCreationError)
else mret c.

(** [str(uuid.uuid4())] *)
Definition new_uuid : sm ctx string := on_world (λ w, let '(u, w) := uuid4 w in (Ok u, w)).

Definition Docker_create (image command : string) (kargs : dict string string) (yield : handle → sm ctx unit) : sm ctx unit :=
u ← new_uuid;
yield [("name", "diamond-resource-" +:+ u)] ≫= λ _,
c ← Docker_start (String.string_of_list_byte (image_tag image)) command kargs ("diamond-resource-" +:+ u);
yield [("name", c_name c); ("IPAddress", c_ip c)].

(** [_NvidiaDocker.create]; the removal after a failure is a best effort. *)
Definition NvidiaDocker_start (image command name : string) : sm ctx container :=
pull_image image ≫= λ _,
words ← lift (shlex_split command);
try_with (on_world (check_call (["nvidia-docker"; "run"; "--detach"; "--name"; name] ++ image :: words) nv_gpu))
(λ e, bool_decide (e = CalledProcessError ∨ e = OSError))
(λ _, try_with (c ← on_world (get_container name); on_world (remove_container c)) (λ _, true) (λ _, mret tt) ≫= λ _,
fail ResourceCreationError) ≫= λ _,
c ← wait_container patience name;
wait_ip patience c.

Definition NvidiaDocker_create (image command : string) (yield : handle → sm ctx unit) : sm ctx unit :=
u ← new_uuid;
yield [("name", "diamond-resource-nvidia-" +:+ u)] ≫= λ _,
c ← NvidiaDocker_start (String.string_of_list_byte (image_tag image)) command ("diamond-resource-nvidia-" +:+ u);
yield [("name", c_name c); ("IPAddress", c_ip c)].

(** [_ResourceFactory.create]: the type goes into the handle.  A [KeyError] of the
lookup or of the creation is an unknown type. *)
Definition factory_create (rtype : string) (args : list string) (kargs : dict string string) (yield : handle → sm ctx unit) : sm ctx unit :=
let yield h := yield (dict_set h "_rtype" rtype) in
try_with
(if decide (rtype = "docker") then
 match args with [image; command] => Docker_create image command kargs yield | _ => fail TypeError end
 else if decide (rtype = "nvidia-docker") then
 match args, kargs with [image; command], [] => NvidiaDocker_create image command yield | _, _ => fail TypeError end
 else fail KeyError)
(λ e, bool_decide (e = KeyError)) (λ _, fail ResourceTypeError).

(** [ensure_resource], which holds the context's lock throughout. *)
Definition context_ensure (rtype : string) (args : list string) (kargs : dict string string) : sm ctx handle := λ c,
let sig := get_signature rtype args kargs in
let create : sm ctx unit :=
if dict_mem (catalog c) sig then mret tt
else factory_create rtype args kargs (λ h, modify (λ c, set_catalog (dict_set (catalog c) sig h) c)) in
let result : sm ctx handle := λ c, (of_option KeyError (dict_get (catalog c) sig), c) in
(create ≫= λ _, result) c.

(** [_Docker.cleanup].  The handler of other [APIError]s logs [container.name]: when
[from_env] or [get] raised one, the name [container] is not bound. *)
Definition Docker_cleanup (h : handle) : sm ctx unit :=
try_with
(c ← try_with
(on_world from_env ≫= λ _,
 name ← lift (of_option KeyError (dict_get h "name"));
 on_world (get_container name))
(λ e, is_APIError e && negb (is_NotFound e)) (λ _, fail NameError);
 on_world (remove_container c))
is_APIError (λ _, mret tt).

(** [_ResourceFactory.cleanup]: the handle's type is popped. *)
Definition factory_cleanup (sig : string) (h : handle) : sm ctx unit :=
rtype ← lift (of_option KeyError (dict_get h "_rtype"));
modify (λ c, if c_shared c then c else set_catalog (dict_set (catalog c) sig (dict_del h "_rtype")) c) ≫= λ _,
if bool_decide (rtype ∈ ["docker"; "nvidia-docker"]) then Docker_cleanup h else fail KeyError.

Fixpoint cleanup_all (items : list (string * handle)) : sm ctx unit :=
match items with [] => mret tt | (sig, h) :: items => factory_cleanup sig h ≫= λ _, cleanup_all items end.

(** [cleanup] *)
Definition cleanup : sm ctx unit := items ← gets catalog; cleanup_all items ≫= λ _, modify (set_catalog []).

(** What the filters ask for. *)
#[global] Instance context_resources : Resources ctx := λ rtype args, context_ensure rtype args [].
End Resources.

(** ** Laws of the daemon *)
Class DockerLaws (W : Type) `{Docker W} := {
  running : W → gset string;
  uuid4_running w : running (uuid4 w).2 = running w;
  from_env_running w : running (from_env w).2 = running w;
  pull_running i w : running (pull i w).2 = running w;
  run_running i ws n k w : running (run_container i ws n k w).2 ⊆ {[n]} ∪ running w;
  run_name i ws n k w c : (run_container i ws n k w).1 = Ok c → c_name c = n;
  reload_running c w : running (reload c w).2 = running w;
  reload_name c w c' : (reload c w).1 = Ok c' → c_name c' = c_name c;
  get_running n w : running (get_container n w).2 = running w;
  get_name n w c : (get_container n w).1 = Ok c → c_name c = n;
  get_missing n w : (get_container n w).1 = Raise DockerNotFound → n ∉ running w;
  remove_running c w : running (remove_container c w).2 ⊆ running w;
  remove_Ok c w : (remove_container c w).1 = Ok tt → c_name c ∉ running (remove_container c w).2;
  remove_missing c w : (remove_container c w).1 = Raise DockerNotFound → c_name c ∉ running (remove_container c w).2;
  (* the container's name is the one given to --name *)
  check_call_running n ws gpu w :
    running (check_call (["nvidia-docker"; "run"; "--detach"; "--name"; n] ++ ws) gpu w).2 ⊆ {[n]} ∪ running w
}.

Section Laws.
Context {W : Type} `{DockerLaws W} `{Murmur} (patience : nat) (nv_gpu : string).
Abbreviation ctx := (ctx (W := W)).

(** [m] keeps [P], and its result satisfies [Q]. *)
Definition keeps {A} (P : ctx → Prop) (m : sm ctx A) (Q : A → Prop) : Prop :=
∀ s, P s → P (m s).2 ∧ ∀ a, (m s).1 = Ok a → Q a.

Lemma keeps_ret {A} P (a : A) (Q : A → Prop) : Q a → keeps P (mret a) Q.
Proof. intros Hq s Hs. split; [done|]. by intros ? [= <-]. Qed.
Lemma keeps_fail {A} P e (Q : A → Prop) : keeps P (fail e) Q.
Proof. intros s Hs. split; [done|]. by intros ? [=]. Qed.
Lemma keeps_lift {A} P (r : res A) : keeps P (lift r) (λ _, True).
Proof. intros s Hs. split; [done|]. done. Qed.
Lemma keeps_bind {A B} P (m : sm ctx A) (f : A → sm ctx B) Q R :
keeps P m Q → (∀ a, Q a → keeps P (f a) R) → keeps P (m ≫= f) R.
Proof.
intros Hm Hf s Hs. specialize (Hm s Hs). unfold mbind, sm_bind. destruct (m s) as [[a|e] s']; cbn in Hm.
- destruct Hm as [Hp Hq]. by apply Hf; [apply Hq|].
- split; [by destruct Hm|by intros ? [=]].
Qed.
Lemma keeps_try {A} P (m : sm ctx A) p h Q : keeps P m Q → (∀ e, keeps P (h e) Q) → keeps P (try_with m p h) Q.
Proof.
intros Hm Hh s Hs. specialize (Hm s Hs). unfold try_with. destruct (m s) as [[a|e] s']; cbn in Hm; [done|].
destruct Hm as [Hp _]. destruct (p e); [by apply Hh|]. split; [done|by intros ? [=]].
Qed.

(** The containers that run are those from before and [X]. *)
Definition bounded (cat : dict string handle) (X : gset string) (c : ctx) : Prop :=
catalog c = cat ∧ running (c_world c) ⊆ X.

Lemma keeps_world {A} cat X (m : sm W A) Q :
(∀ w, running w ⊆ X → running (m w).2 ⊆ X ∧ ∀ a, (m w).1 = Ok a → Q a) → keeps (bounded cat X) (on_world m) Q.
Proof.
intros Hm [cat' sh w] [Hc Hr]. cbn in *. specialize (Hm w Hr). unfold on_world, zoom. cbn.
destruct (m w) as [r w']. cbn in *. destruct Hm. by split.
Qed.

Lemma keeps_quiet {A} cat X (m : sm W A) : (∀ w, running (m w).2 = running w) → keeps (bounded cat X) (on_world m) (λ _, True).
Proof. intros Hm. apply keeps_world. intros w Hw. by rewrite Hm. Qed.

#[local] Hint Resolve keeps_ret keeps_fail keeps_lift I : keeps.
#[local] Hint Resolve from_env_running pull_running reload_running get_running : keeps.

Lemma keeps_wait_ip cat X n k c : c_name c = n → keeps (bounded cat X) (wait_ip k c) (λ c, c_name c = n).
Proof.
revert c. induction k as [|k IH]; intros c Hc; cbn [wait_ip]; case_decide; auto with keeps.
apply (keeps_bind _ _ _ (λ c, c_name c = n)); [|intros c' Hc'; by apply IH].
apply keeps_world. intros w Hw. rewrite reload_running. split; [done|].
intros c' ->%reload_name. done.
Qed.

Lemma keeps_wait_container cat X n k : keeps (bounded cat X) (wait_container k n) (λ c, c_name c = n).
Proof.
induction k as [|k IH]; cbn [wait_container]; [apply keeps_fail|].
apply keeps_try; [|done]. apply keeps_world. intros w Hw. rewrite get_running. split; [done|]. by intros c ?%get_name.
Qed.

Lemma keeps_remove cat X c : keeps (bounded cat X) (on_world (remove_container c)) (λ _, True).
Proof. apply keeps_world. intros w Hw. pose proof (remove_running c w). set_solver. Qed.

Lemma keeps_pull cat X image : keeps (bounded cat X) (pull_image image) (λ _, True).
Proof.
apply keeps_try; [|auto with keeps]. eapply keeps_bind; [apply keeps_quiet; auto with keeps|intros _ _].
apply keeps_quiet. auto with keeps.
Qed.
#[local] Hint Resolve keeps_wait_ip keeps_wait_container keeps_remove keeps_pull : keeps.

(** The two creations: between the handles that they yield, only the container
whose name the first one has is started. *)
Definition handles (n : string) (h : handle) : Prop := dict_get h "name" = Some n.

(** A consumer that stores what it gets, under a signature that is not yet in the
catalog. *)
Section Create.
Context (sig rtype : string) (cat : dict string handle) (R : gset string).
Definition store (h : handle) : sm ctx unit :=
modify (λ c, set_catalog (dict_set (catalog c) sig (dict_set h "_rtype" rtype)) c).

(** [cat], and a handle for a container that may run. *)
Definition creating (c : ctx) : Prop :=
∃ h n, handles n h ∧ dict_get h "_rtype" = Some rtype ∧ catalog c = cat ++ [(sig, h)] ∧ running (c_world c) ⊆ {[n]} ∪ R.

Context (Hsig : sig ∉ dict_keys cat).

Lemma store_creating n h c : handles n h → catalog c = cat ∨ (∃ h', catalog c = cat ++ [(sig, h')]) →
running (c_world c) ⊆ {[n]} ∪ R → ∃ c', store h c = (Ok tt, c') ∧ creating c' ∧
bounded (cat ++ [(sig, dict_set h "_rtype" rtype)]) ({[n]} ∪ R) c'.
Proof.
intros Hn Hc Hr. assert (E : catalog (store h c).2 = cat ++ [(sig, dict_set h "_rtype" rtype)]).
{ cbn. destruct Hc as [->|[h' ->]].
- by apply dict_set_fresh.
- by apply dict_set_app. }
eexists. split; [reflexivity|]. split; [|by split]. exists (dict_set h "_rtype" rtype), n. unfold handles.
by rewrite dict_get_set_ne, dict_get_set_eq by done.
Qed.

Lemma create_creating prefix (rest : string → sm ctx container) c :
(∀ cat' n, keeps (bounded cat' ({[n]} ∪ R)) (rest n) (λ c, c_name c = n)) →
catalog c = cat → running (c_world c) ⊆ R →
creating ((u ← new_uuid;
store [("name", prefix +:+ u)] ≫= λ _,
c ← rest (prefix +:+ u);
store [("name", c_name c); ("IPAddress", c_ip c)]) c).2.
Proof.
intros Hrest Hcat Hrun. pose proof (uuid4_running (c_world c)) as Hu.
destruct (uuid4 (c_world c)) as [u w'] eqn:Eu. cbn [snd] in Hu.
assert (E1 : new_uuid c = (Ok u, set_world w' c)).
{ unfold new_uuid, on_world, zoom. by rewrite Eu. }
rewrite (sm_bind_eq _ _ _ _ _ E1). set (n := prefix +:+ u).
destruct (store_creating n [("name", n)] (set_world w' c)) as (c2 & E2 & Hc2 & Hb2);
[done|by left|cbn [set_world c_world]; rewrite Hu; set_solver|].
rewrite (sm_bind_eq _ _ _ _ _ E2). destruct (Hrest _ n c2 Hb2) as [Hb3 Hname].
destruct (rest n c2) as [[k|e] c3] eqn:E3; cbn [fst snd] in *.
- rewrite (sm_bind_eq _ _ _ _ _ E3). destruct Hb3 as [Hcat3 Hr3].
destruct (store_creating n [("name", c_name k); ("IPAddress", c_ip k)] c3) as (c4 & -> & Hc4 & _);
[by rewrite (Hname k eq_refl)|right; by eexists|done|done].
- rewrite (sm_bind_raise _ _ _ _ _ E3). destruct Hb3 as [Hcat3 Hr3].
exists (dict_set [("name", n)] "_rtype" rtype), n. unfold handles. by split_and!.
Qed.

Lemma keeps_Docker_start cat' n image command kargs :
keeps (bounded cat' ({[n]} ∪ R)) (Docker_start patience image command kargs n) (λ c, c_name c = n).
Proof.
unfold Docker_start. eapply keeps_bind; [apply keeps_pull|intros _ _].
eapply keeps_bind; [apply keeps_lift|intros words _].
apply (keeps_bind _ _ _ (λ c, c_name c = n)); [|intros k Hk].
- apply keeps_try; [|auto with keeps]. apply keeps_world. intros w Hw.
pose proof (run_running image words n kargs w). split; [set_solver|]. intros k. apply run_name.
- case_decide; [|auto with keeps]. apply keeps_try; [by apply keeps_wait_ip|]. intros e.
eapply keeps_bind; [apply keeps_remove|intros _ _]. apply keeps_fail.
Qed.

Lemma keeps_NvidiaDocker_start cat' n image command :
keeps (bounded cat' ({[n]} ∪ R)) (NvidiaDocker_start patience nv_gpu image command n) (λ c, c_name c = n).
Proof.
unfold NvidiaDocker_start. eapply keeps_bind; [apply keeps_pull|intros _ _].
eapply keeps_bind; [apply keeps_lift|intros words _].
apply (keeps_bind _ _ _ (λ _, True)); [|intros _ _].
- apply keeps_try.
+ apply keeps_world. intros w Hw. pose proof (check_call_running n (image :: words) nv_gpu w). split; [set_solver|done].
+ intros e. apply (keeps_bind _ _ _ (λ _, True)); [|intros _ _; apply keeps_fail]. apply keeps_try; [|auto with keeps].
eapply keeps_bind; [apply keeps_quiet; auto with keeps|intros k _]. apply keeps_remove.
- eapply keeps_bind; [apply keeps_wait_container|]. cbv beta. intros k Hk. by apply keeps_wait_ip.
Qed.

Lemma try_fail_state {A} (m : sm ctx A) p e c : (try_with m p (λ _, fail e) c).2 = (m c).2.
Proof. unfold try_with. destruct (m c) as [[a|e'] c']; [done|]. by destruct (p e'). Qed.

Lemma factory_creating args kargs c : catalog c = cat → running (c_world c) ⊆ R →
let c' := (factory_create patience nv_gpu rtype args kargs (λ h, modify (λ c, set_catalog (dict_set (catalog c) sig h) c)) c).2 in
c' = c ∨ creating c' ∧ rtype ∈ ["docker"; "nvidia-docker"].
Proof.
intros Hcat Hrun. cbn zeta. unfold factory_create. cbv zeta.
change (λ h, modify (λ c, set_catalog (dict_set (catalog c) sig (dict_set h "_rtype" rtype)) c)) with store.
rewrite try_fail_state. destruct (decide (rtype = "docker")) as [Hr|_]; [|destruct (decide (rtype = "nvidia-docker")) as [Hr|_]; [|by left]].
- destruct args as [|image [|command [|]]]; try by left. right. split; [|set_solver].
apply (create_creating "diamond-resource-" (Docker_start patience (String.string_of_list_byte (image_tag image)) command kargs)); [|done..].
intros. apply keeps_Docker_start.
- destruct args as [|image [|command [|]]]; try by left. destruct kargs; [|by left]. right. split; [|set_solver].
apply (create_creating "diamond-resource-nvidia-" (NvidiaDocker_start patience nv_gpu (String.string_of_list_byte (image_tag image)) command)); [|done..].
intros. apply keeps_NvidiaDocker_start.
Qed.
End Create.

(** ** The catalog knows every container *)
Definition named (cat : dict string handle) : gset string := list_to_set (omap (λ p, dict_get p.2 "name") cat).

Definition handle_ok (h : handle) : Prop :=
is_Some (dict_get h "name") ∧ ∃ rtype, dict_get h "_rtype" = Some rtype ∧ rtype ∈ ["docker"; "nvidia-docker"].

Definition ctx_inv (R0 : gset string) (c : ctx) : Prop :=
Forall (λ p, handle_ok p.2) (catalog c) ∧ running (c_world c) ⊆ R0 ∪ named (catalog c).

Lemma named_snoc cat sig h n : handles n h → named (cat ++ [(sig, h)]) = named cat ∪ {[n]}.
Proof.
intros Hn. unfold named. rewrite omap_app, list_to_set_app_L. csimpl. unfold handles in Hn. rewrite Hn.
cbn. by rewrite (right_id_L ∅ (∪)).
Qed.

Lemma ensure_inv R0 rtype args kargs c : ctx_inv R0 c → ctx_inv R0 (context_ensure patience nv_gpu rtype args kargs c).2.
Proof.
intros [Hok Hr]. unfold context_ensure. set (sig := get_signature rtype args kargs). cbv zeta.
destruct (dict_mem (catalog c) sig) eqn:Em; [by unfold mbind, sm_bind|].
assert (Hsig : sig ∉ dict_keys (catalog c)) by (rewrite <-dict_mem_spec; by rewrite Em).
pose proof (factory_creating sig rtype (catalog c) _ Hsig args kargs c eq_refl Hr) as Hc. cbv zeta in Hc.
assert (G : ctx_inv R0 (factory_create patience nv_gpu rtype args kargs (λ h, modify (λ c, set_catalog (dict_set (catalog c) sig h) c)) c).2).
{ destruct Hc as [->|[(h & n & Hn & Ht & Hcat & Hrun) Hin]]; [done|]. split.
- rewrite Hcat. apply Forall_app. split; [done|]. repeat constructor; [by eexists|]. by exists rtype.
- rewrite Hcat, (named_snoc _ _ _ n) by done. set_solver. }
unfold mbind, sm_bind. by destruct (factory_create _ _ _ _ _ _ c) as [[[]|e] c'].
Qed.

(** *** What the daemon says to a removal

[refuses n w]: asked to remove [n] in state [w], it answers with an [APIError] that
does not mean that the container is gone; the code logs it and goes on. *)
Definition refuses (n : string) (w : W) : Prop :=
(from_env w).1 = Raise DockerNotFound ∨
∃ w1 k w2, from_env w = (Ok tt, w1) ∧ get_container n w1 = (Ok k, w2) ∧ (remove_container k w2).1 = Raise DockerAPIError.
(** [breaks n w e]: the removal ends with [e]. *)
Definition unbound (e : exn) : exn := if decide (e = DockerAPIError) then NameError else e.
Definition breaks (n : string) (w : W) (e : exn) : Prop :=
(∃ e', (from_env w).1 = Raise e' ∧ e' ≠ DockerNotFound ∧ e = unbound e') ∨
(∃ w1 e', from_env w = (Ok tt, w1) ∧ (get_container n w1).1 = Raise e' ∧ e' ≠ DockerNotFound ∧ e = unbound e') ∨
(∃ w1 k w2, from_env w = (Ok tt, w1) ∧ get_container n w1 = (Ok k, w2) ∧ (remove_container k w2).1 = Raise e ∧ is_APIError e = false).

Lemma catch_API e : is_APIError e && negb (is_NotFound e) = bool_decide (e = DockerAPIError).
Proof. unfold is_APIError, is_NotFound. repeat case_bool_decide; naive_solver. Qed.
Lemma unbound_caught e : e ≠ DockerNotFound → is_APIError (unbound e) = false.
Proof. intros He. unfold unbound, is_APIError. case_decide; apply bool_decide_eq_false; naive_solver. Qed.

Lemma Docker_cleanup_cases n h c : handles n h → ∃ r w', Docker_cleanup h c = (r, set_world w' c) ∧
running w' ⊆ running (c_world c) ∧
match r with
| Ok _ => n ∉ running w' ∨ refuses n (c_world c)
| Raise e => breaks n (c_world c) e
end.
Proof.
intros Hn. unfold Docker_cleanup, refuses, breaks. unfold handles in Hn.
set (getting := on_world from_env ≫= λ _, _). set (w := c_world c).
assert (Hget : ∃ r w1, getting c = (r, set_world w1 c) ∧ running w1 = running w ∧
match r with
| Ok k => c_name k = n ∧ ∃ w0, from_env w = (Ok tt, w0) ∧ get_container n w0 = (Ok k, w1)
| Raise e => (from_env w).1 = Raise e ∨ ∃ w0, from_env w = (Ok tt, w0) ∧ (get_container n w0).1 = Raise e ∧ (e = DockerNotFound → n ∉ running w1)
end).
{ unfold getting, mbind, sm_bind, on_world, zoom, lift. rewrite Hn.
pose proof (from_env_running w) as Hfr. fold w. destruct (from_env w) as [[[]|e] w0]; cbn in Hfr; cbn [of_option set_world c_world].
- pose proof (get_running n w0) as Hgr. pose proof (get_name n w0) as Hgn. pose proof (get_missing n w0) as Hgm.
destruct (get_container n w0) as [[k|e] w1] eqn:Eg; cbn in Hgr, Hgn, Hgm; (eexists _, w1; split; [reflexivity|]; split; [congruence|]).
+ split; [by apply Hgn|]. by exists w0.
+ right. exists w0. split_and!; [done|by rewrite Eg|]. intros ->. rewrite Hgr. by apply Hgm.
- eexists _, w0. split; [reflexivity|]. split; [done|]. by left. }
destruct Hget as (r & w1 & E & Hr1 & Hcase). unfold mbind, sm_bind. unfold try_with at 1 2. rewrite E.
destruct r as [k|e].
- destruct Hcase as (Hk & w0 & E0 & E1). unfold on_world, zoom. cbn [set_world c_world].
pose proof (remove_running k w1) as Hrr. pose proof (remove_Ok k w1) as Hro. pose proof (remove_missing k w1) as Hrm.
destruct (remove_container k w1) as [[[]|e] w2] eqn:E2; cbn in Hrr, Hro, Hrm.
+ eexists _, w2. split; [reflexivity|]. split; [set_solver|]. left. rewrite <-Hk. by apply Hro.
+ destruct (is_APIError e) eqn:Ea; (eexists _, w2; split; [reflexivity|]; split; [set_solver|]).
* destruct (decide (e = DockerNotFound)) as [->|Hne]; [left; rewrite <-Hk; by apply Hrm|]. right. right. exists w0, k, w1.
split_and!; [done|done|]. rewrite E2. cbn. apply bool_decide_eq_true in Ea. f_equal. tauto.
* right; right. exists w0, k, w1. by rewrite E2.
- rewrite catch_API. case_bool_decide as Ha.
+ subst e. unfold fail. cbn. eexists _, w1. split; [reflexivity|]. split; [set_solver|].
destruct Hcase as [?|(w0 & ? & ? & _)]; [left; by exists DockerAPIError|right; left; by exists w0, DockerAPIError].
+ destruct (is_APIError e) eqn:Ea.
* assert (e = DockerNotFound) as -> by (apply bool_decide_eq_true in Ea; tauto). eexists _, w1. split; [reflexivity|].
split; [set_solver|]. destruct Hcase as [?|(w0 & ? & ? & Hgone)]; [by right; left|left; by apply Hgone].
* assert (e ≠ DockerNotFound) as Hne by (intros ->; discriminate Ea). eexists _, w1. split; [reflexivity|]. split; [set_solver|].
assert (e = unbound e) as Hu by (unfold unbound; by rewrite decide_False).
destruct Hcase as [?|(w0 & ? & ? & _)]; [left; by exists e|right; left; by exists w0, e].
Qed.

(** A handle's container is left behind: the cleanup came to it, and the daemon
refused. *)
Definition left_behind (items : list (string * handle)) (c : ctx) (n : string) : Prop :=
∃ i sig h ci, items !! i = Some (sig, h) ∧ handles n h ∧ cleanup_all (take i items) c = (Ok tt, ci) ∧ refuses n (c_world ci).

Lemma factory_cleanup_cases sig n h rtype c : handles n h → dict_get h "_rtype" = Some rtype → rtype ∈ ["docker"; "nvidia-docker"] →
sig ∈ dict_keys (catalog c) →
∃ r c', factory_cleanup sig h c = (r, c') ∧ running (c_world c') ⊆ running (c_world c) ∧ dict_keys (catalog c') = dict_keys (catalog c) ∧
match r with
| Ok _ => n ∉ running (c_world c') ∨ refuses n (c_world c)
| Raise e => breaks n (c_world c) e
end.
Proof.
intros Hn Ht Hin Hsig. unfold factory_cleanup. rewrite Ht. erewrite sm_bind_eq by done. cbv beta. erewrite sm_bind_eq by done. cbv beta.
rewrite bool_decide_true by done.
set (c0 := if c_shared c then c else set_catalog (dict_set (catalog c) sig (dict_del h "_rtype")) c).
assert (Hc0 : c_world c0 = c_world c ∧ dict_keys (catalog c0) = dict_keys (catalog c)).
{ unfold c0. destruct (c_shared c); [done|]. split; [done|]. cbn [set_catalog catalog]. rewrite dict_keys_set. by rewrite decide_True. }
destruct Hc0 as [Hw Hk]. destruct (Docker_cleanup_cases n h c0 Hn) as (r & w' & E & Hr & Hcase). exists r, (set_world w' c0).
rewrite Hw in *. by split_and!.
Qed.

Lemma left_behind_cons sig h items c c1 n : factory_cleanup sig h c = (Ok tt, c1) → left_behind items c1 n → left_behind ((sig, h) :: items) c n.
Proof.
intros E (i & sig' & h' & ci & Hi & Hh & Et & Hr). exists (S i), sig', h', ci. split_and!; [done|done| |done].
cbn [take cleanup_all]. by rewrite (sm_bind_eq _ _ _ _ _ E).
Qed.

Lemma named_cons sig h n items : handles n h → named ((sig, h) :: items) = {[n]} ∪ named items.
Proof. intros Hn. unfold named, handles in *. csimpl. by rewrite Hn. Qed.

Lemma cleanup_all_cases items c : Forall (λ p, handle_ok p.2) items → Forall (λ p, p.1 ∈ dict_keys (catalog c)) items →
∃ r c', cleanup_all items c = (r, c') ∧ running (c_world c') ⊆ running (c_world c) ∧ dict_keys (catalog c') = dict_keys (catalog c) ∧
match r with
| Ok _ => ∀ n, n ∈ running (c_world c') → n ∈ named items → left_behind items c n
| Raise e => ∃ i sig h ci n0, items !! i = Some (sig, h) ∧ handles n0 h ∧ cleanup_all (take i items) c = (Ok tt, ci) ∧ breaks n0 (c_world ci) e ∧
∀ n, n ∈ running (c_world c') → n ∈ named (take i items) → left_behind items c n
end.
Proof.
intros Hok. revert c. induction Hok as [|[sig h] items [[n0 Hn] (rtype & Ht & Hin)] Hok IH]; intros c Hk.
{ eexists _, c. split; [reflexivity|]. split_and!; [done|done|]. intros n _ Hn. unfold named in Hn. set_solver. }
apply Forall_cons in Hk as [Hsig Hk]. cbn [snd fst] in *. cbn [cleanup_all].
destruct (factory_cleanup_cases sig n0 h rtype c Hn Ht Hin Hsig) as ([[]|e] & c1 & E & Hr1 & Hk1 & Hcase).
2:{ rewrite (sm_bind_raise _ _ _ _ _ E). exists (Raise e), c1. split_and!; [done..|]. exists 0%nat, sig, h, c, n0. split_and!; [done..|].
intros n _ Hnn. unfold named in Hnn. set_solver. }
rewrite (sm_bind_eq _ _ _ _ _ E).
assert (Hhead : ∀ c', running (c_world c') ⊆ running (c_world c1) → n0 ∈ running (c_world c') → left_behind ((sig, h) :: items) c n0).
{ intros c' Hsub Hrun. destruct Hcase as [Hgone|Href]; [set_solver|]. by exists 0%nat, sig, h, c. }
destruct (IH c1) as (r & c2 & E2 & Hr2 & Hk2 & Hcase2); [by rewrite Hk1|]. exists r, c2. split_and!; [done|set_solver|congruence|].
destruct r as [u|e].
- intros n Hrun. rewrite (named_cons _ _ n0) by done. intros [->%elem_of_singleton|Hnn]%elem_of_union; [by eapply Hhead|].
eapply left_behind_cons; [done|by apply Hcase2].
- destruct Hcase2 as (i & sig' & h' & ci & n1 & Hi & Hh' & Et & Hb & Hrest). exists (S i), sig', h', ci, n1. split_and!; [done|done| |done|].
+ cbn [take cleanup_all]. by rewrite (sm_bind_eq _ _ _ _ _ E).
+ intros n Hrun. cbn [take]. rewrite (named_cons _ _ n0) by done. intros [->%elem_of_singleton|Hnn]%elem_of_union; [by eapply Hhead|].
eapply left_behind_cons; [done|by apply Hrest].
Qed.

(** The context after a sequence of requests. *)
Definition requested (shared : bool) (w : W) (calls : list (string * list string * dict string string)) : ctx :=
foldl (λ c '(rtype, args, kargs), (context_ensure patience nv_gpu rtype args kargs c).2) (ResourceContext_init shared w) calls.

Lemma requested_inv shared w calls : ctx_inv (running w) (requested shared w calls).
Proof.
assert (Hi : ctx_inv (running w) (ResourceContext_init shared w)) by (split; [constructor|set_solver]).
unfold requested. revert Hi. generalize (ResourceContext_init shared w). induction calls as [|[[rtype args] kargs] calls IH]; intros c Hc; [done|].
cbn [foldl]. apply IH. by apply ensure_inv.
Qed.

(** C30.  Which containers outlive their search.  Whatever resources were asked for, in
any order, whether their creations succeeded or failed, and whatever the daemon
answers to the cleanup: if the cleanup succeeds, the catalog is empty, and a
container that runs and did not run before is one whose removal the daemon
refused.  If it ends with an exception, the daemon raised it (or answered an
[APIError] before the container was found, which ends the cleanup with
[NameError]) at some handle of the catalog; the catalog keeps its entries; and a
container that runs and did not run before is one of this handle or of a later
one, or one whose removal the daemon refused. *)
Theorem cleanup_no_leak shared (w : W) (calls : list (string * list string * dict string string)) :
let c := requested shared w calls in
let c' := (cleanup c).2 in
match (cleanup c).1 with
| Ok _ => catalog c' = [] ∧ ∀ n, n ∈ running (c_world c') → n ∈ running w ∨ left_behind (catalog c) c n
| Raise e => dict_keys (catalog c') = dict_keys (catalog c) ∧
∃ i sig h ci n0, catalog c !! i = Some (sig, h) ∧ handles n0 h ∧ cleanup_all (take i (catalog c)) c = (Ok tt, ci) ∧ breaks n0 (c_world ci) e ∧
∀ n, n ∈ running (c_world c') → n ∈ running w ∨ n ∈ named (drop i (catalog c)) ∨ left_behind (catalog c) c n
end.
Proof.
intros c. destruct (requested_inv shared w calls) as [Hok Hr]. fold c in Hok, Hr. clearbody c. unfold cleanup.
erewrite (sm_bind_eq _ _ c (catalog c) c) by reflexivity.
destruct (cleanup_all_cases (catalog c) c Hok) as (r & c1 & E & Hr1 & Hk1 & Hcase).
{ apply Forall_forall. intros [sig h] Hin. unfold dict_keys. apply list_elem_of_fmap. by exists (sig, h). }
destruct r as [[]|e].
- rewrite (sm_bind_eq _ _ _ _ _ E). cbn. split; [done|]. intros n Hn. destruct (decide (n ∈ running w)) as [|Hnw]; [by left|].
right. apply Hcase; [done|]. set_solver.
- rewrite (sm_bind_raise _ _ _ _ _ E). cbn [fst snd]. split; [done|]. destruct Hcase as (i & sig & h & ci & n0 & Hi & Hh & Et & Hb & Hrest).
exists i, sig, h, ci, n0. split_and!; [done..|]. intros n Hn. destruct (decide (n ∈ running w)) as [|Hnw]; [by left|]. right.
assert (Hnn : n ∈ named (take i (catalog c)) ∪ named (drop i (catalog c))).
{ unfold named. rewrite <-list_to_set_app_L, <-omap_app, take_drop. unfold named in Hr. set_solver. }
apply elem_of_union in Hnn as [?|?]; [right; by apply Hrest|by left].
Qed.

(** A resource that was created is found again, without asking the daemon. *)
Lemma ensure_again rtype args kargs c h c' :
context_ensure patience nv_gpu rtype args kargs c = (Ok h, c') →
context_ensure patience nv_gpu rtype args kargs c' = (Ok h, c').
Proof.
unfold context_ensure. set (sig := get_signature rtype args kargs). cbv zeta.
intros ([] & c1 & E1 & E2)%sm_bind_Ok. injection E2 as Eh ->.
destruct (dict_get (catalog c') sig) as [h'|] eqn:Eg; [|done]. injection Eh as ->.
assert (Em : dict_mem (catalog c') sig = true) by (unfold dict_mem; rewrite Eg; by apply bool_decide_true).
rewrite Em. unfold mbind, sm_bind, mret, sm_ret. by rewrite Eg.
Qed.
End Laws.

(** ** A small daemon

    The containers that run, the number of names given out; pulling the image
    "missing:latest" fails, and starting one of "broken:latest" fails after the
    container was created.  The daemon answers with a server error when it is asked
    for a container of [mute], and when it is to remove one of [busy]. *)
Definition daemon (mute busy : gset string) : Type := gset string * nat.

#[local] Instance sample_murmur : Murmur := λ d _, d.
#[local] Instance sample_docker mute busy : Docker (daemon mute busy) := {|
  uuid4 w := (String.string_of_list_byte (format_d (Z.of_nat w.2)), (w.1, S w.2));
  from_env := mret tt;
  pull i := if decide (i = "missing:latest") then fail DockerAPIError else mret tt;
  run_container i ws n k := λ w,
    if decide (i = "broken:latest") then (Raise DockerAPIError, ({[n]} ∪ w.1, w.2))
    else (Ok (Container n "default" "10.0.0.2"), ({[n]} ∪ w.1, w.2));
  reload c := mret c;
  get_container n := λ w, (if decide (n ∈ mute) then Raise DockerAPIError else if decide (n ∈ w.1) then Ok (Container n "default" "10.0.0.2") else Raise DockerNotFound, w);
  remove_container c := λ w,
    if decide (c_name c ∈ busy) then (Raise DockerAPIError, w)
    else (if decide (c_name c ∈ w.1) then Ok tt else Raise DockerNotFound, (w.1 ∖ {[c_name c]}, w.2));
  check_call ws gpu := λ w,
    match ws with [_; _; _; _; n; _] => (Ok tt, ({[n]} ∪ w.1, w.2)) | _ => (Raise OSError, w) end
|}.

#[local] Program Instance sample_laws mute busy : DockerLaws (daemon mute busy) := {| running w := w.1 |}.
Solve All Obligations with cbn; intros; repeat case_decide; cbn in *; simplify_eq; set_solver.
Next Obligation. cbn. intros mute busy n ws gpu w. destruct ws as [|? [|]]; cbn; set_solver. Qed.

Definition sample_calls : list (string * list string * dict string string) :=
  [("docker", ["ubuntu"; "sleep 'in f'"], []); ("docker", ["missing"; "x"], []); ("docker", ["broken"; "x"], []);
   ("nvidia-docker", ["cuda:10"; ""], []); ("docker", ["ubuntu"; "sleep 'in f'"], []); ("volume", [], [])].

(** The container that runs already is left alone, those of the requests are removed:
    with one whose removal the daemon refuses, this one is left. *)
Definition sample_context (mute busy : gset string) : ctx := requested (W := daemon mute busy) 3 "0" true ({["other"]}, 0%nat) sample_calls.

Lemma cleanup_no_leak_witness :
  let c := sample_context ∅ {["diamond-resource-2"]} in
  (cleanup c).1 = Ok tt ∧ catalog (cleanup c).2 = [] ∧
  ∀ n, n ∈ running (c_world (cleanup c).2) → n ∈ ({["other"]} : gset string) ∨ left_behind (catalog c) c n.
Proof.
  pose proof (cleanup_no_leak (W := daemon ∅ {["diamond-resource-2"]}) 3 "0" true ({["other"]}, 0%nat) sample_calls) as Hc.
  cbv zeta in *. change (requested _ _ _ _ _) with (sample_context ∅ {["diamond-resource-2"]}) in Hc.
  assert (E : (cleanup (sample_context ∅ {["diamond-resource-2"]})).1 = Ok tt) by (vm_compute; reflexivity).
  rewrite E in Hc. by split.
Defined.

Example cleanup_removes :
  let c := sample_context ∅ ∅ in
  running (c_world c) = {["other"; "diamond-resource-0"; "diamond-resource-2"; "diamond-resource-nvidia-3"]} ∧
  (cleanup c).1 = Ok tt ∧ running (c_world (cleanup c).2) = {["other"]}.
Proof. split_and!; [apply (bool_decide_unpack _); vm_compute; exact I|vm_compute; reflexivity|apply (bool_decide_unpack _); vm_compute; exact I]. Qed.

(** A container is left when its removal fails: the error is logged. *)
Example removal_refused :
  let c := sample_context ∅ {["diamond-resource-2"]} in
  (cleanup c).1 = Ok tt ∧ running (c_world (cleanup c).2) = {["other"; "diamond-resource-2"]}.
Proof. split; [vm_compute; reflexivity|apply (bool_decide_unpack _); vm_compute; exact I]. Qed.

(** An error in the search for a container ends the cleanup, in the handler that names
    the variable [container]: this container and those after it are left. *)
Example get_refused :
  let c := sample_context {["diamond-resource-2"]} ∅ in
  (cleanup c).1 = Raise NameError ∧ running (c_world (cleanup c).2) = {["other"; "diamond-resource-2"; "diamond-resource-nvidia-3"]} ∧
  dict_keys (catalog (cleanup c).2) = dict_keys (catalog c).
Proof. split_and!; [vm_compute; reflexivity|apply (bool_decide_unpack _); vm_compute; exact I|vm_compute; reflexivity]. Qed.

(** A creation that failed leaves the handle of its first step in the catalog, and
    the next request for the same resource is answered with it: there is no
    IPAddress in it. *)
Example failed_creation_found :
  let r := context_ensure 3 "0" "docker" ["missing"; "x"] [] (ResourceContext_init true ((∅, 0%nat) : daemon ∅ ∅)) in
  r.1 = Raise ResourceCreationError ∧
  (context_ensure 3 "0" "docker" ["missing"; "x"] [] r.2).1 = Ok [("name", "diamond-resource-0"); ("_rtype", "docker")].
Proof. by vm_compute. Qed.

(** Signatures run the arguments together. *)
Example signature_collision :
  get_signature "docker" ["ubuntu"; "1 sh"] [] = get_signature "docker" ["ubuntu1"; " sh"] [].
Proof. by vm_compute. Qed.

(** ** Connecting to a filter (src/opendiamond/server/filter.py, the methods that
    [Filter._resolve_mode] makes) *)
Section Connect.
Context {W : Type} `{Docker W} `{Murmur} (patience : nat) (nv_gpu : string).
(** A child process; attempt [i] to connect to a host; the named pipes into a
container in which a command runs. *)
Context (spawn : res pipe) (create_connection : nat → string → Z → res pipe) (exec_fifo : string → string → res pipe).
(** The text of [{TMPDIR: {'bind': map_vol, 'mode': 'rw'}}] *)
Context (volumes : string).
Abbreviation ctx := (ctx (W := W)).

Definition docker_port : Z := 5555.
Definition socat_command (filter_command : string) : string :=
"socat TCP4-LISTEN:5555,fork,nodelay EXEC:" +:+ dquote +:+ filter_command +:+ " --filter" +:+ dquote.

Fixpoint attempts (n i : nat) (host : string) : res pipe :=
match n with
| O => Raise FilterExecutionError
| S n =>
match create_connection i host docker_port with
| Raise OSError => attempts n (S i) host
| r => r
end
end.

Definition filter_connect (f : Filter) : sm ctx pipe :=
match f_connect f with
| Unresolved => fail FilterDependencyError
| Process => lift spawn
| Socat image command =>
uri ← context_ensure patience nv_gpu "docker" [image; socat_command command] [];
host ← lift (of_option KeyError (dict_get uri "IPAddress"));
lift (attempts 10 0 host)
| Fifo image command =>
h ← context_ensure patience nv_gpu "docker" [image; "/bin/bash"] [("volumes", volumes); ("tty", "True")];
name ← lift (of_option KeyError (dict_get h "name"));
lift (exec_fifo name command)
end.

(** The first of ten attempts that is not refused decides. *)
Lemma attempts_first n i j host : (j < n)%nat → (∀ k, (k < j)%nat → create_connection (i + k) host docker_port = Raise OSError) →
create_connection (i + j) host docker_port ≠ Raise OSError →
attempts n i host = create_connection (i + j) host docker_port.
Proof.
revert i j. induction n as [|n IH]; intros i j Hj Hbefore Hne; [lia|]. cbn [attempts]. destruct j as [|j].
- rewrite Nat.add_0_r in *. destruct (create_connection i host docker_port) as [p|e]; [done|]. by destruct e.
- pose proof (Hbefore 0%nat ltac:(lia)) as E. rewrite Nat.add_0_r in E. rewrite E.
rewrite <-Nat.add_succ_comm in *. apply (IH (S i) j); [lia| |done].
intros k Hk. rewrite Nat.add_succ_comm. apply Hbefore. lia.
Qed.
End Connect.
