(* ===== verification/Base64.v ===== *)
(** Base 64 ([base64.b64encode], [b64decode]) and [textwrap.fill]. *)
From S2P Require Import Prelude PyBytes PyText.
Local Open Scope Z_scope.

(** ** The alphabet *)
Definition b64_char (d : Z) : byte :=
  Z_byte (if d <? 26 then 65 + d else if d <? 52 then 71 + d else if d <? 62 then d - 4 else if d =? 62 then 43 else 47).
Definition b64_value (b : byte) : option Z :=
  let z := byte_Z b in
  if (65 <=? z) && (z <=? 90) then Some (z - 65)
  else if (97 <=? z) && (z <=? 122) then Some (z - 71)
  else if (48 <=? z) && (z <=? 57) then Some (z + 4)
  else if z =? 43 then Some 62
  else if z =? 47 then Some 63
  else None.
Definition b64_pad : byte := Byte.x3d.

(** ** Encoding *)
Fixpoint b64encode (l : bytes) : bytes :=
  match l with
  | [] => []
  | [a] => let a := byte_Z a in [b64_char (a / 4); b64_char (a mod 4 * 16); b64_pad; b64_pad]
  | [a; b] => let a := byte_Z a in let b := byte_Z b in
    [b64_char (a / 4); b64_char (a mod 4 * 16 + b / 16); b64_char (b mod 16 * 4); b64_pad]
  | a :: b :: c :: l => let a := byte_Z a in let b := byte_Z b in let c := byte_Z c in
    b64_char (a / 4) :: b64_char (a mod 4 * 16 + b / 16) :: b64_char (b mod 16 * 4 + c / 64) :: b64_char (c mod 64)
    :: b64encode l
  end.

(** ** Decoding

    As [binascii.a2b_base64]: characters outside of the alphabet are skipped,
    complete padding ends the data.  [pos] digits of the current group have been
    read, [left] holds the bits that were not output yet. *)
Fixpoint a2b (l : bytes) (pos left pads : Z) : res bytes :=
  match l with
  | [] => if pos =? 0 then Ok [] else Raise BinasciiError
  | b :: l =>
    if decide (b = b64_pad) then
      if 2 <=? pos then
        if 4 <=? pos + (pads + 1) then Ok [] else a2b l pos left (pads + 1)
      else a2b l pos left pads
    else
      match b64_value b with
      | None => a2b l pos left pads
      | Some d =>
        if pos =? 0 then a2b l 1 d 0
        else if pos =? 1 then r ← a2b l 2 (d mod 16) 0; Ok (Z_byte (left * 4 + d / 16) :: r)
        else if pos =? 2 then r ← a2b l 3 (d mod 4) 0; Ok (Z_byte (left * 16 + d / 4) :: r)
        else r ← a2b l 0 0 0; Ok (Z_byte (left * 64 + d) :: r)
      end
  end.
Definition b64decode (l : bytes) : res bytes := a2b l 0 0 0.

(** ** [textwrap.fill(s, n)] of a text without white space or hyphens *)
Fixpoint wrap_lines (fuel n : nat) (l : bytes) : list bytes :=
  match fuel with
  | O => []
  | S fuel => if decide (l = []) then [] else take n l :: wrap_lines fuel n (drop n l)
  end.
Definition fill (n : nat) (l : bytes) : bytes := join [Byte.x0a] (wrap_lines (length l) n l).

(** ** Round trip *)
Definition b64_text (b : byte) : bool := bool_decide (is_Some (b64_value b)) || bool_decide (b = b64_pad).

Lemma b64_value_char d : 0 <= d < 64 → b64_value (b64_char d) = Some d.
Proof.
  intros Hd. assert (forallb (λ d, bool_decide (b64_value (b64_char (Z.of_nat d)) = Some (Z.of_nat d))) (seq 0 64) = true) as H
    by by vm_compute.
  rewrite forallb_forall in H. specialize (H (Z.to_nat d)). rewrite in_seq, Z2Nat.id in H by lia.
  by apply bool_decide_eq_true in H; [|lia].
Qed.

Lemma b64_char_not_pad d : 0 <= d < 64 → b64_char d ≠ b64_pad.
Proof. intros Hd E. pose proof (b64_value_char d Hd) as H. rewrite E in H. by vm_compute in H. Qed.

Lemma a2b_digit d l pos left pads : 0 <= d < 64 →
  a2b (b64_char d :: l) pos left pads =
    if pos =? 0 then a2b l 1 d 0
    else if pos =? 1 then r ← a2b l 2 (d mod 16) 0; Ok (Z_byte (left * 4 + d / 16) :: r)
    else if pos =? 2 then r ← a2b l 3 (d mod 4) 0; Ok (Z_byte (left * 16 + d / 4) :: r)
    else r ← a2b l 0 0 0; Ok (Z_byte (left * 64 + d) :: r).
Proof.
  intros Hd. cbn [a2b]. rewrite decide_False by by apply b64_char_not_pad. by rewrite b64_value_char.
Qed.

Lemma bytes_ind3 (P : bytes → Prop) :
  P [] → (∀ a, P [a]) → (∀ a b, P [a; b]) → (∀ a b c l, P l → P (a :: b :: c :: l)) → ∀ l, P l.
Proof.
  intros H0 H1 H2 H3 l. enough (P l ∧ (∀ a, P (a :: l)) ∧ ∀ a b, P (a :: b :: l)) by naive_solver.
  induction l as [|x l (IH1 & IH2 & IH3)]; naive_solver.
Qed.

Ltac byte_ranges :=
  repeat match goal with
  | b : byte |- _ => lazymatch goal with H : 0 <= byte_Z b < 256 |- _ => fail | _ => pose proof (byte_Z_range b) end
  end.

Ltac dm := byte_ranges; Z.to_euclidean_division_equations; lia.

Lemma Z_byte_eq z b : z = byte_Z b → Z_byte z = b.
Proof. intros ->. apply Z_byte_Z. Qed.

Lemma a2b_pad2 x : a2b [b64_pad; b64_pad] 2 x 0 = Ok [].
Proof. reflexivity. Qed.
Lemma a2b_pad1 x : a2b [b64_pad] 3 x 0 = Ok [].
Proof. reflexivity. Qed.

Lemma b64_roundtrip l : b64decode (b64encode l) = Ok l.
Proof.
  unfold b64decode. induction l as [|a|a b|a b c l IH] using bytes_ind3; [done|..]; cbn [b64encode].
  - rewrite a2b_digit by dm. cbn [Z.eqb]. rewrite a2b_digit by dm. cbn [Z.eqb Pos.eqb]. rewrite a2b_pad2.
    cbn -[Z.mul Z.div Z.modulo Z_byte]. f_equal. f_equal. apply Z_byte_eq. dm.
  - rewrite a2b_digit by dm. cbn [Z.eqb]. rewrite a2b_digit by dm. cbn [Z.eqb Pos.eqb]. rewrite a2b_digit by dm.
    cbn [Z.eqb Pos.eqb]. rewrite a2b_pad1.
    cbn -[Z.mul Z.div Z.modulo Z_byte]. f_equal. f_equal; [|f_equal]; apply Z_byte_eq; dm.
  - rewrite a2b_digit by dm. cbn [Z.eqb]. rewrite a2b_digit by dm. cbn [Z.eqb Pos.eqb]. rewrite a2b_digit by dm.
    cbn [Z.eqb Pos.eqb]. rewrite a2b_digit by dm. cbn [Z.eqb Pos.eqb]. rewrite IH.
    cbn -[Z.mul Z.div Z.modulo Z_byte]. f_equal. f_equal; [|f_equal; [|f_equal]]; apply Z_byte_eq; dm.
Qed.

Lemma b64encode_text l : Forall (λ b, b64_text b = true) (b64encode l).
Proof.
  assert (Hd : ∀ d, 0 <= d < 64 → b64_text (b64_char d) = true).
  { intros d Hd. unfold b64_text. by rewrite b64_value_char, bool_decide_true by eauto. }
  induction l as [|a|a b|a b c l IH] using bytes_ind3; cbn [b64encode];
    repeat (constructor; [first [apply Hd; dm|by vm_compute]|]); done.
Qed.

(** Line breaks are skipped. *)
Lemma a2b_skip l pos left pads : a2b (filter (λ b, b ≠ Byte.x0a) l) pos left pads = a2b l pos left pads.
Proof.
  revert pos left pads. induction l as [|b l IH]; intros pos left pads; [done|].
  rewrite filter_cons. destruct (decide (b ≠ Byte.x0a)) as [Hb|Hb].
  - cbn [a2b]. repeat case_match; rewrite ?IH; done.
  - apply dec_stable in Hb as ->. rewrite IH. done.
Qed.

Lemma filter_all (l : bytes) : Forall (λ b, b ≠ Byte.x0a) l → filter (λ b, b ≠ Byte.x0a) l = l.
Proof. induction 1 as [|b l Hb _ IH]; [done|]. rewrite filter_cons_True by done. by rewrite IH. Qed.

Lemma filter_fill n l : (0 < n)%nat → Forall (λ b, b ≠ Byte.x0a) l →
  filter (λ b, b ≠ Byte.x0a) (fill n l) = l.
Proof.
  intros Hn Hl. unfold fill. assert (Hlen : (length l ≤ length l)%nat) by done. revert Hlen.
  generalize (length l) at 2 3. intros fuel. revert l Hl. induction fuel as [|fuel IH]; intros l Hl Hlen.
  - by destruct l; [|simpl in Hlen; lia].
  - cbn [wrap_lines]. case_decide as E; [by subst|]. cbn [join].
    assert (Hid : filter (λ b, b ≠ Byte.x0a) (take n l) = take n l)
      by by apply filter_all, Forall_take.
    specialize (IH (drop n l) (Forall_drop _ _ _ Hl)). rewrite length_drop in IH.
    destruct l as [|b l]; [done|]. simpl length in *.
    destruct (wrap_lines fuel n (drop n (b :: l))) as [|x xs] eqn:Ew.
    + rewrite Hid. cbn [join filter list_filter] in IH. rewrite <-(take_drop n (b :: l)) at 2.
      rewrite <-IH by lia. by rewrite app_nil_r.
    + rewrite !filter_app, Hid. rewrite IH by lia. apply take_drop.
Qed.
