(* ===== verification/Scope.v ===== *)
(** Scope cookies (src/opendiamond/scope.py): generation, encoding, parsing,
    verification, and the maps from cookies to servers. *)
From S2P Require Import Prelude PyBytes PyText Dict Hex Base64.
Local Open Scope Z_scope.

Definition BOUNDARY_START : string := "-----BEGIN OPENDIAMOND SCOPECOOKIE-----
".
Definition BOUNDARY_END : string := "-----END OPENDIAMOND SCOPECOOKIE-----
".
Definition CERT_BEGIN : string := "-----BEGIN CERTIFICATE-----
".
Definition CERT_END : string := "-----END CERTIFICATE-----".
Definition COOKIE_VERSION : Z := 1.
Abbreviation nl := Byte.x0a.
Abbreviation of_bytes := String.string_of_list_byte.

(** ** Text *)

(** [START + '(' + BASE64_RE + ')' + END] at the start of a text: the group and the
    rest.  No character of the class starts an END, so greed decides alone. *)
Definition in_class (b : byte) : bool := b64_text b || bool_decide (b = nl).
Fixpoint span (P : byte → bool) (l : bytes) : bytes * bytes :=
  match l with
  | [] => ([], [])
  | b :: l' => if P b then let '(x, r) := span P l' in (b :: x, r) else ([], l)
  end.
Definition match_block (start stop : bytes) (l : bytes) : option (bytes * bytes) :=
  if startswith l start then
    let '(g, r) := span in_class (drop (length start) l) in
    if bool_decide (g ≠ []) && startswith r stop then Some (g, drop (length stop) r) else None
  else None.

(** [re.findall(START + BASE64_RE + END, l)]; every round takes a byte away. *)
Fixpoint findall (fuel : nat) (start stop : bytes) (l : bytes) : list bytes :=
  match fuel, l with
  | S fuel, _ :: l' =>
    match match_block start stop l with
    | Some (g, r) => (start ++ g ++ stop) :: findall fuel start stop r
    | None => findall fuel start stop l'
    end
  | _, _ => []
  end.

(** [l.split('\n\n', 1)] *)
Fixpoint split_blank (l : bytes) : option (bytes * bytes) :=
  match l with
  | [] => None
  | b :: l' =>
    if startswith l [nl; nl] then Some ([], drop 2 l)
    else '(h, r) ← split_blank l'; Some (b :: h, r)
  end.

(** [str.splitlines()] on the UTF-8 encoding. *)
Definition line_break (b : byte) : bool :=
  bool_decide (b ∈ [Byte.x0a; Byte.x0b; Byte.x0c; Byte.x0d; Byte.x1c; Byte.x1d; Byte.x1e]).
Fixpoint splitlines_at (cur : bytes) (l : bytes) : list bytes :=
  match l with
  | [] => if decide (cur = []) then [] else [cur]
  | Byte.x0d :: Byte.x0a :: l => cur :: splitlines_at [] l
  | Byte.xc2 :: Byte.x85 :: l => cur :: splitlines_at [] l
  | Byte.xe2 :: Byte.x80 :: Byte.xa8 :: l => cur :: splitlines_at [] l
  | Byte.xe2 :: Byte.x80 :: Byte.xa9 :: l => cur :: splitlines_at [] l
  | b :: l => if line_break b then cur :: splitlines_at [] l else splitlines_at (cur ++ [b]) l
  end.
Definition splitlines (l : bytes) : list bytes := splitlines_at [] l.

(** [re.split('[;,]', v)] *)
Fixpoint split_either (l : bytes) : list bytes :=
  match l with
  | [] => [[]]
  | b :: l =>
    if decide (b = Byte.x3b ∨ b = Byte.x2c) then [] :: split_either l
    else match split_either l with p :: ps => (b :: p) :: ps | [] => [[b]] end
  end.

(** ** UUIDs: sixteen bytes *)
Definition uuid_str (u : bytes) : bytes :=
  hexlify (take 4 u) ++ Byte.x2d :: hexlify (take 2 (drop 4 u)) ++ Byte.x2d :: hexlify (take 2 (drop 6 u)) ++
  Byte.x2d :: hexlify (take 2 (drop 8 u)) ++ Byte.x2d :: hexlify (drop 10 u).

Fixpoint hex_digits (acc : Z) (l : bytes) : option Z :=
  match l with
  | [] => None
  | b :: l =>
    match hex_value b with
    | None => None
    | Some d =>
      let acc := 16 * acc + d in
      match l with
      | [] => Some acc
      | b' :: l' => if decide (b' = Byte.x5f) then hex_digits acc l' else hex_digits acc l
      end
    end
  end.
Definition split_sign (l : bytes) : Z * bytes :=
  match l with
  | [] => (1, l)
  | b :: l' => if decide (b = Byte.x2d) then (-1, l') else if decide (b = Byte.x2b) then (1, l') else (1, l)
  end.
Definition drop_0x (l : bytes) : bytes :=
  match l with
  | a :: b :: l' =>
    if decide (a = Byte.x30 ∧ (b = Byte.x78 ∨ b = Byte.x58)) then
      match l' with c :: l'' => if decide (c = Byte.x5f) then l'' else l' | [] => l' end
    else l
  | _ => l
  end.
(** [int(l, 16)] *)
Definition int16 (l : bytes) : res Z :=
  let '(s, l) := split_sign (str_strip l) in
  of_option ValueError (Z.mul s <$> hex_digits 0 (drop_0x l)).

(** [s.replace(old, '')] *)
Fixpoint remove (fuel : nat) (old l : bytes) : bytes :=
  match fuel, l with
  | S fuel, b :: l' => if startswith l old then remove fuel old (drop (length old) l) else b :: remove fuel old l'
  | _, _ => []
  end.
Definition is_brace (b : byte) : bool := bool_decide (b = Byte.x7b ∨ b = Byte.x7d).
(** [len(s)] of a [str] *)
Definition str_len (l : bytes) : nat := length (filter (λ b, cont b = false) l).

(** [uuid.UUID(v)] *)
Definition uuid_parse (v : bytes) : res bytes :=
  let l := remove (length v) (str_encode "urn:") v in
  let l := remove (length l) (str_encode "uuid:") l in
  let l := rstrip is_brace (lstrip is_brace l) in
  let l := remove (length l) [Byte.x2d] l in
  if decide (str_len l ≠ 32%nat) then Raise ValueError else
  n ← int16 l;
  if (0 <=? n) && (n <? 2 ^ 128) then Ok (be_split 16 n) else Raise ValueError.

(** ** Cookies *)

(** A [datetime]: the instant and the offset of its time zone, if it has one. *)
Record datetime := MkDatetime { instant : Z; offset : option Z }.

(** [dateutil.parser.parse] and [datetime.isoformat]. *)
Class Dates := { date_parse : string → res datetime; isoformat : datetime → string }.

(** M2Crypto: signing with a PEM private key; certificates. *)
Record Cert := MkCert {
  cert_verify_final : bytes → bytes → Z;   (* data, signature *)
  cert_verify : Z;
  not_before : Z;
  not_after : Z
}.
Class Crypto := { sign : bytes → bytes → res bytes; load_cert_string : string → res Cert }.

(** The serial number: [generate] keeps the text of a UUID, [parse] the UUID. *)
Inductive serial_number := SText (s : string) | SUuid (u : bytes).
(** [str(serial)] *)
Definition serial_str (x : serial_number) : string :=
  match x with SText s => s | SUuid u => of_bytes (uuid_str u) end.

Record ScopeCookie := MkCookie {
  serial : serial_number;
  expires : datetime;
  blaster : option string;
  servers : list string;
  scopeurls : list string;
  data : string;
  signature : bytes
}.

Definition set_serial (x : serial_number) (c : ScopeCookie) : ScopeCookie :=
  MkCookie x (expires c) (blaster c) (servers c) (scopeurls c) (data c) (signature c).

(** [ScopeCookie.__init__] *)
Definition ScopeCookie_init (c : ScopeCookie) : res ScopeCookie :=
  match offset (expires c) with None => Raise ScopeError | Some _ => Ok c end.

(** [__str__] and [encode] *)
Definition cookie_text (c : ScopeCookie) : string := of_bytes (hexlify (signature c)) +:+ of_bytes [nl] +:+ data c.
Definition encode (c : ScopeCookie) : string :=
  BOUNDARY_START +:+ of_bytes (fill 64 (b64encode (str_encode (cookie_text c)))) +:+ of_bytes [nl] +:+ BOUNDARY_END.

(** [split] *)
Definition split_cookies (s : string) : list string :=
  of_bytes <$> findall (length (str_encode s)) (str_encode BOUNDARY_START) (str_encode BOUNDARY_END) (str_encode s).

Section Cookies.
Context `{Dates, Crypto}.

(** *** generate *)
Definition header_line (p : string * string) : string := p.1 +:+ ": " +:+ p.2 +:+ of_bytes [nl].
Definition concat_str (l : list string) : string := foldr String.append "" l.
Definition join_str (sep : string) (l : list string) : string := of_bytes (join (str_encode sep) (str_encode <$> l)).

Definition headers (serial : string) (servers : list string) (expires : datetime) (blaster : option string) :
list (string * string) :=
[("Version", of_bytes (format_d COOKIE_VERSION)); ("Serial", serial);
 ("Expires", isoformat expires); ("Servers", join_str ";" servers)] ++
match blaster with Some b => [("Blaster", b)] | None => [] end.

Definition cookie_data (serial : string) (servers scopeurls : list string) (expires : datetime) (blaster : option string) : string :=
concat_str (header_line <$> headers serial servers expires blaster) +:+ of_bytes [nl] +:+
join_str (of_bytes [nl]) scopeurls +:+ of_bytes [nl].

(** [u] is the [uuid4()]. *)
Definition generate (u : bytes) (servers scopeurls : list string) (expires : datetime) (keydata : string)
(blaster : option string) : res ScopeCookie :=
let serial := of_bytes (uuid_str u) in
let data := cookie_data serial servers scopeurls expires blaster in
sig ← sign (str_encode keydata) (str_encode data);
ScopeCookie_init (MkCookie (SText serial) expires blaster servers scopeurls data sig).

(** *** parse *)
Record header_fields := MkFields {
h_serial : option bytes; h_expires : option datetime; h_servers : option (list string); h_blaster : option string
}.

(** One header; other names are ignored. *)
Definition set_header (f : header_fields) (k v : bytes) : res header_fields :=
if decide (k = str_encode "Version") then
match py_int_str v with
| Ok n => if decide (n ≠ COOKIE_VERSION) then Raise ScopeError else Ok f
| Raise e => if is_ValueError e then Raise ScopeError else Raise e
end
else if decide (k = str_encode "Serial") then
match uuid_parse v with
| Ok u => Ok (MkFields (Some u) (h_expires f) (h_servers f) (h_blaster f))
| Raise e => if is_ValueError e then Raise ScopeError else Raise e
end
else if decide (k = str_encode "Expires") then
match date_parse (of_bytes v) with
| Ok d => Ok (MkFields (h_serial f) (Some d) (h_servers f) (h_blaster f))
| Raise e => if is_ValueError e then Raise ScopeError else Raise e
end
else if decide (k = str_encode "Servers") then
let l := filter (λ s, s ≠ []) (str_strip <$> split_either v) in
Ok (MkFields (h_serial f) (h_expires f) (Some (of_bytes <$> l)) (h_blaster f))
else if decide (k = str_encode "Blaster") then
Ok (MkFields (h_serial f) (h_expires f) (h_servers f) (Some (of_bytes v)))
else Ok f.

Definition parse_header (f : header_fields) (line : bytes) : res header_fields :=
'(k, v) ← of_option ValueError (split1 Byte.x3a line); set_header f k (str_strip v).

Fixpoint parse_headers (f : header_fields) (lines : list bytes) : res header_fields :=
match lines with [] => Ok f | l :: lines => f ← parse_header f l; parse_headers f lines end.

Definition parse (text : string) : res ScopeCookie :=
match match_block (str_encode BOUNDARY_START) (str_encode BOUNDARY_END) (str_encode text) with
| None => Raise ScopeError
| Some (g, _) =>
(* except TypeError: never raised *)
b ← b64decode g;
text ← bytes_decode b;
'(sig, data) ← of_option ScopeError (split1 nl (str_encode text));
'(header, body) ← of_option ScopeError (split_blank data);
signature ← (if forallb (λ b, byte_Z b <? 128) sig then unhexlify sig else Raise ValueError);
f ← parse_headers (MkFields None None None None) (splitlines header);
let scopeurls := filter (λ s, s ≠ []) (str_strip <$> split nl body) in
match h_serial f, h_expires f, h_servers f with
| Some u, Some e, Some s =>
ScopeCookie_init (MkCookie (SUuid u) e (h_blaster f) s (of_bytes <$> scopeurls) (of_bytes data) signature)
| _, _, _ => Raise ScopeError
end
end.

(** *** verify *)
Fixpoint check_certs (now : Z) (c : ScopeCookie) (certs : list Cert) : res unit :=
match certs with
| [] => Raise ScopeError
| cert :: certs =>
if decide (cert_verify_final cert (str_encode (data c)) (signature c) ≠ 1) then check_certs now c certs
else if decide (cert_verify cert ≠ 1) then check_certs now c certs
else if now <? not_before cert then check_certs now c certs
else if not_after cert <? now then check_certs now c certs
else Ok tt
end.

Definition find_certs (certdata : string) : list string :=
of_bytes <$> findall (length (str_encode certdata)) (str_encode CERT_BEGIN) (str_encode CERT_END) (str_encode certdata).

Definition verify (now : Z) (servernames : list string) (certdata : string) (c : ScopeCookie) : res unit :=
if instant (expires c) <? now then Raise ScopeCookieExpired
else if bool_decide (Exists (λ s, s ∈ servers c) servernames) then
certs ← mapM_res load_cert_string (find_certs certdata);
check_certs now c certs
else Raise ScopeError.

(** *** generate_cookie; [us] are the [uuid4()]s, [now] the instants of the calls *)
Definition proxy_scope (i n : nat) (servers scopeurls : list string) : list string :=
url ← scopeurls; server ← servers;
["/proxy/" +:+ of_bytes (format_d (Z.of_nat i + 1)) +:+ "of" +:+ of_bytes (format_d (Z.of_nat n)) +:+ "/" +:+ server +:+ ":5873" +:+ url].

Definition generate_cookie (calls : list (bytes * datetime)) (scopeurls servers : list string)
(proxies : option (list string)) (keydata : string) (blaster : option string) : res string :=
match proxies with
| None =>
match calls with
| (u, e) :: _ => c ← generate u servers scopeurls e keydata blaster; Ok (encode c)
| [] => Raise StopIteration
end
| Some ps =>
cs ← mapM_res (λ x : nat * (string * (bytes * datetime)),
let '(i, (p, (u, e))) := x in
c ← generate u [p] (proxy_scope i (length ps) servers scopeurls) e keydata blaster; Ok (encode c))
(zip (seq 0 (length ps)) (zip ps calls));
Ok (concat_str cs)
end.

(** *** Maps *)
Definition get_cookie_map (cookies : list ScopeCookie) : dict string (list ScopeCookie) :=
foldl (λ m c, foldl (λ m s, dict_set m s (default [] (dict_get m s) ++ [c])) m (servers c)) [] cookies.
Definition get_blaster_map (cookies : list ScopeCookie) : dict string (list ScopeCookie) :=
foldl (λ m c, match blaster c with Some b => dict_set m b (default [] (dict_get m b) ++ [c]) | None => m end) [] cookies.
End Cookies.

(** ** Lemmas on the text formats *)

Lemma drop_startswith (p l : bytes) : drop (length p) (p ++ l) = l.
Proof. apply drop_app_length. Qed.

Lemma span_app P l r : Forall (λ b, P b = true) l → (∀ b, head r = Some b → P b = false) → span P (l ++ r) = (l, r).
Proof.
  intros Hl Hr. induction Hl as [|b l Hb _ IH]; cbn [app span].
  - destruct r as [|b r]; [done|]. cbn [span]. by rewrite (Hr b).
  - by rewrite Hb, IH.
Qed.

Lemma match_block_app start stop g r : g ≠ [] → Forall (λ b, in_class b = true) g →
  (∀ b, head stop = Some b → in_class b = false) → stop ≠ [] →
  match_block start stop (start ++ g ++ stop ++ r) = Some (g, r).
Proof.
  intros Hg Hc Hstop Hne. unfold match_block. rewrite startswith_app, drop_startswith.
  rewrite span_app; [|done|by destruct stop].
  rewrite bool_decide_true, startswith_app, drop_startswith by done. done.
Qed.

Lemma fill_class n l : Forall (λ b, b64_text b = true) l → Forall (λ b, in_class b = true) (fill n l).
Proof.
  intros Hl. unfold fill. generalize (length l) as fuel. intros fuel.
  revert l Hl. induction fuel as [|fuel IH]; intros l Hl; [constructor|].
  cbn [wrap_lines]. case_decide; [constructor|].
  assert (Ht : Forall (λ b, in_class b = true) (take n l)).
  { eapply Forall_impl; [by apply Forall_take|]. intros b Hb. unfold in_class. by rewrite Hb. }
  specialize (IH (drop n l) (Forall_drop _ _ _ Hl)).
  destruct (wrap_lines fuel n (drop n l)) as [|x xs]; [done|].
  change (join [nl] (take n l :: x :: xs)) with (take n l ++ nl :: join [nl] (x :: xs)).
  apply Forall_app. split; [done|]. constructor; [by vm_compute|done].
Qed.

Lemma split_blank_lines L r : L ≠ [] → Forall (λ l, l ≠ [] ∧ nl ∉ l) L →
  split_blank (join [nl] L ++ nl :: nl :: r) = Some (join [nl] L, r).
Proof.
  assert (Hline : ∀ l t h r', nl ∉ l → split_blank t = Some (h, r') → split_blank (l ++ t) = Some (l ++ h, r')).
  { clear. intros l t h r' Hl Ht. induction l as [|b l IH]; [done|]. cbn [app split_blank startswith].
    rewrite bool_decide_false by set_solver. cbn [andb]. by rewrite IH by set_solver. }
  intros HL H. induction H as [|l L [Hne Hl] H IH]; [done|].
  destruct L as [|l' L].
  - cbn [join]. rewrite (Hline l (nl :: nl :: r) [] r); [|done|by destruct r]. by rewrite app_nil_r.
  - change (join [nl] (l :: l' :: L)) with (l ++ [nl] ++ join [nl] (l' :: L)). rewrite <-!app_assoc.
    specialize (IH ltac:(done)). apply Hline; [done|].
    cbn [app split_blank]. rewrite IH.
    assert (startswith (nl :: join [nl] (l' :: L) ++ nl :: nl :: r) [nl; nl] = false) as ->; [|done].
    inversion H as [|?? [Hne' Hl'] ?]; subst. destruct l' as [|b l']; [done|].
    assert (b ≠ nl) by set_solver. cbn [startswith]. rewrite bool_decide_true by done.
    destruct L; cbn; by rewrite bool_decide_false by done.
Qed.

(** Lines of visible characters and blanks. *)
Definition line_char (b : byte) : bool := (32 <=? byte_Z b) && (byte_Z b <=? 126).
Lemma line_char_no_nl l : Forall (λ b, line_char b = true) l → nl ∉ l.
Proof. intros H Hin. rewrite Forall_forall in H. by specialize (H nl Hin). Qed.
Lemma plain_line b : plain b = true → line_char b = true.
Proof. unfold plain, line_char. rewrite !andb_true_iff, !Z.leb_le. lia. Qed.

Lemma splitlines_step cur b l : line_char b = true → splitlines_at cur (b :: l) = splitlines_at (cur ++ [b]) l.
Proof. intros Hb. destruct b; try (by vm_compute in Hb); reflexivity. Qed.

Lemma splitlines_line cur l r : Forall (λ b, line_char b = true) l →
  splitlines_at cur (l ++ r) = splitlines_at (cur ++ l) r.
Proof.
  intros H. revert cur. induction H as [|b l Hb _ IH]; intros cur; [by rewrite app_nil_r|].
  cbn [app]. rewrite splitlines_step by done. rewrite IH. by rewrite <-app_assoc.
Qed.

Lemma splitlines_join L : Forall (λ l, l ≠ [] ∧ Forall (λ b, line_char b = true) l) L →
  splitlines (join [nl] L) = L.
Proof.
  unfold splitlines. induction 1 as [|l L [Hne Hl] H IH]; [done|].
  destruct L as [|l' L].
  - cbn [join]. rewrite <-(app_nil_r l) at 1. rewrite splitlines_line by done.
    cbn [app splitlines_at]. by rewrite decide_False.
  - change (join [nl] (l :: l' :: L)) with (l ++ nl :: join [nl] (l' :: L)).
    rewrite splitlines_line by done. cbn [app].
    change (splitlines_at l (nl :: ?x)) with (l :: splitlines_at [] x). by rewrite IH.
Qed.

Lemma split_either_app l r : Byte.x3b ∉ l → Byte.x2c ∉ l →
  split_either (l ++ Byte.x3b :: r) = l :: split_either r.
Proof.
  intros H1 H2. induction l as [|b l IH]; cbn [app split_either]; [by rewrite decide_True by auto|].
  rewrite decide_False by set_solver. by rewrite IH by set_solver.
Qed.

Lemma split_either_none l : Byte.x3b ∉ l → Byte.x2c ∉ l → split_either l = [l].
Proof.
  intros H1 H2. induction l as [|b l IH]; cbn [split_either]; [done|].
  rewrite decide_False by set_solver. by rewrite IH by set_solver.
Qed.

Lemma split_either_join ls : ls ≠ [] → Forall (λ l, Byte.x3b ∉ l ∧ Byte.x2c ∉ l) ls →
  split_either (join [Byte.x3b] ls) = ls.
Proof.
  intros Hne H. induction H as [|l ls [H1 H2] H IH]; [done|].
  destruct ls as [|l' ls]; [by apply split_either_none|].
  change (join [Byte.x3b] (l :: l' :: ls)) with (l ++ Byte.x3b :: join [Byte.x3b] (l' :: ls)).
  rewrite split_either_app by done. by rewrite IH.
Qed.

(** *** UUIDs *)
Lemma remove_none fuel c old l : c ∉ l → (length l ≤ fuel)%nat → remove fuel (c :: old) l = l.
Proof.
  revert l. induction fuel as [|fuel IH]; intros [|b l] Hc Hl; simpl in Hl; try done; [lia|].
  cbn [remove startswith]. rewrite bool_decide_false by set_solver. cbn [andb].
  by rewrite IH by (set_solver || lia).
Qed.

Lemma remove_filter fuel c l : (length l ≤ fuel)%nat → remove fuel [c] l = filter (λ b, b ≠ c) l.
Proof.
  revert l. induction fuel as [|fuel IH]; intros [|b l] Hl; simpl in Hl; try done; [lia|].
  assert (Hs : startswith (b :: l) [c] = bool_decide (c = b)) by (cbn [startswith]; destruct l; by rewrite andb_true_r).
  cbn [remove]. rewrite Hs, filter_cons. destruct (decide (b = c)) as [->|Hb].
  - rewrite bool_decide_true by done. rewrite decide_False by auto. cbn [length drop]. rewrite drop_0. apply IH. lia.
  - rewrite bool_decide_false by done. rewrite decide_True by done. by rewrite IH by lia.
Qed.

Definition hex_num (acc : Z) (l : bytes) : Z := foldl (λ a b, 16 * a + default 0 (hex_value b)) acc l.

Lemma hex_digits_num acc l : l ≠ [] → Forall is_hex l → hex_digits acc l = Some (hex_num acc l).
Proof.
  intros Hne H. revert acc Hne. induction H as [|b l [d Hd] H IH]; intros acc Hne; [done|].
  cbn [hex_digits]. rewrite Hd. cbn [hex_num foldl]. rewrite Hd. cbn [default].
  destruct l as [|b' l]; [done|]. rewrite decide_False; [by apply IH|].
  intros ->. inversion H as [|?? [x Hx] ?]. by vm_compute in Hx.
Qed.

Lemma hex_num_hexlify acc l : hex_num acc (hexlify l) = foldl (λ a b, 256 * a + byte_Z b) acc l.
Proof.
  revert acc. induction l as [|b l IH]; intros acc; [done|]. unfold hexlify. csimpl.
  destruct (nibbles b). unfold hex_num. cbn [foldl app]. rewrite !hex_value_digit by done. cbn [default].
  change (foldl _ ?a (l ≫= hex_byte)) with (hex_num a (hexlify l)). rewrite IH. f_equal.
  unfold id. pose proof (Z_div_mod_eq_full (byte_Z b) 16). lia.
Qed.

Lemma int16_hexlify l : l ≠ [] → int16 (hexlify l) = Ok (be_combine l).
Proof.
  intros Hl. unfold int16. pose proof (hexlify_lower l) as Hlow. pose proof (hexlify_is_hex l) as Hhex.
  assert (Hp : Forall (λ b, plain b = true) (hexlify l)).
  { eapply Forall_impl; [exact Hlow|]. hex_cases. }
  rewrite (proj1 (str_strip_plain _ Hp)).
  destruct l as [|b l]; [done|]. unfold hexlify in *. csimpl. csimpl in Hlow. csimpl in Hhex.
  destruct (nibbles b) as [H1 H2]. rewrite be_combine_fold, <-hex_num_hexlify. unfold hexlify. csimpl.
  set (x := hex_digit _) in *. set (y := hex_digit (byte_Z b `mod` 16)) in *.
  inversion Hlow as [|?? Hx Hlow']; subst. inversion Hlow' as [|?? Hy _]; subst.
  assert (∀ b, hex_lower b = true → b ≠ Byte.x2d ∧ b ≠ Byte.x2b ∧ b ≠ Byte.x78 ∧ b ≠ Byte.x58) as Hne by hex_cases.
  destruct (Hne x Hx) as (? & ? & _), (Hne y Hy) as (_ & _ & ? & ?).
  cbn [split_sign]. rewrite !decide_False by done. cbn [drop_0x]. rewrite decide_False by naive_solver.
  rewrite hex_digits_num by done. cbn [fmap option_fmap option_map of_option]. by rewrite Z.mul_1_l.
Qed.

Lemma filter_none (c : byte) (l : bytes) : c ∉ l → filter (λ b, b ≠ c) l = l.
Proof.
  induction l as [|b l IH]; intros Hc; [done|]. rewrite filter_cons_True by set_solver. by rewrite IH by set_solver.
Qed.

Lemma hexlify_app a b : hexlify (a ++ b) = hexlify a ++ hexlify b.
Proof. unfold hexlify. by rewrite bind_app. Qed.

Lemma take_drop_5 (u : bytes) :
  take 4 u ++ take 2 (drop 4 u) ++ take 2 (drop 6 u) ++ take 2 (drop 8 u) ++ drop 10 u = u.
Proof.
  replace (drop 10 u) with (drop 2 (drop 8 u)) by by rewrite drop_drop.
  replace (drop 8 u) with (drop 2 (drop 6 u)) by by rewrite drop_drop.
  replace (drop 6 u) with (drop 2 (drop 4 u)) by by rewrite drop_drop.
  by rewrite !take_drop.
Qed.

(** The characters of a UUID's text. *)
Definition uuid_char (b : byte) : bool := hex_lower b || bool_decide (b = Byte.x2d).

Lemma uuid_str_chars u : Forall (λ b, uuid_char b = true) (uuid_str u).
Proof.
  assert (H : ∀ l, Forall (λ b, uuid_char b = true) (hexlify l)).
  { intros l. eapply Forall_impl; [apply hexlify_lower|]. intros b Hb. unfold uuid_char. by rewrite Hb. }
  unfold uuid_str. repeat first [apply Forall_app; split; [apply H|]|constructor; [by vm_compute|]]. apply H.
Qed.

Lemma uuid_char_plain b : uuid_char b = true → plain b = true.
Proof.
  unfold uuid_char. intros [Hb|Hb%bool_decide_eq_true]%orb_true_iff; [|by subst].
  revert b Hb. hex_cases.
Qed.

Lemma uuid_char_not c (l : bytes) : uuid_char c = false → Forall (λ b, uuid_char b = true) l → c ∉ l.
Proof. intros Hc H Hin. rewrite Forall_forall in H. specialize (H c Hin). congruence. Qed.

Lemma rstrip_none P l : Forall (λ b, P b = false) l → rstrip P (lstrip P l) = l.
Proof.
  intros H. rewrite lstrip_id.
  - destruct l as [|b l] using rev_ind; [done|]. apply rstrip_id.
    apply Forall_app in H as [_ H]. by inversion H.
  - intros b Hb. destruct l as [|x l]; [done|]. injection Hb as ->. by inversion H.
Qed.

Lemma str_len_ascii l : Forall (λ b, ascii b = true) l → str_len l = length l.
Proof.
  unfold str_len, ascii, cont. induction 1 as [|b l Hb _ IH]; [done|].
  rewrite filter_cons_True; [simpl; by rewrite IH|].
  apply Z.ltb_lt in Hb. destruct (Z.leb_spec 128 (byte_Z b)); [lia|done].
Qed.

Lemma uuid_roundtrip u : length u = 16%nat → uuid_parse (uuid_str u) = Ok u.
Proof.
  intros Hu. pose proof (uuid_str_chars u) as Hc. unfold uuid_parse.
  change (str_encode "urn:") with [Byte.x75; Byte.x72; Byte.x6e; Byte.x3a].
  change (str_encode "uuid:") with [Byte.x75; Byte.x75; Byte.x69; Byte.x64; Byte.x3a].
  rewrite (remove_none (length (uuid_str u)) Byte.x75) by first [apply uuid_char_not; [by vm_compute|done]|lia].
  rewrite (remove_none (length (uuid_str u)) Byte.x75) by first [apply uuid_char_not; [by vm_compute|done]|lia].
  rewrite rstrip_none.
  2:{ eapply Forall_impl; [exact Hc|]. intros b Hb. unfold is_brace. apply bool_decide_false.
      intros [->| ->]; by vm_compute in Hb. }
  rewrite remove_filter by done.
  assert (E : filter (λ b, b ≠ Byte.x2d) (uuid_str u) = hexlify u).
  { unfold uuid_str. pose proof (hex_lower_not Byte.x2d ltac:(by vm_compute)) as Hn.
    repeat (rewrite filter_app, filter_none by apply Hn; rewrite filter_cons_False by naive_solver).
    rewrite filter_none by apply Hn. by rewrite <-!hexlify_app, take_drop_5. }
  rewrite E. rewrite decide_False.
  2:{ intros Hlen. apply Hlen. rewrite str_len_ascii, length_hexlify; [lia|].
      eapply Forall_impl; [apply hexlify_lower|]. hex_cases. }
  rewrite int16_hexlify by by destruct u. cbn [mbind res_bind].
  pose proof (be_combine_range u) as Hr. rewrite Hu in Hr. change (256 ^ Z.of_nat 16) with (2 ^ 128) in Hr.
  assert ((0 <=? be_combine u) && (be_combine u <? 2 ^ 128) = true) as ->.
  { rewrite andb_true_iff, Z.leb_le, Z.ltb_lt. lia. }
  f_equal. rewrite <-Hu. apply be_split_combine.
Qed.

(** ** Cookie text *)
Lemma concat_str_encode l : str_encode (concat_str l) = concat (str_encode <$> l).
Proof. induction l as [|s l IH]; [done|]. csimpl. by rewrite str_encode_app, IH. Qed.

Lemma join_lines L : L ≠ [] → concat ((λ l, l ++ [nl]) <$> L) = join [nl] L ++ [nl].
Proof.
  induction L as [|l L IH]; [done|]. intros _. csimpl. destruct L as [|l' L]; [by rewrite app_nil_r|].
  rewrite IH by done. change (join [nl] (l :: l' :: L)) with (l ++ [nl] ++ join [nl] (l' :: L)).
  by rewrite <-!app_assoc.
Qed.

Definition plain_str (s : string) : bool := forallb plain (str_encode s).
Lemma plain_str_Forall s : plain_str s = true → Forall (λ b, plain b = true) (str_encode s).
Proof. unfold plain_str. rewrite forallb_forall, Forall_forall. setoid_rewrite list_elem_of_In. done. Qed.

Lemma plain_not b l : plain b = false → Forall (λ b, plain b = true) l → b ∉ l.
Proof. intros Hb H Hin. rewrite Forall_forall in H. specialize (H b Hin). congruence. Qed.

(** Names of servers: visible, not empty, without separators. *)
Definition server_name (s : string) : bool :=
  plain_str s && bool_decide (s ≠ "") && bool_decide (Byte.x3b ∉ str_encode s ∧ Byte.x2c ∉ str_encode s).
Definition scope_url (s : string) : bool := plain_str s && bool_decide (s ≠ "").

Lemma nonempty_encode s : s ≠ "" → str_encode s ≠ [].
Proof. intros Hs E. apply Hs, str_encode_inj. by rewrite E. Qed.

Section Roundtrip.
Context `{Dates, Crypto}.

Definition line_of (p : string * string) : bytes := str_encode p.1 ++ Byte.x3a :: Byte.x20 :: str_encode p.2.

Lemma header_line_encode p : str_encode (header_line p) = line_of p ++ [nl].
Proof.
unfold header_line, line_of. rewrite !str_encode_app, str_encode_of_bytes.
change (str_encode ": ") with [Byte.x3a; Byte.x20]. by rewrite <-app_assoc.
Qed.

Lemma parse_header_line f p : Byte.x3a ∉ str_encode p.1 → plain_str p.2 = true →
parse_header f (line_of p) = set_header f (str_encode p.1) (str_encode p.2).
Proof.
intros Hk Hv. unfold parse_header, line_of. rewrite split1_app by done. cbn [of_option mbind res_bind].
by rewrite (proj2 (proj2 (str_strip_plain _ (plain_str_Forall _ Hv)))).
Qed.

Lemma filter_nonempty (l : list bytes) : Forall (λ s, s ≠ []) l → filter (λ s, s ≠ []) l = l.
Proof. induction 1 as [|s l Hs _ IH]; [done|]. rewrite filter_cons_True by done. by rewrite IH. Qed.

Lemma strip_all (l : list string) : Forall (λ s, plain_str s = true) l → str_strip <$> (str_encode <$> l) = str_encode <$> l.
Proof.
induction 1 as [|s l Hs _ IH]; [done|]. csimpl.
by rewrite (proj1 (str_strip_plain _ (plain_str_Forall _ Hs))), IH.
Qed.

Lemma of_bytes_all (l : list string) : of_bytes <$> (str_encode <$> l) = l.
Proof. induction l as [|s l IH]; [done|]. csimpl. by rewrite string_of_str_encode, IH. Qed.

Lemma parse_servers l : Forall (λ s, server_name s = true) l →
of_bytes <$> filter (λ s, s ≠ []) (str_strip <$> split_either (str_encode (join_str ";" l))) = l.
Proof.
intros Hl. unfold join_str. rewrite str_encode_of_bytes. change (str_encode ";") with [Byte.x3b].
destruct (decide (l = [])) as [->|Hne]; [by vm_compute|].
rewrite split_either_join.
- rewrite strip_all.
+ rewrite filter_nonempty, of_bytes_all; [done|]. apply Forall_fmap. eapply Forall_impl; [exact Hl|].
intros s Hs. unfold server_name in Hs. rewrite !andb_true_iff, !bool_decide_eq_true in Hs. cbn.
apply nonempty_encode. naive_solver.
+ eapply Forall_impl; [exact Hl|]. intros s Hs. unfold server_name in Hs. rewrite !andb_true_iff in Hs. naive_solver.
- by destruct l.
- apply Forall_fmap. eapply Forall_impl; [exact Hl|].
intros s Hs. unfold server_name in Hs. rewrite !andb_true_iff, !bool_decide_eq_true in Hs. naive_solver.
Qed.

Lemma parse_urls l : Forall (λ s, scope_url s = true) l →
of_bytes <$> filter (λ s, s ≠ []) (str_strip <$> split nl (join [nl] (str_encode <$> l) ++ [nl])) = l.
Proof.
intros Hl. destruct (decide (l = [])) as [->|Hne]; [by vm_compute|].
assert (Hp : Forall (λ s, plain_str s = true) l).
{ eapply Forall_impl; [exact Hl|]. unfold scope_url. intros s. rewrite andb_true_iff. naive_solver. }
rewrite <-join_lines by by destruct l.
assert (E : split nl (concat ((λ l, l ++ [nl]) <$> (str_encode <$> l))) = (str_encode <$> l) ++ [[]]).
{ clear Hl Hne. induction Hp as [|s l Hs _ IH]; [done|]. csimpl. rewrite <-app_assoc. cbn [app].
rewrite split_app_sep; [by rewrite IH|]. by apply plain_not, plain_str_Forall; [by vm_compute|]. }
rewrite E, fmap_app, strip_all, filter_app, filter_nonempty by
first [done|apply Forall_fmap; eapply Forall_impl; [exact Hl|]; unfold scope_url; intros s;
rewrite andb_true_iff, bool_decide_eq_true; intros [_ Hs]; by apply nonempty_encode].
rewrite fmap_app, of_bytes_all. by vm_compute (of_bytes <$> _ (str_strip <$> [[]])); rewrite app_nil_r.
Qed.

Lemma cookie_data_encode u servers scopeurls e blaster :
str_encode (cookie_data u servers scopeurls e blaster) =
join [nl] (line_of <$> headers u servers e blaster) ++ nl :: nl :: (join [nl] (str_encode <$> scopeurls) ++ [nl]).
Proof.
unfold cookie_data. rewrite !str_encode_app, concat_str_encode. unfold join_str. rewrite !str_encode_of_bytes.
rewrite <-list_fmap_compose.
assert (E : str_encode ∘ header_line <$> headers u servers e blaster =
(λ l, l ++ [nl]) <$> (line_of <$> headers u servers e blaster)).
{ rewrite <-list_fmap_compose. apply list_fmap_ext. intros ? p _. apply header_line_encode. }
rewrite E, join_lines by by destruct blaster. rewrite <-!app_assoc. done.
Qed.

Lemma plain_line_str s : plain_str s = true → Forall (λ b, line_char b = true) (str_encode s).
Proof. intros Hs. eapply Forall_impl; [by apply plain_str_Forall|]. apply plain_line. Qed.

Definition header_ok (p : string * string) : bool :=
plain_str p.1 && bool_decide (Byte.x3a ∉ str_encode p.1) && plain_str p.2.

Lemma header_ok_line p : header_ok p = true → line_of p ≠ [] ∧ Forall (λ b, line_char b = true) (line_of p).
Proof.
unfold header_ok. rewrite !andb_true_iff. intros [[H1 _] H2]. unfold line_of. split; [by destruct (str_encode p.1)|].
apply Forall_app. split; [by apply plain_line_str|].
repeat (constructor; [by vm_compute|]). by apply plain_line_str.
Qed.

Lemma join_plain l : Forall (λ s, server_name s = true) l → plain_str (join_str ";" l) = true.
Proof.
intros Hl. unfold plain_str, join_str. rewrite str_encode_of_bytes, forallb_forall.
enough (Forall (λ b, plain b = true) (join [Byte.x3b] (str_encode <$> l))) as Hf.
{ rewrite Forall_forall in Hf. intros b Hb. apply Hf. by apply list_elem_of_In. }
induction Hl as [|s l Hs Hl IH]; [constructor|]. csimpl.
assert (Hp : Forall (λ b, plain b = true) (str_encode s)).
{ apply plain_str_Forall. unfold server_name in Hs. rewrite !andb_true_iff in Hs. naive_solver. }
destruct l as [|s' l]; [done|]. change (Forall (λ b, plain b = true) (str_encode s ++ [Byte.x3b] ++ join [Byte.x3b] (str_encode <$> (s' :: l)))).
apply Forall_app. split; [done|]. apply Forall_app. split; [|done]. by repeat constructor.
Qed.

Lemma headers_ok u servers e blaster : plain_str (isoformat e) = true → Forall (λ s, server_name s = true) servers →
match blaster with Some b => plain_str b | None => true end = true →
Forall (λ p, header_ok p = true) (headers (of_bytes (uuid_str u)) servers e blaster).
Proof.
intros He Hs Hb. unfold headers.
assert (Hu : plain_str (of_bytes (uuid_str u)) = true).
{ unfold plain_str. rewrite str_encode_of_bytes, forallb_forall. intros b Hin.
apply uuid_char_plain. pose proof (uuid_str_chars u) as Hc. rewrite Forall_forall in Hc.
apply Hc. by apply list_elem_of_In. }
assert (Hok : ∀ k v, plain_str k && bool_decide (Byte.x3a ∉ str_encode k) = true → plain_str v = true → header_ok (k, v) = true).
{ intros k v Hk Hv. unfold header_ok. cbn [fst snd]. by rewrite Hk, Hv. }
apply Forall_app. split; [|destruct blaster; repeat constructor; by apply Hok].
repeat constructor; apply Hok; try (by vm_compute); try done. by apply join_plain.
Qed.

Lemma parse_headers_lines f l : Forall (λ p, header_ok p = true) l →
parse_headers f (line_of <$> l) = foldl (λ f p, f ← f; set_header f (str_encode p.1) (str_encode p.2)) (Ok f) l.
Proof.
intros Hl. assert (Hraise : ∀ l e, foldl (λ f p, f ← f; set_header f (str_encode p.1) (str_encode p.2)) (Raise e) l = Raise e).
{ clear. intros l e. induction l as [|p l IH]; [done|]. exact IH. }
revert f. induction Hl as [|p l Hp _ IH]; intros f; [done|]. csimpl. cbn [parse_headers foldl].
unfold header_ok in Hp. rewrite !andb_true_iff, bool_decide_eq_true in Hp.
rewrite parse_header_line by naive_solver. cbn [mbind res_bind].
destruct (set_header f _ _) as [f'|e']; [apply IH|by rewrite Hraise].
Qed.

Lemma parse_headers_headers u servers e blaster : length u = 16%nat →
plain_str (isoformat e) = true → date_parse (isoformat e) = Ok e → Forall (λ s, server_name s = true) servers →
match blaster with Some b => plain_str b | None => true end = true →
parse_headers (MkFields None None None None) (line_of <$> headers (of_bytes (uuid_str u)) servers e blaster) =
Ok (MkFields (Some u) (Some e) (Some servers) blaster).
Proof.
intros Hu He Hd Hs Hb. rewrite parse_headers_lines by by apply headers_ok. unfold headers.
rewrite foldl_app. cbn [foldl fst snd].
assert (Hv : ∀ f, set_header f (str_encode "Version") (str_encode (of_bytes (format_d COOKIE_VERSION))) = Ok f)
by (intros [? ? ? ?]; by vm_compute).
assert (Hset : ∀ f v, set_header f (str_encode "Serial") v =
match uuid_parse v with
| Ok u => Ok (MkFields (Some u) (h_expires f) (h_servers f) (h_blaster f))
| Raise e => if is_ValueError e then Raise ScopeError else Raise e end) by (intros; reflexivity).
assert (Hexp : ∀ f v, set_header f (str_encode "Expires") v =
match date_parse (of_bytes v) with
| Ok d => Ok (MkFields (h_serial f) (Some d) (h_servers f) (h_blaster f))
| Raise e => if is_ValueError e then Raise ScopeError else Raise e end) by (intros; reflexivity).
assert (Hsrv : ∀ f v, set_header f (str_encode "Servers") v =
Ok (MkFields (h_serial f) (h_expires f) (Some (of_bytes <$> filter (λ s, s ≠ []) (str_strip <$> split_either v))) (h_blaster f)))
by (intros; reflexivity).
assert (Hbl : ∀ f v, set_header f (str_encode "Blaster") v =
Ok (MkFields (h_serial f) (h_expires f) (h_servers f) (Some (of_bytes v)))) by (intros; reflexivity).
cbn [mbind res_bind]. rewrite Hv. cbn [mbind res_bind]. rewrite Hset, str_encode_of_bytes, uuid_roundtrip by done.
cbn [mbind res_bind]. rewrite Hexp, string_of_str_encode, Hd. cbn [mbind res_bind]. rewrite Hsrv, parse_servers by done.
destruct blaster as [b|]; cbn [foldl fst snd mbind res_bind]; [|done]. by rewrite Hbl, string_of_str_encode.
Qed.
End Roundtrip.

(** Taking the envelope off. *)
Lemma hexlify_ascii l : Forall (λ b, ascii b = true) (hexlify l).
Proof. eapply Forall_impl; [apply hexlify_lower|]. hex_cases. Qed.

Lemma encode_block c : utf8_valid (str_encode (cookie_text c)) = true →
  ∃ g, match_block (str_encode BOUNDARY_START) (str_encode BOUNDARY_END) (str_encode (encode c)) = Some (g, []) ∧
  b64decode g = Ok (str_encode (cookie_text c)) ∧ bytes_decode (str_encode (cookie_text c)) = Ok (cookie_text c).
Proof.
  intros Hv. set (x := b64encode (str_encode (cookie_text c))). exists (fill 64 x ++ [nl]).
  pose proof (b64encode_text (str_encode (cookie_text c))) as Hx. fold x in Hx. split_and!.
  - unfold encode. rewrite !str_encode_app, !str_encode_of_bytes. fold x.
    rewrite <-(app_nil_r (str_encode BOUNDARY_END)) at 2. rewrite (app_assoc (fill 64 x)).
    apply match_block_app; [by destruct (fill 64 x)| | |by vm_compute].
    + apply Forall_app. split; [by apply fill_class|]. repeat constructor.
    + intros b [= <-]. by vm_compute.
  - unfold b64decode. rewrite <-a2b_skip, filter_app, filter_fill.
    + rewrite app_nil_r. apply b64_roundtrip.
    + lia.
    + eapply Forall_impl; [exact Hx|]. by intros b Hb ->.
  - apply bytes_decode_Ok. done.
Qed.

Lemma cookie_text_encode c : str_encode (cookie_text c) = hexlify (signature c) ++ nl :: str_encode (data c).
Proof. unfold cookie_text. by rewrite !str_encode_app, !str_encode_of_bytes. Qed.

Lemma join_ascii L : Forall (λ l, Forall (λ b, ascii b = true) l) L → Forall (λ b, ascii b = true) (join [nl] L).
Proof.
  induction 1 as [|l L Hl H IH]; [constructor|]. destruct L as [|l' L]; [done|].
  change (join [nl] (l :: l' :: L)) with (l ++ [nl] ++ join [nl] (l' :: L)).
  apply Forall_app. split; [done|]. apply Forall_app. split; [by repeat constructor|done].
Qed.

Lemma encode_shape c : ∃ g, g ≠ [] ∧ Forall (λ b, in_class b = true) g ∧
  str_encode (encode c) = str_encode BOUNDARY_START ++ g ++ str_encode BOUNDARY_END.
Proof.
  set (x := b64encode (str_encode (cookie_text c))). exists (fill 64 x ++ [nl]). split_and!.
  - by destruct (fill 64 x).
  - apply Forall_app. split; [apply fill_class, b64encode_text|by repeat constructor].
  - unfold encode. rewrite !str_encode_app, !str_encode_of_bytes. by rewrite <-!app_assoc.
Qed.

Definition some_if_any {A} (l : list A) : option (list A) := match l with [] => None | l => Some l end.

Lemma map_server (c : ScopeCookie) (ss : list string) m l (s : string) : dict_get m s = some_if_any l →
  dict_get (foldl (λ m s, dict_set m s (default [] (dict_get m s) ++ [c])) m ss) s =
    some_if_any (l ++ ((λ _, c) <$> filter (λ x, x = s) ss)).
Proof.
  revert m l. induction ss as [|x ss IH]; intros m l Hm; [by rewrite app_nil_r|]. cbn [foldl].
  rewrite filter_cons. destruct (decide (x = s)) as [->|Hx].
  - csimpl. set (t := (λ _, c) <$> _). change (l ++ c :: t) with (l ++ [c] ++ t). rewrite app_assoc. apply IH. rewrite dict_get_set_eq, Hm. by destruct l.
  - apply IH. by rewrite dict_get_set_ne.
Qed.

Lemma check_certs_Ok now c certs : check_certs now c certs = Ok tt ↔
  ∃ cert, cert ∈ certs ∧ cert_verify_final cert (str_encode (data c)) (signature c) = 1 ∧
    cert_verify cert = 1 ∧ not_before cert <= now <= not_after cert.
Proof.
  induction certs as [|cert certs IH]; [split; [done|set_solver]|]. setoid_rewrite elem_of_cons.
  cbn [check_certs]. repeat case_decide; rewrite ?IH; [naive_solver..|].
  destruct (Z.ltb_spec now (not_before cert)); [rewrite IH; split; [naive_solver|]; intros (x & [->|?] & ?); [lia|naive_solver]|].
  destruct (Z.ltb_spec (not_after cert) now); [rewrite IH; split; [naive_solver|]; intros (x & [->|?] & ?); [lia|naive_solver]|].
  split; [|done]. intros _. exists cert. split_and!; [by left|lia..].
Qed.

Section Claims.
Context `{Dates, Crypto}.

(** C29.  A generated cookie, encoded to text, parses to the same cookie:
expiration, blaster, servers, scope URLs, the signed data and the signature are
those of the generated one, and so is the serial number as text; the parsed
cookie has it as a UUID.  The parsed cookie is encoded to the same text.  Names and
URLs are visible ASCII (they are Punycode and URL encoded), server names hold no
separator; the dates that [isoformat] prints are the dates that [dateutil]
parses. *)
Theorem cookie_roundtrip u servers scopeurls e keydata blaster c :
length u = 16%nat → Forall (λ s, server_name s = true) servers → Forall (λ s, scope_url s = true) scopeurls →
match blaster with Some b => plain_str b | None => true end = true →
plain_str (isoformat e) = true → date_parse (isoformat e) = Ok e →
generate u servers scopeurls e keydata blaster = Ok c →
∃ c', parse (encode c) = Ok c' ∧ c' = set_serial (SUuid u) c ∧
serial_str (serial c') = serial_str (serial c) ∧ encode c' = encode c.
Proof.
intros Hu Hs Hurl Hb He Hd Hg. unfold generate in Hg.
destruct (sign _ _) as [sig|]; [|done]. cbn [mbind res_bind] in Hg.
assert (Hoff : is_Some (offset e) ∧ c = MkCookie (SText (of_bytes (uuid_str u))) e blaster servers scopeurls
(cookie_data (of_bytes (uuid_str u)) servers scopeurls e blaster) sig).
{ unfold ScopeCookie_init in Hg. cbn [expires] in Hg. destruct (offset e); [|done]. split; [done|congruence]. }
destruct Hoff as [[z Hz] ->]. clear Hg. set (c := MkCookie _ _ _ _ _ _ _). exists (set_serial (SUuid u) c). split; [|by split_and!].
pose proof (headers_ok u servers e blaster He Hs Hb) as Hh.
assert (Hlines : Forall (λ l, l ≠ [] ∧ Forall (λ b, line_char b = true) l) (line_of <$> headers (of_bytes (uuid_str u)) servers e blaster)).
{ apply Forall_fmap. eapply Forall_impl; [exact Hh|]. intros p. apply header_ok_line. }
assert (Hdata : str_encode (data c) = join [nl] (line_of <$> headers (of_bytes (uuid_str u)) servers e blaster) ++
nl :: nl :: (join [nl] (str_encode <$> scopeurls) ++ [nl])) by apply cookie_data_encode.
assert (Hv : utf8_valid (str_encode (cookie_text c)) = true).
{ apply ascii_valid. rewrite cookie_text_encode, Hdata. apply Forall_app. split; [apply hexlify_ascii|].
constructor; [by vm_compute|]. apply Forall_app. split.
- apply join_ascii. eapply Forall_impl; [exact Hlines|]. intros l [_ Hl].
eapply Forall_impl; [exact Hl|]. intros b Hb'. unfold line_char, ascii in *.
rewrite andb_true_iff, !Z.leb_le in Hb'. apply Z.ltb_lt. lia.
- do 2 (constructor; [by vm_compute|]). apply Forall_app. split; [|by repeat constructor].
apply join_ascii, Forall_fmap. eapply Forall_impl; [exact Hurl|]. intros s Hu'. unfold scope_url in Hu'.
rewrite andb_true_iff in Hu'. eapply Forall_impl; [apply plain_str_Forall; naive_solver|]. apply plain_ascii. }
destruct (encode_block c Hv) as (g & Hm & Hg & Ht). unfold parse. rewrite Hm, Hg. cbn [mbind res_bind].
rewrite Ht. cbn [mbind res_bind]. rewrite cookie_text_encode, split1_app by by apply (hex_lower_not nl).
cbn [of_option mbind res_bind]. rewrite Hdata, split_blank_lines.
2:{ by destruct blaster. }
2:{ eapply Forall_impl; [exact Hlines|]. intros l [Hne Hl]. split; [done|]. by apply line_char_no_nl. }
cbn [of_option mbind res_bind].
assert (forallb (λ b, byte_Z b <? 128) (hexlify (signature c)) = true) as ->.
{ rewrite forallb_forall. intros b Hin. pose proof (hexlify_ascii (signature c)) as Ha.
rewrite Forall_forall in Ha. apply Ha. by apply list_elem_of_In. }
rewrite unhexlify_hexlify. cbn [mbind res_bind]. rewrite splitlines_join by done.
rewrite parse_headers_headers by done. cbn [mbind res_bind h_serial h_expires h_servers h_blaster].
rewrite parse_urls by done. unfold ScopeCookie_init. cbn [expires]. rewrite Hz, <-Hdata, string_of_str_encode. done.
Qed.

(** Cookies that are concatenated (one per proxy) are split again into the
same cookies. *)
Theorem split_concatenated cs : split_cookies (concat_str (encode <$> cs)) = encode <$> cs.
Proof.
unfold split_cookies. rewrite concat_str_encode.
assert (∀ fuel, (length (concat (str_encode <$> (encode <$> cs))) ≤ fuel)%nat →
findall fuel (str_encode BOUNDARY_START) (str_encode BOUNDARY_END) (concat (str_encode <$> (encode <$> cs))) =
str_encode <$> (encode <$> cs)) as E.
{ induction cs as [|c cs IH]; intros fuel Hf; [by destruct fuel|]. csimpl. csimpl in Hf.
destruct (encode_shape c) as (g & Hg & Hc & Ee). rewrite Ee in *.
assert (0 < length (str_encode BOUNDARY_START))%nat by (vm_compute; lia).
rewrite !length_app in Hf. destruct fuel as [|fuel]; [lia|].
assert (Hs : str_encode BOUNDARY_START = Byte.x2d :: tail (str_encode BOUNDARY_START)) by by vm_compute.
rewrite <-!app_assoc. rewrite Hs at 2. cbn [app findall].
change (Byte.x2d :: tail (str_encode BOUNDARY_START) ++ ?t) with ((Byte.x2d :: tail (str_encode BOUNDARY_START)) ++ t).
rewrite <-Hs, match_block_app by first [done|by vm_compute|by (intros b [= <-]; by vm_compute)].
rewrite IH; [done|]. lia. }
by rewrite E, of_bytes_all.
Qed.

(** C28.  A cookie is accepted exactly when it has not expired, names one of the
server's names, and a currently valid certificate of the server verifies its
signature (every certificate of the file must load). *)
Theorem verify_correct now servernames certdata c :
verify now servernames certdata c = Ok tt ↔
now <= instant (expires c) ∧ (∃ s, s ∈ servernames ∧ s ∈ servers c) ∧
∃ certs, mapM_res load_cert_string (find_certs certdata) = Ok certs ∧
∃ cert, cert ∈ certs ∧ cert_verify_final cert (str_encode (data c)) (signature c) = 1 ∧
cert_verify cert = 1 ∧ not_before cert <= now <= not_after cert.
Proof.
unfold verify. destruct (Z.ltb_spec (instant (expires c)) now); [split; [done|lia]|].
case_bool_decide as Hn; rewrite Exists_exists in Hn; [|split; [done|naive_solver]].
destruct (mapM_res _ _) as [certs|err]; cbn [mbind res_bind]; [|split; [done|naive_solver]].
transitivity (∃ cert, cert ∈ certs ∧ cert_verify_final cert (str_encode (data c)) (signature c) = 1 ∧
cert_verify cert = 1 ∧ not_before cert <= now <= not_after cert); [apply check_certs_Ok|naive_solver].
Qed.

(** The server map lists, for every server, the cookies that name it, in
order (once per mention); servers without cookies are not in the map. *)
Theorem cookie_map_correct cs s :
dict_get (get_cookie_map cs) s = some_if_any (c ← cs; (λ _, c) <$> filter (λ x, x = s) (servers c)).
Proof.
unfold get_cookie_map.
enough (∀ m l, dict_get m s = some_if_any l →
dict_get (foldl (λ m c, foldl (λ m s, dict_set m s (default [] (dict_get m s) ++ [c])) m (servers c)) m cs) s =
some_if_any (l ++ (c ← cs; (λ _, c) <$> filter (λ x, x = s) (servers c)))) as G by by apply (G [] []).
induction cs as [|c cs IH]; intros m l Hm; [by rewrite app_nil_r|]. csimpl. rewrite app_assoc.
apply IH. by apply map_server.
Qed.
End Claims.

(** ** A concrete cookie *)
Definition new_year : datetime := MkDatetime 1893456000 (Some 0).
#[local] Instance sample_dates : Dates := {|
  date_parse s := if decide (s = "2030-01-01T00:00:00+00:00") then Ok new_year else Raise ValueError;
  isoformat _ := "2030-01-01T00:00:00+00:00"
|}.
#[local] Instance sample_crypto : Crypto := {|
  sign key data := Ok (key ++ take 8 data);
  load_cert_string s := Ok (MkCert (λ data sig, if decide (sig = Byte.x6b :: take 8 data) then 1 else 0) 1 0 2000000000)
|}.

Definition sample_uuid : bytes := be_split 16 0x123456789abcdef0fedcba9876543210.
Definition sample_cookie : ScopeCookie :=
  MkCookie (SText (of_bytes (uuid_str sample_uuid))) new_year (Some "https://b.example/") ["s1.example"; "10.0.0.2"]
    ["/collection/a"; "/dir/b?x=1"] (cookie_data (of_bytes (uuid_str sample_uuid)) ["s1.example"; "10.0.0.2"] ["/collection/a"; "/dir/b?x=1"] new_year (Some "https://b.example/"))
    (Byte.x6b :: str_encode "Version:").

Lemma cookie_roundtrip_witness :
  serial_str (serial sample_cookie) = "12345678-9abc-def0-fedc-ba9876543210" ∧
  ∃ c', parse (encode sample_cookie) = Ok c' ∧ c' = set_serial (SUuid sample_uuid) sample_cookie ∧
    serial_str (serial c') = serial_str (serial sample_cookie) ∧ encode c' = encode sample_cookie.
Proof.
  split; [by vm_compute|].
  refine (cookie_roundtrip sample_uuid ["s1.example"; "10.0.0.2"] ["/collection/a"; "/dir/b?x=1"] new_year "k"
    (Some "https://b.example/") sample_cookie _ _ _ _ _ _ _); try by vm_compute.
  all: repeat (constructor; [by vm_compute|]); constructor.
Defined.

(** It is accepted until it expires, and split out of surrounding text. *)
Example sample_verify :
  (λ now, verify now ["10.0.0.2"] (CERT_BEGIN +:+ "QUJD" +:+ CERT_END) sample_cookie) <$> [1800000000; 1900000000] =
    [Ok tt; Raise ScopeCookieExpired] ∧
  split_cookies ("junk" +:+ encode sample_cookie +:+ "-----" +:+ encode sample_cookie) = [encode sample_cookie; encode sample_cookie].
Proof. by vm_compute. Qed.

(** The serial number of a cookie has another type when it is generated than when
    it is parsed, so the two cookies are not equal. *)
Example serial_types : parse (encode sample_cookie) ≠ Ok sample_cookie ∧
  serial sample_cookie = SText "12345678-9abc-def0-fedc-ba9876543210" ∧
  (serial <$> match parse (encode sample_cookie) with Ok c => Some c | _ => None end) = Some (SUuid sample_uuid).
Proof. split_and!; [vm_compute; congruence|by vm_compute..]. Qed.

(** Text that is not Base 64, or a header line without a colon, is not reported
    as a [ScopeError]. *)
Example sample_bad_cookies :
  parse (BOUNDARY_START +:+ "QUJ" +:+ BOUNDARY_END) = Raise BinasciiError ∧
  parse (encode (MkCookie (SUuid sample_uuid) new_year None [] [] ("Version: 1" +:+ of_bytes [nl] +:+ "bad" +:+ of_bytes [nl; nl]) [])) = Raise ValueError.
Proof. by vm_compute. Qed.
