(* ===== verification/Listen.v ===== *)
(** Pairing control and data connections (src/opendiamond/server/listen.py).

    Connections are named by numbers that are not reused.  The polling loop
    holds references to the connections of the current round, which keeps them in
    the weak map of nonces; all other dead connections are gone at once. *)
From S2P Require Import Prelude PyBytes Protocol.

Abbreviation conn := nat.

(** What a socket has received and what was sent on it, during the pairing. *)
Record socket := Socket { s_in : bytes; s_out : bytes }.

(** [_PendingConn.nonce] by connection, the poll set, the weak map
    [_nonce_to_pending], and the references that the polling loop holds. *)
Record listener := Listener {
  sockets : gmap conn socket;
  nonces : gmap conn bytes;
  registered : gset conn;
  nonce_to_pending : gmap bytes conn;
  held : gset conn
}.

Definition set_sockets x (l : listener) := Listener x (nonces l) (registered l) (nonce_to_pending l) (held l).
Definition set_nonces x (l : listener) := Listener (sockets l) x (registered l) (nonce_to_pending l) (held l).
Definition set_registered x (l : listener) := Listener (sockets l) (nonces l) x (nonce_to_pending l) (held l).
Definition set_pending x (l : listener) := Listener (sockets l) (nonces l) (registered l) x (held l).
Definition set_held x (l : listener) := Listener (sockets l) (nonces l) (registered l) (nonce_to_pending l) x.

Definition empty_listener : listener := Listener ∅ ∅ ∅ ∅ ∅.

(** What [recv] finds: bytes (none at end of file), or an error. *)
Inductive recv := Available (b : bytes) | RecvError.

(** Readiness: connections waiting at a listening socket, with the verdict of
    [connection_ok]; traffic on a pending connection, with what [recv] finds, the
    bytes that [urandom] would give and whether [sendall] works. *)
Inductive ready :=
  | Incoming (conns : list (conn * bool))
  | Traffic (c : conn) (r : recv) (urandom : bytes) (sendable : bool).

Inductive kind := CONTROL | DATA.

Section Listener.

Definition socket_of (c : conn) (l : listener) : socket := default (Socket [] []) (sockets l !! c).
Definition nonce_of (c : conn) (l : listener) : bytes := default [] (nonces l !! c).

Definition recv_some (c : conn) (n : nat) (r : recv) : sm listener bytes := λ l,
match r with
| RecvError => (Raise OSError, l)
| Available b =>
let b := take n b in
(Ok b, set_sockets (<[c := Socket (s_in (socket_of c l) ++ b) (s_out (socket_of c l))]> (sockets l)) l)
end.
Definition set_nonce (c : conn) (n : bytes) : sm listener unit := modify (λ l, set_nonces (<[c := n]> (nonces l)) l).

(** [_PendingConn.read_nonce] *)
Definition read_nonce (c : conn) (r : recv) (urandom : bytes) : sm listener (option kind) :=
nonce ← gets (nonce_of c);
if decide (length nonce < NONCE_LEN)%nat then
data ← recv_some c (NONCE_LEN - length nonce) r;
if decide (data = []) then fail ConnectionClosed else
let nonce := nonce ++ data in
set_nonce c nonce ≫= λ _,
if decide (length nonce = NONCE_LEN) then
if decide (nonce = NULL_NONCE) then set_nonce c urandom ≫= λ _, mret (Some CONTROL)
else mret (Some DATA)
else mret None
else fail ConnectionClosed.

(** [_PendingConn.send_nonce] *)
Definition send_nonce (c : conn) (sendable : bool) : sm listener unit := λ l,
if sendable then
(Ok tt, set_sockets (<[c := Socket (s_in (socket_of c l)) (s_out (socket_of c l) ++ nonce_of c l)]> (sockets l)) l)
else (Raise ConnectionClosed, l).

(** [_PendingConnPollSet.register] and [unregister] *)
Definition register (c : conn) : sm listener unit := modify (λ l, set_registered ({[c]} ∪ registered l) l).
Definition unregister (c : conn) : sm listener unit := λ l,
if decide (c ∈ registered l) then (Ok tt, set_registered (registered l ∖ {[c]}) l) else (Raise KeyError, l).

(** A look-up in the weak map finds live connections only. *)
Definition alive (c : conn) (l : listener) : Prop := c ∈ registered l ∨ c ∈ held l.
#[global] Instance alive_dec c l : Decision (alive c l).
Proof. unfold alive. apply _. Defined.
Definition pending_of (nonce : bytes) (l : listener) : option conn :=
match nonce_to_pending l !! nonce with
| Some c => if decide (alive c l) then Some c else None
| None => None
end.

(** [_accept] *)
Definition accept_conns (conns : list (conn * bool)) : sm listener unit :=
mapM_sm (λ p : conn * bool, if p.2 then set_nonce p.1 [] ≫= λ _, register p.1 else mret tt) conns ≫= λ _, mret tt.

(** [_traffic] *)
Definition traffic (c : conn) (r : recv) (urandom : bytes) (sendable : bool) : sm listener (option (conn * conn)) :=
try_with
(ret ← read_nonce c r urandom;
 match ret with
 | None => mret None
 | Some CONTROL =>
 send_nonce c sendable ≫= λ _,
 nonce ← gets (nonce_of c);
 modify (λ l, set_pending (<[nonce := c]> (nonce_to_pending l)) l) ≫= λ _, mret None
 | Some DATA =>
 nonce ← gets (nonce_of c);
 control ← gets (pending_of nonce);
 match control with
 | Some control =>
 send_nonce c sendable ≫= λ _, unregister control ≫= λ _, unregister c ≫= λ _, mret (Some (control, c))
 | None => unregister c ≫= λ _, mret None
 end
 end)
(λ e, bool_decide (e = ConnectionClosed))
(λ _, unregister c ≫= λ _, mret None).

(** One round of [accept]: the events of a [poll]. *)
Fixpoint accept_round (events : list ready) : sm listener (option (conn * conn)) :=
match events with
| [] => mret None
| Incoming conns :: events => accept_conns conns ≫= λ _, accept_round events
| Traffic c r u s :: events =>
ret ← traffic c r u s;
match ret with Some found => mret (Some found) | None => accept_round events end
end.

Definition event_conn (e : ready) : list conn := match e with Incoming _ => [] | Traffic c _ _ _ => [c] end.

(** [accept]: rounds until a pair is found; [None] when the given rounds do not
suffice. *)
Fixpoint accept (polls : list (list ready)) : sm listener (option (conn * conn)) :=
match polls with
| [] => mret None
| events :: polls =>
modify (set_held (list_to_set (events ≫= event_conn))) ≫= λ _,
ret ← accept_round events;
modify (set_held ∅) ≫= λ _,
match ret with Some found => mret (Some found) | None => accept polls end
end.

(** [shutdown] *)
Definition shutdown (l : listener) : listener := set_registered ∅ l.
End Listener.

(** ** Invariant *)
Definition conn_ok (l : listener) (c : conn) : Prop :=
  let n := nonce_of c l in let k := socket_of c l in
  (length n < NONCE_LEN ∧ k = Socket n [])%nat ∨
  (length n = NONCE_LEN ∧ ((n ≠ NULL_NONCE ∧ s_in k = n) ∨ s_in k = NULL_NONCE)).

Definition pending_ok (l : listener) : Prop :=
  ∀ n c, nonce_to_pending l !! n = Some c → nonce_of c l = n ∧ length n = NONCE_LEN ∧ socket_of c l = Socket NULL_NONCE n.

Definition listener_inv (l : listener) : Prop := (∀ c, conn_ok l c) ∧ pending_ok l.

(** New connections are new; [urandom] gives as many bytes as it is asked for. *)
Definition event_ok (l : listener) (e : ready) : Prop :=
  match e with
  | Incoming conns => Forall (λ c, sockets l !! c = None ∧ nonce_of c l = []) conns.*1
  | Traffic _ _ u _ => length u = NONCE_LEN
  end.

Fixpoint round_ok (events : list ready) (l : listener) : Prop :=
  match events with [] => True | e :: es => event_ok l e ∧ round_ok es (accept_round [e] l).2 end.
Definition start_round (events : list ready) (l : listener) : listener :=
  set_held (list_to_set (events ≫= event_conn)) l.
Fixpoint polls_ok (polls : list (list ready)) (l : listener) : Prop :=
  match polls with
  | [] => True
  | events :: polls =>
    round_ok events (start_round events l) ∧ polls_ok polls (set_held ∅ (accept_round events (start_round events l)).2)
  end.

#[global] Instance event_ok_dec l e : Decision (event_ok l e).
Proof. destruct e; cbn [event_ok]; apply _. Defined.
#[global] Instance round_ok_dec events l : Decision (round_ok events l).
Proof. revert l. induction events; intros l; cbn [round_ok]; apply _. Defined.
#[global] Instance polls_ok_dec polls l : Decision (polls_ok polls l).
Proof. revert l. induction polls; intros l; cbn [polls_ok]; apply _. Defined.

Lemma nonce_of_set c c' n l : nonce_of c' (set_nonces (<[c := n]> (nonces l)) l) = if decide (c = c') then n else nonce_of c' l.
Proof. unfold nonce_of, set_nonces. cbn. case_decide; subst; [by rewrite lookup_insert_eq|by rewrite lookup_insert_ne]. Qed.
Lemma socket_of_set c c' k l : socket_of c' (set_sockets (<[c := k]> (sockets l)) l) = if decide (c = c') then k else socket_of c' l.
Proof. unfold socket_of, set_sockets. cbn. case_decide; subst; [by rewrite lookup_insert_eq|by rewrite lookup_insert_ne]. Qed.

Lemma set_registered_inv x l : listener_inv l → listener_inv (set_registered x l).
Proof. done. Qed.
Lemma set_held_inv x l : listener_inv l → listener_inv (set_held x l).
Proof. done. Qed.

Lemma unregister_inv c l r l' : listener_inv l → unregister c l = (r, l') → listener_inv l'.
Proof. unfold unregister. intros Hl. case_decide; intros [= <- <-]; [by apply set_registered_inv|done]. Qed.

Lemma update_inv c l l' : listener_inv l → (length (nonce_of c l) < NONCE_LEN)%nat →
  (∀ c', c' ≠ c → nonce_of c' l' = nonce_of c' l ∧ socket_of c' l' = socket_of c' l) →
  conn_ok l' c → nonce_to_pending l' = nonce_to_pending l → listener_inv l'.
Proof.
  intros [Hc Hp] Hlt Ho Hn E. split.
  - intros c'. destruct (decide (c' = c)) as [->|Hne]; [done|].
    unfold conn_ok. destruct (Ho c' Hne) as [-> ->]. apply Hc.
  - intros n c' Hn'. rewrite E in Hn'. destruct (Hp n c' Hn') as (H1 & H2 & H3).
    assert (c' ≠ c) by (intros ->; subst n; lia). destruct (Ho c') as [-> ->]; done.
Qed.

(** Reading: the invariant, and what the result says of the connection. *)
Lemma read_nonce_inv c r u l k l' : listener_inv l → length u = NONCE_LEN → read_nonce c r u l = (k, l') →
  listener_inv l' ∧ registered l' = registered l ∧ held l' = held l ∧ nonce_to_pending l' = nonce_to_pending l ∧
  match k with
  | Ok (Some CONTROL) => nonce_of c l' = u ∧ socket_of c l' = Socket NULL_NONCE []
  | Ok (Some DATA) => length (nonce_of c l') = NONCE_LEN ∧ nonce_of c l' ≠ NULL_NONCE ∧ socket_of c l' = Socket (nonce_of c l') []
  | _ => True
  end.
Proof.
  intros Hinv Hu. unfold read_nonce. erewrite sm_bind_eq by reflexivity. cbv beta.
  destruct (decide (length (nonce_of c l) < NONCE_LEN)%nat) as [Hlt|Hge]; [|by intros [= <- <-]].
  destruct r as [b|]; [|by intros [= <- <-]].
  assert (Hs : socket_of c l = Socket (nonce_of c l) []) by (destruct Hinv as [Hc _]; destruct (Hc c); [naive_solver|lia]).
  set (b' := take (NONCE_LEN - length (nonce_of c l)) b). set (n := nonce_of c l ++ b').
  assert (Hn : (length n ≤ NONCE_LEN)%nat) by (unfold n, b'; rewrite length_app, length_take; lia).
  set (l1 := set_sockets (<[c:=Socket (s_in (socket_of c l) ++ b') (s_out (socket_of c l))]> (sockets l)) l).
  erewrite sm_bind_eq by reflexivity. cbv beta. fold b' n.
  assert (H1 : ∀ c', nonce_of c' l1 = nonce_of c' l) by done.
  assert (H2 : ∀ c', socket_of c' l1 = if decide (c = c') then Socket n [] else socket_of c' l).
  { intros c'. unfold l1. rewrite socket_of_set, Hs. done. }
  destruct (decide (b' = [])) as [E|Hb].
  { intros [= <- <-]. split; [|done]. apply (update_inv c l); try done.
    - intros c' Hne. rewrite H1, H2, decide_False by done. done.
    - left. rewrite H1, H2, decide_True by done. unfold n. by rewrite E, app_nil_r. }
  erewrite sm_bind_eq by reflexivity. cbv beta.
  set (l2 := set_nonces (<[c := n]> (nonces l1)) l1).
  assert (H3 : ∀ c', nonce_of c' l2 = if decide (c = c') then n else nonce_of c' l) by exact (λ c', nonce_of_set c c' n l1).
  assert (H4 : ∀ c', socket_of c' l2 = socket_of c' l1) by done.
  assert (Ho : ∀ c', c' ≠ c → nonce_of c' l2 = nonce_of c' l ∧ socket_of c' l2 = socket_of c' l).
  { intros c' Hne. by rewrite H3, H4, H2, !decide_False by done. }
  destruct (decide (length n = NONCE_LEN)) as [Hlen|Hlen].
  2:{ intros [= <- <-]. split; [|done]. apply (update_inv c l); try done. left.
      rewrite H3, H4, H2, !decide_True by done. split; [lia|done]. }
  destruct (decide (n = NULL_NONCE)) as [Hnull|Hnull].
  - erewrite sm_bind_eq by reflexivity. intros [= <- <-]. set (l3 := set_nonces (<[c := u]> (nonces l2)) l2).
    assert (H5 : ∀ c', nonce_of c' l3 = if decide (c = c') then u else nonce_of c' l2) by (intros; by apply nonce_of_set).
    assert (H6 : ∀ c', socket_of c' l3 = socket_of c' l2) by done.
    assert (Hk : nonce_of c l3 = u ∧ socket_of c l3 = Socket NULL_NONCE [])
      by by rewrite H5, H6, H4, H2, !decide_True, Hnull by done.
    split; [|done]. apply (update_inv c l); try done.
    + intros c' Hne. rewrite H5, H6, decide_False by done. by apply Ho.
    + change (conn_ok l3 c). unfold conn_ok. cbv zeta. right. rewrite (proj1 Hk), (proj2 Hk). split; [done|by right].
  - intros [= <- <-]. assert (Hk : nonce_of c l2 = n ∧ socket_of c l2 = Socket n [])
      by by rewrite H3, H4, H2, !decide_True by done.
    destruct Hk as [Hk1 Hk2].
    assert (F : length (nonce_of c l2) = NONCE_LEN ∧ nonce_of c l2 ≠ NULL_NONCE ∧ socket_of c l2 = Socket (nonce_of c l2) [])
      by by rewrite Hk1, Hk2.
    refine (conj _ (conj eq_refl (conj eq_refl (conj eq_refl F)))).
    apply (update_inv c l); try done. change (conn_ok l2 c). unfold conn_ok. cbv zeta. right. rewrite Hk1, Hk2. split; [done|by left].
Qed.

Lemma accept_conns_inv conns l : listener_inv l → (∀ c, c ∈ conns.*1 → sockets l !! c = None ∧ nonce_of c l = []) →
  ∃ l', accept_conns conns l = (Ok tt, l') ∧ listener_inv l'.
Proof.
  intros Hinv Hnew. unfold accept_conns.
  enough (∃ us l', mapM_sm (λ p : conn * bool, if p.2 then set_nonce p.1 [] ≫= λ _, register p.1 else mret tt) conns l =
    (Ok us, l') ∧ listener_inv l') as (us & l' & E & Hl').
  { exists l'. by erewrite sm_bind_eq by exact E. }
  revert l Hinv Hnew. induction conns as [|[c ok] conns IH]; intros l Hinv Hnew; [by exists [], l|].
  cbn [mapM_sm snd fst]. set (l1 := if ok then set_registered ({[c]} ∪ registered l) (set_nonces (<[c := []]> (nonces l)) l) else l).
  assert (E : (if ok then set_nonce c [] ≫= λ _, register c else mret tt) l = (Ok tt, l1)) by by destruct ok.
  erewrite sm_bind_eq by exact E.
  assert (Hn : ∀ c', nonce_of c' l1 = nonce_of c' l).
  { intros c'. unfold l1. destruct ok; [|done]. change (nonce_of c' (set_nonces (<[c := []]> (nonces l)) l) = nonce_of c' l).
    rewrite nonce_of_set. case_decide; [subst|done]. symmetry. apply Hnew. csimpl. set_solver. }
  assert (Hs : ∀ c', socket_of c' l1 = socket_of c' l) by (intros; unfold l1; by destruct ok).
  destruct (IH l1) as (us & l' & E' & Hl').
  - destruct Hinv as [Hc Hp]. split; [intros c'; unfold conn_ok; rewrite Hn, Hs; apply Hc|].
    intros n c' H. rewrite Hn, Hs. apply Hp. revert H. unfold l1. by destruct ok.
  - intros c' Hc'. rewrite Hn. assert (sockets l1 = sockets l) as -> by (unfold l1; by destruct ok).
    apply Hnew. csimpl. set_solver.
  - exists (tt :: us), l'. by erewrite sm_bind_eq by exact E'.
Qed.

(** A pair: the first received the null nonce and was sent [n], the second
    received [n] and was sent it back; both are out of the poll set. *)
Definition paired (control data : conn) (l : listener) : Prop :=
  ∃ n, length n = NONCE_LEN ∧ n ≠ NULL_NONCE ∧ socket_of control l = Socket NULL_NONCE n ∧ socket_of data l = Socket n n ∧
    control ∉ registered l ∧ data ∉ registered l.

Lemma handed_inv c u l : listener_inv l → length u = NONCE_LEN → nonce_of c l = u → socket_of c l = Socket NULL_NONCE [] →
  let l1 := set_sockets (<[c := Socket (s_in (socket_of c l)) (s_out (socket_of c l) ++ nonce_of c l)]> (sockets l)) l in
  listener_inv (set_pending (<[nonce_of c l1 := c]> (nonce_to_pending l1)) l1).
Proof.
  intros [Hc Hp] Hu Hn Hs l1.
  assert (H1 : ∀ c', nonce_of c' l1 = nonce_of c' l) by done.
  assert (H2 : ∀ c', socket_of c' l1 = if decide (c = c') then Socket NULL_NONCE u else socket_of c' l).
  { intros c'. unfold l1. by rewrite socket_of_set, Hs, Hn. }
  set (l2 := set_pending _ l1).
  assert (H3 : ∀ c', nonce_of c' l2 = nonce_of c' l) by done.
  assert (H4 : ∀ c', socket_of c' l2 = socket_of c' l1) by done.
  split.
  - intros c'. unfold conn_ok. rewrite H3, H4, H2. case_decide as E; [subst c'|apply Hc].
    right. rewrite Hn. split; [done|by right].
  - intros n c' E. change ((<[nonce_of c l := c]> (nonce_to_pending l)) !! n = Some c') in E.
    rewrite H3, H4, H2. apply lookup_insert_Some in E as [[<- <-]|[_ E]].
    + rewrite decide_True by done. by rewrite Hn.
    + destruct (Hp _ _ E) as (E1 & E2 & E3). case_decide as Ec; [|done]. subst c'. rewrite Hs in E3.
      injection E3 as <-. done.
Qed.

Lemma answered_inv c l : listener_inv l → length (nonce_of c l) = NONCE_LEN → nonce_of c l ≠ NULL_NONCE →
  socket_of c l = Socket (nonce_of c l) [] →
  listener_inv (set_sockets (<[c := Socket (nonce_of c l) (nonce_of c l)]> (sockets l)) l).
Proof.
  intros [Hc Hp] Hlen Hnull Hs. set (l1 := set_sockets _ l).
  assert (H1 : ∀ c', nonce_of c' l1 = nonce_of c' l) by done.
  assert (H2 : ∀ c', socket_of c' l1 = if decide (c = c') then Socket (nonce_of c l) (nonce_of c l) else socket_of c' l)
    by (intros c'; unfold l1; by rewrite socket_of_set).
  split.
  - intros c'. unfold conn_ok. rewrite H1, H2. case_decide as E; [subst c'|apply Hc].
    right. split; [done|by left].
  - intros n c' E. destruct (Hp n c' E) as (E1 & E2 & E3). rewrite H1, H2.
    case_decide as Ec; [|done]. subst c'. rewrite Hs in E3. congruence.
Qed.

Lemma traffic_inv c r u s l k l' : listener_inv l → length u = NONCE_LEN → traffic c r u s l = (k, l') →
  listener_inv l' ∧ match k with Ok (Some (control, data)) => paired control data l' | _ => True end.
Proof.
  intros Hinv Hu. unfold traffic, try_with, mbind, sm_bind.
  destruct (read_nonce c r u l) as [k0 l0] eqn:E.
  destruct (read_nonce_inv c r u l k0 l0 Hinv Hu E) as (Hinv0 & _ & _ & _ & Hk).
  assert (Hun : ∀ l1, listener_inv l1 → ∀ k l', match unregister c l1 with
    | (Ok _, s) => (Ok (@None (conn * conn)), s) | (Raise e, s) => (Raise e, s) end = (k, l') →
    listener_inv l' ∧ match k with Ok (Some (control, data)) => paired control data l' | _ => True end).
  { intros l1 Hl1 k1 l1'. destruct (unregister c l1) as [[[]|] l2] eqn:Eu; intros [= <- <-];
      (split; [by eapply unregister_inv|done]). }
  destruct k0 as [[[|]|]|e].
  - destruct Hk as [Hn Hs]. unfold send_nonce. destruct s; [|by apply Hun].
    intros [= <- <-]. split; [|done]. by apply (handed_inv c u).
  - destruct Hk as (Hlen & Hnull & Hs). cbn [gets].
    destruct (pending_of (nonce_of c l0) l0) as [ctl|] eqn:Ep.
    2:{ destruct (unregister c l0) as [[[]|e] l2] eqn:Eu; cbn beta iota; assert (listener_inv l2) by by eapply unregister_inv.
        - by intros [= <- <-].
        - case_bool_decide; [by apply Hun|by intros [= <- <-]]. }
    assert (Hp : nonce_of ctl l0 = nonce_of c l0 ∧ socket_of ctl l0 = Socket NULL_NONCE (nonce_of c l0)).
    { destruct Hinv0 as [_ Hp]. unfold pending_of in Ep. destruct (nonce_to_pending l0 !! _) as [c1|] eqn:E1; [|done].
      case_decide; [|done]. injection Ep as ->. destruct (Hp _ _ E1) as (? & ? & ?). done. }
    destruct Hp as [Hp1 Hp2]. unfold send_nonce. destruct s; [|by apply Hun].
    assert (Hne : ctl ≠ c) by (intros ->; rewrite Hs in Hp2; congruence).
    rewrite Hs. set (l1 := set_sockets _ l0). cbv beta iota.
    assert (Hinv1 : listener_inv l1) by by apply answered_inv.
    assert (Hsock : socket_of ctl l1 = Socket NULL_NONCE (nonce_of c l0) ∧ socket_of c l1 = Socket (nonce_of c l0) (nonce_of c l0)).
    { unfold l1. rewrite !socket_of_set, decide_False, decide_True by done. done. }
    clearbody l1. unfold unregister at 1. destruct (decide (ctl ∈ registered l1)) as [H1|H1].
    2:{ rewrite bool_decide_false by done. by intros [= <- <-]. }
    unfold unregister at 1. destruct (decide (c ∈ registered (set_registered _ l1))) as [H2|H2].
    2:{ rewrite bool_decide_false by done. by intros [= <- <-]. }
    intros [= <- <-]. split; [by apply set_registered_inv|]. exists (nonce_of c l0).
    destruct Hsock as [Hs1 Hs2]. split_and!; [done|done|exact Hs1|exact Hs2|cbn; set_solver|cbn; set_solver].
  - by intros [= <- <-].
  - case_bool_decide; [by apply Hun|by intros [= <- <-]].
Qed.

Definition pair_ok (r : res (option (conn * conn))) (l : listener) : Prop :=
  match r with Ok (Some (control, data)) => paired control data l | _ => True end.

Lemma accept_round_inv events l r l' : listener_inv l → round_ok events l → accept_round events l = (r, l') →
  listener_inv l' ∧ pair_ok r l'.
Proof.
  revert l. induction events as [|e events IH]; intros l Hl; [by intros _ [= <- <-]|].
  intros [He Hok]. destruct e as [conns|c rc u s]; cbn [accept_round] in *.
  - destruct (accept_conns_inv conns l Hl (proj1 (Forall_forall _ _) He)) as (l1 & E & Hl1). unfold mbind, sm_bind in *. rewrite E in *. cbn in Hok. by apply IH.
  - unfold mbind, sm_bind in *. destruct (traffic c rc u s l) as [k l1] eqn:E.
    destruct (traffic_inv c rc u s l k l1 Hl He E) as [Hl1 Hk].
    destruct k as [[[ctl d]|]|e]; [by intros [= <- <-]|by apply IH|by intros [= <- <-]].
Qed.

Lemma accept_inv polls l r l' : listener_inv l → polls_ok polls l → accept polls l = (r, l') →
  listener_inv l' ∧ pair_ok r l'.
Proof.
  revert l. induction polls as [|events polls IH]; intros l Hl; [by intros _ [= <- <-]|].
  intros [Hround Hok]. cbn [accept]. erewrite sm_bind_eq by reflexivity. cbv beta. unfold mbind at 1, sm_bind at 1.
  fold (start_round events l). destruct (accept_round events (start_round events l)) as [k l1] eqn:E.
  cbn [snd] in Hok. destruct (accept_round_inv _ _ _ _ (set_held_inv _ _ Hl) Hround E) as [Hl1 Hk].
  destruct k as [[[ctl d]|]|e]; [|erewrite sm_bind_eq by reflexivity; by apply IH|by intros [= <- <-]].
  erewrite sm_bind_eq by reflexivity. intros [= <- <-]. done.
Qed.

Lemma empty_inv : listener_inv empty_listener.
Proof.
  split.
  - intros c. left. unfold nonce_of, socket_of. cbn. rewrite !lookup_empty. split; [unfold NONCE_LEN; cbn; lia|done].
  - intros n c H. cbn in H. by rewrite lookup_empty in H.
Qed.

(** C23.  The two connections that [accept] returns belong together: the control
    connection sent the null nonce and was given a nonce; the data connection
    sent exactly that nonce and got it back.  Both are out of the poll set, so
    neither can be paired again. *)
Theorem accept_pairs polls l' control data : polls_ok polls empty_listener →
  accept polls empty_listener = (Ok (Some (control, data)), l') →
  ∃ n, length n = NONCE_LEN ∧ n ≠ NULL_NONCE ∧
    socket_of control l' = Socket NULL_NONCE n ∧ socket_of data l' = Socket n n ∧
    control ∉ registered l' ∧ data ∉ registered l'.
Proof.
  intros Hok E.
  exact (proj2 (accept_inv _ _ _ _ empty_inv Hok E)).
Qed.

(** C37.  A waiting control connection is paired as soon as a data connection has
    delivered its nonce, however the nonce is cut into pieces: when the rest of
    the nonce arrives, the pair is returned. *)
Theorem data_connection_paired l control data read rest u :
  listener_inv l → control ∈ registered l → data ∈ registered l → control ≠ data →
  nonce_to_pending l !! (read ++ rest) = Some control → read ++ rest ≠ NULL_NONCE →
  nonce_of data l = read → rest ≠ [] →
  (traffic data (Available rest) u true l).1 = Ok (Some (control, data)).
Proof.
  intros [Hc Hp] Hctl Hdata Hne Hn Hnull Hread Hrest. destruct (Hp _ _ Hn) as (Hn1 & Hlen & Hs1).
  rewrite length_app in Hlen. assert (0 < length rest)%nat by (destruct rest; [done|simpl; lia]).
  unfold traffic, try_with, read_nonce, mbind, sm_bind, gets, recv_some, set_nonce, modify. rewrite Hread.
  rewrite decide_True by lia. rewrite take_ge by lia. rewrite decide_False by done. cbn [fst].
  rewrite decide_True by (rewrite length_app; lia). rewrite decide_False by done.
  cbn beta iota zeta delta [mret sm_ret]. set (l1 := set_nonces _ _).
  assert (Hn' : nonce_of data l1 = read ++ rest) by (unfold l1; by rewrite nonce_of_set, decide_True).
  assert (Hpend : pending_of (read ++ rest) l1 = Some control).
  { unfold pending_of. change (nonce_to_pending l1) with (nonce_to_pending l). rewrite Hn.
    rewrite decide_True; [done|by left]. }
  rewrite Hn', Hpend. cbn [send_nonce]. unfold unregister at 1. rewrite decide_True by done.
  unfold unregister at 1. rewrite decide_True; [done|]. cbn. set_solver.
Qed.

(** ** Concrete rounds *)
Definition nonce_a : bytes := replicate 16 Byte.x41.
Definition nonce_b : bytes := replicate 16 Byte.x42.

(** Connection 1 is the control connection, 2 and 3 are data connections; 3 has
    an unknown nonce, and the nonce of 2 comes in two pieces. *)
Definition sample_polls : list (list ready) :=
  [[Incoming [(1%nat, true); (2%nat, true); (9%nat, false)]];
   [Traffic 1 (Available NULL_NONCE) nonce_a true; Traffic 2 (Available (take 5 nonce_a)) nonce_b true];
   [Incoming [(3%nat, true)]];
   [Traffic 3 (Available nonce_b) nonce_b true];
   [Traffic 2 (Available (drop 5 nonce_a)) nonce_b true]].

Lemma accept_pairs_witness :
  ∃ n, length n = NONCE_LEN ∧ n ≠ NULL_NONCE ∧
    socket_of 1 (accept sample_polls empty_listener).2 = Socket NULL_NONCE n ∧
    socket_of 2 (accept sample_polls empty_listener).2 = Socket n n ∧
    1%nat ∉ registered (accept sample_polls empty_listener).2 ∧ 2%nat ∉ registered (accept sample_polls empty_listener).2.
Proof.
  refine (accept_pairs sample_polls (accept sample_polls empty_listener).2 1 2 _ _); [|by vm_compute].
  by apply (bool_decide_unpack _); vm_compute.
Defined.

Definition waiting_polls : list (list ready) :=
  [[Incoming [(1%nat, true); (2%nat, true)]];
   [Traffic 1 (Available NULL_NONCE) nonce_a true; Traffic 2 (Available (take 5 nonce_a)) nonce_b true]].
Definition waiting : listener := (accept waiting_polls empty_listener).2.

Lemma waiting_inv : listener_inv waiting.
Proof.
  refine (proj1 (accept_inv waiting_polls empty_listener (Ok None) waiting empty_inv _ _)); [|by vm_compute].
  by apply (bool_decide_unpack _); vm_compute.
Qed.

Lemma data_connection_paired_witness :
  (traffic 2 (Available (drop 5 nonce_a)) nonce_b true waiting).1 = Ok (Some (1%nat, 2%nat)).
Proof.
  refine (data_connection_paired waiting 1 2 (take 5 nonce_a) (drop 5 nonce_a) nonce_b waiting_inv _ _ _ _ _ _ _);
    apply (bool_decide_unpack _); by vm_compute.
Defined.

(** A connection that is reset before it has sent its nonce makes [recv] raise,
    and a control connection that dies in the same round in which its nonce
    arrives on a data connection is found in the weak map but not in the poll set:
    both exceptions leave [accept], and end the supervisor. *)
Example reset_escapes :
  (accept [[Incoming [(1%nat, true)]]; [Traffic 1 RecvError nonce_a true]] empty_listener).1 = Raise OSError.
Proof. by vm_compute. Qed.
Example dead_control_escapes :
  (accept [[Incoming [(1%nat, true); (2%nat, true)]]; [Traffic 1 (Available NULL_NONCE) nonce_a true];
           [Traffic 1 (Available []) nonce_a true; Traffic 2 (Available nonce_a) nonce_b true]] empty_listener).1 = Raise KeyError.
Proof. by vm_compute. Qed.
