(* ===== verification/ScopeList.v ===== *)
(** Scope lists (src/opendiamond/server/scopelist.py): the incremental parser's
    handler, the generator that walks the scope URLs, and the objects made from
    what it yields. *)
From S2P Require Import Prelude PyBytes PyText Dict Float64 FloatText Hex Url Helpers Xdr Protocol ServerObject.
Local Open Scope Z_scope.

Definition BASE_URL : string := "http://localhost:5873/".

(** A start tag, as the SAX parser reports it. *)
Abbreviation element := (string * dict string string)%type.

(** ** _ScopeListHandler *)
Record handler := Handler { h_count : Z; pending_objects : list (dict string string) }.

(** [startElement] *)
Definition start_element (e : element) (h : handler) : res handler :=
  let '(name, attrs) := e in
  if decide (name = "objectlist") then
    match dict_get attrs "count" with
    | Some c => n ← py_int_str (str_encode c); Ok (Handler (h_count h + n) (pending_objects h))
    | None => Ok h
    end
  else if decide (name = "count") then
    c ← of_option KeyError (dict_get attrs "adjust");
    n ← py_int_str (str_encode c);
    Ok (Handler (h_count h + n) (pending_objects h))
  else if decide (name = "object") then Ok (Handler (h_count h) (pending_objects h ++ [attrs]))
  else Ok h.

(** What the parser makes of a 4 KB chunk: start tags, then possibly an error. *)
Record chunk := Chunk { c_elements : list element; c_error : option exn }.

(** [parser.feed(buf)]: an exception in the handler stops it as well. *)
Fixpoint feed_elements (es : list element) : sm handler unit := λ h,
  match es with
  | [] => (Ok tt, h)
  | e :: es => match start_element e h with Ok h => feed_elements es h | Raise x => (Raise x, h) end
  end.
Definition feed (c : chunk) : sm handler unit :=
  feed_elements (c_elements c) ≫= λ _, match c_error c with Some e => fail e | None => mret tt end.

(** A response: its chunks, then possibly an error of [read]; what the parser
    makes of its end, when it is closed. *)
Record response := Response { r_chunks : list chunk; r_error : option exn; r_close : chunk }.

(** [parser.close()] with its handler for malformed XML. *)
Definition close (c : chunk) : sm handler unit := λ h,
  match feed c h with
  | (Raise e, h) => if decide (e = SAXParseException) then (Ok tt, h) else (Raise e, h)
  | x => x
  end.

Section Loader.
(** [opener.open(url)] *)
Context (open_url : string → res response).

(** The suspended generator: the scope URL being read with what is left of its
response, and the scope URLs to come.  After an exception it is finished. *)
Record gen := Gen {
g_current : option (string * response);
g_urls : list string
}.
Record loader := Loader { l_gen : gen; l_handler : handler }.

Definition finished : gen := Gen None [].

(** What running the generator until its next [yield] gives. *)
Inductive yield :=
| Yield (obj : dict string string) (scope_url : string)
| Stop
| Escape (e : exn).

(** [except URLError], [except SAXParseException]: go on with the next scope. *)
Definition skips (e : exn) : bool := bool_decide (e = URLError) || bool_decide (e = SAXParseException).

(** The reading of one response: the rest of it after a [yield], or the way it
ended. *)
Inductive reading :=
| Yielded (obj : dict string string) (rest : response) (h : handler)
| Ended (h : handler)
| Failed (e : exn) (h : handler).

(** The [finally] clause after an exception or the end of the response: an
exception of [close] replaces the one being handled. *)
Definition end_reading (c : chunk) (err : option exn) (h : handler) : reading :=
match close c h with
| (Raise e, h) => Failed e h
| (Ok _, h) => match err with Some e => if skips e then Ended h else Failed e h | None => Ended h end
end.

Fixpoint read_chunks (cs : list chunk) (err : option exn) (cl : chunk) (h : handler) : reading :=
match cs with
| [] => end_reading cl err h
| c :: cs =>
match feed c h with
| (Raise e, h) => end_reading cl (Some e) h
| (Ok _, h) =>
match pending_objects h with
| o :: p => Yielded o (Response cs err cl) (Handler (h_count h) p)
| [] => read_chunks cs err cl h
end
end
end.

(** Resumed after a [yield]: the inner [while] goes on. *)
Definition resume (r : response) (h : handler) : reading :=
match pending_objects h with
| o :: p => Yielded o r (Handler (h_count h) p)
| [] => read_chunks (r_chunks r) (r_error r) (r_close r) h
end.

Fixpoint walk (urls : list string) (h : handler) : yield * loader :=
match urls with
| [] => (Stop, Loader finished h)
| url :: urls =>
let scope_url := urljoin BASE_URL url in
match open_url scope_url with
| Raise e => if skips e then walk urls h else (Escape e, Loader finished h)
| Ok r =>
match read_chunks (r_chunks r) (r_error r) (r_close r) h with
| Yielded o r h => (Yield o scope_url, Loader (Gen (Some (scope_url, r)) urls) h)
| Ended h => walk urls h
| Failed e h => (Escape e, Loader finished h)
end
end
end.

(** [next(self._generator)] *)
Definition next_pending (l : loader) : yield * loader :=
match g_current (l_gen l) with
| None => walk (g_urls (l_gen l)) (l_handler l)
| Some (scope_url, r) =>
match resume r (l_handler l) with
| Yielded o r h => (Yield o scope_url, Loader (Gen (Some (scope_url, r)) (g_urls (l_gen l))) h)
| Ended h => walk (g_urls (l_gen l)) h
| Failed e h => (Escape e, Loader finished h)
end
end.

(** [ScopeListLoader.__init__]: the scope URLs of all cookies, in order. *)
Definition ScopeListLoader_init (cookies : list (list string)) : loader :=
Loader (Gen None (concat cookies)) (Handler 0 []).

Definition get_count (l : loader) : Z := h_count (l_handler l).
End Loader.

(** ** Objects *)
Section Objects.
Context `{Murmur}.

Definition truthy (x : option string) : option string := match x with Some "" => None | x => x end.

(** The ID, the source and the metadata URL: relative to the scope URL; the
source stands in for a missing ID. *)
Definition object_urls (pending : dict string string) (scope_url : string) : res (string * option string * option string) :=
let src := urljoin scope_url <$> truthy (dict_get pending "src") in
let meta := urljoin scope_url <$> truthy (dict_get pending "meta") in
match truthy (dict_get pending "id"), src, dict_get pending "id" with
| Some id, _, _ => Ok (urljoin scope_url id, src, meta)
| None, Some src, id =>
if decide (src = "") then match id with Some _ => Ok ("", Some src, meta) | None => Raise TypeError end
else Ok (src, Some src, meta)
| None, None, Some _ => Ok ("", src, meta)
| None, None, None => Raise TypeError
end.

(** [__next__], from the pending object on; the remaining attributes in order. *)
Definition make_object (server_id : string) (caching : bool) (pending : dict string string) (scope_url : string) : res Obj :=
'(id, src, meta) ← object_urls pending scope_url;
let rest := dict_del (dict_del (dict_del pending "id") "src") "meta" in
let o := Object_init server_id id src meta caching in
match (mapM_sm (λ p, setitem p.1 (AStr (nul_terminated p.2))) rest) o with
| (Ok _, o) => Ok o
| (Raise e, _) => Raise e
end.

(** [__next__] *)
Definition next (open_url : string → res response) (server_id : string) (caching : bool) (l : loader) : res Obj * loader :=
match next_pending open_url l with
| (Yield o url, l) => (make_object server_id caching o url, l)
| (Stop, l) => (Raise StopIteration, l)
| (Escape e, l) => (Raise e, l)
end.
End Objects.

(** ** Completeness *)

(** What a start tag adds to the count and to the objects. *)
Definition element_count (e : element) : res Z :=
  if decide (e.1 = "objectlist") then
    match dict_get e.2 "count" with Some c => py_int_str (str_encode c) | None => Ok 0 end
  else if decide (e.1 = "count") then
    c ← of_option KeyError (dict_get e.2 "adjust"); py_int_str (str_encode c)
  else Ok 0.
Definition element_objects (e : element) : list (dict string string) := if decide (e.1 = "object") then [e.2] else [].

Definition chunk_objects (cs : list chunk) : list (dict string string) := c ← cs; e ← c_elements c; element_objects e.
Definition sum (l : list Z) : Z := foldr Z.add 0 l.
Definition chunk_count (cs : list chunk) : Z :=
  sum (c ← cs; e ← c_elements c; [match element_count e with Ok n => n | Raise _ => 0 end]).

(** A complete, well-formed part of a scope list. *)
Definition chunk_good (c : chunk) : Prop := c_error c = None ∧ Forall (λ e, is_ok (element_count e) = true) (c_elements c).

Lemma start_element_spec e h : start_element e h =
  n ← element_count e; Ok (Handler (h_count h + n) (pending_objects h ++ element_objects e)).
Proof.
  destruct e as [name attrs], h as [cnt p]. unfold start_element, element_count, element_objects. cbn [fst snd].
  destruct (decide (name = "objectlist")) as [->|]; [rewrite decide_False by done|destruct (decide (name = "count")) as [->|]; [rewrite decide_False by done|]].
  - destruct (dict_get attrs "count") as [c|]; [|by cbn; rewrite app_nil_r, Z.add_0_r].
    destruct (py_int_str _); [|done]. by cbn; rewrite app_nil_r.
  - destruct (dict_get attrs "adjust") as [c|]; [|done]. cbn [of_option mbind res_bind].
    destruct (py_int_str _); [|done]. by cbn; rewrite app_nil_r.
  - destruct (decide (name = "object")); cbn; by rewrite Z.add_0_r, ?app_nil_r.
Qed.

Lemma sum_cons x l : sum (x :: l) = x + sum l.
Proof. done. Qed.
Lemma sum_app l1 l2 : sum (l1 ++ l2) = sum l1 + sum l2.
Proof. unfold sum. induction l1 as [|x l1 IH]; [done|]. cbn [app foldr]. rewrite IH. lia. Qed.

Lemma chunk_objects_cons c cs : chunk_objects (c :: cs) = (e ← c_elements c; element_objects e) ++ chunk_objects cs.
Proof. done. Qed.
Lemma chunk_count_cons c cs : chunk_count (c :: cs) =
  sum (e ← c_elements c; [match element_count e with Ok n => n | Raise _ => 0 end]) + chunk_count cs.
Proof. unfold chunk_count. csimpl. apply sum_app. Qed.

Lemma feed_good c h : chunk_good c → feed c h = (Ok tt, Handler
  (h_count h + sum (e ← c_elements c; [match element_count e with Ok n => n | Raise _ => 0 end]))
  (pending_objects h ++ (e ← c_elements c; element_objects e))).
Proof.
  intros [He Hg]. unfold feed. rewrite He.
  assert (E : feed_elements (c_elements c) h = (Ok tt, Handler
    (h_count h + sum (e ← c_elements c; [match element_count e with Ok n => n | Raise _ => 0 end]))
    (pending_objects h ++ (e ← c_elements c; element_objects e)))); [|by erewrite sm_bind_eq by exact E].
  clear He. revert h. induction Hg as [|e es He Hg IH]; intros h; [by destruct h; cbn; rewrite Z.add_0_r, app_nil_r|].
  cbn [feed_elements]. rewrite start_element_spec. csimpl. destruct (element_count e) as [n|]; [|done].
  cbn [mbind res_bind]. rewrite IH. cbn [h_count pending_objects]. rewrite <-app_assoc. f_equal. f_equal.
  cbn [sum foldr app]. unfold sum. lia.
Qed.

(** The end of the document has no start tags. *)
Definition response_good (r : response) : Prop :=
  r_error r = None ∧ r_close r = Chunk [] None ∧ Forall chunk_good (r_chunks r).

Lemma read_chunks_good cs h : Forall chunk_good cs → pending_objects h = [] →
  match chunk_objects cs with
  | [] => read_chunks cs None (Chunk [] None) h = Ended (Handler (h_count h + chunk_count cs) [])
  | o :: os => ∃ r h', read_chunks cs None (Chunk [] None) h = Yielded o r h' ∧ response_good r ∧
      pending_objects h' ++ chunk_objects (r_chunks r) = os ∧
      h_count h' + chunk_count (r_chunks r) = h_count h + chunk_count cs
  end.
Proof.
  intros Hcs. revert h. induction Hcs as [|c cs Hc Hcs IH]; intros h Hp.
  - destruct h; cbn in *. subst. by rewrite Z.add_0_r.
  - rewrite chunk_objects_cons. cbn [read_chunks]. rewrite feed_good by done. rewrite Hp. cbn [app].
    rewrite chunk_count_cons. cbn [pending_objects].
    destruct (e ← c_elements c; element_objects e) as [|o os] eqn:Eo.
    + cbn [app]. specialize (IH (Handler (h_count h + sum (e ← c_elements c; [match element_count e with Ok n => n | Raise _ => 0 end])) []) eq_refl).
      cbn [h_count] in IH. rewrite <-Z.add_assoc in IH. exact IH.
    + cbn [app]. eexists _, _. split; [reflexivity|]. cbn [pending_objects h_count r_chunks]. split_and!; [by split_and!|done|lia].
Qed.

Section Completeness.
Context (open_url : string → res response).

Definition url_objects (url : string) : list (dict string string * string) :=
let u := urljoin BASE_URL url in
match open_url u with Ok r => (λ o, (o, u)) <$> chunk_objects (r_chunks r) | Raise _ => [] end.
Definition url_count (url : string) : Z :=
match open_url (urljoin BASE_URL url) with Ok r => chunk_count (r_chunks r) | Raise _ => 0 end.

(** The scope list can be fetched in full, or it cannot be fetched at all. *)
Definition url_good (url : string) : Prop :=
match open_url (urljoin BASE_URL url) with Ok r => response_good r | Raise e => skips e = true end.

#[export] Instance chunk_eq_dec : EqDecision chunk.
Proof. solve_decision. Defined.
#[export] Instance chunk_good_dec c : Decision (chunk_good c).
Proof. unfold chunk_good. apply _. Defined.
#[export] Instance url_good_dec url : Decision (url_good url).
Proof. unfold url_good, response_good. destruct (open_url _); apply _. Defined.

(** What the loader has still to yield, and the count it will have reached. *)
Definition remaining (l : loader) : list (dict string string * string) :=
match g_current (l_gen l) with
| Some (u, r) => (λ o, (o, u)) <$> (pending_objects (l_handler l) ++ chunk_objects (r_chunks r))
| None => []
end ++ (url ← g_urls (l_gen l); url_objects url).
Definition final_count (l : loader) : Z :=
h_count (l_handler l) + match g_current (l_gen l) with Some (_, r) => chunk_count (r_chunks r) | None => 0 end +
sum (url_count <$> g_urls (l_gen l)).
Definition loader_good (l : loader) : Prop :=
match g_current (l_gen l) with Some (_, r) => response_good r | None => pending_objects (l_handler l) = [] end ∧
Forall url_good (g_urls (l_gen l)).

Lemma walk_good urls h : Forall url_good urls → pending_objects h = [] →
match walk open_url urls h, (url ← urls; url_objects url) with
| (Stop, l), [] => h_count (l_handler l) = h_count h + sum (url_count <$> urls)
| (Yield o u, l), x :: xs => x = (o, u) ∧ loader_good l ∧ remaining l = xs ∧
final_count l = h_count h + sum (url_count <$> urls)
| _, _ => False
end.
Proof.
intros Hurls. revert h. induction Hurls as [|url urls Hu Hurls IH]; intros h Hp; [cbn; lia|].
rewrite bind_cons, fmap_cons. rewrite sum_cons. cbn [walk]. unfold url_good in Hu.
remember (url_objects url) as uo eqn:Eo. remember (url_count url) as uc eqn:Ec. unfold url_objects in Eo. unfold url_count in Ec.
destruct (open_url (urljoin BASE_URL url)) as [r|e]; subst uo uc.
- destruct Hu as (He & Hcl & Hcs). rewrite He, Hcl. pose proof (read_chunks_good (r_chunks r) h Hcs Hp) as G.
destruct (chunk_objects (r_chunks r)) as [|o os].
+ rewrite G. cbn [app fmap list_fmap]. specialize (IH (Handler (h_count h + chunk_count (r_chunks r)) []) eq_refl).
cbn [h_count] in IH. rewrite <-Z.add_assoc in IH. exact IH.
+ destruct G as (r' & h' & -> & Hr' & Hos & Hcount). rewrite fmap_cons. cbn [app]. split_and!; [done|by split|..].
* unfold remaining. cbn [l_gen g_current l_handler g_urls]. by rewrite Hos.
* unfold final_count. cbn [l_gen g_current l_handler g_urls]. lia.
- rewrite Hu. cbn [app]. specialize (IH h Hp). by rewrite Z.add_0_l.
Qed.

Lemma next_pending_good l : loader_good l →
match next_pending open_url l, remaining l with
| (Stop, l'), [] => h_count (l_handler l') = final_count l
| (Yield o u, l'), x :: xs => x = (o, u) ∧ loader_good l' ∧ remaining l' = xs ∧ final_count l' = final_count l
| _, _ => False
end.
Proof.
destruct l as [[[[u r]|] urls] h]; intros [Hr Hurls]; unfold next_pending, remaining, final_count; cbn [l_gen g_current l_handler g_urls] in *.
- destruct Hr as (He & Hcl & Hcs). unfold resume. destruct (pending_objects h) as [|o p] eqn:Ep.
+ rewrite He, Hcl. pose proof (read_chunks_good (r_chunks r) h Hcs Ep) as G. cbn [app].
destruct (chunk_objects (r_chunks r)) as [|o os].
* rewrite G. cbn [app fmap list_fmap].
pose proof (walk_good urls (Handler (h_count h + chunk_count (r_chunks r)) []) Hurls eq_refl) as W. exact W.
* destruct G as (r' & h' & -> & Hr' & Hos & Hcount). csimpl. split_and!; [done|by split|..].
-- by rewrite Hos.
-- lia.
+ csimpl. done.
- pose proof (walk_good urls h Hurls Hr) as W. cbn [app]. rewrite Z.add_0_r. exact W.
Qed.

(** All objects until the generator stops. *)
Fixpoint collect (fuel : nat) (l : loader) : list (dict string string * string) * yield * loader :=
match fuel with
| O => ([], Escape RuntimeError, l)
| S fuel =>
match next_pending open_url l with
| (Yield o u, l) => let '(os, y, l) := collect fuel l in ((o, u) :: os, y, l)
| (y, l) => ([], y, l)
end
end.

Lemma collect_good l : loader_good l →
∃ l', collect (S (length (remaining l))) l = (remaining l, Stop, l') ∧ get_count l' = final_count l.
Proof.
remember (remaining l) as os eqn:Eos. revert l Eos.
induction os as [|x os IH]; intros l Eos Hl; pose proof (next_pending_good l Hl) as G; rewrite <-Eos in G.
- cbn [length collect]. destruct (next_pending open_url l) as [[o u| |e] l']; try done. by exists l'.
- change (collect (S (length (x :: os))) l) with (match next_pending open_url l with
| (Yield o u, l) => let '(os, y, l) := collect (S (length os)) l in ((o, u) :: os, y, l)
| (y, l) => ([], y, l) end).
destruct (next_pending open_url l) as [[o u| |e] l']; try done. destruct G as (-> & Hl' & Hr & Hc).
destruct (IH l' (eq_sym Hr) Hl') as (l'' & -> & Hcount). exists l''. by rewrite <-Hc.
Qed.

(** C14.  The scope list loader yields every object of every scope list of the
cookies once, in order, each with its scope URL, however the responses are cut
into chunks; then it stops, with the sum of the announced counts.  A scope
list that cannot be fetched is skipped. *)
Theorem scope_list_complete cookies : Forall url_good (concat cookies) →
∃ l, collect (S (length (url ← concat cookies; url_objects url))) (ScopeListLoader_init cookies) =
(url ← concat cookies; url_objects url, Stop, l) ∧
get_count l = sum (url_count <$> concat cookies).
Proof. intros Hg. apply (collect_good (ScopeListLoader_init cookies)). by split. Qed.
End Completeness.

(** ** Examples *)
Definition sample_object (id : string) : element := ("object", [("id", id)]).
Definition sample_open (url : string) : res response :=
  if decide (url = "http://localhost:5873/scope/a") then
    Ok (Response [Chunk [("objectlist", [("count", "3")]); sample_object "a1"; sample_object "a2"] None;
                  Chunk [] None; Chunk [sample_object "a3"; ("count", [("adjust", "-1")])] None] None (Chunk [] None))
  else if decide (url = "http://store/b/list") then
    Ok (Response [Chunk [("objectlist", []); sample_object "b1"] None] None (Chunk [] None))
  else if decide (url = "http://localhost:5873/scope/bad") then
    Ok (Response [Chunk [sample_object "x1"; sample_object "x2"] (Some SAXParseException)] None (Chunk [] None))
  else Raise URLError.

Lemma scope_list_complete_witness :
  Forall (url_good sample_open) (concat [["/scope/a"]; ["/scope/missing"; "http://store/b/list"]]) ∧
  ∃ l, collect sample_open 5 (ScopeListLoader_init [["/scope/a"]; ["/scope/missing"; "http://store/b/list"]]) =
    ([([("id", "a1")], "http://localhost:5873/scope/a"); ([("id", "a2")], "http://localhost:5873/scope/a");
      ([("id", "a3")], "http://localhost:5873/scope/a"); ([("id", "b1")], "http://store/b/list")], Stop, l) ∧
    get_count l = 2.
Proof.
  assert (H : Forall (url_good sample_open) (concat [["/scope/a"]; ["/scope/missing"; "http://store/b/list"]])).
  { by apply (bool_decide_unpack _); vm_compute. }
  split; [exact H|]. exact (scope_list_complete sample_open [["/scope/a"]; ["/scope/missing"; "http://store/b/list"]] H).
Defined.

(** A scope list that breaks off leaves its objects pending: they come out with the
    URL of the next scope list, or not at all. *)
Example stale_objects :
  (collect sample_open 5 (ScopeListLoader_init [["/scope/bad"; "http://store/b/list"]])).1.1 =
    [([("id", "x1")], "http://store/b/list"); ([("id", "x2")], "http://store/b/list"); ([("id", "b1")], "http://store/b/list")] ∧
  (collect sample_open 5 (ScopeListLoader_init [["/scope/bad"]])).1.1 = [].
Proof. by vm_compute. Qed.
