(* ===== verification/Search.v ===== *)
(** Search state and the handlers of the control and blast channels
    (src/opendiamond/server/search.py). *)
From S2P Require Import Prelude PyBytes PyText Dict Float64 Xdr Protocol Rpc SessionVars Statistics FilterStack Hex Sha256.
From S2P Require Import Url Helpers ServerObject FilterProto FilterRunner Evaluate BlobCache BlobStore FilterCode Resource Base64 Scope ScopeList.
Local Open Scope Z_scope.

(** ** Decoded messages *)
Definition as_str (v : pyval) : res string := match v with VStr s => Ok s | _ => Raise TypeError end.
Definition as_bytes (v : pyval) : res bytes := match v with VBytes b => Ok b | _ => Raise TypeError end.
Definition as_float (v : pyval) : res float := match v with VFloat f => Ok f | _ => Raise TypeError end.
Definition as_list {A} (item : pyval → res A) (v : pyval) : res (list A) :=
  match v with VList l => mapM_res item l | _ => Raise TypeError end.
Definition as_optional {A} (f : pyval → res A) (v : pyval) : res (option A) :=
  match v with VNone => Ok None | v => match f v with Ok x => Ok (Some x) | Raise e => Raise e end end.
(** An attribute of a message. *)
Definition field {A} (f : pyval → res A) (name : string) (v : pyval) : res A :=
  match getattr v name with Ok x => f x | Raise e => Raise e end.

(** [Filter(f.name, f.code, ...)] *)
Definition filter_of (v : pyval) : res Filter :=
  name ← field as_str "name" v; code ← field as_str "code" v; blob ← field as_str "blob" v;
  lo ← field as_float "min_score" v; hi ← field as_float "max_score" v;
  args ← field (as_list as_str) "arguments" v; deps ← field (as_list as_str) "dependencies" v;
  Ok (FilterStack.Filter_init name code blob lo hi args deps).

(** ** Configuration and environment *)
Record config := Config {
  serverids : list string;
  security_cookie_no_verify : bool;
  certdata : string;
  threads : Z;
  caching : bool              (* a cache server is configured *)
}.

(** What a search does with its resource context (Resource.v): [new_context] takes
    whether the catalog is shared between processes. *)
Class Contexts (C : Type) := { new_context : bool → C; cleanup_context : sm C unit }.

Definition context_contexts {W} `{Docker W} (w : W) : Contexts (Resource.ctx (W := W)) :=
  {| new_context shared := ResourceContext_init shared w; cleanup_context := Resource.cleanup |}.

Section Search.
Context `{Murmur, Dates, Crypto} {C : Type} `{Resources C, Contexts C}.
Context (full_load : string → res (dict string string)).
(** The order in which a Python set is iterated; the name of a temporary file; the
time of day. *)
Context (set_order : gset string → list string) (tmp : string) (now : Z).
Context (cfg : config).

(** ** State *)

(** [SearchState], [Search] and the blast channel's attributes.  [se_stack]: the
execution order and the [_optimized] flag; [se_workers]: how many workers were
started. *)
Record Search := MkSearch {
se_fs : FS;
se_filters : list Filter;
se_stack : list nat * bool;
se_fstats : list stats;
se_scope : option loader;
se_running : bool;
se_session : SessionVariables;
se_stats : stats;
se_blast : option (option (gset string));
se_context : option C;
se_workers : option Z;
se_redis : option (gmap string bytes)   (* the cache server's contents *)
}.

(** [Search.__init__] *)
Definition Search_init (fs : FS) (redis : gmap string bytes) : Search :=
MkSearch fs [] ([], false) [] None false empty_vars (stats_init search_attrs) None None None (if caching cfg then Some redis else None).

Definition set_fs (x : FS) (s : Search) : Search :=
MkSearch x (se_filters s) (se_stack s) (se_fstats s) (se_scope s) (se_running s) (se_session s) (se_stats s) (se_blast s) (se_context s) (se_workers s) (se_redis s).
Definition set_filters (x : list Filter) (s : Search) : Search :=
MkSearch (se_fs s) x (se_stack s) (se_fstats s) (se_scope s) (se_running s) (se_session s) (se_stats s) (se_blast s) (se_context s) (se_workers s) (se_redis s).
Definition set_stack (x : list nat * bool) (s : Search) : Search :=
MkSearch (se_fs s) (se_filters s) x (se_fstats s) (se_scope s) (se_running s) (se_session s) (se_stats s) (se_blast s) (se_context s) (se_workers s) (se_redis s).
Definition set_session (x : SessionVariables) (s : Search) : Search :=
MkSearch (se_fs s) (se_filters s) (se_stack s) (se_fstats s) (se_scope s) (se_running s) x (se_stats s) (se_blast s) (se_context s) (se_workers s) (se_redis s).
Definition set_context (x : option C) (s : Search) : Search :=
MkSearch (se_fs s) (se_filters s) (se_stack s) (se_fstats s) (se_scope s) (se_running s) (se_session s) (se_stats s) (se_blast s) x (se_workers s) (se_redis s).

Definition on_disk {A} (m : prog A) : sm Search A := λ s, let '(r, fs) := run m (se_fs s) in (r, set_fs fs s).

(** [@running(should_be_running)] *)
Definition running (should_be_running : bool) (h : sm Search pyval) : sm Search pyval := λ s,
if decide (se_running s ≠ should_be_running) then (raise_rpc RPCProcedureUnavailable, s) else h s.

(** ** _check_runnable *)

(** Resolve the filters in execution order. *)
Fixpoint resolve_all (order : list nat) : sm Search unit := λ s,
match order with
| [] => (Ok tt, s)
| i :: order =>
match se_filters s !! i with
| None => (Raise IndexError, s)
| Some f =>
let '(r, (f', fs)) := FilterCode.resolve full_load tmp (f, se_fs s) in
let s := set_fs fs (set_filters (<[i := f']> (se_filters s)) s) in
match r with Ok _ => resolve_all order s | Raise e => (Raise e, s) end
end
end.

Definition check_runnable : sm Search unit := λ s,
match se_scope s with
| None => (raise_rpc DiamondRPCFailure, s)
| Some _ =>
try_with (resolve_all (se_stack s).1) (λ e, bool_decide (e = FilterDependencyError))
(λ _, lift (raise_rpc DiamondRPCFCacheMiss)) s
end.

(** ** setup *)

(** One source URI: add it to the missing ones, or find it unsupported. *)
Definition check_source (uri : string) (missing : gset string) : sm Search (gset string * bool) :=
let probe : sm Search (gset string * bool) :=
available ← on_disk (FilterCode.source_available uri);
mret (if (available : bool) then missing else {[uri]} ∪ missing, false) in
try_with probe (λ e, bool_decide (e = FilterUnsupportedSource)) (λ _, mret (missing, true)).

Fixpoint check_filters (missing : gset string) (fs : list Filter) : sm Search (gset string) :=
match fs with
| [] => mret missing
| f :: fs =>
'(missing, unsupported1) ← check_source (code_source f) missing;
'(missing, unsupported2) ← check_source (blob_source f) missing;
if unsupported1 || unsupported2 then lift (raise_rpc DiamondRPCSchemeNotSupported)
else check_filters missing fs
end.

(** The scope cookies: all are parsed, then each is verified. *)
Definition check_cookies (texts : list string) : res loader :=
cookies ← mapM_res Scope.parse texts;
mapM_res (λ c, if security_cookie_no_verify cfg then Ok tt else Scope.verify now (serverids cfg) (certdata cfg) c) cookies ≫= λ _,
Ok (ScopeListLoader_init (scopeurls <$> cookies)).

Definition cookie_errors (r : res loader) : res loader :=
match r with
| Raise ScopeCookieExpired => raise_rpc DiamondRPCCookieExpired
| Raise ScopeError => raise_rpc DiamondRPCFailure
| r => r
end.

Definition setup (params : pyval) : sm Search pyval := running false (
fs ← lift (field (as_list filter_of) "filters" params);
missing ← check_filters ∅ fs;
order ← lift (FilterStack_init fs);
texts ← lift (field (as_list as_str) "cookies" params);
scope ← lift (cookie_errors (check_cookies texts));
modify (λ s, MkSearch (se_fs s) fs (order, false) ((λ _, stats_init filter_attrs) <$> fs) (Some scope)
(se_running s) (se_session s) (se_stats s) (se_blast s) (se_context s) (se_workers s) (se_redis s)) ≫= λ _,
mret (VObj "XDR_blob_list" [("uris", VList (VStr <$> set_order missing))])).

(** ** send_blobs *)
Fixpoint add_all (blobs : list bytes) : sm Search unit :=
match blobs with [] => mret tt | b :: blobs => on_disk (BlobCache.add tmp b) ≫= λ _, add_all blobs end.

Definition send_blobs (params : pyval) : sm Search pyval := running false (
blobs ← lift (field (as_list as_bytes) "blobs" params);
add_all blobs ≫= λ _, mret VNone).

(** ** start *)

(** The attributes to push: a set, or everything. *)
Definition push_attributes (params : pyval) : res (option (gset string)) :=
match field (as_optional (as_list as_str)) "attrs" params with
| Ok attrs => Ok (option_map list_to_set attrs)
| Raise e => Raise e
end.

Definition optimize_stack : sm Search unit := λ s,
match optimize (se_filters s) (se_stack s).2 (se_stack s).1 with
| Ok (order, o) => (Ok tt, set_stack (order, o) s)
| Raise e => (Raise e, s)
end.

(** A context is made once, by the first [start] or [reexecute_filters]. *)
Definition ensure_context (shared : bool) : sm Search unit :=
modify (λ s, match se_context s with Some _ => s | None => set_context (Some (new_context shared)) s end).

Definition start (params : pyval) : sm Search pyval := running false (
check_runnable ≫= λ _,
push ← lift (push_attributes params);
optimize_stack ≫= λ _,
modify (λ s, MkSearch (se_fs s) (se_filters s) (se_stack s) (se_fstats s) (se_scope s) (se_running s) (se_session s)
(se_stats s) (Some push) (se_context s) (se_workers s) (se_redis s)) ≫= λ _,
ensure_context true ≫= λ _,
modify (λ s, MkSearch (se_fs s) (se_filters s) (se_stack s) (se_fstats s) (se_scope s) true (se_session s)
(se_stats s) (se_blast s) (se_context s) (Some (threads cfg)) (se_redis s)) ≫= λ _,
mret VNone).

(** ** request_stats, session_variables_get, session_variables_set *)
Definition ordered_stats (s : Search) : list pyval :=
omap (λ i, f ← se_filters s !! i; st ← se_fstats s !! i; Some (filter_stats_xdr (f_name f) st)) (se_stack s).1.

Definition request_stats : sm Search pyval := running true (λ s,
match se_scope s with
| Some scope => (Ok (search_stats_xdr (get_count scope) (ordered_stats s) (se_stats s)), s)
| None => (Raise AttributeError, s)
end).

Definition session_variables_get : sm Search pyval := running true (λ s,
let '(values, sv) := client_get (se_session s) in
(Ok (VObj "XDR_session_vars" [("vars", VList ((λ p, VObj "XDR_session_var" [("name", VStr p.1); ("value", VFloat p.2)]) <$> values))]),
 set_session sv s)).

Definition session_variables_set (params : pyval) : sm Search pyval := running true (
vars ← lift (field (as_list (λ v, n ← field as_str "name" v; x ← field as_float "value" v; Ok (n, x))) "vars" params);
modify (λ s, set_session (client_set (dict_of vars) (se_session s)) s) ≫= λ _, mret VNone).

(** ** shutdown: without a context this is an [AttributeError] *)
Definition shutdown : sm Search unit := λ s,
match se_context s with
| None => (Raise AttributeError, s)
| Some c =>
let '(r, c) := cleanup_context c in
let s := set_context (Some c) s in
match r with
| Raise e => (Raise e, s)
| Ok _ => (Ok tt, MkSearch (se_fs s) (se_filters s) (se_stack s) (se_fstats s) (se_scope s) (se_running s) (se_session s)
(se_stats s) (se_blast s) (se_context s) ((λ _, 0) <$> se_workers s) (se_redis s))
end
end.

(** ** reexecute_filters *)

(** The blob cache, as the object loader uses it; the times of its lookups are not
kept. *)
Definition fs_blobs (fs : FS) : Blobs := {|
blob_get sig := (run (BlobCache.getitem sig) fs).1;
blob_contains sig := match (run (BlobCache.contains sig) fs).1 with Ok b => b | Raise _ => false end
|}.

Section Reexecute.
Context `{Environment, JsonDumps} (wd : world).

(** [bind]: a fetcher and a runner per filter, with the filter's statistics. *)
Definition bound_runners (s : Search) : list runner :=
fetcher :: omap (λ i, f ← se_filters s !! i; st ← se_fstats s !! i; Some (Runner (Some f) None false st)) (se_stack s).1.

(** The statistics go back to their filters. *)
Definition return_stats (order : list nat) (runners : list runner) (fstats : list stats) : list stats :=
foldl (λ fstats p, <[p.1 := r_stats p.2]> fstats) fstats (zip order (tail runners)).

(** [runner.evaluate(obj)] *)
Definition evaluate_bound (o : Obj) (c : C) : sm Search (bool * Obj) := λ s,
let w := Ws o (bound_runners s) (se_session s) c (se_redis s) (se_stats s) [] in
let '(r, w) := @evaluate_counted _ _ (fs_blobs (se_fs s)) _ _ _ wd w in
(match r with Ok b => Ok (b, ws_obj w) | Raise e => Raise e end,
 MkSearch (se_fs s) (se_filters s) (se_stack s) (return_stats (se_stack s).1 (ws_runners w) (se_fstats s)) (se_scope s)
 (se_running s) (ws_session w) (ws_stats w) (se_blast s) (Some (ws_ctx w)) (se_workers s) (ws_redis w)).

Definition server_id : res string := of_option IndexError (head (serverids cfg)).

Definition reexecute_filters (params : pyval) : sm Search pyval :=
check_runnable ≫= λ _,
output_attrs ← lift (push_attributes params);
optimize_stack ≫= λ _,
ensure_context false ≫= λ _,
id ← lift (field as_str "object_id" params);
sid ← lift server_id;
let obj := Object_init sid id None None true in
s ← get_state;
if @ServerObject.source_available (fs_blobs (se_fs s)) obj then
c ← lift (of_option AttributeError (se_context s));
'(accept, obj) ← evaluate_bound obj c;
attrs ← lift (xdr_attributes set_order output_attrs (negb accept) obj);
mret (VObj "XDR_attribute_list" [("attrs", VList (attribute_val <$> attrs))])
else lift (raise_rpc DiamondRPCFCacheMiss).

(** The methods that are registered with [@RPCHandlers.handler]. *)
Definition with_params (f : pyval → sm Search pyval) (arg : option pyval) : sm Search pyval :=
match arg with Some v => f v | None => fail TypeError end.
Definition without_params (m : sm Search pyval) (arg : option pyval) : sm Search pyval :=
match arg with None => m | Some _ => fail TypeError end.

Definition search_handlers : list (Rpc.handler Search) :=
[Rpc.Handler 30 (Some XDR_reexecute) (Some XDR_attribute_list) (with_params reexecute_filters);
 Rpc.Handler 29 None (Some XDR_search_stats) (without_params request_stats);
 Rpc.Handler 26 (Some XDR_blob_data) None (with_params send_blobs);
 Rpc.Handler 18 None (Some XDR_session_vars) (without_params session_variables_get);
 Rpc.Handler 19 (Some XDR_session_vars) None (with_params session_variables_set);
 Rpc.Handler 25 (Some XDR_setup) (Some XDR_blob_list) (with_params setup);
 Rpc.Handler 28 (Some XDR_start) None (with_params start)].
End Reexecute.
End Search.

(** ** The blast channel *)

(** [_BlastChannelSender]: the object, and whether it was sent. *)
Record sender := Sender { snd_obj : pyval; snd_sent : bool }.

Definition get_object : sm sender pyval := λ s,
  if snd_sent s then (Raise AssertionError, s) else (Ok (snd_obj s), Sender (snd_obj s) true).
Definition sender_handlers : list (Rpc.handler sender) :=
  [Rpc.Handler 2 None (Some XDR_object) (λ arg, match arg with None => get_object | Some _ => fail TypeError end)].

(** [send]: dispatch until the object was asked for.  Every dispatch reads a
    request, so as many as there are events on the connection are enough. *)
Fixpoint send_loop (fuel : nat) (s : sock) (sd : sender) : res unit * sock * sender :=
  if snd_sent sd then (Ok tt, s, sd) else
  match fuel with
  | O => (Raise RuntimeError, s, sd)
  | S fuel =>
    match Rpc.dispatch sender_handlers s sd with
    | (Ok _, s, sd) => send_loop fuel s sd
    | (Raise e, s, sd) => (Raise e, s, sd)
    end
  end.
Definition send_xdr (obj : pyval) (s : sock) : res unit * sock :=
  let '(r, s, _) := send_loop (S (length (rx s) + length (stream (rx s)))) s (Sender obj false) in (r, s).

(** [BlastChannel.send] and [close] *)
Definition blast_send (set_order : gset string → list string) (push_attrs : option (gset string)) (o : Obj) (s : sock) : res unit * sock :=
  match xdr set_order push_attrs o with Ok v => send_xdr v s | Raise e => (Raise e, s) end.
Definition blast_close (set_order : gset string → list string) (s : sock) : res unit * sock :=
  blast_send set_order None EmptyObject_init s.
