(* ===== verification/ClientSearch.v ===== *)
(** The client's search (src/opendiamond/client/search.py): blobs and filter
    specifications, the calls that set up, run and re-execute a search, the
    unpacking of results, the merging of statistics; and its composition with the
    server's handlers. *)
From S2P Require Import Prelude PyBytes PyText Dict Float64 FloatText Xdr Protocol Rpc ClientRpc SessionVars Statistics FilterStack Hex.
From S2P Require Import Sha256 Url Helpers ServerObject FilterProto FilterRunner Evaluate BlobCache BlobStore FilterCode Resource Base64 Scope ScopeList Search.
Local Open Scope Z_scope.

(** ** Blob, FilterSpec *)

(** A [Blob] is its data. *)
Abbreviation Blob := bytes.
Definition blob_sha256 (b : Blob) : string := sha256_hex b.
Definition blob_str (b : Blob) : string := "<Blob sha256=" +:+ blob_sha256 b +:+ ">".
(** [_blob_uri] *)
Definition blob_uri (b : Blob) : string := "sha256:" +:+ blob_sha256 b.

Record FilterSpec := MkSpec {
  fs_name : string;
  fs_code : Blob;
  fs_arguments : list string;
  fs_blob_argument : Blob;
  fs_dependencies : list string;
  fs_min_score : float;
  fs_max_score : float
}.
(** The keyword arguments' defaults. *)
Definition FilterSpec_init (name : string) (code : Blob) : FilterSpec := MkSpec name code [] [] [] fninf finf.

(** ** Messages *)
Definition strings (l : list string) : pyval := VList (VStr <$> l).

Definition filter_config (f : FilterSpec) : pyval :=
  VObj "XDR_filter_config"
    [("name", VStr (fs_name f)); ("arguments", strings (fs_arguments f)); ("dependencies", strings (fs_dependencies f));
     ("min_score", VFloat (fs_min_score f)); ("max_score", VFloat (fs_max_score f));
     ("code", VStr (blob_uri (fs_code f))); ("blob", VStr (blob_uri (fs_blob_argument f)))].

Definition setup_request (cookies : list ScopeCookie) (filters : list FilterSpec) : pyval :=
  VObj "XDR_setup" [("cookies", strings (Scope.encode <$> cookies)); ("filters", VList (filter_config <$> filters))].
Definition blob_data (blobs : list pyval) : pyval := VObj "XDR_blob_data" [("blobs", VList blobs)].
Definition optional_strings (attrs : option (list string)) : pyval := match attrs with Some l => strings l | None => VNone end.

(** [uri_data] *)
Definition uri_data (filters : list FilterSpec) : dict string Blob :=
  dict_of (f ← filters; [(blob_uri (fs_code f), fs_code f); (blob_uri (fs_blob_argument f), fs_blob_argument f)]).

(** Attributes as a dict: later ones win. *)
Definition attrs_dict (reply : pyval) : res (dict string bytes) :=
  attrs ← field (as_list (λ a, n ← field as_str "name" a; v ← field as_bytes "value" a; Ok (n, v))) "attrs" reply;
  Ok (dict_of attrs).

(** ** unpack_attributes *)
Inductive uval := UNone | UBytes (b : bytes) | UInt (z : Z) | UFloat (f : float).

(** [struct.unpack('i', s)[0]] *)
Definition unpack_int (s : bytes) : res Z :=
  if decide (length s = 4%nat) then Ok (wrap_s 32 (le_combine s)) else Raise StructError.

(** [struct.unpack('f', s)[0]]: binary32, exactly representable in binary64 *)
Definition float32_of_bits (z : Z) : float :=
  let s := Z.testbit z 31 in
  let E := Z.land (Z.shiftr z 23) 255 in
  let M := Z.land z (2 ^ 23 - 1) in
  if E =? 255 then (if M =? 0 then S754_infinity s else S754_nan)
  else if E =? 0 then
    (if M =? 0 then S754_zero s else binary_normalize prec emax (if s then - M else M) (-149) s)
  else binary_normalize prec emax (if s then - (M + 2 ^ 23) else M + 2 ^ 23) (E - 150) s.
Definition unpack_float (s : bytes) : res float :=
  if decide (length s = 4%nat) then Ok (float32_of_bits (le_combine s)) else Raise StructError.

(** [s.decode().strip('\0 ')] *)
Definition unpack_string (s : bytes) : res bytes :=
  t ← bytes_decode s;
  let P b := bool_decide (b = Byte.x00 ∨ b = Byte.x20) in
  Ok (rstrip P (lstrip P (str_encode t))).

Definition unpack_value (k : string) (v : bytes) : res uval :=
  let key := str_encode k in
  if decide (v = []) then Ok UNone
  else if endswith key (str_encode ".int") then z ← unpack_int v; Ok (UInt z)
  else if endswith key (str_encode ".float") then f ← unpack_float v; Ok (UFloat f)
  else if startswith key (str_encode "_filter") && endswith key (str_encode "_score") then
    t ← unpack_string v; f ← py_float t; Ok (UFloat f)
  else Ok (UBytes v).

Definition unpack_attributes (dct : dict string bytes) : res (dict string uval) :=
  mapM_res (λ p, v ← unpack_value p.1 p.2; Ok (p.1, v)) dct.

(** Without unpacking the values stay what they are. *)
Definition maybe_unpack (should_unpack_attrs : bool) (dct : dict string bytes) : res (dict string uval) :=
  if should_unpack_attrs then unpack_attributes dct else Ok (prod_map id UBytes <$> dct).

(** ** _DiamondConnection *)
Section Connection.
(** The two RPC connections: the control channel's stubs, the blast channel's
[get_object], and connecting both. *)
Context {S : Type} (rpc : stub → pyval → sm S pyval) (connect : sm S unit).
Context (should_unpack_attrs : bool).

Definition setup (cookies : list ScopeCookie) (filters : list FilterSpec) : sm S unit :=
reply ← rpc ControlConnection.setup (setup_request cookies filters);
uris ← lift (field (as_list as_str) "uris" reply);
blobs ← lift (mapM_res (λ u, of_option KeyError (dict_get (uri_data filters) u)) uris);
match blobs with
| [] => mret tt
| _ => rpc ControlConnection.send_blobs (blob_data (VBytes <$> blobs)) ≫= λ _, mret tt
end.

Definition run_search (search_id : bytes) (cookies : list ScopeCookie) (filters : list FilterSpec) (attrs : option (list string)) : sm S unit :=
connect ≫= λ _,
setup cookies filters ≫= λ _,
rpc ControlConnection.start (VObj "XDR_start" [("search_id", VBytes search_id); ("attrs", optional_strings attrs)]) ≫= λ _,
mret tt.

(** [get_result]: [None] when the search has ended. *)
Definition get_result : sm S (option (dict string uval)) :=
reply ← rpc BlastConnection.get_object VNone;
dct ← lift (attrs_dict reply);
match dct with
| [] => mret None
| _ => d ← lift (maybe_unpack should_unpack_attrs dct); mret (Some d)
end.

(** [evaluate]; the retry sends [str(blob)]. *)
Definition reexecute_request (b : Blob) (attrs : option (list string)) : pyval :=
VObj "XDR_reexecute" [("object_id", VStr (blob_uri b)); ("attrs", optional_strings attrs)].

Definition evaluate (cookies : list ScopeCookie) (filters : list FilterSpec) (b : Blob) (attrs : option (list string)) : sm S (dict string uval) :=
connect ≫= λ _,
setup cookies filters ≫= λ _,
reply ← try_with (rpc ControlConnection.reexecute_filters (reexecute_request b attrs))
(λ e, bool_decide (e = RPCError (rc_code DiamondRPCFCacheMiss)))
(λ _, rpc ControlConnection.send_blobs (blob_data [VStr (blob_str b)]) ≫= λ _,
rpc ControlConnection.reexecute_filters (reexecute_request b attrs));
dct ← lift (attrs_dict reply);
lift (maybe_unpack should_unpack_attrs dct).

(** The generator [_handle_objects]: the results of a connection, how it ended
([None]: the search has ended or the connection failed). *)
Fixpoint handle_objects (fuel : nat) : S → list (dict string uval) * option exn * S := λ s,
match fuel with
| O => ([], Some RuntimeError, s)
| Datatypes.S fuel =>
match get_result s with
| (Ok None, s) => ([], None, s)
| (Ok (Some d), s) => let '(ds, e, s) := handle_objects fuel s in (d :: ds, e, s)
| (Raise ConnectionFailure, s) | (Raise (RPCError _), s) => ([], None, s)
| (Raise e, s) => ([], Some e, s)
end
end.
End Connection.

(** ** DiamondSearch.get_stats *)

(** [combine_into] *)
Definition combine_into (dest : dict string Z) (src : list (string * Z)) : dict string Z :=
  foldl (λ d p, dict_set d p.1 (default 0 (dict_get d p.1) + p.2)) dest src.

(** The stats of a reply, by name; those of its filters. *)
Record server_stats := ServerStats { sv_stats : list (string * Z); sv_filters : list (string * list (string * Z)) }.

Definition combine_filters (dest : dict string (dict string Z)) (fs : list (string * list (string * Z))) : dict string (dict string Z) :=
  foldl (λ d p, dict_set d p.1 (combine_into (default [] (dict_get d p.1)) p.2)) dest fs.

Definition get_stats (results : list server_stats) : dict string Z * dict string (dict string Z) :=
  foldl (λ acc r, (combine_into acc.1 (sv_stats r), combine_filters acc.2 (sv_filters r))) ([], []) results.

(** The reply to [request_stats]. *)
Definition as_int (v : pyval) : res Z := match v with VInt z => Ok z | _ => Raise TypeError end.
Definition stat_of (v : pyval) : res (string * Z) := n ← field as_str "name" v; x ← field as_int "value" v; Ok (n, x).
Definition filter_stats_of (v : pyval) : res (string * list (string * Z)) :=
  n ← field as_str "name" v; l ← field (as_list stat_of) "stats" v; Ok (n, l).
Definition server_stats_of (v : pyval) : res server_stats :=
  l ← field (as_list stat_of) "stats" v; fl ← field (as_list filter_stats_of) "filter_stats" v; Ok (ServerStats l fl).

(** ** Lemmas *)

(** The values reported under a name. *)
Definition total (name : string) (l : list (string * Z)) : Z := foldr (λ p n, (if decide (p.1 = name) then p.2 else 0) + n) 0 l.

Lemma total_app name l1 l2 : total name (l1 ++ l2) = total name l1 + total name l2.
Proof. unfold total. induction l1 as [|p l1 IH]; [done|]. cbn [app foldr]. rewrite IH. lia. Qed.

Lemma combine_into_total dest src name :
  default 0 (dict_get (combine_into dest src) name) = default 0 (dict_get dest name) + total name src.
Proof.
  unfold combine_into. revert dest. induction src as [|[n v] src IH]; intros dest; [cbn; lia|].
  cbn [foldl]. rewrite IH, dict_get_set. cbn [total foldr fst snd]. fold (total name src). case_decide as E; [subst n|]; cbn; lia.
Qed.

Lemma combine_filters_total dest fs f name :
  default 0 (dict_get (default [] (dict_get (combine_filters dest fs) f)) name) =
  default 0 (dict_get (default [] (dict_get dest f)) name) +
  total name (p ← fs; if decide (p.1 = f) then p.2 else []).
Proof.
  unfold combine_filters. revert dest. induction fs as [|[g l] fs IH]; intros dest; [cbn; lia|].
  cbn [foldl]. rewrite IH, dict_get_set, bind_cons, total_app. cbn [fst snd].
  case_decide as E; [subst g|cbn; lia]. change (default [] (Some ?x)) with x. rewrite combine_into_total. lia.
Qed.

(** The statistics of a search are the sums of what its servers report: for the
    search as a whole, and for each filter by its name. *)
Theorem get_stats_sums results :
  (∀ name, default 0 (dict_get (get_stats results).1 name) = total name (r ← results; sv_stats r)) ∧
  (∀ f name, default 0 (dict_get (default [] (dict_get (get_stats results).2 f)) name) =
    total name (r ← results; p ← sv_filters r; if decide (p.1 = f) then p.2 else [])).
Proof.
  unfold get_stats.
  assert (G : ∀ acc : dict string Z * dict string (dict string Z),
    let s := foldl (λ acc r, (combine_into acc.1 (sv_stats r), combine_filters acc.2 (sv_filters r))) acc results in
    (∀ name, default 0 (dict_get s.1 name) = default 0 (dict_get acc.1 name) + total name (r ← results; sv_stats r)) ∧
    (∀ f name, default 0 (dict_get (default [] (dict_get s.2 f)) name) =
      default 0 (dict_get (default [] (dict_get acc.2 f)) name) +
      total name (r ← results; p ← sv_filters r; if decide (p.1 = f) then p.2 else []))).
  { induction results as [|r results IH]; intros acc; cbv zeta; [split; intros; cbn; lia|].
    cbn [foldl]. destruct (IH (combine_into acc.1 (sv_stats r), combine_filters acc.2 (sv_filters r))) as [H1 H2]. cbn [fst snd] in H1, H2.
    split; intros; rewrite bind_cons, total_app.
    - rewrite H1, combine_into_total. lia.
    - rewrite H2, combine_filters_total. lia. }
  destruct (G ([], [])) as [H1 H2]. split; intros; rewrite ?H1, ?H2; cbn; lia.
Qed.

(** The retry of [evaluate] cannot be sent: [str(blob)] is no opaque data. *)
Lemma uncached_evaluate_fails b c :
  stub_call ControlConnection.send_blobs (blob_data [VStr (blob_str b)]) c = (Raise XDREncodingError, c).
Proof. reflexivity. Qed.

(** ** Examples *)
Example sample_unpack :
  unpack_attributes [("n.int", [Byte.xfe; Byte.xff; Byte.xff; Byte.xff]); ("x.float", [Byte.x00; Byte.x00; Byte.x20; Byte.xc0]);
    ("_filter.RGB_score", str_encode "0.5" ++ [Byte.x00]); ("hidden", []); ("name", [Byte.x61; Byte.x00])] =
  Ok [("n.int", UInt (-2)); ("x.float", UFloat (dec "-2.5")); ("_filter.RGB_score", UFloat (dec "0.5")); ("hidden", UNone);
      ("name", UBytes [Byte.x61; Byte.x00])].
Proof. by vm_compute. Qed.

(** A value whose name asks for a number must have its size. *)
Example sample_bad_unpack : unpack_attributes [("n.int", [Byte.x01])] = Raise StructError.
Proof. by vm_compute. Qed.
