(* ===== verification/Config.v ===== *)
(** The configuration file (src/opendiamond/config.py): the parameter table, the
    location of the file, its lines, overrides and the derived values. *)
From S2P Require Import Prelude PyBytes PyText Dict Protocol.
Local Open Scope Z_scope.

(** ** Text *)

(** [s.split(None, 1)], when it has two parts. *)
Fixpoint split_space1 (l : bytes) : option (bytes * bytes) :=
  match List.find (startswith l) (str_spaces ++ wide_spaces) with
  | Some p => Some ([], str_lstrip (drop (length p) l))
  | None =>
    match l with
    | [] => None
    | b :: l => match split_space1 l with Some (p, q) => Some (b :: p, q) | None => None end
    end
  end.

(** [s.split(None)] *)
Fixpoint words_fuel (fuel : nat) (l : bytes) : list bytes :=
  match fuel with
  | O => []
  | S fuel =>
    match str_strip l with
    | [] => []
    | l => match split_space1 l with Some (w, l) => w :: words_fuel fuel l | None => [l] end
    end
  end.
Definition words (l : bytes) : list bytes := words_fuel (length l) l.

(** The characters of a [str]. *)
Fixpoint chars (l : bytes) : list bytes :=
  match l with
  | [] => []
  | b :: l =>
    match chars l with
    | (c :: cs) :: rest => if cont c then (b :: c :: cs) :: rest else [b] :: (c :: cs) :: rest
    | _ => [[b]]
    end
  end.

Definition text (l : bytes) : string := String.string_of_list_byte l.

(** [os.path.join(a, b)] and [os.path.dirname(p)] *)
Definition path_join (a b : string) : string :=
  if startswith (str_encode b) [Byte.x2f] then b
  else if decide (a = "") then b
  else if endswith (str_encode a) [Byte.x2f] then a +:+ b
  else a +:+ "/" +:+ b.
Definition is_slash (b : byte) : bool := bool_decide (b = Byte.x2f).
Definition dirname (p : string) : string :=
  let head := rstrip (λ b, negb (is_slash b)) (str_encode p) in
  text (match rstrip is_slash head with [] => head | h => h end).

(** ** Parameters *)

(** The values that attributes have; [SAddr] and [SSet] are made by the
    constructor itself. *)
Inductive setting :=
  | SNone
  | SInt (n : Z)
  | SBool (b : bool)
  | SStr (s : string)
  | SList (l : list string)
  | SAddr (host : string) (port : Z)
  | SSet (s : gset string).

(** [_Param] *)
Record Param := MkParam { p_attr : option string; p_key : option string; p_default : setting }.

Definition new_param (attr key : string) (default : setting) : Param := MkParam (Some attr) (Some key) default.
(** A parameter that the file cannot set. *)
Definition internal_param (attr : string) (default : setting) : Param := MkParam (Some attr) None default.

(** [_ConfigParams]: the parameters by one of their names. *)
Definition index (name : Param → option string) (ps : list Param) : dict string Param :=
  foldl (λ d p, match name p with Some a => dict_set d a p | None => d end) [] ps.
Definition by_attr (ps : list Param) : dict string Param := index p_attr ps.
Definition by_key (ps : list Param) : dict string Param := index p_key ps.
Definition iter_attrs (ps : list Param) : list Param := (by_attr ps).*2.
Definition has_attr (ps : list Param) (a : string) : bool := dict_mem (by_attr ps) a.
Definition get_key (ps : list Param) (k : string) : res Param := of_option KeyError (dict_get (by_key ps) k).

(** ** Environment *)

(** What the constructor asks the system: environment variables, the number of
    processors ([None]: [OSError]), the text of a file, whether [os.mkdir] makes
    a directory next to the present ones, the host's name, the addresses of a
    host and the name of an address ([None]: [gaierror]). *)
Record environment := Environment {
  environ : dict string string;
  nprocessors : option Z;
  read_text : string → res string;
  can_mkdir : gset string → string → bool;
  getfqdn : string;
  addrinfo : string → option (list string);
  nameinfo : string → option string
}.

Definition default_threads (env : environment) : Z :=
  match nprocessors env with Some n => Z.max n 2 | None => 2 end.

(** [logging.INFO]; [opendiamond.__version__] is a parameter. *)
Definition INFO : Z := 20.

Definition config_params (version confdir : string) (threads : Z) : list Param := [
  new_param "blob_cache_days" "BLOBDAYS" (SInt 30);
  new_param "cache_database" "CACHEDB" (SInt 0);
  new_param "cache_password" "CACHEPASSWD" SNone;
  new_param "cache_server" "CACHE" SNone;
  new_param "cachedir" "CACHEDIR" (SStr (path_join confdir "cache"));
  internal_param "certdata" (SStr "");
  new_param "certfile" "CERTFILE" (SStr (path_join confdir "CERTS"));
  new_param "cgroupdir" "CGROUPDIR" SNone;
  internal_param "daemonize" (SBool true);
  internal_param "debug_command" (SStr "valgrind");
  internal_param "debug_filters" (SList []);
  new_param "logdays" "LOGDAYS" (SInt 14);
  new_param "logdir" "LOGDIR" (SStr (path_join confdir "log"));
  new_param "loglevel" "LOGLEVEL" (SInt INFO);
  internal_param "oneshot" (SBool false);
  new_param "http_proxy" "HTTP_PROXY" SNone;
  new_param "sentry_dsn" "SENTRY_DSN" SNone;
  new_param "serverids" "SERVERID" (SList []);
  new_param "threads" "THREADS" (SInt threads);
  internal_param "user_agent" (SStr ("OpenDiamond/" +:+ version));
  new_param "nv_gpu" "NV_GPU" (SStr "");
  new_param "security_cookie_no_verify" "SECURITY_COOKIE_NO_VERIFY" (SInt 0);
  new_param "diamondd_port" "PORT" (SInt PORT);
  new_param "retriever_host" "DRHOST" (SStr "127.0.0.1");
  new_param "retriever_port" "DRPORT" (SInt 5873);
  new_param "retriever_stores" "DATASTORE" (SList []);
  new_param "dataroot" "DATAROOT" (SStr "/srv/diamond");
  new_param "indexdir" "INDEXDIR" (SStr "/src/diamond/INDEXES");
  new_param "flickr_api_key" "FLICKR_KEY" SNone;
  new_param "flickr_secret" "FLICKR_SECRET" SNone;
  new_param "mirage_repository" "MIRAGE_REPOSITORY" SNone;
  new_param "yfcc100m_db_host" "YFCC100M_DB_HOST" (SStr "127.0.0.1");
  new_param "yfcc100m_db_dbname" "YFCC100M_DB_DBNAME" (SStr "dataretriever");
  new_param "yfcc100m_db_user" "YFCC100M_DB_USER" (SStr "dataretriever");
  new_param "yfcc100m_db_password" "YFCC100M_DB_PASSWORD" SNone;
  new_param "yfcc100m_db_port" "YFCC100M_DB_PORT" (SInt 3306)
].

(** ** The file *)
Abbreviation attrs := (dict string setting).

(** Set the attribute of a parameter from the text of the file. *)
Definition assign (p : Param) (value : string) (c : attrs) : res attrs :=
  match p_attr p with
  | None => Ok c
  | Some a =>
    match p_default p with
    | SList _ =>
      match dict_get c a with
      | Some (SList l) => Ok (dict_set c a (SList (l ++ [value])))
      | _ => Raise AttributeError
      end
    | SInt _ | SBool _ => n ← py_int_str (str_encode value); Ok (dict_set c a (SInt n))
    | _ => Ok (dict_set c a (SStr value))
    end
  end.

Definition parse_line (ps : list Param) (line : string) (c : attrs) : res attrs :=
  match str_strip (str_encode line) with
  | [] => Ok c
  | (b :: _) as l =>
    if decide (b = Byte.x23) then Ok c else
    let body :=
      '(key, value) ← of_option ValueError (split_space1 l);
      p ← try_except (get_key ps (text key)) (λ e, bool_decide (e = KeyError)) (λ _, Raise DiamondConfigError);
      assign p (text value) c in
    try_except body is_ValueError (λ _, Raise DiamondConfigError)
  end.

Fixpoint parse_lines (ps : list Param) (lines : list string) (c : attrs) : res attrs :=
  match lines with
  | [] => Ok c
  | line :: lines => c ← parse_line ps line c; parse_lines ps lines c
  end.

Definition set_defaults (ps : list Param) : attrs :=
  foldl (λ c p, match p_attr p with Some a => dict_set c a (p_default p) | None => c end) [] (iter_attrs ps).

(** The lines of a text file; a file is decoded before its first line is parsed. *)
Definition file_lines (s : string) : list string := text <$> split Byte.x0a (str_encode s).

Definition read_config (ps : list Param) (env : environment) (path : string) (path_specified : bool) (c : attrs) : res attrs :=
  try_except (s ← read_text env path; parse_lines ps (file_lines s) c)
    (λ e, bool_decide (e = OSError)) (λ _, if path_specified then Raise DiamondConfigError else Ok c).

(** ** The rest of the constructor *)
Definition config_path (env : environment) (path : option string) : res string :=
  match path with
  | Some p => Ok p
  | None =>
    match dict_get (environ env) "DIAMOND_CONFIG" with
    | Some d => Ok (path_join d "diamond_config")
    | None =>
      match dict_get (environ env) "HOME" with
      | Some h => Ok (path_join (path_join h ".diamond") "diamond_config")
      | None => Raise DiamondConfigError
      end
    end
  end.

Fixpoint apply_overrides (ps : list Param) (kwargs : list (string * setting)) (c : attrs) : res attrs :=
  match kwargs with
  | [] => Ok c
  | (a, v) :: kwargs => if has_attr ps a then apply_overrides ps kwargs (dict_set c a v) else Raise AttributeError
  end.

Definition get (c : attrs) (a : string) : res setting := of_option AttributeError (dict_get c a).

(** [os.path.isdir], then [os.mkdir] *)
Definition make_dir (env : environment) (dir : setting) (dirs : gset string) : res (gset string) :=
  match dir with
  | SNone => Ok dirs
  | SStr d =>
    if decide (d ∈ dirs) then Ok dirs
    else if can_mkdir env dirs d then Ok ({[d]} ∪ dirs) else Raise DiamondConfigError
  | _ => Raise TypeError
  end.

(** [not v] *)
Definition is_false (v : setting) : bool :=
  match v with
  | SNone | SInt 0 | SBool false | SStr "" | SList [] => true
  | SSet s => bool_decide (s = ∅)
  | _ => false
  end.

Section Constructor.
Context (version : string) (set_order : gset string → list string) (env : environment).

(** The names of the host's addresses. *)
Definition server_names : gset string :=
list_to_set (omap (nameinfo env) (default [] (addrinfo env (getfqdn env)))).

Definition fill_serverids (c : attrs) : res attrs :=
v ← get c "serverids";
Ok (if is_false v then dict_set c "serverids" (SList (set_order server_names)) else c).

Definition fill_certdata (c : attrs) : res attrs :=
certfile ← get c "certfile"; certdata ← get c "certdata";
match certfile, certdata with
| SNone, _ => Ok c
| SStr path, SStr "" =>
try_except (s ← read_text env path; Ok (dict_set c "certdata" (SStr s))) (λ e, bool_decide (e = OSError)) (λ _, Ok c)
| _, SStr "" => Raise TypeError
| _, _ => Ok c
end.

Definition parse_server (server : string) : res (string * Z) :=
let server := if decide (Byte.x3a ∈ str_encode server) then str_encode server else str_encode (server +:+ ":6379") in
'(host, port) ← of_option ValueError (split1 Byte.x3a server);
port ← try_except (py_int_str port) is_ValueError (λ _, Raise DiamondConfigError);
Ok (text host, port).

Definition fill_cache_server (c : attrs) : res attrs :=
v ← get c "cache_server";
match v with
| SNone => Ok c
| SStr server => '(host, port) ← parse_server server; Ok (dict_set c "cache_server" (SAddr host port))
| _ => Raise TypeError
end.

(** [set(v)] *)
Definition to_set (v : setting) : res (gset string) :=
match v with
| SList l => Ok (list_to_set l)
| SSet s => Ok s
| SStr s => Ok (list_to_set (text <$> chars (str_encode s)))
| _ => Raise TypeError
end.

Definition canonicalize (c : attrs) : res attrs :=
filters ← get c "debug_filters"; filters ← to_set filters;
let c := dict_set c "debug_filters" (SSet filters) in
command ← get c "debug_command";
command ← match command with SStr s => Ok (text <$> words (str_encode s)) | _ => Raise AttributeError end;
let c := dict_set c "debug_command" (SList command) in
stores ← get c "retriever_stores";
Ok (if is_false stores then dict_set c "retriever_stores" (SList ["diamond"; "proxy"]) else c).

Definition the_params (path : string) : list Param := config_params version (dirname path) (default_threads env).

(** Defaults, the file, and the overrides. *)
Definition configure (path : option string) (kwargs : list (string * setting)) : res attrs :=
p ← config_path env path;
let ps := the_params p in
c ← read_config ps env p (bool_decide (is_Some path)) (set_defaults ps);
apply_overrides ps kwargs c.

(** The values derived from the settings. *)
Definition derive (c : attrs) : res attrs :=
c ← fill_serverids c; c ← fill_certdata c; c ← fill_cache_server c; canonicalize c.

(** [DiamondConfig.__init__]: the attributes, and the directories afterwards. *)
Definition DiamondConfig (path : option string) (kwargs : list (string * setting)) (dirs : gset string) : res (attrs * gset string) :=
c ← configure path kwargs;
cachedir ← get c "cachedir"; dirs ← make_dir env cachedir dirs;
logdir ← get c "logdir"; dirs ← make_dir env logdir dirs;
c ← derive c;
Ok (c, dirs).

End Constructor.

(** ** What a file means

    A line is blank, an entry or malformed. *)
Inductive line_kind := Blank | Entry (key value : string) | Malformed.

Definition classify (line : string) : line_kind :=
  match str_strip (str_encode line) with
  | [] => Blank
  | (b :: _) as l =>
    if decide (b = Byte.x23) then Blank
    else match split_space1 l with Some (k, v) => Entry (text k) (text v) | None => Malformed end
  end.

(** The values that the file gives for a key, in order. *)
Definition values (k : string) (lines : list string) : list string :=
  omap (λ line, match classify line with Entry k' v => if decide (k' = k) then Some v else None | _ => None end) lines.

(** The value that a file gives to a parameter: a list collects all its entries
    after the default, any other parameter has its last entry. *)
Definition meant (default : setting) (vs : list string) : setting :=
  match default with
  | SList l => SList (l ++ vs)
  | SInt _ | SBool _ =>
    match last vs with Some v => match py_int_str (str_encode v) with Ok n => SInt n | Raise _ => default end | None => default end
  | _ => match last vs with Some v => SStr v | None => default end
  end.
Definition setting_of (p : Param) (lines : list string) : setting :=
  meant (p_default p) (match p_key p with Some k => values k lines | None => [] end).

(** An entry names a parameter, and gives an integer to an integer parameter. *)
Definition value_ok (p : Param) (v : string) : bool :=
  match p_attr p, p_default p with
  | Some _, (SInt _ | SBool _) => is_ok (py_int_str (str_encode v))
  | _, _ => true
  end.
Definition good_line (ps : list Param) (line : string) : bool :=
  match classify line with
  | Blank => true
  | Malformed => false
  | Entry k v => match dict_get (by_key ps) k with Some p => value_ok p v | None => false end
  end.

(** ** The parameter table *)

(** The attributes that overrides may name. *)
Definition attr_names : list string := Eval cbn in omap p_attr (config_params "" "" 0).

Lemma attr_names_eq version confdir threads : omap p_attr (config_params version confdir threads) = attr_names.
Proof. cbn. reflexivity. Qed.

Definition table_wf (ps : list Param) : Prop := NoDup (omap p_attr ps) ∧ NoDup (omap p_key ps).

Lemma index_snoc name ps p :
  index name (ps ++ [p]) = match name p with Some a => dict_set (index name ps) a p | None => index name ps end.
Proof. unfold index. by rewrite foldl_app. Qed.

Lemma index_spec name ps a p : NoDup (omap name ps) →
  dict_get (index name ps) a = Some p ↔ p ∈ ps ∧ name p = Some a.
Proof.
  induction ps as [|q ps IH] using rev_ind; intros Hnd.
  { split; [done|]. intros [H _]. by apply not_elem_of_nil in H. }
  rewrite omap_app in Hnd. apply NoDup_app in Hnd as (Hnd & Hdisj & _). specialize (IH Hnd).
  rewrite index_snoc, elem_of_app, list_elem_of_singleton. destruct (name q) as [b|] eqn:Eq.
  - rewrite dict_get_set. destruct (decide (b = a)) as [->|Hne].
    + split; [intros [= ->]; auto|]. intros [[Hp| ->] Ha]; [|done]. exfalso.
      apply (Hdisj a); [apply list_elem_of_omap; eauto|]. cbn. rewrite Eq. by left.
    + rewrite IH. naive_solver.
  - rewrite IH. naive_solver.
Qed.

Lemma config_params_wf version confdir threads : table_wf (config_params version confdir threads).
Proof. split; cbn; apply (bool_decide_unpack _); by vm_compute. Qed.

Lemma set_defaults_table version confdir threads :
  set_defaults (config_params version confdir threads) =
  (λ p, (default "" (p_attr p), p_default p)) <$> config_params version confdir threads.
Proof. reflexivity. Qed.

Lemma py_int_str_raise l e : py_int_str l = Raise e → e = ValueError.
Proof.
  unfold py_int_str, py_int, of_option. destruct (match strip _ with [] => _ | _ => _ end); congruence.
Qed.

(** ** The file's entries *)
Section File.
Context (ps : list Param) (Hps : table_wf ps).

(** After some lines every attribute has the value that they mean. *)
Definition means (lines : list string) (c : attrs) : Prop :=
∀ a p, dict_get (by_attr ps) a = Some p → dict_get c a = Some (setting_of p lines).

Lemma get_by_attr a p : dict_get (by_attr ps) a = Some p ↔ p ∈ ps ∧ p_attr p = Some a.
Proof using Hps. apply index_spec, Hps. Qed.
Lemma get_by_key k p : dict_get (by_key ps) k = Some p ↔ p ∈ ps ∧ p_key p = Some k.
Proof using Hps. apply index_spec, Hps. Qed.

Lemma values_snoc k lines line :
values k (lines ++ [line]) =
values k lines ++ match classify line with Entry k' v => if decide (k' = k) then [v] else [] | _ => [] end.
Proof.
unfold values. rewrite omap_app. f_equal. cbn. destruct (classify line); try done. by case_decide.
Qed.

Lemma setting_of_other p lines line :
(∀ k v, classify line = Entry k v → p_key p ≠ Some k) → setting_of p (lines ++ [line]) = setting_of p lines.
Proof.
intros H. unfold setting_of. f_equal. destruct (p_key p) as [k|]; [|done].
rewrite values_snoc. destruct (classify line) as [|k' v|] eqn:E; rewrite ?app_nil_r; try done.
case_decide; [|by rewrite app_nil_r]. subst. by destruct (H k v).
Qed.

Lemma setting_of_entry p lines line k v : p_key p = Some k → classify line = Entry k v →
setting_of p (lines ++ [line]) = meant (p_default p) (values k lines ++ [v]).
Proof. intros Hk Hc. unfold setting_of. by rewrite Hk, values_snoc, Hc, decide_True by done. Qed.

Lemma assign_spec p a k v lines c : p ∈ ps → p_attr p = Some a → p_key p = Some k → means lines c →
match assign p v c with
| Ok c' => value_ok p v = true ∧ c' = dict_set c a (meant (p_default p) (values k lines ++ [v]))
| Raise e => value_ok p v = false ∧ e = ValueError
end.
Proof using Hps.
intros Hp Ha Hk Hm. unfold assign, value_ok. rewrite Ha.
specialize (Hm a p (proj2 (get_by_attr a p) (conj Hp Ha))). unfold setting_of in Hm. rewrite Hk in Hm.
destruct (p_default p) as [|n|b|s|l|h z|st]; cbn in *; rewrite ?last_snoc; try done.
- destruct (py_int_str (str_encode v)) as [n'|e] eqn:E; cbn; [done|]. by apply py_int_str_raise in E.
- destruct (py_int_str (str_encode v)) as [n'|e] eqn:E; cbn; [done|]. by apply py_int_str_raise in E.
- rewrite Hm. split; [done|]. by rewrite app_assoc.
Qed.

Lemma same_attr a p p' : p ∈ ps → p' ∈ ps → p_attr p = Some a → p_attr p' = Some a → p = p'.
Proof using Hps.
intros. pose proof (proj2 (get_by_attr a p) ltac:(done)). pose proof (proj2 (get_by_attr a p') ltac:(done)). congruence.
Qed.
Lemma same_key k p p' : p ∈ ps → p' ∈ ps → p_key p = Some k → p_key p' = Some k → p = p'.
Proof using Hps.
intros. pose proof (proj2 (get_by_key k p) ltac:(done)). pose proof (proj2 (get_by_key k p') ltac:(done)). congruence.
Qed.

Lemma parse_line_classify line c : parse_line ps line c =
match classify line with
| Blank => Ok c
| Malformed => Raise DiamondConfigError
| Entry k v =>
match dict_get (by_key ps) k with
| None => Raise DiamondConfigError
| Some p => try_except (assign p v c) is_ValueError (λ _, Raise DiamondConfigError)
end
end.
Proof.
unfold parse_line, classify. destruct (str_strip (str_encode line)) as [|b l]; [done|]. case_decide; [done|].
destruct (split_space1 (b :: l)) as [[k v]|]; [|done]. cbn. unfold get_key.
by destruct (dict_get (by_key ps) (text k)).
Qed.

Lemma parse_line_spec line lines c : means lines c →
match parse_line ps line c with
| Ok c' => good_line ps line = true ∧ means (lines ++ [line]) c'
| Raise e => good_line ps line = false ∧ e = DiamondConfigError
end.
Proof using Hps.
intros Hm. rewrite parse_line_classify. unfold good_line. destruct (classify line) as [|k v|] eqn:Ec.
- split; [done|]. intros a p Hp. rewrite setting_of_other by (by rewrite Ec). by apply Hm.
- destruct (dict_get (by_key ps) k) as [p|] eqn:Ek; [|done]. apply get_by_key in Ek as [Hp Hk].
destruct (p_attr p) as [a|] eqn:Ea.
+ pose proof (assign_spec p a k v lines c Hp Ea Hk Hm) as Hs.
destruct (assign p v c) as [c'|e]; cbn; [|by destruct Hs as [Hs ->]]. destruct Hs as [Hv ->]. split; [done|].
intros a' p' Hp'. rewrite dict_get_set. destruct (decide (a = a')) as [<-|Hne].
* apply get_by_attr in Hp' as [Hp' Ha']. rewrite (same_attr a p' p) by done.
f_equal. symmetry. by eapply setting_of_entry.
* rewrite setting_of_other; [by apply Hm|]. intros k' v' He Hk'. apply Hne.
rewrite Ec in He. injection He as <- <-. apply get_by_attr in Hp' as [Hp' Ha']. pose proof (same_key k p p' Hp Hp' Hk Hk'). congruence.
+ unfold assign, value_ok. rewrite Ea. cbn. split; [done|]. intros a' p' Hp'.
rewrite setting_of_other; [by apply Hm|]. intros k' v' He Hk'. rewrite Ec in He. injection He as <- <-.
apply get_by_attr in Hp' as [Hp' Ha']. pose proof (same_key k p p' Hp Hp' Hk Hk'). congruence.
- done.
Qed.

Lemma parse_lines_spec lines : ∀ before c, means before c →
match parse_lines ps lines c with
| Ok c' => forallb (good_line ps) lines = true ∧ means (before ++ lines) c'
| Raise e => forallb (good_line ps) lines = false ∧ e = DiamondConfigError
end.
Proof using Hps.
induction lines as [|line lines IH]; intros before c Hm; cbn; [by rewrite app_nil_r|].
pose proof (parse_line_spec line before c Hm) as Hl.
destruct (parse_line ps line c) as [c1|e]; cbn; [|by destruct Hl as [-> ->]].
destruct Hl as [-> Hm1]. specialize (IH _ _ Hm1). rewrite cons_middle, app_assoc. exact IH.
Qed.
End File.

Lemma meant_nil d : meant d [] = d.
Proof. destruct d; cbn; by rewrite ?app_nil_r. Qed.

Lemma setting_of_nil p : setting_of p [] = p_default p.
Proof. unfold setting_of. destruct (p_key p); apply meant_nil. Qed.

Lemma defaults_mean version confdir threads :
  means (config_params version confdir threads) [] (set_defaults (config_params version confdir threads)).
Proof.
  intros a p Hp. apply get_by_attr in Hp as [Hp Ha]; [|apply config_params_wf].
  rewrite setting_of_nil, set_defaults_table. apply dict_In_get.
  - unfold dict_wf, dict_keys. rewrite <-list_fmap_compose. apply (bool_decide_unpack _). by vm_compute.
  - apply list_elem_of_fmap. exists p. by rewrite Ha.
Qed.

(** C32.  What the configuration file means.  The constructor accepts the lines of a
    file exactly when every one of them is blank, a comment, or an entry of a
    known key whose value is an integer where the parameter is one; then a list
    parameter has its default followed by the values of all its entries in
    order, and any other parameter the value of its last entry, or its default.
    Any other file is [DiamondConfigError]. *)
Theorem config_file_meaning version confdir threads lines :
  let ps := config_params version confdir threads in
  match parse_lines ps lines (set_defaults ps) with
  | Ok c => forallb (good_line ps) lines = true ∧
      ∀ p a, p ∈ ps → p_attr p = Some a → dict_get c a = Some (setting_of p lines)
  | Raise e => forallb (good_line ps) lines = false ∧ e = DiamondConfigError
  end.
Proof.
  intros ps. pose proof (config_params_wf version confdir threads) as Hps.
  pose proof (parse_lines_spec ps Hps lines [] _ (defaults_mean version confdir threads)) as H.
  fold ps in H. destruct (parse_lines ps lines (set_defaults ps)) as [c|e]; [|done].
  destruct H as [Hg Hm]. split; [done|]. intros p a Hp Ha. apply Hm. by apply get_by_attr.
Qed.

Example sample_config :
  let ps := config_params "8" "/home/u/.diamond" 4 in
  let c := parse_lines ps ["# servers"; ""; "SERVERID  one.example.org "; "THREADS 8"; "SERVERID two.example.org";
    "CACHE redis:7000"; "THREADS 16"] (set_defaults ps) in
  (c ← c; get c "serverids") = Ok (SList ["one.example.org"; "two.example.org"]) ∧
  (c ← c; get c "threads") = Ok (SInt 16) ∧ (c ← c; get c "logdays") = Ok (SInt 14) ∧
  (c ← c; get c "cache_server") = Ok (SStr "redis:7000") ∧
  parse_lines ps ["THREADS many"] (set_defaults ps) = Raise DiamondConfigError ∧
  parse_lines ps ["THREADS"] (set_defaults ps) = Raise DiamondConfigError ∧
  parse_lines ps ["PARALLEL 3"] (set_defaults ps) = Raise DiamondConfigError.
Proof. vm_compute. split_and!; reflexivity. Qed.

(** ** Types of the attributes *)

(** A value of a parameter with the given default; a text may be absent. *)
Definition of_kind (d v : setting) : bool :=
  match d, v with
  | SList _, SList _ | SInt _, SInt _ | SBool _, (SBool _ | SInt _) | (SStr _ | SNone), (SStr _ | SNone) => true
  | _, _ => false
  end.

(** Overrides of the right kind; a debug command is always present. *)
Definition overrides_ok (ps : list Param) (kwargs : list (string * setting)) : Prop :=
  ∀ a v, (a, v) ∈ kwargs → ∀ p, p ∈ ps → p_attr p = Some a → of_kind (p_default p) v = true ∧ (a = "debug_command" → v ≠ SNone).

(** What the constructor leaves in an attribute. *)
Definition settled (a : string) (d v : setting) : Prop :=
  if decide (a = "debug_filters") then ∃ s, v = SSet s
  else if decide (a = "debug_command") then ∃ l, v = SList l
  else if decide (a = "cache_server") then v = SNone ∨ ∃ h p, v = SAddr h p
  else of_kind d v = true ∧ (a = "retriever_stores" → v ≠ SList []).

Definition well_typed (ps : list Param) (c : attrs) : Prop :=
  ∀ p a, p ∈ ps → p_attr p = Some a → ∃ v, dict_get c a = Some v ∧ of_kind (p_default p) v = true ∧
    (a = "debug_command" → v ≠ SNone).

Lemma meant_kind d vs : of_kind d d = true → of_kind d (meant d vs) = true.
Proof.
  unfold meant. intros H. repeat case_match; try done.
Qed.

(** The processing of the file, or of its absence, and of the overrides. *)
Lemma settings_typed version confdir threads lines c :
  let ps := config_params version confdir threads in
  parse_lines ps lines (set_defaults ps) = Ok c → well_typed ps c.
Proof.
  intros ps Hc p a Hp Ha. pose proof (config_params_wf version confdir threads) as Hps.
  pose proof (parse_lines_spec ps Hps lines [] _ (defaults_mean version confdir threads)) as H.
  fold ps in H. rewrite Hc in H. destruct H as [_ Hm]. exists (setting_of p lines). split; [|split].
  - apply Hm. by apply get_by_attr.
  - unfold setting_of. apply meant_kind.
    assert (Forall (λ p, of_kind (p_default p) (p_default p) = true) ps) as Hall by (repeat constructor).
    by eapply Forall_forall in Hall.
  - intros ->. assert (Forall (λ p, p_attr p = Some "debug_command" → p_default p = SStr "valgrind") ps) as Hall
      by (repeat (apply List.Forall_cons; [done|]); apply List.Forall_nil).
    eapply Forall_forall in Hall; [|done]. unfold setting_of. rewrite (Hall Ha). unfold meant.
    by repeat case_match.
Qed.

Lemma overrides_typed ps kwargs : table_wf ps → ∀ c, well_typed ps c → overrides_ok ps kwargs →
  match apply_overrides ps kwargs c with
  | Ok c => well_typed ps c
  | Raise e => e = AttributeError ∧ ¬ Forall (λ kv, kv.1 ∈ omap p_attr ps) kwargs
  end.
Proof.
  intros Hps. induction kwargs as [|[a v] kwargs IH]; intros c Hc Hov; cbn; [done|].
  unfold has_attr. destruct (dict_mem (by_attr ps) a) eqn:Em.
  - assert (Hc' : well_typed ps (dict_set c a v)).
    { intros p a' Hp Ha'. rewrite dict_get_set. destruct (decide (a = a')) as [<-|Hne]; [|by apply Hc].
      exists v. split; [done|]. by eapply Hov; [left|..]. }
    specialize (IH _ Hc'). destruct (apply_overrides ps kwargs _) as [c'|e] eqn:E.
    + apply IH. intros a' v' Hin. apply Hov. by right.
    + destruct IH as [-> Hno]; [intros a' v' Hin; apply Hov; by right|]. split; [done|].
      intros Hall. by apply Forall_cons in Hall as [_ Hall].
  - split; [done|]. intros Hall. apply Forall_cons in Hall as [Hin _]. cbn in Hin.
    apply list_elem_of_omap in Hin as (p & Hp & Ha). unfold dict_mem in Em.
    apply bool_decide_eq_false in Em. apply Em. exists p. by apply get_by_attr.
Qed.

Lemma get_Some c a v : dict_get c a = Some v → get c a = Ok v.
Proof. unfold get. by intros ->. Qed.

Section Typed.
Context (version : string) (set_order : gset string → list string) (env : environment) (confdir : string) (threads : Z).
Let ps := config_params version confdir threads.

(** The default of the one parameter with a given attribute. *)
Definition default_of (a : string) : setting := default SNone (p_default <$> dict_get (by_attr ps) a).

Lemma default_of_spec q a : q ∈ ps → p_attr q = Some a → default_of a = p_default q.
Proof.
intros Hq Ha. unfold default_of.
by rewrite (proj2 (get_by_attr ps (config_params_wf version confdir threads) a q) (conj Hq Ha)).
Qed.

Lemma defaults_at : default_of "serverids" = SList [] ∧ default_of "certfile" = SStr (path_join confdir "CERTS") ∧
default_of "certdata" = SStr "" ∧ default_of "cache_server" = SNone ∧ default_of "debug_filters" = SList [] ∧
default_of "debug_command" = SStr "valgrind" ∧ default_of "retriever_stores" = SList [] ∧
default_of "cachedir" = SStr (path_join confdir "cache") ∧ default_of "logdir" = SStr (path_join confdir "log").
Proof. split_and!; reflexivity. Qed.

Lemma has_attrs : Forall (λ a, has_attr ps a = true)
["serverids"; "certfile"; "certdata"; "cache_server"; "debug_filters"; "debug_command"; "retriever_stores"; "cachedir"; "logdir"].
Proof. repeat constructor. Qed.

Lemma well_typed_get c a : well_typed ps c →
a ∈ ["serverids"; "certfile"; "certdata"; "cache_server"; "debug_filters"; "debug_command"; "retriever_stores"; "cachedir"; "logdir"] →
∃ v, dict_get c a = Some v ∧ of_kind (default_of a) v = true ∧ (a = "debug_command" → v ≠ SNone).
Proof.
intros Hc Ha. eapply Forall_forall in Ha; [|exact has_attrs]. unfold has_attr, dict_mem in Ha. apply bool_decide_eq_true in Ha as [q Hq].
apply get_by_attr in Hq as [Hq Ha]; [|apply config_params_wf].
destruct (Hc q a Hq Ha) as (v & Hv & Hk & Hn). exists v. by rewrite (default_of_spec q a).
Qed.

Lemma well_typed_set c a v : well_typed ps c → of_kind (default_of a) v = true → (a = "debug_command" → v ≠ SNone) →
well_typed ps (dict_set c a v).
Proof.
intros Hc Hk Hn q a' Hq Ha'. rewrite dict_get_set. destruct (decide (a = a')) as [<-|]; [|by apply Hc].
exists v. by rewrite <-(default_of_spec q a).
Qed.

Lemma well_typed_default c a d : well_typed ps c → default_of a = d →
a ∈ ["serverids"; "certfile"; "certdata"; "cache_server"; "debug_filters"; "debug_command"; "retriever_stores"; "cachedir"; "logdir"] →
∃ v, dict_get c a = Some v ∧ of_kind d v = true ∧ (a = "debug_command" → v ≠ SNone).
Proof. intros Hc <-. by apply well_typed_get. Qed.

#[local] Opaque config_params default_of.

(** Read an attribute of a well-typed configuration. *)
Ltac lookup Hc a v Hv Hk Hn :=
destruct (well_typed_default _ a _ Hc ltac:(apply defaults_at) ltac:(apply (bool_decide_unpack _); vm_compute; reflexivity))
as (v & Hv & Hk & Hn).
Ltac attribute Hc a v Hv Hk Hn := lookup Hc a v Hv Hk Hn; rewrite (get_Some _ a v Hv); cbn [of_option mbind res_bind].

(** The directories are those of the settings. *)
Definition same_dirs (c c' : attrs) : Prop :=
dict_get c' "cachedir" = dict_get c "cachedir" ∧ dict_get c' "logdir" = dict_get c "logdir".

Lemma same_dirs_set c a v : a ∉ ["cachedir"; "logdir"] → same_dirs c (dict_set c a v).
Proof.
intros Ha. rewrite !not_elem_of_cons in Ha. destruct Ha as (H1 & H2 & _).
split; by apply dict_get_set_ne.
Qed.

Lemma fill_serverids_typed c : well_typed ps c →
∃ c', fill_serverids set_order env c = Ok c' ∧ well_typed ps c' ∧ same_dirs c c'.
Proof.
intros Hc. unfold fill_serverids. attribute Hc "serverids" v Hv Hk Hn. eexists. split; [done|].
destruct (is_false v); [|done]. split; [by apply well_typed_set|]. apply same_dirs_set, (bool_decide_unpack _); by vm_compute.
Qed.

Lemma fill_certdata_typed c : (∀ f e, read_text env f = Raise e → e = OSError ∨ e = UnicodeDecodeError) → well_typed ps c →
match fill_certdata env c with Ok c' => well_typed ps c' ∧ same_dirs c c' | Raise e => e = UnicodeDecodeError end.
Proof.
intros Henv Hc. unfold fill_certdata. attribute Hc "certfile" f Hf Hkf Hnf. attribute Hc "certdata" d Hd Hkd Hnd.
destruct f as [| | |f| | |]; try done. destruct d as [| | |d| | |]; try done. destruct d; [|done].
destruct (read_text env f) as [s|e] eqn:Er; cbn.
- split; [by apply well_typed_set|]. apply same_dirs_set, (bool_decide_unpack _); by vm_compute.
- by destruct (Henv f e Er) as [->| ->].
Qed.

Lemma fill_cache_server_typed c : well_typed ps c →
match fill_cache_server c with
| Ok c' => c' = c ∧ dict_get c "cache_server" = Some SNone ∨ ∃ h p, c' = dict_set c "cache_server" (SAddr h p)
| Raise e => e = DiamondConfigError
end.
Proof.
intros Hc. unfold fill_cache_server. attribute Hc "cache_server" v Hv Hk Hn.
destruct v as [| | |s| | |]; try done; [by left|]. unfold parse_server.
set (l := if decide _ then _ else _).
assert (is_Some (split1 Byte.x3a l)) as [[h p] ->].
{ assert (H : Byte.x3a ∈ l).
{ subst l. case_decide; [done|]. rewrite str_encode_app. apply elem_of_app. right. apply (bool_decide_unpack _). by vm_compute. }
clear -H. induction l as [|b l IH]; cbn; [by apply not_elem_of_nil in H|]. case_decide; [by eexists|].
apply elem_of_cons in H as [<-|H]; [done|]. destruct (IH H) as [[h p] ->]. by eexists. }
cbn [of_option mbind res_bind]. unfold try_except. destruct (py_int_str p) as [n|e] eqn:Ep; cbn; [by right; eauto|].
by apply py_int_str_raise in Ep as ->.
Qed.

Lemma canonicalize_typed c c' : well_typed ps c → c' = c ∧ dict_get c "cache_server" = Some SNone ∨
(∃ h p, c' = dict_set c "cache_server" (SAddr h p)) →
∃ c2, canonicalize c' = Ok c2 ∧ (∀ q a, q ∈ ps → p_attr q = Some a → ∃ v, dict_get c2 a = Some v ∧ settled a (p_default q) v) ∧ same_dirs c c2.
Proof.
intros Hc Hsrv.
assert (Hget : ∀ a, a ≠ "cache_server" → dict_get c' a = dict_get c a).
{ destruct Hsrv as [[-> _]|(h & p & ->)]; [done|]. intros a Hne. by rewrite dict_get_set_ne. }
assert (Hs : ∃ v, dict_get c' "cache_server" = Some v ∧ (v = SNone ∨ ∃ h p, v = SAddr h p)).
{ destruct Hsrv as [[-> Hs]|(h & p & ->)]; [by eauto|]. exists (SAddr h p). rewrite dict_get_set_eq. eauto. }
clear Hsrv. lookup Hc "debug_filters" vf Hf Hkf Hnf. lookup Hc "debug_command" vc Hvc Hkc Hnc. lookup Hc "retriever_stores" vs Hvs Hks Hns.
unfold canonicalize. rewrite (get_Some _ "debug_filters" vf) by (by rewrite Hget). cbn [mbind res_bind].
destruct vf as [| | | |lf| |]; try done. cbn [to_set mbind res_bind].
rewrite (get_Some _ "debug_command" vc) by (by rewrite dict_get_set_ne, Hget). cbn [mbind res_bind].
destruct vc as [| | |cmd| | |]; try done; [by destruct (Hnc eq_refl)|]. cbn [mbind res_bind].
rewrite (get_Some _ "retriever_stores" vs) by (by rewrite !dict_get_set_ne, Hget). cbn [mbind res_bind].
destruct vs as [| | | |stores| |]; try done.
eexists. split; [done|].
set (l := if is_false (SList stores) then ["diamond"; "proxy"] else stores).
set (c2 := if is_false _ then _ else _).
assert (Hc2 : ∀ a, dict_get c2 a = if decide (a = "retriever_stores") then Some (SList l)
else if decide (a = "debug_command") then Some (SList (text <$> words (str_encode cmd)))
else if decide (a = "debug_filters") then Some (SSet (list_to_set lf)) else dict_get c' a).
{ intros a. unfold c2, l. destruct stores; cbn [is_false]; rewrite !dict_get_set;
repeat (case_decide; subst; try done); by rewrite Hget. }
clearbody c2. split.
- intros q a Hq Ha. rewrite Hc2. unfold settled. pose proof (default_of_spec q a Hq Ha) as Hd.
destruct (Hc q a Hq Ha) as (v & Hv & Hkv & _).
destruct (decide (a = "retriever_stores")) as [->|H1].
{ eexists. split; [done|]. rewrite <-Hd. repeat rewrite decide_False by done. split; [done|].
unfold l. by destruct stores. }
destruct (decide (a = "debug_command")) as [->|H2].
{ eexists. split; [done|]. rewrite decide_False by done. eauto. }
destruct (decide (a = "debug_filters")) as [->|H3]; [by eauto|].
destruct (decide (a = "cache_server")) as [->|H4]; [done|].
exists v. by rewrite Hget.
- split; rewrite Hc2; by apply Hget.
Qed.

Lemma derive_typed c : (∀ f e, read_text env f = Raise e → e = OSError ∨ e = UnicodeDecodeError) → well_typed ps c →
match derive set_order env c with
| Ok c2 => (∀ q a, q ∈ ps → p_attr q = Some a → ∃ v, dict_get c2 a = Some v ∧ settled a (p_default q) v) ∧ same_dirs c c2
| Raise e => e = DiamondConfigError ∨ e = UnicodeDecodeError
end.
Proof.
intros Henv Hc. unfold derive. destruct (fill_serverids_typed c Hc) as (c1 & -> & Hc1 & Hd1). cbn [mbind res_bind].
pose proof (fill_certdata_typed c1 Henv Hc1) as H2.
destruct (fill_certdata env c1) as [c2|e]; cbn [mbind res_bind]; [|by right]. destruct H2 as [Hc2 Hd2].
pose proof (fill_cache_server_typed c2 Hc2) as H3.
destruct (fill_cache_server c2) as [c3|e]; cbn [mbind res_bind]; [|by left].
destruct (canonicalize_typed c2 c3 Hc2 H3) as (c4 & -> & Hs & Hd4). split; [done|].
unfold same_dirs in *. intuition congruence.
Qed.

Lemma make_dir_typed c a dirs : well_typed ps c → a ∈ ["cachedir"; "logdir"] →
∃ v, get c a = Ok v ∧ dict_get c a = Some v ∧
match make_dir env v dirs with
| Ok dirs' => dirs ⊆ dirs' ∧ (∀ d, v = SStr d → d ∈ dirs')
| Raise e => e = DiamondConfigError
end.
Proof.
intros Hc Ha. assert (∃ s, default_of a = SStr s) as [s Hs].
{ rewrite !elem_of_cons in Ha. destruct Ha as [->|[->|[]%not_elem_of_nil]]; eexists; apply defaults_at. }
destruct (well_typed_default c a _ Hc Hs) as (v & Hv & Hk & _).
{ rewrite !elem_of_cons in Ha. destruct Ha as [->|[->|[]%not_elem_of_nil]];
apply (bool_decide_unpack _); vm_compute; reflexivity. } exists v. split_and!; [by apply get_Some|done|].
clear Hc Hs. destruct v as [| | |d| | |]; try done. unfold make_dir.
destruct (decide (d ∈ dirs)); [by split; [|intros ? [= <-]]|].
destruct (can_mkdir env dirs d); [|done]. split; [apply union_subseteq_r|].
intros ? [= <-]. apply elem_of_union_l, elem_of_singleton_2, eq_refl.
Qed.
End Typed.

(** C31.  The configuration that the constructor leaves.  Whatever the environment,
    the file and the (well-typed) overrides: if [DiamondConfig] returns, every
    attribute of the table is set to a value of its type, the debug filters are a
    set and the debug command a list, the cache server is absent or a host and
    an integer port, the data stores are not empty, and the cache and log
    directories exist.  The only other outcomes are [DiamondConfigError],
    undecodable text, and [AttributeError] for an override that is not an
    attribute of the table. *)
Theorem config_typed version set_order env path kwargs dirs :
  (∀ f e, read_text env f = Raise e → e = OSError ∨ e = UnicodeDecodeError) →
  (∀ confdir threads, overrides_ok (config_params version confdir threads) kwargs) →
  match DiamondConfig version set_order env path kwargs dirs with
  | Ok (c, dirs') => ∃ p, config_path env path = Ok p ∧
      (∀ q a, q ∈ the_params version env p → p_attr q = Some a → ∃ v, dict_get c a = Some v ∧ settled a (p_default q) v) ∧
      (∀ a d, a ∈ ["cachedir"; "logdir"] → dict_get c a = Some (SStr d) → d ∈ dirs')
  | Raise e => e = DiamondConfigError ∨ e = UnicodeDecodeError ∨
      e = AttributeError ∧ ¬ Forall (λ kv, kv.1 ∈ attr_names) kwargs
  end.
Proof.
  intros Henv Hov. unfold DiamondConfig, configure.
  destruct (config_path env path) as [p|e] eqn:Ep; cbn [mbind res_bind].
  2: { left. unfold config_path in Ep. repeat case_match; congruence. }
  set (ps := the_params version env p). assert (Hps : table_wf ps) by apply config_params_wf.
  assert (Hread : match read_config ps env p (bool_decide (is_Some path)) (set_defaults ps) with
    | Ok c => well_typed ps c | Raise e => e = DiamondConfigError ∨ e = UnicodeDecodeError end).
  { unfold read_config. destruct (read_text env p) as [s|e] eqn:Er; cbn [mbind res_bind].
    - pose proof (config_file_meaning version (dirname p) (default_threads env) (file_lines s)) as Hf.
      pose proof (settings_typed version (dirname p) (default_threads env) (file_lines s)) as Ht.
      fold (the_params version env p) in Hf, Ht. fold ps in Hf, Ht. cbv zeta in Hf, Ht.
      destruct (parse_lines ps (file_lines s) (set_defaults ps)) as [c|e]; cbn; [by apply Ht|].
      destruct Hf as [_ ->]. by left.
    - destruct (Henv p e Er) as [->| ->]; [|by right]. destruct path; [by left|].
      apply (settings_typed version (dirname p) (default_threads env) []). done. }
  destruct (read_config _ _ _ _ _) as [c0|e]; cbn [mbind res_bind]; [|tauto].
  pose proof (overrides_typed ps kwargs Hps c0 Hread (Hov _ _)) as Hc.
  destruct (apply_overrides ps kwargs c0) as [c|e]; cbn [mbind res_bind].
  2: { right; right. unfold ps, the_params in Hc. rewrite attr_names_eq in Hc. exact Hc. }
  clear Hov Hread c0. pose proof (derive_typed version set_order env (dirname p) (default_threads env) c Henv Hc) as Hd.
  destruct (make_dir_typed version env (dirname p) (default_threads env) c "cachedir" dirs Hc) as (v1 & -> & Hv1 & H1); [by left|].
  cbn [mbind res_bind]. destruct (make_dir env v1 dirs) as [dirs1|e]; cbn [mbind res_bind]; [|by left].
  destruct (make_dir_typed version env (dirname p) (default_threads env) c "logdir" dirs1 Hc) as (v2 & -> & Hv2 & H2); [by right; left|].
  cbn [mbind res_bind]. destruct (make_dir env v2 dirs1) as [dirs2|e]; cbn [mbind res_bind]; [|by left].
  destruct (derive set_order env c) as [c2|e]; cbn [mbind res_bind]; [|tauto].
  destruct Hd as [Hs [Hd1 Hd2]]. exists p. split_and!; [done|exact Hs|].
  intros a d Ha Hg. rewrite !elem_of_cons in Ha. destruct Ha as [->|[->|[]%not_elem_of_nil]].
  - destruct H1 as [_ H1], H2 as [Hsub _]. apply Hsub, H1. congruence.
  - destruct H2 as [_ H2]. apply H2. congruence.
Qed.

(** A host without a configuration file, two processors' worth of threads, one
    name, and no certificates. *)
Definition sample_env : environment :=
  Environment [("HOME", "/home/u")] (Some 1) (λ _, Raise OSError) (λ _ d, bool_decide (d = "/home/u/.diamond/log"))
    "h" (λ _, Some ["10.0.0.1"; "10.0.0.2"]) (λ a, if decide (a = "10.0.0.1") then Some "h.example.org" else None).

Lemma config_typed_witness :
  let ps := the_params "8" sample_env "/home/u/.diamond/diamond_config" in
  let r := DiamondConfig "8" elements sample_env None [("cache_server", SStr "redis"); ("daemonize", SBool false)] {["/home/u/.diamond/cache"]} in
  is_ok r = true ∧
  match r with
  | Ok (c, dirs') => ∃ p, config_path sample_env None = Ok p ∧
      (∀ q a, q ∈ the_params "8" sample_env p → p_attr q = Some a → ∃ v, dict_get c a = Some v ∧ settled a (p_default q) v) ∧
      (∀ a d, a ∈ ["cachedir"; "logdir"] → dict_get c a = Some (SStr d) → d ∈ dirs')
  | Raise e => e = DiamondConfigError ∨ e = UnicodeDecodeError ∨
      e = AttributeError ∧ ¬ Forall (λ kv, kv.1 ∈ attr_names) [("cache_server", SStr "redis"); ("daemonize", SBool false)]
  end.
Proof.
  intros ps r. split; [vm_compute; reflexivity|].
  apply (config_typed "8" elements sample_env None [("cache_server", SStr "redis"); ("daemonize", SBool false)]).
  - intros f e [= <-]. by left.
  - intros confdir threads a v Hin.
    refine (proj1 (Forall_forall (λ p, p_attr p = Some a →
      of_kind (p_default p) v = true ∧ (a = "debug_command" → v ≠ SNone)) _) _).
    rewrite !elem_of_cons in Hin. destruct Hin as [[= -> ->]|[[= -> ->]|[]%not_elem_of_nil]];
    repeat (apply List.Forall_cons; [first [by intros [=]|intros _; by split]|]); apply List.Forall_nil.
Defined.

Example sample_settings :
  let r := DiamondConfig "8" elements sample_env None [("cache_server", SStr "redis")] {["/home/u/.diamond/cache"]} in
  (c ← r; get c.1 "cache_server") = Ok (SAddr "redis" 6379) ∧ (c ← r; get c.1 "threads") = Ok (SInt 2) ∧
  (c ← r; get c.1 "serverids") = Ok (SList ["h.example.org"]) ∧ (c ← r; get c.1 "retriever_stores") = Ok (SList ["diamond"; "proxy"]) ∧
  (c ← r; get c.1 "debug_command") = Ok (SList ["valgrind"]) ∧
  DiamondConfig "8" elements sample_env (Some "/etc/diamond") [] ∅ = Raise DiamondConfigError ∧
  DiamondConfig "8" elements sample_env None [("port", SInt 1)] {["/home/u/.diamond/cache"]} = Raise AttributeError ∧
  DiamondConfig "8" elements sample_env None [] ∅ = Raise DiamondConfigError.
Proof. vm_compute. split_and!; reflexivity. Qed.
