(* ===== verification/Child.v ===== *)
(** Search processes and their supervision (src/opendiamond/server/child.py):
    temporary directories, control groups, SIGCHLD, and killing everything. *)
From S2P Require Import Prelude Dict.
Local Open Scope Z_scope.

(** ** Processes, directories and control groups

    A process that was sent SIGKILL is [Dying] until it has exited.  A search
    process (a child of the supervisor) becomes a zombie when it exits; any other
    process disappears, and its id is free.  [p_home]: the control group that the
    process was given; [p_tmpdir]: its TMPDIR; [p_in]: it is listed in the group's
    [tasks]. *)
Inductive pstate := Live | Dying | Zombie.
#[global] Instance pstate_eq_dec : EqDecision pstate.
Proof. solve_decision. Defined.

Record proc := Proc { p_state : pstate; p_home : option string; p_tmpdir : string; p_in : bool; p_search : bool }.

(** What happens to a control group: it is made; a process arrives in it (is forked
    by a member, or writes itself into [tasks]); the cleanup signals one of the
    process ids that it read in [tasks]; the cleanup finds no new id there. *)
Inductive gevent := Made | Arrived (pid : Z) | Signalled (pid : Z) | Swept.

(** [rmdir_results]: how the next [os.rmdir] calls on a control group end.
    [history]: what happened to the groups, newest first; nothing in the program
    reads it, the theorems speak of it. *)
Record os := OS {
  procs : gmap Z proc;
  tempdirs : gset string;
  cgroups : gset string;
  rmdir_results : list bool;
  history : list (string * gevent)
}.
Definition set_procs (m : gmap Z proc) (o : os) : os := OS m (tempdirs o) (cgroups o) (rmdir_results o) (history o).
Definition note (h : option string) (e : gevent) (o : os) : os :=
  match h with
  | Some g => OS (procs o) (tempdirs o) (cgroups o) (rmdir_results o) ((g, e) :: history o)
  | None => o
  end.

Definition in_group (g : string) (p : proc) : bool :=
  bool_decide (p_home p = Some g) && p_in p && negb (bool_decide (p_state p = Zombie)).

(** The process ids in the group's [tasks]. *)
Definition tasks (g : string) (o : os) : list Z :=
  (filter (λ kp : Z * proc, in_group g kp.2 = true) (map_to_list (procs o))).*1.

Definition set_state (s : pstate) (p : proc) : proc := Proc s (p_home p) (p_tmpdir p) (p_in p) (p_search p).

(** What the other processes do: start processes of their own, exit, or, for a
    new search process, move into its group. *)
Inductive wevent := Spawn (parent pid : Z) | Exit (pid : Z) | Enter (pid : Z).
#[global] Instance wevent_eq_dec : EqDecision wevent.
Proof. solve_decision. Defined.

Definition exit (pid : Z) (o : os) : os :=
  match procs o !! pid with
  | Some p =>
    if decide (p_state p = Zombie) then o
    else if p_search p then set_procs (<[pid := Proc Zombie (p_home p) (p_tmpdir p) false true]> (procs o)) o
    else set_procs (delete pid (procs o)) o
  | None => o
  end.

(** A new search process does nothing before it moves into its group. *)
Definition may_spawn (p : proc) : bool := bool_decide (p_state p = Live) && (p_in p || bool_decide (p_home p = None)).

(** A disabled event changes nothing.  A new process may get any id that is free.
    [Enter] is the end of [start] in the child: a process whose group is gone
    exits with an [IOError]. *)
Definition world_step (e : wevent) (o : os) : os :=
  match e with
  | Spawn parent pid =>
    match procs o !! parent, procs o !! pid with
    | Some p, None =>
      if may_spawn p then
        note (p_home p) (Arrived pid) (set_procs (<[pid := Proc Live (p_home p) (p_tmpdir p) (p_in p) false]> (procs o)) o)
      else o
    | _, _ => o
    end
  | Exit pid => exit pid o
  | Enter pid =>
    match procs o !! pid with
    | Some p =>
      if decide (p_state p = Live ∧ p_search p = true) then
        match p_home p with
        | Some g =>
          if decide (g ∈ cgroups o) then
            note (Some g) (Arrived pid) (set_procs (<[pid := Proc Live (Some g) (p_tmpdir p) true true]> (procs o)) o)
          else exit pid o
        | None => o
        end
      else o
    | None => o
    end
  end.

(** [os.kill(pid, SIGKILL)] in the cleanup of group [g]: it hits whichever process
    has the id now; a process that is gone is ignored. *)
Definition kill (g : string) (pid : Z) (o : os) : os :=
  note (Some g) (Signalled pid)
    match procs o !! pid with
    | Some p => if decide (p_state p = Live) then set_procs (<[pid := set_state Dying p]> (procs o)) o else o
    | None => o
    end.

(** ** _SearchChild *)
Record SearchChild := MkChild {
  sc_pid : option Z;
  sc_tempdir : string;
  sc_started : bool;
  sc_terminated : bool;
  sc_fork : bool;
  sc_cgroup : option string
}.

(** [__init__]: [tempdir] and [group] are the names that [mkdtemp] chooses;
    [cgroupdir]: whether control groups are configured. *)
Definition SearchChild_init (tempdir group : string) (cgroupdir fork : bool) (o : os) : SearchChild * os :=
  let o := OS (procs o) ({[tempdir]} ∪ tempdirs o) (cgroups o) (rmdir_results o) (history o) in
  if fork && cgroupdir then
    (MkChild None tempdir false false fork (Some group),
     note (Some group) Made (OS (procs o) (tempdirs o) ({[group]} ∪ cgroups o) (rmdir_results o) (history o)))
  else (MkChild None tempdir false false fork None, o).

(** [start], in the parent; without forking the supervisor acts as the child. *)
Definition start (pid : Z) (c : SearchChild) (o : os) : SearchChild * os :=
  if sc_fork c then
    (MkChild (Some pid) (sc_tempdir c) true (sc_terminated c) (sc_fork c) (sc_cgroup c),
     set_procs (<[pid := Proc Live (sc_cgroup c) (sc_tempdir c) false true]> (procs o)) o)
  else (MkChild (Some 0) (sc_tempdir c) true (sc_terminated c) (sc_fork c) (sc_cgroup c), o).

(** ** ChildManager

    [phase]: where the supervisor is in [start]. *)
Inductive phase := Idle | Created (c : SearchChild) | Forked (pid : Z) (c : SearchChild).

Record manager := Manager {
  children : dict Z SearchChild;
  cgroupdir : bool;
  m_phase : phase;
  m_os : os
}.
Definition ChildManager_init (cgroupdir : bool) (results : list bool) : manager := Manager [] cgroupdir Idle (OS ∅ ∅ ∅ results []).
Definition set_os (o : os) (m : manager) : manager := Manager (children m) (cgroupdir m) (m_phase m) o.
Definition set_dict (d : dict Z SearchChild) (m : manager) : manager := Manager d (cgroupdir m) (m_phase m) (m_os m).

(** What happens before a system call of the supervisor: steps of other processes,
    and SIGCHLD, whose handler runs between two instructions of whatever the
    supervisor is doing, a handler included.  [noise]: what happens before each of
    the next system calls. *)
Inductive interrupt := Runs (e : wevent) | Sigchld (pid : Z).
#[global] Instance interrupt_eq_dec : EqDecision interrupt.
Proof. solve_decision. Defined.
Abbreviation noise := (list (list interrupt)).
Abbreviation sup := (manager * noise)%type.

Definition on_os (f : os → os) (s : sup) : sup := (set_os (f (m_os s.1)) s.1, s.2).

(** How many processes can join a group meanwhile, and how much happens at all. *)
Definition joins (i : interrupt) : nat := match i with Runs (Spawn _ _) | Runs (Enter _) => 1 | _ => 0 end.
Definition arrivals (ns : noise) : nat := sum_list_with joins (concat ns).
Definition events (ns : noise) : nat := length (concat ns).
#[local] Arguments arrivals : simpl never.
#[local] Arguments events : simpl never.

Section Handler.
(** The handler of SIGCHLD. *)
Context (handler : Z → sup → option sup).

Definition interrupted (i : interrupt) (s : sup) : option sup :=
match i with
| Runs e => Some (on_os (world_step e) s)
| Sigchld pid => handler pid s
end.
Fixpoint interrupts (l : list interrupt) (s : sup) : option sup :=
match l with
| [] => Some s
| i :: l => s ← interrupted i s; interrupts l s
end.
Definition pause (s : sup) : option sup :=
match s.2 with
| [] => Some s
| l :: ns => interrupts l (s.1, ns)
end.

(** The signals of one round. *)
Fixpoint kill_pids (g : string) (pids : list Z) (s : sup) : option sup :=
match pids with
| [] => Some s
| pid :: pids => s ← pause s; kill_pids g pids (on_os (kill g pid) s)
end.

(** The loop of [cleanup]. *)
Fixpoint kill_loop (fuel : nat) (g : string) (killed : gset Z) (s : sup) : option (gset Z * sup) :=
match fuel with
| O => None
| S fuel =>
s ← pause s;
let pids := filter (λ p, p ∉ killed) (tasks g (m_os s.1)) in
if decide (pids = []) then Some (killed, on_os (note (Some g) Swept) s)
else
s ← kill_pids g pids s;
kill_loop fuel g (list_to_set pids ∪ killed) s
end.

(** Three attempts to remove the group. *)
Definition rmdir (g : string) (o : os) : bool * os :=
let '(ok, rest) := match rmdir_results o with r :: rest => (r, rest) | [] => (true, []) end in
(ok, OS (procs o) (tempdirs o) (if ok then cgroups o ∖ {[g]} else cgroups o) rest (history o)).
Fixpoint rmdir_loop (n : nat) (g : string) (s : sup) : option sup :=
match n with
| O => Some s
| S n =>
s ← pause s;
let '(ok, o) := rmdir g (m_os s.1) in
let s := (set_os o s.1, s.2) in
if ok then Some s else rmdir_loop n g s
end.

Definition rmtree (t : string) (o : os) : os := OS (procs o) (tempdirs o ∖ {[t]}) (cgroups o) (rmdir_results o) (history o).

(** [cleanup]. *)
Definition cleanup (c : SearchChild) (s : sup) : option (SearchChild * sup) :=
if sc_terminated c then Some (c, s)
else
s ← match sc_cgroup c with
| Some g =>
'(_, s) ← kill_loop (S (length (tasks g (m_os s.1)) + arrivals s.2)) g ∅ s;
rmdir_loop 3 g s
| None => Some s
end;
s ← pause s;
Some (MkChild (sc_pid c) (sc_tempdir c) (sc_started c) true (sc_fork c) (sc_cgroup c), on_os (rmtree (sc_tempdir c)) s).

(** [_cleanup_child] *)
Definition cleanup_child (pid : Z) (s : sup) : option sup :=
match dict_get (children s.1) pid with
| Some c => snd <$> cleanup c (set_dict (dict_del (children s.1) pid) s.1, s.2)
| None => Some s
end.

(** The loop of [kill_all]. *)
Fixpoint cleanup_children (pids : list Z) (s : sup) : option sup :=
match pids with
| [] => Some s
| pid :: pids => s ← cleanup_child pid s; cleanup_children pids s
end.
End Handler.

(** One turn of [_child_exited]: [waitpid] returns an exited search process, if [pid]
    is one.  [fuel]: how deep handlers can be interrupted by handlers. *)
Fixpoint child_exited (fuel : nat) (pid : Z) (s : sup) : option sup :=
  match fuel with
  | O => None
  | S fuel =>
    match procs (m_os s.1) !! pid with
    | Some p =>
      if decide (p_state p = Zombie ∧ p_search p = true) then
        cleanup_child (child_exited fuel) pid (on_os (λ o, set_procs (delete pid (procs o)) o) s)
      else Some s
    | None => Some s
    end
  end.
Definition handler_for (ns : noise) : Z → sup → option sup := child_exited (S (events ns)).

(** [kill_all] *)
Definition kill_all (ns : noise) (m : manager) : option manager :=
  fst <$> cleanup_children (handler_for ns) (dict_keys (children m)) (m, ns).

(** The steps of [start] in the supervisor, between which SIGCHLD is handled, the
    turns of its handler, and the steps of all other processes. *)
Inductive event :=
  | Create (tempdir group : string)
  | Fork (pid : Z)
  | Register
  | Reap (ns : noise) (pid : Z)
  | World (e : wevent).

Definition step (m : manager) (e : event) : option manager :=
  match e, m_phase m with
  | Create t g, Idle =>
    if decide (t ∈ tempdirs (m_os m) ∨ g ∈ cgroups (m_os m)) then None
    else let '(c, o) := SearchChild_init t g (cgroupdir m) true (m_os m) in Some (Manager (children m) (cgroupdir m) (Created c) o)
  | Fork pid, Created c =>
    if decide (pid = 0 ∨ is_Some (procs (m_os m) !! pid)) then None
    else let '(c, o) := start pid c (m_os m) in Some (Manager (children m) (cgroupdir m) (Forked pid c) o)
  | Register, Forked pid c => Some (Manager (dict_set (children m) pid c) (cgroupdir m) Idle (m_os m))
  | Reap ns pid, _ => fst <$> handler_for ns pid (m, ns)
  | World e, _ => Some (set_os (world_step e (m_os m)) m)
  | _, _ => None
  end.

Fixpoint run (es : list event) (m : manager) : option manager :=
  match es with
  | [] => Some m
  | e :: es => match step m e with Some m => run es m | None => None end
  end.

(** The handler does not reap a process that [start] has not registered yet. *)
Definition orderly (m : manager) (e : event) : Prop :=
  match e, m_phase m with Reap ns pid, Forked x _ => pid ≠ x ∧ Sigchld x ∉ concat ns | _, _ => True end.
Fixpoint orderly_run (es : list event) (m : manager) : Prop :=
  match es with
  | [] => True
  | e :: es => orderly m e ∧ match step m e with Some m => orderly_run es m | None => False end
  end.

(** ** What happened to a group *)

(** What happened to the group since it was made, newest first. *)
Fixpoint since (g : string) (h : list (string * gevent)) : list gevent :=
  match h with
  | [] => []
  | (g', e) :: h =>
    if decide (g' = g) then match e with Made => [] | _ => e :: since g h end else since g h
  end.
Definition sent (g : string) (pid : Z) (o : os) : Prop := Signalled pid ∈ since g (history o).
Definition swept (g : string) (o : os) : Prop := Swept ∈ since g (history o).
(** A process arrived in the group when the cleanup had signalled its id before, or
    had found nothing more to signal: the loop of [cleanup] looks for new ids only. *)
Definition escaped (g : string) (o : os) : Prop :=
  ∃ l1 pid l2, since g (history o) = l1 ++ Arrived pid :: l2 ∧ (Signalled pid ∈ l2 ∨ Swept ∈ l2).

(** Nothing is forgotten. *)
Definition later (o0 o : os) : Prop := ∀ g, ∃ l, since g (history o) = l ++ since g (history o0).
#[global] Instance later_po : PreOrder later.
Proof.
  split; [intros o g; by exists []|]. intros o1 o2 o3 H1 H2 g. destruct (H1 g) as [l1 E1], (H2 g) as [l2 E2].
  exists (l2 ++ l1). by rewrite E2, E1, app_assoc.
Qed.
Lemma later_eq o0 o : history o = history o0 → later o0 o.
Proof. intros H g. exists []. by rewrite H. Qed.
Lemma later_sent o0 o g pid : later o0 o → sent g pid o0 → sent g pid o.
Proof. intros H. unfold sent. destruct (H g) as [l ->]. intros. by apply elem_of_app; right. Qed.
Lemma later_swept o0 o g : later o0 o → swept g o0 → swept g o.
Proof. intros H. unfold swept. destruct (H g) as [l ->]. intros. by apply elem_of_app; right. Qed.
Lemma later_escaped o0 o g : later o0 o → escaped g o0 → escaped g o.
Proof.
  intros H (l1 & pid & l2 & E & Hp). destruct (H g) as [l El]. exists (l ++ l1), pid, l2.
  by rewrite El, E, app_assoc.
Qed.

Lemma since_note g g' e o : e ≠ Made →
  since g (history (note (Some g') e o)) = if decide (g' = g) then e :: since g (history o) else since g (history o).
Proof. intros He. cbn. case_decide; [by destruct e|done]. Qed.
Lemma later_note h e o : e ≠ Made → later o (note h e o).
Proof.
  intros He g. destruct h as [g'|]; [|by exists []]. rewrite since_note by done.
  case_decide; [by exists [e]|by exists []].
Qed.
Lemma sent_note g pid o : sent g pid (note (Some g) (Signalled pid) o).
Proof. unfold sent. rewrite since_note, decide_True by done. by left. Qed.
Lemma swept_note g o : swept g (note (Some g) Swept o).
Proof. unfold swept. rewrite since_note, decide_True by done. by left. Qed.

(** A late arrival. *)
Lemma late_arrival g pid o : sent g pid o ∨ swept g o → escaped g (note (Some g) (Arrived pid) o).
Proof. intros H. exists [], pid, (since g (history o)). by rewrite since_note, decide_True. Qed.
Lemma sent_arrived h g pid k o : sent g k (note h (Arrived pid) o) → sent g k o.
Proof.
  unfold sent. destruct h as [g'|]; [|done]. rewrite since_note by done. case_decide; [|done].
  by intros [?|?]%elem_of_cons.
Qed.
Lemma swept_arrived h g pid o : swept g (note h (Arrived pid) o) → swept g o.
Proof.
  unfold swept. destruct h as [g'|]; [|done]. rewrite since_note by done. case_decide; [|done].
  by intros [?|?]%elem_of_cons.
Qed.

(** ** Steps of the world *)
Lemma tasks_spec g o pid : pid ∈ tasks g o ↔ ∃ p, procs o !! pid = Some p ∧ in_group g p = true.
Proof.
  unfold tasks. rewrite list_elem_of_fmap. setoid_rewrite list_elem_of_filter.
  setoid_rewrite elem_of_map_to_list'. split.
  - intros ([k p] & -> & Hp & Hk). eauto.
  - intros (p & Hk & Hp). by exists (pid, p).
Qed.

(** Case analysis on a step of the world. *)
Ltac world_cases :=
  repeat match goal with
  | |- context [match procs ?o !! ?k with _ => _ end] => destruct (procs o !! k) as [?|] eqn:?
  | |- context [match p_home ?p with _ => _ end] => destruct (p_home p) as [?|] eqn:?
  | |- context [if may_spawn ?p then _ else _] => destruct (may_spawn p) eqn:?
  | |- context [if p_search ?p then _ else _] => destruct (p_search p) eqn:?
  | |- context [if decide ?P then _ else _] => destruct (decide P) as [?|?]
  end; cbn.

(** A lookup in a map that was changed at one key. *)
Ltac lookup_cases H :=
  match type of H with
  | <[?k := _]> _ !! ?k' = Some _ => destruct (decide (k = k')) as [<-|?];
      [rewrite lookup_insert_eq in H; injection H as <- | rewrite lookup_insert_ne in H by done]
  | delete ?k _ !! ?k' = Some _ => apply lookup_delete_Some in H as [? H]
  end.

Lemma procs_note h e o : procs (note h e o) = procs o.
Proof. by destruct h. Qed.
Lemma rest_note h e o : tempdirs (note h e o) = tempdirs o ∧ cgroups (note h e o) = cgroups o.
Proof. by destruct h. Qed.

Lemma exit_lookup pid o k p : procs (exit pid o) !! k = Some p →
  procs o !! k = Some p ∨ p_state p = Zombie.
Proof.
  unfold exit. world_cases; try (by left). all: intros H; lookup_cases H; [..|by left]; try (by left).
  by right.
Qed.

Lemma exit_rest pid o : tempdirs (exit pid o) = tempdirs o ∧ cgroups (exit pid o) = cgroups o ∧ history (exit pid o) = history o.
Proof. unfold exit. by world_cases. Qed.

Lemma may_spawn_spec p : may_spawn p = true ↔ p_state p = Live ∧ (p_in p = true ∨ p_home p = None).
Proof. unfold may_spawn. rewrite andb_true_iff, orb_true_iff, !bool_decide_eq_true. done. Qed.

(** Where a live process after a step of the world comes from. *)
Lemma world_lookup e o k p : procs (world_step e o) !! k = Some p → p_state p = Live →
  procs o !! k = Some p ∨
  (∃ parent q, e = Spawn parent k ∧ procs o !! k = None ∧ procs o !! parent = Some q ∧ may_spawn q = true ∧
    p = Proc Live (p_home q) (p_tmpdir q) (p_in q) false ∧ history (world_step e o) = history (note (p_home q) (Arrived k) o)) ∨
  (∃ g p', e = Enter k ∧ procs o !! k = Some p' ∧ p_state p' = Live ∧ p_search p' = true ∧ p_home p' = Some g ∧
    p = Proc Live (Some g) (p_tmpdir p') true true ∧ history (world_step e o) = history (note (Some g) (Arrived k) o)).
Proof.
  destruct e as [parent pid|pid|pid]; cbn [world_step].
  - world_cases; try (by left). rewrite procs_note. cbn. intros H Hl. lookup_cases H; [|by left]. right; left.
    eexists parent, _. split_and!; try done. by destruct (p_home _).
  - intros H Hl. apply exit_lookup in H as [?|?]; [by left|congruence].
  - world_cases; try (by left).
    + intros H Hl. lookup_cases H; [|by left]. right; right. naive_solver.
    + intros H Hl. apply exit_lookup in H as [?|?]; [by left|congruence].
Qed.

Lemma world_rest e o : tempdirs (world_step e o) = tempdirs o ∧ cgroups (world_step e o) = cgroups o.
Proof.
  destruct e; cbn [world_step].
  - world_cases; rewrite ?(proj1 (rest_note _ _ _)), ?(proj2 (rest_note _ _ _)); done.
  - by destruct (exit_rest pid o) as (-> & -> & _).
  - world_cases; try done. by destruct (exit_rest pid o) as (-> & -> & _).
Qed.

(** Which arrivals a step records. *)
Lemma world_history e o : history (world_step e o) = history o ∨ ∃ h pid, history (world_step e o) = history (note h (Arrived pid) o).
Proof.
  destruct e; cbn [world_step].
  - world_cases; try (by left). right.
    match goal with |- context [p_home ?q] => exists (p_home q), pid; by destruct (p_home q) end.
  - left. apply exit_rest.
  - world_cases; try (by left).
    + right. by eexists (Some _), pid.
    + left. apply exit_rest.
Qed.
Lemma later_world e o : later o (world_step e o).
Proof.
  destruct (world_history e o) as [H|(h & pid & H)]; [by apply later_eq|].
  etrans; [by apply (later_note h (Arrived pid))|]. by apply later_eq.
Qed.
Lemma sent_world e o g pid : sent g pid (world_step e o) → sent g pid o.
Proof.
  destruct (world_history e o) as [H|(h & k & H)]; unfold sent at 1; rewrite H; [done|].
  apply sent_arrived.
Qed.
Lemma swept_world e o g : swept g (world_step e o) → swept g o.
Proof.
  destruct (world_history e o) as [H|(h & k & H)]; unfold swept at 1; rewrite H; [done|].
  apply swept_arrived.
Qed.

(** ** Invariants of the groups *)

(** Every live process is in its group or is a search process. *)
Definition shy (o : os) : Prop :=
  ∀ pid p, procs o !! pid = Some p → p_state p = Live → p_in p = true ∨ p_home p = None ∨ p_search p = true.
(** A live process of a group has an id that was not signalled there, and nothing
    is left when the group was swept, or a process escaped. *)
Definition watched (o : os) : Prop :=
  ∀ g pid p, sent g pid o ∨ swept g o →
    procs o !! pid = Some p → p_home p = Some g → p_in p = true → p_state p = Live → escaped g o.
(** The live processes belong to the groups [gs], up to those that escaped or did not
    enter their group in time. *)
Definition housed (gs : list string) (o : os) : Prop :=
  ∀ pid p, procs o !! pid = Some p → p_state p = Live →
    ∃ g, p_home p = Some g ∧ (g ∈ gs ∨ escaped g o ∨ swept g o ∧ p_in p = false).

Record os_ok (gs : option (list string)) (o : os) : Prop := {
  ok_shy : shy o;
  ok_watched : watched o;
  ok_housed : match gs with Some gs => housed gs o | None => True end
}.

Lemma os_ok_world gs e o : os_ok gs o → os_ok gs (world_step e o).
Proof.
  intros [Hs Hw Hh]. split.
  - intros k p H Hl. apply world_lookup in H as [H|[(parent & q & -> & _ & Hq & Hq' & -> & _)|(g & p' & -> & _ & _ & _ & _ & -> & _)]];
      [by eapply Hs| |by left|done]. apply may_spawn_spec in Hq' as [_ [?|?]]; auto.
  - intros g k p Hc H Hg Hin Hl.
    assert (Hc' : sent g k o ∨ swept g o) by (destruct Hc; [left; by eapply sent_world|right; by eapply swept_world]).
    apply world_lookup in H as [H|[(parent & q & -> & _ & _ & _ & -> & E)|(g' & p' & -> & _ & _ & _ & _ & -> & E)]]; [| |..|done].
    + eapply later_escaped; [apply later_world|]. by eapply Hw.
    + cbn in *. unfold escaped. rewrite E, Hg. by apply late_arrival.
    + cbn in *. injection Hg as ->. unfold escaped. rewrite E. by apply late_arrival.
  - destruct gs as [gs|]; [|done]. intros k p H Hl.
    apply world_lookup in H as [H|[(parent & q & -> & _ & Hq & Hq' & -> & E)|(g & p' & -> & Hp' & Hl' & Hs' & Hg & -> & E)]]; [| |..|done].
    + destruct (Hh _ _ H Hl) as (g & Hg & [?|[?|[? ?]]]); exists g; (split; [done|]); [by left|right; left|right; right].
      * eapply later_escaped; [apply later_world|done].
      * split; [|done]. eapply later_swept; [apply later_world|done].
    + apply may_spawn_spec in Hq' as [Hql Hin]. destruct (Hh _ _ Hq Hql) as (g & Hg & Hcase). exists g. cbn [p_home p_in]. split; [done|].
      destruct Hcase as [?|[?|[Hsw Hf]]]; [by left|right; left..].
      * eapply later_escaped; [apply later_world|done].
      * destruct Hin; congruence.
    + destruct (Hh _ _ Hp' Hl') as (g' & Hg' & Hcase). rewrite Hg in Hg'. injection Hg' as <-. exists g. cbn [p_home p_in]. split; [done|].
      destruct Hcase as [?|[?|[Hsw Hf]]]; [by left|right; left..].
      * eapply later_escaped; [apply later_world|done].
      * unfold escaped. rewrite E. apply late_arrival. by right.
Qed.

(** Signals, removals of processes and records keep them; what changes the
    membership of a live process is a step of the world. *)
Record calmer (o0 o : os) : Prop := {
  calm_later : later o0 o;
  calm_procs : ∀ k p, procs o !! k = Some p → p_state p = Live → procs o0 !! k = Some p;
  calm_sent : ∀ g k p, sent g k o → procs o !! k = Some p → p_state p = Live → sent g k o0 ∨ escaped g o0;
  calm_swept : ∀ g, swept g o → swept g o0 ∨ ∀ k p, procs o !! k = Some p → p_home p = Some g → p_in p = true → p_state p = Live → sent g k o0
}.

Lemma os_ok_calmer gs o0 o : calmer o0 o → os_ok gs o0 → os_ok gs o.
Proof.
  intros [Hla Hp Hse Hsw] [Hs Hw Hh]. split.
  - intros k p H Hl. by eapply Hs; [apply Hp|].
  - intros g k p [Hc|Hc] H Hg Hin Hl; (eapply later_escaped; [exact Hla|]).
    + destruct (Hse _ _ _ Hc H Hl) as [?|?]; [|done]. eapply Hw; [by left|by apply Hp|done..].
    + destruct (Hsw _ Hc) as [?|Hall]; [eapply Hw; [by right|by apply Hp|done..]|].
      eapply Hw; [left; by eapply Hall|by apply Hp|done..].
  - destruct gs as [gs|]; [|done]. intros k p H Hl. destruct (Hh k p (Hp _ _ H Hl) Hl) as (g & Hg & [?|[?|[? ?]]]);
      exists g; (split; [done|]); [by left|right; left|right; right].
    + by eapply later_escaped.
    + split; [by eapply later_swept|done].
Qed.

Lemma kill_lookup g pid o k p : procs (kill g pid o) !! k = Some p → p_state p = Live → k ≠ pid ∧ procs o !! k = Some p.
Proof.
  unfold kill. rewrite procs_note. destruct (procs o !! pid) as [q|] eqn:E; [case_decide as Hq|]; cbn; intros H Hl.
  - lookup_cases H; [done|]. by split.
  - split; [|done]. intros ->. congruence.
  - split; [|done]. intros ->. congruence.
Qed.

Lemma history_kill g pid o : history (kill g pid o) = history (note (Some g) (Signalled pid) o).
Proof. unfold kill. cbn. f_equal. by repeat case_match. Qed.
Lemma rest_kill g pid o : tempdirs (kill g pid o) = tempdirs o ∧ cgroups (kill g pid o) = cgroups o.
Proof. unfold kill. rewrite !(proj1 (rest_note _ _ _)), !(proj2 (rest_note _ _ _)). by repeat case_match. Qed.

Lemma calmer_kill g pid o : calmer o (kill g pid o).
Proof.
  split.
  - etrans; [by apply (later_note (Some g) (Signalled pid))|]. apply later_eq, history_kill.
  - intros k p H Hl. by apply kill_lookup in H as [_ ?].
  - intros g' k p Hs H Hl. apply kill_lookup in H as [Hne _]; [|done]. left. unfold sent in Hs. rewrite history_kill in Hs.
    rewrite since_note in Hs by done. case_decide; [|done]. apply elem_of_cons in Hs as [[=]|?]; done.
  - intros g' Hs. left. unfold swept in Hs. rewrite history_kill in Hs.
    rewrite since_note in Hs by done. case_decide; [|done]. by apply elem_of_cons in Hs as [?|?].
Qed.

(** Nothing but processes that are not live goes. *)
Lemma calmer_same o0 o : history o = history o0 →
  (∀ k p, procs o !! k = Some p → p_state p = Live → procs o0 !! k = Some p) → calmer o0 o.
Proof.
  intros Hh Hp. split; [by apply later_eq|done| |]; unfold sent, swept; rewrite Hh; intros; by left.
Qed.

Lemma calmer_swept g o : (∀ k, k ∈ tasks g o → sent g k o) → calmer o (note (Some g) Swept o).
Proof.
  intros Ht. split; [by apply later_note|done| |].
  - intros g' k p Hs _ _. left. unfold sent in *. rewrite since_note in Hs by done.
    case_decide; [|done]. by apply elem_of_cons in Hs as [?|?].
  - intros g' Hs. unfold swept in Hs. rewrite since_note in Hs by done. case_decide as Hg; [|by left].
    subst g'. right. intros k p H Hh Hin Hl. apply Ht, tasks_spec. exists p. split; [done|].
    unfold in_group. rewrite Hin, Hl, Hh. by rewrite bool_decide_true.
Qed.

(** ** The kill loop ends *)

(** The processes of the group that have not been killed. *)
Definition untouched (g : string) (killed : gset Z) (o : os) : gset Z := list_to_set (tasks g o) ∖ killed.

Lemma untouched_spec g killed o pid :
  pid ∈ untouched g killed o ↔ pid ∉ killed ∧ ∃ p, procs o !! pid = Some p ∧ in_group g p = true.
Proof. unfold untouched. rewrite elem_of_difference, elem_of_list_to_set, tasks_spec. tauto. Qed.

(** Whatever is listed after a step was listed before, or joined. *)
Lemma in_group_world e o g k p : procs (world_step e o) !! k = Some p → in_group g p = true →
  (∃ p', procs o !! k = Some p' ∧ in_group g p' = true) ∨ match e with Spawn _ k' | Enter k' => k = k' | Exit _ => False end.
Proof.
  destruct e as [parent pid|pid|pid]; cbn [world_step].
  - world_cases; try (left; by eauto). rewrite procs_note. cbn. intros H Hg. lookup_cases H; [by right|left; by eauto].
  - unfold exit. world_cases; try (left; by eauto). all: intros H Hg; lookup_cases H; try (left; by eauto).
    unfold in_group in Hg. cbn in Hg. by rewrite andb_false_r in Hg.
  - world_cases; try (left; by eauto).
    + intros H Hg. lookup_cases H; [by right|left; by eauto].
    + unfold exit. world_cases; try (left; by eauto). all: intros H Hg; lookup_cases H; (by right) || (left; by eauto).
Qed.

(** What the loop still has to do: the processes that it has not killed, and those
    that can still join. *)
Definition room (g : string) (killed : gset Z) (s : sup) : nat := (size (untouched g killed (m_os s.1)) + arrivals s.2)%nat.

Lemma room_world g killed e o :
  (size (untouched g killed (world_step e o)) ≤ size (untouched g killed o) + joins (Runs e))%nat.
Proof.
  set (new := match e with Spawn _ k | Enter k => {[k]} | Exit _ => ∅ end : gset Z).
  assert (size new = joins (Runs e)) as <- by (destruct e; subst new; by rewrite ?size_singleton, ?size_empty).
  assert (untouched g killed (world_step e o) ⊆ untouched g killed o ∪ new) as Hsub.
  { intros k Hk. rewrite elem_of_union, untouched_spec. apply untouched_spec in Hk as (Hk & p & Hp & Hg).
    destruct (in_group_world _ _ _ _ _ Hp Hg) as [?|Hn]; [by left|right]. subst new. destruct e; set_solver. }
  apply subseteq_size in Hsub. etrans; [exact Hsub|]. rewrite size_union_alt.
  pose proof (subseteq_size (new ∖ untouched g killed o) new ltac:(set_solver)). lia.
Qed.

(** Processes leave a group or stay. *)
Lemma room_shrinks g killed o o' :
  (∀ k p, procs o' !! k = Some p → in_group g p = true → ∃ p', procs o !! k = Some p' ∧ in_group g p' = true) →
  (size (untouched g killed o') ≤ size (untouched g killed o))%nat.
Proof.
  intros H. apply subseteq_size. intros k (Hk & p & Hp & Hg)%untouched_spec. apply untouched_spec.
  split; [done|]. by eapply H.
Qed.

Lemma kill_in_group g' pid o g k p : procs (kill g' pid o) !! k = Some p → in_group g p = true →
  ∃ p', procs o !! k = Some p' ∧ in_group g p' = true.
Proof.
  unfold kill. rewrite procs_note. destruct (procs o !! pid) as [q|] eqn:E; [case_decide as Hq|]; cbn; intros H Hg; [|by eauto..].
  lookup_cases H; [|by eauto]. exists q. split; [done|]. unfold in_group in *. by rewrite Hq.
Qed.

Lemma listed_untouched g killed o : untouched g (list_to_set (filter (λ p, p ∉ killed) (tasks g o)) ∪ killed) o = ∅.
Proof.
  apply set_eq. intros k. split; [|set_solver]. intros (Hk & p & Hp & Hg)%untouched_spec.
  destruct Hk. destruct (decide (k ∈ killed)); [set_solver|].
  apply elem_of_union_l, elem_of_list_to_set, list_elem_of_filter. split; [done|]. apply tasks_spec. eauto.
Qed.

Lemma untouched_nonempty g killed o : filter (λ p, p ∉ killed) (tasks g o) ≠ [] → (1 ≤ size (untouched g killed o))%nat.
Proof.
  intros Hne. destruct (filter _ _) as [|k l] eqn:E; [done|].
  assert (k ∈ untouched g killed o) as Hk.
  { assert (k ∈ filter (λ p, p ∉ killed) (tasks g o)) as [Hk Ht]%list_elem_of_filter by (rewrite E; by left).
    apply elem_of_difference. by rewrite elem_of_list_to_set. }
  pose proof (subseteq_size {[k]} (untouched g killed o) ltac:(set_solver)) as H. by rewrite size_singleton in H.
Qed.

Lemma untouched_length g o : (size (untouched g ∅ o) ≤ length (tasks g o))%nat.
Proof.
  unfold untouched. rewrite difference_empty_L. generalize (tasks g o). induction l as [|k l IH]; [done|].
  rewrite list_to_set_cons. pose proof (size_union_alt ({[k]} : gset Z) (list_to_set l)) as H.
  pose proof (subseteq_size (list_to_set l ∖ {[k]}) (list_to_set l : gset Z) ltac:(set_solver)).
  rewrite size_singleton in H. rewrite H. cbn. lia.
Qed.

(** ** The manager's books *)
Definition phase_children (ph : phase) : list SearchChild :=
  match ph with Idle => [] | Created c | Forked _ c => [c] end.
(** The children that the manager knows. *)
Definition owned (m : manager) : list SearchChild := (children m).*2 ++ phase_children (m_phase m).
(** The child of a process id. *)
Definition holder (m : manager) (pid : Z) : option SearchChild :=
  match dict_get (children m) pid with
  | Some c => Some c
  | None => match m_phase m with Forked pid' c => if decide (pid' = pid) then Some c else None | _ => None end
  end.
Definition groups_of (cs : list SearchChild) : list string := omap sc_cgroup cs.

(** The group and the directory that a search process was given. *)
Definition search_of (o : os) (pid : Z) : option (option string * string) :=
  match procs o !! pid with Some p => if p_search p then Some (p_home p, p_tmpdir p) else None | None => None end.
Definition child_of (c : SearchChild) : option string * string := (sc_cgroup c, sc_tempdir c).

(** The manager, while the children [fs] are being cleaned up. *)
Record sound (fs : list SearchChild) (m : manager) : Prop := {
  s_wf : dict_wf (children m);
  s_owned : ∀ c, c ∈ fs ++ owned m → sc_terminated c = false ∧ sc_fork c = true ∧ (is_Some (sc_cgroup c) ↔ cgroupdir m = true);
  s_temps : NoDup (sc_tempdir <$> fs ++ owned m);
  s_tempdirs : tempdirs (m_os m) = list_to_set (sc_tempdir <$> fs ++ owned m);
  s_groups : NoDup (groups_of (fs ++ owned m));
  s_cgroups : ∀ g, g ∈ groups_of (owned m) → g ∈ cgroups (m_os m);
  s_os : os_ok (if cgroupdir m then Some (groups_of (fs ++ owned m)) else None) (m_os m)
}.

(** Search processes and known children belong together. *)
Record books (m : manager) : Prop := {
  b_phase : match m_phase m with Forked pid c => dict_get (children m) pid = None | _ => True end;
  b_search : ∀ pid, search_of (m_os m) pid = child_of <$> holder m pid;
  b_pid : ∀ pid c, holder m pid = Some c → sc_pid c = Some pid
}.
Record tidy (m : manager) : Prop := { t_sound : sound [] m; t_books : books m }.

(** What the handler, and what it interrupts, leave alone. *)
Definition undisturbed (s : sup) : Prop :=
  match m_phase s.1 with Forked x _ => Sigchld x ∉ concat s.2 | _ => True end.
Record frame (s s' : sup) : Prop := {
  f_events : (events s'.2 ≤ events s.2)%nat;
  f_sub : ∀ i, i ∈ concat s'.2 → i ∈ concat s.2;
  f_room : ∀ g killed, (room g killed s' ≤ room g killed s)%nat;
  f_later : later (m_os s.1) (m_os s'.1);
  f_phase : m_phase s'.1 = m_phase s.1;
  f_cgroupdir : cgroupdir s'.1 = cgroupdir s.1;
  f_known : ∀ pid, pid ∈ dict_keys (children s'.1) → pid ∈ dict_keys (children s.1);
  f_books : undisturbed s → books s.1 → books s'.1
}.
#[global] Instance frame_po : PreOrder frame.
Proof.
  split; [intros s; by split|]. intros s1 s2 s3 [] []. split; auto; try congruence; try lia.
  - intros g killed. etrans; eauto.
  - by etrans.
  - intros Hu Hb. apply f_books1; [|auto]. unfold undisturbed in *. rewrite f_phase0.
    destruct (m_phase s1.1); auto.
Qed.

(** ** Frames of the steps *)
Lemma concat_perm_frame m ns ns' : concat ns ≡ₚ concat ns' → frame (m, ns) (m, ns').
Proof.
  intros H. split; cbn [fst snd]; try done.
  - unfold events. by rewrite H.
  - intros i. by rewrite H.
  - intros g killed. unfold room, arrivals. cbn. by rewrite H.
Qed.

Lemma arrivals_cons l ns : arrivals (l :: ns) = (sum_list_with joins l + arrivals ns)%nat.
Proof. unfold arrivals. cbn. by rewrite sum_list_with_app. Qed.
Lemma events_cons l ns : events (l :: ns) = (length l + events ns)%nat.
Proof. unfold events. cbn. by rewrite length_app. Qed.

Lemma undisturbed_cons l m ns : undisturbed (m, l :: ns) ↔
  undisturbed (m, ns) ∧ match m_phase m with Forked x _ => Sigchld x ∉ l | _ => True end.
Proof. unfold undisturbed. cbn. destruct (m_phase m); try tauto. rewrite not_elem_of_app. tauto. Qed.

(** What has not happened yet may be added on both sides. *)
Lemma frame_cons l s s' : frame s s' → frame (s.1, l :: s.2) (s'.1, l :: s'.2).
Proof.
  intros []. split; cbn [fst snd]; try done.
  - rewrite !events_cons. lia.
  - intros i. cbn [concat]. rewrite !elem_of_app. naive_solver.
  - intros g killed. specialize (f_room0 g killed). unfold room in *. cbn [fst snd]. rewrite !arrivals_cons. lia.
  - intros Hu%undisturbed_cons. destruct s, Hu. auto.
Qed.
Lemma frame_drop l s : frame (s.1, l :: s.2) s.
Proof.
  split; cbn [fst snd]; try done.
  - rewrite events_cons. lia.
  - intros i Hi. cbn [concat]. apply elem_of_app. by right.
  - intros g killed. unfold room. cbn [fst snd on_os set_dict set_os m_os]. rewrite arrivals_cons. lia.
Qed.
Lemma frame_next i l s s' : frame (s.1, [i] :: s.2) s' → frame (s.1, (i :: l) :: s.2) (s'.1, l :: s'.2).
Proof.
  intros H. etrans; [|apply (frame_cons l), H]. apply concat_perm_frame. cbn.
  by rewrite Permutation_middle.
Qed.

Lemma search_world e o pid : search_of (world_step e o) pid = search_of o pid.
Proof.
  assert (Hins : ∀ k q q', procs o !! k = Some q → p_search q' = p_search q → p_home q' = p_home q → p_tmpdir q' = p_tmpdir q →
    search_of (set_procs (<[k := q']> (procs o)) o) pid = search_of o pid).
  { intros k q q' Hk H1 H2 H3. unfold search_of. cbn. destruct (decide (k = pid)) as [<-|]; [|by rewrite lookup_insert_ne].
    by rewrite lookup_insert_eq, Hk, H1, H2, H3. }
  assert (Hexit : ∀ k, search_of (exit k o) pid = search_of o pid).
  { intros k. unfold exit. destruct (procs o !! k) as [p|] eqn:E; [|done]. case_decide; [done|]. destruct (p_search p) eqn:Es.
    - by eapply Hins.
    - unfold search_of. cbn. destruct (decide (k = pid)) as [<-|]; [|by rewrite lookup_delete_ne].
      by rewrite lookup_delete_eq, E, Es. }
  destruct e as [parent k|k|k]; cbn [world_step]; [|apply Hexit|].
  - destruct (procs o !! parent) as [q|]; [|done]. destruct (procs o !! k) eqn:E; [done|]. destruct (may_spawn q); [|done].
    unfold search_of. rewrite procs_note. cbn. destruct (decide (k = pid)) as [<-|]; [|by rewrite lookup_insert_ne].
    by rewrite lookup_insert_eq, E.
  - destruct (procs o !! k) as [q|] eqn:E; [|done]. case_decide as Hq; [|done]. destruct Hq as [_ Hs].
    destruct (p_home q) as [g|] eqn:Eh; [|done]. case_decide; [|apply Hexit]. by eapply Hins.
Qed.

Lemma books_os o m : (∀ pid, search_of o pid = search_of (m_os m) pid) → books m → books (set_os o m).
Proof. intros H []. split; [done| |done]. intros pid. cbn. by rewrite H, b_search0. Qed.

Lemma frame_runs e s : frame (s.1, [Runs e] :: s.2) (on_os (world_step e) s).
Proof.
  split; cbn [fst snd]; try done.
  - rewrite events_cons. cbn [on_os snd length]. lia.
  - intros i Hi. cbn. by right.
  - intros g killed. unfold room. cbn [fst snd on_os set_dict set_os m_os]. rewrite arrivals_cons. pose proof (room_world g killed e (m_os s.1)).
    cbn [sum_list_with]. lia.
  - apply later_world.
  - intros _. apply books_os. intros pid. apply search_world.
Qed.

(** A step of the supervisor that starts no process. *)
Lemma frame_os f s : later (m_os s.1) (f (m_os s.1)) →
  (∀ g k p, procs (f (m_os s.1)) !! k = Some p → in_group g p = true → ∃ p', procs (m_os s.1) !! k = Some p' ∧ in_group g p' = true) →
  (∀ pid, search_of (f (m_os s.1)) pid = search_of (m_os s.1) pid) → frame s (on_os f s).
Proof.
  intros Hl Hg Hs. split; cbn [fst snd]; try done.
  - intros g killed. unfold room. cbn [on_os fst snd set_os m_os]. pose proof (room_shrinks g killed _ _ (Hg g)). lia.
  - intros _. by apply books_os.
Qed.
Lemma frame_same f s : history (f (m_os s.1)) = history (m_os s.1) → procs (f (m_os s.1)) = procs (m_os s.1) → frame s (on_os f s).
Proof.
  intros Hh Hp. apply frame_os; [by apply later_eq| |].
  - intros g k p. rewrite Hp. eauto.
  - intros pid. unfold search_of. by rewrite Hp.
Qed.
Lemma frame_kill g pid s : frame s (on_os (kill g pid) s).
Proof.
  apply frame_os; [apply calmer_kill|intros g' k p; apply kill_in_group|].
  intros k. unfold search_of, kill. rewrite procs_note. destruct (procs (m_os s.1) !! pid) as [p|] eqn:E; [|done].
  case_decide; [|done]. cbn. destruct (decide (pid = k)) as [<-|]; [|by rewrite lookup_insert_ne].
  by rewrite lookup_insert_eq, E.
Qed.
Lemma frame_swept g s : frame s (on_os (note (Some g) Swept) s).
Proof. apply frame_os; [by apply later_note| |done]. intros g' k p. cbn. eauto. Qed.

(** [waitpid] returns the process, and its child leaves the dict. *)
Lemma frame_wait pid s p : procs (m_os s.1) !! pid = Some p → p_search p = true → dict_wf (children s.1) →
  frame (s.1, [Sigchld pid] :: s.2)
    (set_dict (dict_del (children s.1) pid) (set_os (set_procs (delete pid (procs (m_os s.1))) (m_os s.1)) s.1), s.2).
Proof.
  intros Hp Hps Hwf. split; cbn [fst snd]; try done.
  - rewrite events_cons. cbn [on_os snd length]. lia.
  - intros i Hi. cbn. by right.
  - intros g killed. unfold room. cbn [fst snd on_os set_dict set_os m_os]. rewrite arrivals_cons.
    assert (size (untouched g killed (set_procs (delete pid (procs (m_os s.1))) (m_os s.1))) ≤ size (untouched g killed (m_os s.1)))%nat; [|lia].
    apply room_shrinks. intros k q. cbn. intros H Hg. lookup_cases H. eauto.
  - by apply later_eq.
  - intros k. cbn [set_dict set_os children]. rewrite dict_keys_del by done. by intros [_ ?]%list_elem_of_filter.
  - intros Hu Hb. unfold undisturbed in Hu. cbn in Hu. destruct Hb as [Hph Hsr Hpd].
    assert (Hh : ∀ k, holder (set_dict (dict_del (children s.1) pid) (set_os (set_procs (delete pid (procs (m_os s.1))) (m_os s.1)) s.1)) k
      = if decide (k = pid) then None else holder s.1 k).
    { intros k. unfold holder. cbn. rewrite dict_get_del by done. destruct (decide (k = pid)) as [->|Hne]; [rewrite decide_True by done|by rewrite decide_False].
      destruct (m_phase s.1) as [| |x c]; [done..|]. rewrite decide_False; [done|]. intros ->. destruct Hu. by left. }
    split; cbn.
    + destruct (m_phase s.1); [done..|]. rewrite dict_get_del, Hph by done. by case_decide.
    + intros k. rewrite Hh. unfold search_of. cbn. destruct (decide (k = pid)) as [->|Hne]; [by rewrite lookup_delete_eq|].
      rewrite lookup_delete_ne by done. apply Hsr.
    + intros k c. rewrite Hh. case_decide; [done|apply Hpd].
Qed.

(** ** What keeps the manager sound *)
Lemma sound_os fs m o : sound fs m → tempdirs o = tempdirs (m_os m) → (∀ g, g ∈ groups_of (owned m) → g ∈ cgroups (m_os m) → g ∈ cgroups o) →
  (∀ gs, os_ok gs (m_os m) → os_ok gs o) → sound fs (set_os o m).
Proof.
  intros [] Ht Hg Ho. split; cbn [set_os children m_os cgroupdir]; try done.
  - by rewrite Ht.
  - intros g H. by apply Hg, s_cgroups0.
  - by apply Ho.
Qed.

Lemma sound_world fs m e : sound fs m → sound fs (set_os (world_step e (m_os m)) m).
Proof.
  intros H. destruct (world_rest e (m_os m)) as [Ht Hg]. apply sound_os; [done..|by rewrite Hg|].
  intros gs. apply os_ok_world.
Qed.
Lemma sound_calmer fs m o : sound fs m → tempdirs o = tempdirs (m_os m) → cgroups o = cgroups (m_os m) → calmer (m_os m) o → sound fs (set_os o m).
Proof. intros H Ht Hg Hc. apply sound_os; [done..|by rewrite Hg|]. intros gs. by apply os_ok_calmer. Qed.

Lemma sound_kill fs m g pid : sound fs m → sound fs (set_os (kill g pid (m_os m)) m).
Proof. intros H. destruct (rest_kill g pid (m_os m)). apply sound_calmer; [done..|apply calmer_kill]. Qed.
Lemma sound_swept fs m g : sound fs m → (∀ k, k ∈ tasks g (m_os m) → sent g k (m_os m)) → sound fs (set_os (note (Some g) Swept (m_os m)) m).
Proof. intros H Hk. by apply sound_calmer; [..|apply calmer_swept]. Qed.
Lemma sound_wait fs m pid : sound fs m → sound fs (set_os (set_procs (delete pid (procs (m_os m))) (m_os m)) m).
Proof.
  intros H. apply sound_calmer; [done..|]. apply calmer_same; [done|]. cbn. intros k p Hk _. by lookup_cases Hk.
Qed.

(** A child that leaves the dict is being cleaned up. *)
Lemma dict_get_perm {V} (d : dict Z V) k v : dict_get d k = Some v → d ≡ₚ (k, v) :: dict_del d k.
Proof.
  induction d as [|[k' v'] d IH]; cbn; [done|]. case_decide as Hk; [by intros [= ->]; subst|].
  intros H. rewrite (IH H) at 1. apply perm_swap.
Qed.
Lemma owned_pop m pid c : dict_get (children m) pid = Some c →
  owned m ≡ₚ c :: owned (set_dict (dict_del (children m) pid) m).
Proof. intros H. unfold owned. by rewrite (dict_get_perm _ _ _ H) at 1. Qed.

Lemma housed_perm gs gs' o : gs ≡ₚ gs' → os_ok (Some gs) o → os_ok (Some gs') o.
Proof. intros H [? ? Hh]. split; [done..|]. intros k p Hk Hl. setoid_rewrite <-H. by eapply Hh. Qed.
#[global] Instance groups_of_perm : Proper ((≡ₚ) ==> (≡ₚ)) groups_of.
Proof. intros l l' H. unfold groups_of. by rewrite H. Qed.

Lemma sound_pop fs m pid c : sound fs m → dict_get (children m) pid = Some c →
  sound (c :: fs) (set_dict (dict_del (children m) pid) m).
Proof.
  intros [Hwf Hown Htmp Htd Hgr Hcg Hos] Hc. pose proof (owned_pop _ _ _ Hc) as Ho.
  set (m1 := set_dict (dict_del (children m) pid) m) in *.
  assert (Hp : fs ++ owned m ≡ₚ (c :: fs) ++ owned m1) by (by rewrite Ho, <-Permutation_middle).
  split.
  - by apply dict_wf_del.
  - intros x Hx. apply Hown. by rewrite Hp.
  - by rewrite <-Hp.
  - cbn [m1 set_dict m_os]. rewrite Htd. apply set_eq. intros x. rewrite !elem_of_list_to_set. by rewrite Hp.
  - by rewrite <-Hp.
  - intros g Hg. apply Hcg. rewrite Ho. cbn. destruct (sc_cgroup c); [by right|done].
  - cbn [m1 set_dict m_os cgroupdir]. destruct (cgroupdir m); [|done]. eapply housed_perm; [|done]. by rewrite Hp.
Qed.

(** A child without live processes whose directory goes. *)
Lemma sound_close fs m c : sound (c :: fs) m → (∀ g, sc_cgroup c = Some g → swept g (m_os m)) →
  sound fs (set_os (rmtree (sc_tempdir c) (m_os m)) m).
Proof.
  intros [Hwf Hown Htmp Htd Hgr Hcg [Hs Hw Hh]] Hsw. cbn in Htmp. apply NoDup_cons in Htmp as [Hn Htmp].
  split; cbn [set_os children m_os cgroupdir rmtree tempdirs cgroups]; try done.
  - intros x Hx. apply Hown. by right.
  - rewrite Htd. apply set_eq. intros x. rewrite elem_of_difference, elem_of_singleton, !elem_of_list_to_set.
    cbn [app]. rewrite fmap_cons, elem_of_cons. change (owned (set_os _ m)) with (owned m).
    split; [tauto|]. intros Hx. split; [by right|]. by intros ->.
  - unfold groups_of in *. cbn in Hgr. destruct (sc_cgroup c); [by apply NoDup_cons in Hgr as [_ ?]|done].
  - split; [done..|]. destruct (cgroupdir m) eqn:Ecg; [|done]. intros k p Hk Hl. cbn in Hk.
    destruct (Hh k p Hk Hl) as (g & Hg & Hcase). exists g. split; [done|].
    destruct Hcase as [Hin|Hcase]; [|by right]. unfold groups_of in *. cbn in Hin.
    destruct (sc_cgroup c) as [g'|] eqn:Ec; [|by left]. apply elem_of_cons in Hin as [->|Hin]; [|by left].
    specialize (Hsw g' eq_refl). right. destruct (p_in p) eqn:Ein; [left|by right].
    eapply Hw; [by right|done..].
Qed.

Lemma sound_rmdir fs m c g : sound (c :: fs) m → sc_cgroup c = Some g → sound (c :: fs) (set_os (rmdir g (m_os m)).2 m).
Proof.
  intros H Hc. apply sound_os; [done| | |].
  - unfold rmdir. by destruct (rmdir_results _).
  - intros g' Hg'. assert (g' ≠ g) as Hne.
    { intros ->. pose proof (s_groups _ _ H) as Hn. unfold groups_of in *. cbn in Hn. rewrite Hc in Hn.
      apply NoDup_cons in Hn as [Hn _]. apply Hn. rewrite omap_app. apply elem_of_app. by right. }
    unfold rmdir. destruct (rmdir_results _) as [|[] rest]; cbn; set_solver.
  - intros gs [? ? ?]. unfold rmdir. destruct (rmdir_results _); by split.
Qed.

(** ** The handler and the cleanup *)

(** The handler deals with [n - 1] interrupts at most, whatever is being cleaned up. *)
Definition serves (n : nat) (h : Z → sup → option sup) : Prop :=
  ∀ pid s fs, (events s.2 < n)%nat → sound fs s.1 →
    ∃ s', h pid s = Some s' ∧ sound fs s'.1 ∧ frame (s.1, [Sigchld pid] :: s.2) s'.
(** A computation of the supervisor that succeeds. *)
Definition goes_on (fs : list SearchChild) (r : option sup) (s : sup) (Q : sup → Prop) : Prop :=
  ∃ s', r = Some s' ∧ sound fs s'.1 ∧ frame s s' ∧ Q s'.

Section Serving.
Context (n : nat) (h : Z → sup → option sup) (Hh : serves n h).

Lemma interrupts_ok fs l : ∀ s, (length l + events s.2 ≤ n)%nat → sound fs s.1 →
goes_on fs (interrupts h l s) (s.1, l :: s.2) (λ _, True).
Proof.
induction l as [|i l IH]; intros s Hn Hs; cbn [interrupts].
{ exists s. split_and!; [done..|apply frame_drop|done]. }
assert (∃ s1, interrupted h i s = Some s1 ∧ sound fs s1.1 ∧ frame (s.1, [i] :: s.2) s1) as (s1 & -> & Hs1 & Hf).
{ destruct i as [e|pid]; cbn [interrupted].
- eexists. split; [done|]. split; [by apply sound_world|apply frame_runs].
- apply Hh; [cbn in Hn; lia|done]. }
cbn [mbind option_bind]. pose proof (f_events _ _ Hf) as He. cbn [snd] in He. rewrite events_cons in He. cbn [length] in He, Hn.
apply frame_next with (l := l) in Hf. pose proof (f_events _ _ Hf) as He'. cbn [snd] in He'. rewrite !events_cons in He'. cbn [length] in He'.
destruct (IH s1) as (s2 & -> & Hs2 & Hf2 & _); [lia|done|]. exists s2. split_and!; [done..|by etrans|done].
Qed.

Lemma pause_ok fs s : (events s.2 ≤ n)%nat → sound fs s.1 → goes_on fs (pause h s) s (λ _, True).
Proof.
destruct s as [m [|l ns]]; cbn [fst snd pause]; intros Hn Hs.
{ exists (m, []). by split_and!. }
apply (interrupts_ok fs l (m, ns)); [|done]. rewrite events_cons in Hn. done.
Qed.

Lemma kill_pids_ok fs g pids : ∀ s, (events s.2 ≤ n)%nat → sound fs s.1 →
goes_on fs (kill_pids h g pids s) s (λ s', ∀ pid, pid ∈ pids → sent g pid (m_os s'.1)).
Proof.
induction pids as [|pid pids IH]; intros s Hn Hs; cbn [kill_pids].
{ exists s. split_and!; [done..|]. by intros ? ?%elem_of_nil. }
destruct (pause_ok fs s Hn Hs) as (s1 & -> & Hs1 & Hf1 & _). cbn [mbind option_bind].
pose proof (f_events _ _ Hf1). pose proof (frame_kill g pid s1) as Hf2.
destruct (IH (on_os (kill g pid) s1)) as (s3 & -> & Hs3 & Hf3 & Hq); [cbn; lia|by apply sound_kill|].
exists s3. split_and!; [done..|by do 2 (etrans; [done|])|].
intros k [->|Hk]%elem_of_cons; [|by apply Hq]. eapply later_sent; [apply Hf3|]. cbn. apply sent_note.
Qed.

Lemma kill_loop_ok fs g fuel : ∀ killed s, (room g killed s < fuel)%nat → (events s.2 ≤ n)%nat →
(∀ pid, pid ∈ killed → sent g pid (m_os s.1)) → sound fs s.1 →
goes_on fs (snd <$> kill_loop h fuel g killed s) s (λ s', swept g (m_os s'.1)).
Proof.
induction fuel as [|fuel IH]; intros killed s Hr Hn Hk Hs; [lia|]. cbn [kill_loop].
destruct (pause_ok fs s Hn Hs) as (s1 & -> & Hs1 & Hf1 & _). cbn [mbind option_bind].
pose proof (f_events _ _ Hf1) as He. pose proof (f_room _ _ Hf1 g killed) as Hr1.
assert (Hk1 : ∀ pid, pid ∈ killed → sent g pid (m_os s1.1)) by (intros; eapply later_sent; [apply Hf1|auto]).
set (pids := filter _ _). case_decide as Hp.
- eexists. split; [done|]. split_and!.
+ apply sound_swept; [done|]. intros k Hkt. destruct (decide (k ∈ killed)); [by apply Hk1|].
assert (k ∈ pids) as Hkp by (by apply list_elem_of_filter). rewrite Hp in Hkp. by apply not_elem_of_nil in Hkp.
+ etrans; [done|]. apply frame_swept.
+ cbn. apply swept_note.
- destruct (kill_pids_ok fs g pids s1) as (s2 & -> & Hs2 & Hf2 & Hq); [lia|done|]. cbn [mbind option_bind].
pose proof (untouched_nonempty g killed _ Hp) as Hne. set (killed' := list_to_set pids ∪ killed).
pose proof (f_room _ _ Hf2 g killed') as Hr2. unfold room in Hr1, Hr2 at 2.
rewrite (listed_untouched g killed (m_os s1.1) : untouched g killed' _ = ∅), size_empty in Hr2.
destruct (IH killed' s2) as (s3 & E & Hs3 & Hf3 & Hsw).
+ unfold room in Hr, Hr1, Hr2 |- *. lia.
+ pose proof (f_events _ _ Hf2). lia.
+ unfold killed'. intros k [Hkp|Hkp]%elem_of_union; [apply elem_of_list_to_set in Hkp; by apply Hq|].
eapply later_sent; [apply Hf2|by apply Hk1].
+ done.
+ exists s3. split_and!; [done..|by do 2 (etrans; [done|])|done].
Qed.

Lemma rmdir_loop_ok fs c g k : ∀ s, sc_cgroup c = Some g → (events s.2 ≤ n)%nat → sound (c :: fs) s.1 →
goes_on (c :: fs) (rmdir_loop h k g s) s (λ _, True).
Proof.
induction k as [|k IH]; intros s Hc Hn Hs; cbn [rmdir_loop].
{ exists s. by split_and!. }
destruct (pause_ok (c :: fs) s Hn Hs) as (s1 & -> & Hs1 & Hf1 & _). cbn [mbind option_bind].
pose proof (sound_rmdir fs s1.1 c g Hs1 Hc) as Hs2.
assert (Hf2 : frame s1 (set_os (rmdir g (m_os s1.1)).2 s1.1, s1.2)).
{ apply (frame_same (λ o, (rmdir g o).2)); unfold rmdir; by destruct (rmdir_results _). }
destruct (rmdir g (m_os s1.1)) as [ok o]. cbn [snd] in *. destruct ok.
{ eexists. split_and!; [done..|by etrans|done]. }
destruct (IH (set_os o s1.1, s1.2)) as (s3 & -> & Hs3 & Hf3 & _); [done| |done|].
{ pose proof (f_events _ _ Hf1). cbn. lia. }
exists s3. split_and!; [done..|by do 2 (etrans; [done|])|done].
Qed.

Lemma cleanup_ok fs c s : (events s.2 ≤ n)%nat → sound (c :: fs) s.1 →
goes_on fs (snd <$> cleanup h c s) s (λ _, True).
Proof.
intros Hn Hs. unfold cleanup. destruct (s_owned _ _ Hs c) as (-> & _ & _); [by left|].
assert (∃ s1, match sc_cgroup c with
 | Some g => '(_, s) ← kill_loop h (S (length (tasks g (m_os s.1)) + arrivals s.2)) g ∅ s; rmdir_loop h 3 g s
 | None => Some s end = Some s1 ∧ sound (c :: fs) s1.1 ∧ frame s s1 ∧ ∀ g, sc_cgroup c = Some g → swept g (m_os s1.1))
as (s1 & -> & Hs1 & Hf1 & Hsw).
{ destruct (sc_cgroup c) as [g|] eqn:Ec; [|by exists s; split_and!].
destruct (kill_loop_ok (c :: fs) g (S (length (tasks g (m_os s.1)) + arrivals s.2)) ∅ s) as (s1 & E & Hs1 & Hf1 & Hsw);
[|done|by intros ? ?%not_elem_of_empty|done|].
{ unfold room. pose proof (untouched_length g (m_os s.1)). lia. }
destruct (kill_loop h _ g ∅ s) as [[kl s1']|]; [|done]. injection E as ->. cbn [mbind option_bind].
pose proof (f_events _ _ Hf1). destruct (rmdir_loop_ok fs c g 3 s1) as (s2 & -> & Hs2 & Hf2 & _); [done|lia|done|].
exists s2. split_and!; [done..|by etrans|]. intros g' [= <-]. eapply later_swept; [apply Hf2|done]. }
cbn [mbind option_bind]. pose proof (f_events _ _ Hf1).
destruct (pause_ok (c :: fs) s1) as (s2 & -> & Hs2 & Hf2 & _); [lia|done|]. cbn.
eexists. split; [done|]. split_and!; [|etrans; [done|]; etrans; [done|]; by apply frame_same|done].
apply sound_close; [done|]. intros g Hg. eapply later_swept; [apply Hf2|by apply Hsw].
Qed.
End Serving.

Lemma dict_del_absent {V} (d : dict Z V) k : dict_get d k = None → dict_del d k = d.
Proof.
  induction d as [|[k' v] d IH]; cbn; [done|]. destruct (decide (k' = k)); [done|]. intros H. by rewrite IH.
Qed.

Lemma cleanup_child_ok n h fs pid s : serves n h → (events s.2 ≤ n)%nat → sound fs s.1 →
  goes_on fs (cleanup_child h pid s) (set_dict (dict_del (children s.1) pid) s.1, s.2) (λ _, True).
Proof.
  intros Hh Hn Hs. unfold cleanup_child. destruct (dict_get (children s.1) pid) as [c|] eqn:Ec.
  - apply (cleanup_ok n); [done..|]. by apply sound_pop.
  - rewrite dict_del_absent by done. exists s. destruct s as [[]]. by split_and!.
Qed.

(** Handlers that interrupt handlers come to an end. *)
Lemma child_exited_ok n : serves n (child_exited n).
Proof.
  induction n as [|n IH]; intros pid s fs Hn Hs; [lia|]. cbn [child_exited].
  destruct (procs (m_os s.1) !! pid) as [p|] eqn:Ep; [case_decide as Hz|].
  2,3: exists s; split_and!; [done..|apply frame_drop].
  set (s1 := on_os (λ o, set_procs (delete pid (procs o)) o) s).
  destruct (cleanup_child_ok n (child_exited n) fs pid s1 IH) as (s2 & -> & Hs2 & Hf & _); [cbn; lia|by apply sound_wait|].
  exists s2. split_and!; [done..|]. etrans; [|exact Hf]. apply (frame_wait pid s p); [done|apply Hz|apply Hs].
Qed.
Lemma handler_for_serves ns : serves (S (events ns)) (handler_for ns).
Proof. apply child_exited_ok. Qed.

(** ** The books, step by step *)
Lemma tidy_world m e : tidy m → tidy (set_os (world_step e (m_os m)) m).
Proof. intros [Hs Hb]. split; [by apply sound_world|]. apply books_os; [|done]. intros pid. apply search_world. Qed.

Lemma tidy_reap m ns pid : tidy m → orderly m (Reap ns pid) → ∃ m', step m (Reap ns pid) = Some m' ∧ tidy m' ∧ cgroupdir m' = cgroupdir m.
Proof.
  intros [Hs Hb] Ho. destruct (handler_for_serves ns pid (m, ns) []) as (s & E & Hs' & Hf); [cbn; lia|done|].
  exists s.1. cbn [step]. rewrite E. split; [by destruct (m_phase m)|].
  split; [split; [done|]|by rewrite (f_cgroupdir _ _ Hf)]. apply (f_books _ _ Hf); [|done].
  unfold undisturbed, orderly in *. cbn. destruct (m_phase m); [done..|].
  rewrite elem_of_cons. intros [[=]|?]; naive_solver.
Qed.

Lemma os_ok_made g (gs : list string) o : os_ok (Some gs) o → os_ok (Some (g :: gs)) (note (Some g) Made o).
Proof.
  intros [Hs Hw Hh].
  assert (Hsince : ∀ g', g' ≠ g → since g' (history (note (Some g) Made o)) = since g' (history o)).
  { intros g' Hne. cbn. by rewrite decide_False. }
  assert (Hnil : since g (history (note (Some g) Made o)) = []) by (cbn; by rewrite decide_True).
  split; [done| |].
  - intros g' k p Hc Hk Hg Hin Hl. unfold sent, swept, escaped in *. destruct (decide (g' = g)) as [->|Hne].
    + rewrite Hnil in Hc. by destruct Hc as [?%not_elem_of_nil|?%not_elem_of_nil].
    + rewrite Hsince in * by done. by eapply Hw.
  - intros k p Hk Hl. destruct (Hh k p Hk Hl) as (g' & Hg & Hcase). exists g'. split; [done|].
    destruct (decide (g' = g)) as [->|Hne]; [left; by left|]. unfold escaped, swept in *. rewrite Hsince by done.
    destruct Hcase as [?|?]; [left; by right|by right].
Qed.
Lemma os_ok_rest gs o t c r : os_ok gs o → os_ok gs (OS (procs o) t c r (history o)).
Proof. intros []. by split. Qed.

Lemma tidy_create m t g m' : tidy m → step m (Create t g) = Some m' → tidy m' ∧ cgroupdir m' = cgroupdir m.
Proof.
  intros [[Hwf Hown Htmp Htd Hgr Hcg Hos] [_ Hsr Hpd]]. cbn [step]. destruct (m_phase m) as [|c|pid c] eqn:Eph; [|done..].
  case_decide as Hfresh; [done|]. apply Decidable.not_or in Hfresh as [Hft Hfg]. cbn [app] in *.
  assert (Ho : owned m = (children m).*2) by (unfold owned; rewrite Eph; apply app_nil_r).
  assert (Hh : ∀ pid, holder m pid = dict_get (children m) pid) by (intros pid; unfold holder; rewrite Eph; by destruct (dict_get _ _)).
  rewrite Ho in *. rewrite Htd, elem_of_list_to_set in Hft.
  set (c := MkChild None t false false true (if cgroupdir m then Some g else None)).
  set (o := OS (procs (m_os m)) ({[t]} ∪ tempdirs (m_os m)) (if cgroupdir m then {[g]} ∪ cgroups (m_os m) else cgroups (m_os m))
    (rmdir_results (m_os m)) (history (if cgroupdir m then note (Some g) Made (m_os m) else m_os m))).
  intros H. assert (m' = Manager (children m) (cgroupdir m) (Created c) o) as ->.
  { unfold SearchChild_init, c, o in *. destruct (cgroupdir m); cbn in H |- *; congruence. }
  clear H. split; [|done].
  assert (Ho' : owned (Manager (children m) (cgroupdir m) (Created c) o) ≡ₚ c :: (children m).*2)
    by (unfold owned; cbn; by rewrite <-Permutation_cons_append).
  assert (Hgs : groups_of (c :: (children m).*2) = (if cgroupdir m then [g] else []) ++ groups_of (children m).*2)
    by (unfold groups_of; cbn; by destruct (cgroupdir m)).
  split; [split|split]; cbn [app children cgroupdir m_phase m_os tempdirs cgroups o]; try done.
  - intros x. rewrite Ho'. intros [->|Hx]%elem_of_cons; [|by apply Hown]. cbn. split_and!; [done..|].
    destruct (cgroupdir m); [done|]. split; [by intros []|done].
  - rewrite Ho'. cbn. by apply NoDup_cons.
  - rewrite Htd. apply set_eq. intros x. rewrite elem_of_union, elem_of_singleton, !elem_of_list_to_set, Ho'. cbn. by rewrite elem_of_cons.
  - rewrite Ho', Hgs. destruct (cgroupdir m); [|done]. apply NoDup_cons. split; [|done]. intros Hin. by apply Hfg, Hcg.
  - intros x. rewrite Ho', Hgs. destruct (cgroupdir m); [|apply Hcg]. intros [->|Hx]%elem_of_cons; [set_solver|].
    apply elem_of_union_r, Hcg, Hx.
  - destruct (cgroupdir m); [|by apply os_ok_rest].
    eapply housed_perm; [by rewrite Ho'|]. rewrite Hgs. apply (os_ok_rest _ (note (Some g) Made (m_os m))). by apply os_ok_made.
  - intros pid. change (search_of _ pid) with (search_of (m_os m) pid). rewrite Hsr, Hh. unfold holder. cbn. by destruct (dict_get _ _).
  - intros pid x. intros Hx. apply Hpd. rewrite Hh. revert Hx. unfold holder. cbn. by destruct (dict_get _ _).
Qed.

Lemma tidy_fork m k m' : tidy m → step m (Fork k) = Some m' → tidy m' ∧ cgroupdir m' = cgroupdir m.
Proof.
  intros [[Hwf Hown Htmp Htd Hgr Hcg Hos] [_ Hsr Hpd]]. cbn [step]. destruct (m_phase m) as [|c|pid c] eqn:Eph; [done| |done].
  case_decide as Hfresh; [done|]. apply Decidable.not_or in Hfresh as [Hk0 Hk]. apply eq_None_not_Some in Hk.
  unfold owned in *. rewrite Eph in *. cbn [app phase_children] in *.
  assert (Hc : c ∈ (children m).*2 ++ [c]) by (apply elem_of_app; right; by left).
  pose proof (Hown c Hc) as (Hct & Hcf & Hcc). unfold start. rewrite Hcf. intros [= <-]. split; [|done].
  set (c' := MkChild (Some k) (sc_tempdir c) true (sc_terminated c) true (sc_cgroup c)).
  assert (Hgk : dict_get (children m) k = None).
  { specialize (Hsr k). unfold search_of, holder in Hsr. rewrite Hk in Hsr. by destruct (dict_get (children m) k). }
  assert (Hg : groups_of ((children m).*2 ++ [c']) = groups_of ((children m).*2 ++ [c])) by (unfold groups_of; by rewrite !omap_app).
  assert (Ht : sc_tempdir <$> (children m).*2 ++ [c'] = sc_tempdir <$> (children m).*2 ++ [c]) by (by rewrite !fmap_app).
  split; [split|split]; unfold owned; cbn [app children cgroupdir m_phase m_os phase_children tempdirs cgroups procs set_procs]; try done.
  - intros x [Hx|Hx]%elem_of_app; [apply Hown, elem_of_app; by left|]. by apply list_elem_of_singleton in Hx as ->.
  - by rewrite Ht.
  - by rewrite Ht.
  - by rewrite Hg.
  - by rewrite Hg.
  - rewrite Hg. destruct Hos as [Hs Hw Hh]. split.
    + intros pid p Hp Hl. cbn in Hp. lookup_cases Hp; [by right; right|by eapply Hs].
    + intros g pid p Hcase Hp Hpg Hin Hl. cbn in Hp. lookup_cases Hp; [done|by eapply Hw].
    + destruct (cgroupdir m) eqn:Ecg; [|done]. intros pid p Hp Hl. cbn in Hp. lookup_cases Hp; [|by eapply Hh].
      destruct (proj2 Hcc eq_refl) as [g Hgc]. exists g. split; [done|]. left. unfold groups_of. rewrite omap_app. apply elem_of_app. right.
      cbn. rewrite Hgc. by left.
  - intros pid. unfold holder. cbn. destruct (decide (k = pid)) as [<-|Hne].
    + unfold search_of. cbn. by rewrite lookup_insert_eq, Hgk.
    + unfold search_of. cbn. rewrite lookup_insert_ne by done. specialize (Hsr pid).
      unfold search_of, holder in Hsr. rewrite Eph in Hsr. rewrite Hsr. by repeat case_match.
  - intros pid x. unfold holder. cbn. specialize (Hpd pid x). unfold holder in Hpd. rewrite Eph in Hpd.
    destruct (dict_get (children m) pid); [done|]. case_decide; [|done]. subst. by intros [= <-].
Qed.

Lemma tidy_register m m' : tidy m → step m Register = Some m' → tidy m' ∧ cgroupdir m' = cgroupdir m.
Proof.
  intros [[Hwf Hown Htmp Htd Hgr Hcg Hos] [Hph Hsr Hpd]]. cbn [step]. destruct (m_phase m) as [|c|pid c] eqn:Eph; [done..|]. intros [= <-].
  split; [|done].
  assert (Hset : dict_set (children m) pid c = children m ++ [(pid, c)]) by (apply dict_set_fresh; by apply dict_get_None).
  set (m' := Manager _ _ _ _).
  assert (Ho : owned m' = owned m) by (unfold owned; cbn; by rewrite Hset, fmap_app, Eph, app_nil_r).
  assert (Hh : ∀ k, holder m' k = holder m k).
  { intros k. unfold holder. cbn. rewrite Eph, dict_get_set.
    destruct (decide (pid = k)) as [<-|Hne]; [by rewrite Hph|]. by destruct (dict_get (children m) k). }
  split; [split; rewrite ?Ho; try done; by apply dict_wf_set|split; [done|..]].
  - intros k. by rewrite Hh.
  - intros k x. rewrite Hh. apply Hpd.
Qed.

Lemma tidy_init cg results : tidy (ChildManager_init cg results).
Proof.
  assert (Hnone : ∀ gs, os_ok gs (OS ∅ ∅ ∅ results [])).
  { intros [gs|]; split; try done; intros ? *; cbn; rewrite lookup_empty; done. }
  split; split; cbn; try done; try apply NoDup_nil_2; set_solver.
Qed.

Lemma tidy_step m e m' : tidy m → orderly m e → step m e = Some m' → tidy m' ∧ cgroupdir m' = cgroupdir m.
Proof.
  intros Ht Ho Hs. destruct e as [t g|k| |rs k|e].
  - by eapply tidy_create.
  - by eapply tidy_fork.
  - by eapply tidy_register.
  - destruct (tidy_reap m rs k Ht Ho) as (m1 & E & H). rewrite E in Hs. by injection Hs as <-.
  - cbn in Hs. injection Hs as <-. split; [by apply tidy_world|done].
Qed.

Lemma tidy_run es : ∀ m m', tidy m → orderly_run es m → run es m = Some m' → tidy m' ∧ cgroupdir m' = cgroupdir m.
Proof.
  induction es as [|e es IH]; intros m m' Ht; cbn; [by intros _ [= <-]|].
  intros [Ho Hr]. destruct (step m e) as [m1|] eqn:E; [|done]. intros Hm'.
  destruct (tidy_step _ _ _ Ht Ho E) as [Ht1 <-]. by apply IH.
Qed.

Lemma holder_owned m pid c : holder m pid = Some c → c ∈ owned m.
Proof.
  unfold holder, owned. intros H. apply elem_of_app. destruct (dict_get (children m) pid) as [c'|] eqn:E.
  - injection H as ->. left. apply dict_get_In in E. apply list_elem_of_fmap. by exists (pid, c).
  - right. destruct (m_phase m); [done..|]. case_decide; [|done]. injection H as ->. by left.
Qed.

(** C22.  The supervisor's books.  Start search processes, reap them and let all other
    processes run, in any order, provided that SIGCHLD is not handled between the
    fork of a search process and its registration when that process has already
    exited (after such a race the books are wrong: [early_exit]).  Then the
    temporary directories are exactly those of the children that the manager
    knows, each with its own; the groups of these children exist, each child's is
    its own; a search process with some id, group and directory is running or waits
    to be reaped exactly if the manager has a child under this id with this group
    and this directory, and the child knows its id.  With control groups every
    running process, however it was started, belongs to the group of a known child,
    or to a group in whose cleanup a process escaped: was given an id that the
    cleanup had signalled before, or came after the cleanup had ended. *)
Theorem supervisor_books cg results es m :
  orderly_run es (ChildManager_init cg results) → run es (ChildManager_init cg results) = Some m →
  NoDup (sc_tempdir <$> owned m) ∧ tempdirs (m_os m) = list_to_set (sc_tempdir <$> owned m) ∧
  NoDup (groups_of (owned m)) ∧ (∀ g, g ∈ groups_of (owned m) → g ∈ cgroups (m_os m)) ∧
  (∀ pid h t,
    (∃ p, procs (m_os m) !! pid = Some p ∧ p_search p = true ∧ p_home p = h ∧ p_tmpdir p = t) ↔
    (∃ c, holder m pid = Some c ∧ sc_pid c = Some pid ∧ sc_cgroup c = h ∧ sc_tempdir c = t)) ∧
  (cg = true → ∀ pid p, procs (m_os m) !! pid = Some p → p_state p = Live →
    ∃ g, p_home p = Some g ∧ (g ∈ groups_of (owned m) ∨ escaped g (m_os m))).
Proof.
  intros Ho Hr. destruct (tidy_run _ _ _ (tidy_init cg results) Ho Hr) as [[[_ _ Htmp Htd Hgr Hcg [Hs _ Hh]] [_ Hsr Hpd]] Hcd].
  cbn in Hcd. cbn [app] in *. split_and!; [done..| |].
  - intros pid h t. specialize (Hsr pid). unfold search_of in Hsr. split.
    + intros (p & Hp & Hps & <- & <-). rewrite Hp, Hps in Hsr. destruct (holder m pid) as [c|] eqn:Ec; [|done].
      injection Hsr as -> ->. exists c. split_and!; [done|by apply Hpd|done..].
    + intros (c & Hc & _ & <- & <-). rewrite Hc in Hsr. destruct (procs (m_os m) !! pid) as [p|]; [|done].
      destruct (p_search p) eqn:E; [|done]. injection Hsr as <- <-. eauto.
  - intros ->. rewrite Hcd in Hh. intros pid p Hp Hl. destruct (Hh pid p Hp Hl) as (g & Hg & Hcase). exists g. split; [done|].
    destruct Hcase as [?|[?|[_ Hin]]]; [by left|by right|]. left.
    destruct (Hs pid p Hp Hl) as [?|[?|Hps]]; [congruence..|]. specialize (Hsr pid). unfold search_of in Hsr.
    rewrite Hp, Hps, Hg in Hsr. destruct (holder m pid) as [c|] eqn:Ec; [|done]. injection Hsr as Hc _.
    unfold groups_of. apply list_elem_of_omap. exists c. split; [by eapply holder_owned|done].
Qed.

(** ** Killing everything *)
Lemma cleanup_children_ok n h pids : serves n h → ∀ s, (events s.2 ≤ n)%nat → sound [] s.1 →
  ∃ s', cleanup_children h pids s = Some s' ∧ sound [] s'.1 ∧ m_phase s'.1 = m_phase s.1 ∧ cgroupdir s'.1 = cgroupdir s.1 ∧
    ∀ pid, pid ∈ dict_keys (children s'.1) → pid ∈ dict_keys (children s.1) ∧ pid ∉ pids.
Proof.
  intros Hh. induction pids as [|pid pids IH]; intros s Hn Hs; cbn [cleanup_children].
  { exists s. split_and!; [done..|]. intros pid Hp. split; [done|apply not_elem_of_nil]. }
  destruct (cleanup_child_ok n h [] pid s Hh Hn Hs) as (s1 & -> & Hs1 & Hf & _). cbn [mbind option_bind].
  pose proof (f_events _ _ Hf) as He. cbn [snd] in He.
  destruct (IH s1) as (s2 & -> & Hs2 & Hp2 & Hc2 & Hk2); [lia|done|]. exists s2.
  rewrite Hp2, Hc2, (f_phase _ _ Hf), (f_cgroupdir _ _ Hf). split_and!; [done..|].
  intros k Hk. destruct (Hk2 k Hk) as [Hk1 Hkp]. apply (f_known _ _ Hf) in Hk1. cbn [fst set_dict children] in Hk1.
  rewrite dict_keys_del in Hk1 by apply Hs. apply list_elem_of_filter in Hk1 as [Hne Hin].
  split; [done|]. by intros [?|?]%elem_of_cons.
Qed.

(** C21.  Killing everything, with control groups.  The supervisor is stopped anywhere,
    also in the middle of [start], after a run as in the claim about its books;
    whatever other processes do while it kills, and whenever SIGCHLD is handled
    meanwhile (also while it is being handled), [kill_all] ends; no child is left,
    and no temporary directory but that of a child that [start] was about to
    register.  A process of a search that is still running then belongs to that
    child, or to a group in whose cleanup a process escaped (was given an id that
    the cleanup had signalled before, or came after the cleanup had ended), or is
    a search process that has not moved into its group.  The examples [reused_id],
    [late_search] and [stopped_in_start] show each case. *)
Theorem kill_all_kills results es m ns :
  orderly_run es (ChildManager_init true results) → run es (ChildManager_init true results) = Some m →
  ∃ m', kill_all ns m = Some m' ∧ children m' = [] ∧
    tempdirs (m_os m') = list_to_set (sc_tempdir <$> phase_children (m_phase m)) ∧
    ∀ pid p, procs (m_os m') !! pid = Some p → p_state p = Live →
      ∃ g, p_home p = Some g ∧
        (g ∈ groups_of (phase_children (m_phase m)) ∨ escaped g (m_os m') ∨
         p_search p = true ∧ p_in p = false ∧ swept g (m_os m')).
Proof.
  intros Ho Hr. destruct (tidy_run _ _ _ (tidy_init true results) Ho Hr) as [[Hs _] Hcd]. cbn in Hcd.
  destruct (cleanup_children_ok _ _ (dict_keys (children m)) (handler_for_serves ns) (m, ns)) as (s & E & [_ _ _ Htd _ _ Hos] & Hp & Hc & Hk);
    [cbn; lia|done|].
  exists s.1. unfold kill_all. rewrite E. cbn [fst] in *.
  assert (Hnil : children s.1 = []).
  { destruct (children s.1) as [|[k c] d]; [done|]. destruct (Hk k) as [H1 H2]; [by left|done]. }
  rewrite Hc, Hcd in Hos. unfold owned in *. rewrite Hnil, Hp in *. cbn [app fmap list_fmap] in *. split_and!; [done..|].
  intros pid p Hpr Hl. destruct Hos as [Hsh _ Hh]. destruct (Hh pid p Hpr Hl) as (g & Hg & Hcase). exists g. split; [done|].
  destruct Hcase as [?|[?|[Hsw Hin]]]; [by left|by right; left|right; right].
  destruct (Hsh pid p Hpr Hl) as [?|[?|?]]; [congruence..|done].
Qed.

(** ** Concrete runs *)

(** Three searches, one of which has ended.  While the others are killed the first
    one's helper forks, and SIGCHLD for both arrives in the middle of the killing
    of the first. *)
Definition sample_run : list event :=
  [Create "t1" "g1"; Fork 10; World (Enter 10); Register; World (Spawn 10 11);
   Create "t2" "g2"; Fork 20; Register; World (Enter 20); World (Exit 20); Reap [] 20;
   Create "t3" "g3"; Fork 30; Register; World (Enter 30); World (Spawn 30 31)].
Definition sample_noise : noise :=
  [[Runs (Spawn 11 12)]; []; [Runs (Spawn 12 13); Runs (Exit 10); Sigchld 10; Runs (Exit 30); Sigchld 30];
   [Runs (Spawn 31 32)]; []; []; [Runs (Exit 11)]].
Definition sample_manager : manager := default (ChildManager_init true []) (run sample_run (ChildManager_init true [])).

Lemma sample_manager_run : run sample_run (ChildManager_init true []) = Some sample_manager.
Proof. vm_compute. reflexivity. Qed.

Lemma supervisor_books_witness :
  elements (tempdirs (m_os sample_manager)) = ["t3"; "t1"] ∧
  let m := sample_manager in
  NoDup (sc_tempdir <$> owned m) ∧ tempdirs (m_os m) = list_to_set (sc_tempdir <$> owned m) ∧
  NoDup (groups_of (owned m)) ∧ (∀ g, g ∈ groups_of (owned m) → g ∈ cgroups (m_os m)) ∧
  (∀ pid h t,
    (∃ p, procs (m_os m) !! pid = Some p ∧ p_search p = true ∧ p_home p = h ∧ p_tmpdir p = t) ↔
    (∃ c, holder m pid = Some c ∧ sc_pid c = Some pid ∧ sc_cgroup c = h ∧ sc_tempdir c = t)) ∧
  (true = true → ∀ pid p, procs (m_os m) !! pid = Some p → p_state p = Live →
    ∃ g, p_home p = Some g ∧ (g ∈ groups_of (owned m) ∨ escaped g (m_os m))).
Proof.
  split; [vm_compute; reflexivity|]. apply (supervisor_books true [] sample_run).
  - vm_compute. split_and!; exact I.
  - exact sample_manager_run.
Defined.

Lemma kill_all_kills_witness :
  (λ m', filter (λ kp : Z * proc, p_state kp.2 = Live) (map_to_list (procs (m_os m')))) <$> kill_all sample_noise sample_manager = Some [] ∧
  ∃ m', kill_all sample_noise sample_manager = Some m' ∧ children m' = [] ∧
    tempdirs (m_os m') = list_to_set (sc_tempdir <$> phase_children (m_phase sample_manager)) ∧
    ∀ pid p, procs (m_os m') !! pid = Some p → p_state p = Live →
      ∃ g, p_home p = Some g ∧
        (g ∈ groups_of (phase_children (m_phase sample_manager)) ∨ escaped g (m_os m') ∨
         p_search p = true ∧ p_in p = false ∧ swept g (m_os m')).
Proof.
  split; [vm_compute; reflexivity|]. apply (kill_all_kills [] sample_run sample_manager sample_noise).
  - vm_compute. split_and!; exact I.
  - exact sample_manager_run.
Defined.

Definition after (es : list event) (results : list bool) (ns : noise) : option (list (Z * pstate) * list string) :=
  m ← run es (ChildManager_init true results);
  m' ← kill_all ns m;
  Some ((λ kp : Z * proc, (kp.1, p_state kp.2)) <$> map_to_list (procs (m_os m')), elements (tempdirs (m_os m'))).

(** Process 11 is killed and exits; process 12, which it forked before, forks a
    process that gets the id 11.  The loop has 11 among those that it killed, skips
    it, and ends while it runs. *)
Example reused_id :
  after [Create "t" "g"; Fork 10; World (Enter 10); Register; World (Spawn 10 11)] []
    [[]; [Runs (Spawn 11 12)]; []; [Runs (Exit 11); Runs (Spawn 12 11)]] = Some ([(11, Live); (10, Dying); (12, Dying)], []).
Proof. vm_compute. reflexivity. Qed.

(** A search process that has not moved into its group is not killed; if the group
    cannot be removed it moves there afterwards and runs on, without its directory. *)
Example late_search :
  after [Create "t" "g"; Fork 10; Register] [] [] = Some ([(10, Live)], []) ∧
  after [Create "t" "g"; Fork 10; Register] [false; false; false] [[]; []; []; []; [Runs (Enter 10)]] = Some ([(10, Live)], []).
Proof. vm_compute. split; reflexivity. Qed.

(** A signal in [start], between the fork and the registration of the child: the
    search runs on, with its directory. *)
Example stopped_in_start :
  after [Create "t" "g"; Fork 10; World (Enter 10)] [] [] = Some ([(10, Live)], ["t"]).
Proof. vm_compute. reflexivity. Qed.

(** A search process that exits, and whose SIGCHLD is handled, before [start] has
    put it into the dict is registered after it has been reaped: its entry and
    its temporary directory stay until the supervisor stops. *)
Example early_exit :
  let r := run [Create "t" "g"; Fork 10; World (Exit 10); Reap [] 10; Register] (ChildManager_init true []) in
  (dict_keys ∘ children <$> r) = Some [10] ∧ ((λ m, procs (m_os m) !! 10) <$> r) = Some None ∧
  (elements ∘ tempdirs ∘ m_os <$> r) = Some ["t"] ∧
  (dict_keys ∘ children <$> (r ≫= λ m, step m (Reap [] 10))) = Some [10].
Proof. vm_compute. split_and!; reflexivity. Qed.

(** Without control groups [kill_all] removes the directory of a running search
    and leaves the search running. *)
Example kill_all_without_groups :
  let m := default (ChildManager_init false []) (run [Create "t" ""; Fork 10; Register] (ChildManager_init false [])) in
  let r := kill_all [] m in
  children <$> r = Some [] ∧ elements ∘ tempdirs ∘ m_os <$> r = Some [] ∧ ((λ m, p_state <$> procs (m_os m) !! 10) <$> r) = Some (Some Live).
Proof. vm_compute. split_and!; reflexivity. Qed.
