(* ===== verification/Supervisor.v ===== *)
(** The supervisor process (src/opendiamond/server/server.py): the names and the
    pruning of search logs, the pruning of the blob cache, and the accept loop. *)
From S2P Require Import Prelude PyBytes PyText Dict Sha256 BlobCache BlobStore Config Child.
Local Open Scope Z_scope.

(** ** Dates

    A naive [datetime] in the server's time zone.  [micros]: microseconds since
    the first day of year 0 of the proleptic calendar, in which [datetime]
    objects are compared and [timedelta]s are subtracted. *)
Record civil := Civil { year : Z; month : Z; day : Z; hour : Z; minute : Z; second : Z; microsecond : Z }.

Definition leap (y : Z) : bool := (y mod 4 =? 0) && (negb (y mod 100 =? 0) || (y mod 400 =? 0)).
Definition month_days (y m : Z) : Z :=
  if m =? 2 then if leap y then 29 else 28
  else if (m =? 4) || (m =? 6) || (m =? 9) || (m =? 11) then 30 else 31.
Definition days_before_month (y m : Z) : Z :=
  foldr Z.add 0 (month_days y <$> (Z.of_nat <$> seq 1 (Z.to_nat (m - 1)))).
Definition days_before_year (y : Z) : Z := 365 * y + (y + 3) / 4 - (y + 99) / 100 + (y + 399) / 400.

Definition SECOND : Z := 1000000.
Definition HOUR : Z := 3600 * SECOND.
Definition DAY : Z := 24 * HOUR.
Definition micros (t : civil) : Z :=
  (days_before_year (year t) + days_before_month (year t) (month t) + (day t - 1)) * DAY +
  hour t * HOUR + minute t * 60 * SECOND + second t * SECOND + microsecond t.

(** [datetime(...)] refuses anything else. *)
Definition civil_ok (t : civil) : bool :=
  (1 <=? year t) && (year t <=? 9999) && (1 <=? month t) && (month t <=? 12) &&
  (1 <=? day t) && (day t <=? month_days (year t) (month t)) &&
  (0 <=? hour t) && (hour t <? 24) && (0 <=? minute t) && (minute t <? 60) &&
  (0 <=? second t) && (second t <? 60) && (0 <=? microsecond t) && (microsecond t <? SECOND).

(** *** [strftime] and [strptime] for [SEARCH_LOG_DATE_FORMAT] *)
Definition two (n : Z) : bytes := [digit_byte (n / 10); digit_byte (n mod 10)].
Definition four (n : Z) : bytes := two (n / 100) ++ two (n mod 100).

(** For years from 1000 on. *)
Definition strftime (t : civil) : bytes :=
  four (year t) ++ Byte.x2d :: two (month t) ++ Byte.x2d :: two (day t) ++ Byte.x2d ::
  two (hour t) ++ Byte.x3a :: two (minute t) ++ Byte.x3a :: two (second t).

(** One or two ASCII digits. *)
Definition digits12 (l : bytes) : option Z :=
  match l with
  | [a] => digit_value a
  | [a; b] => x ← digit_value a; y ← digit_value b; Some (10 * x + y)
  | _ => None
  end.
Definition digits4 (l : bytes) : option Z :=
  match l with
  | [a; b; c; d] => x ← digits12 [a; b]; y ← digits12 [c; d]; Some (100 * x + y)
  | _ => None
  end.
(** A day may also be written with a space and a digit. *)
Definition day_digits (l : bytes) : option Z :=
  match l with
  | [a; b] => if decide (a = Byte.x20) then digit_value b else digits12 l
  | _ => digits12 l
  end.
Definition between (lo hi : Z) (o : option Z) : option Z :=
  z ← o; if (lo <=? z) && (z <=? hi) then Some z else None.

(** [None]: [ValueError]. *)
Definition strptime (l : bytes) : option civil :=
  match split Byte.x2d l with
  | [y; m; d; t] =>
    match split Byte.x3a t with
    | [h; mi; s] =>
      y ← digits4 y; m ← between 1 12 (digits12 m); d ← between 1 31 (day_digits d);
      h ← between 0 23 (digits12 h); mi ← between 0 59 (digits12 mi); s ← between 0 61 (digits12 s);
      let t := Civil y m d h mi s 0 in if civil_ok t then Some t else None
    | _ => None
    end
  | _ => None
  end.

(** ** Search logs *)

(** [SEARCH_LOG_FORMAT % (now, os.getpid())] *)
Definition log_name (t : civil) (pid : Z) : string :=
  text (str_encode "search-" ++ strftime t ++ Byte.x2d :: format_d pid ++ str_encode ".log").

Definition strip_prefix (p l : bytes) : option bytes := if startswith l p then Some (drop (length p) l) else None.
Definition strip_suffix (p l : bytes) : option bytes := if endswith l p then Some (take (length l - length p) l) else None.
(** [l] around its last [sep]. *)
Definition rsplit1 (sep : byte) (l : bytes) : option (bytes * bytes) :=
  '(p, q) ← split1 sep (reverse l); Some (reverse q, reverse p).
Definition ascii_digits (l : bytes) : bool := negb (bool_decide (l = [])) && forallb (λ b, bool_decide (is_Some (digit_value b))) l.

(** [SEARCH_LOG_REGEX]: the group of the match.  The process id has no dash, so
    the greedy group ends at the last one; [$] also matches before a final
    newline. *)
Definition log_group (name : bytes) : option bytes :=
  l ← strip_prefix (str_encode "search-") name;
  let l := match strip_suffix [Byte.x0a] l with Some l => l | None => l end in
  l ← strip_suffix (str_encode ".log") l;
  '(group, pid) ← rsplit1 Byte.x2d l;
  if bool_decide (group ≠ []) && forallb (λ b, negb (bool_decide (b = Byte.x0a))) group && ascii_digits pid then Some group else None.

(** When a search log was started, by its name. *)
Definition log_start (name : string) : option civil := group ← log_group (str_encode name); strptime group.

(** [local]: the time zone, from microseconds since the epoch to [micros]. *)
Section Supervisor.
Context (local : Z → Z).

(** Whether [_prune_child_logs] removes a file, from the three readings of the
clock. *)
Definition prunable (threshold : Z) (name : string) (mtime : Z) : bool :=
match log_start name with
| None => false
| Some start => if threshold <=? micros start then false else local mtime <? threshold
end.

(** [removable]: [os.unlink] succeeds on it; a failure is ignored. *)
Definition prune_logs (removable : string → bool) (threshold : Z) (logs : gmap string Z) : gmap string Z :=
filter (λ f : string * Z, prunable threshold f.1 f.2 && removable f.1 = false) logs.

(** ** The supervisor's state *)
Record server := Server {
s_logdays : Z;
s_blob_cache_days : Z;
s_logs : gmap string Z;
s_cache : FS;
s_last_log_prune : Z;
s_last_cache_prune : Z;
s_children : manager;
s_connections : gset nat;          (* accepted connections that are open *)
s_listening : bool
}.

(** [_prune_child_logs]; [now]: the clock's successive values, in local time. *)
Definition prune_child_logs (removable : string → bool) (now now2 now3 : Z) (s : server) : server :=
if now - s_last_log_prune s <? HOUR then s
else
Server (s_logdays s) (s_blob_cache_days s) (prune_logs removable (now3 - s_logdays s * DAY) (s_logs s)) (s_cache s) now2
(s_last_cache_prune s) (s_children s) (s_connections s) (s_listening s).

(** [_prune_blob_cache]; [epoch]: [time.time()] in [BlobCache.prune]. *)
Definition prune_blob_cache (now now2 epoch : Z) (s : server) : res unit * server :=
if now - s_last_cache_prune s <? HOUR then (Ok tt, s)
else
let '(r, fs) := BlobCache.run (BlobCache.prune epoch (s_blob_cache_days s)) (s_cache s) in
(r, Server (s_logdays s) (s_blob_cache_days s) (s_logs s) fs (s_last_log_prune s) now2 (s_children s) (s_connections s) (s_listening s)).

(** A connection pair: [accept] opens the two connections, and [run] closes them
in the parent after [start]; [es]: what happens during [start], which must
end with the child registered. *)
Definition accept_pair (control data : nat) (s : server) : server :=
Server (s_logdays s) (s_blob_cache_days s) (s_logs s) (s_cache s) (s_last_log_prune s) (s_last_cache_prune s)
(s_children s) ({[control; data]} ∪ s_connections s) (s_listening s).
Definition close_pair (control data : nat) (s : server) : server :=
Server (s_logdays s) (s_blob_cache_days s) (s_logs s) (s_cache s) (s_last_log_prune s) (s_last_cache_prune s)
(s_children s) (s_connections s ∖ {[control; data]}) (s_listening s).
Definition set_children (m : manager) (s : server) : server :=
Server (s_logdays s) (s_blob_cache_days s) (s_logs s) (s_cache s) (s_last_log_prune s) (s_last_cache_prune s)
m (s_connections s) (s_listening s).

Record turn := Turn {
t_removable : string → bool;
t_times : list Z;                  (* the clock's values, in order *)
t_epoch : Z;
t_waiting : list event;            (* what happens until a pair is accepted *)
t_pair : nat * nat;
t_start : list event               (* [start], and what happens during it *)
}.
Definition time (n : nat) (t : turn) : Z := default 0 (t_times t !! n).

(** One turn of the loop of [run]. *)
Definition run_turn (t : turn) (s : server) : option (res unit * server) :=
let s := prune_child_logs (t_removable t) (time 0 t) (time 1 t) (time 2 t) s in
match prune_blob_cache (time 3 t) (time 4 t) (t_epoch t) s with
| (Raise e, s) => Some (Raise e, s)
| (Ok _, s) =>
m ← Child.run (t_waiting t) (s_children s);
let s := accept_pair (t_pair t).1 (t_pair t).2 (set_children m s) in
m ← Child.run (t_start t) (s_children s);
Some (Ok tt, close_pair (t_pair t).1 (t_pair t).2 (set_children m s))
end.

(** [_Signalled] in [run]: stop listening and kill the children. *)
Definition signalled (ns : noise) (s : server) : option server :=
m ← kill_all ns (s_children s);
Some (Server (s_logdays s) (s_blob_cache_days s) (s_logs s) (s_cache s) (s_last_log_prune s) (s_last_cache_prune s)
m (s_connections s) false).
End Supervisor.

(** ** Names of logs *)
Lemma digits12_two n : 0 <= n < 100 → digits12 (two n) = Some n.
Proof.
  intros Hn. unfold digits12, two. pose proof (Z.mod_pos_bound n 10).
  assert (0 <= n / 10 < 10) by (split; [apply Z.div_pos; lia|apply Z.div_lt_upper_bound; lia]).
  rewrite !digit_value_byte by lia. cbn. f_equal. pose proof (Z.div_mod n 10). lia.
Qed.

Lemma digit_byte_is_digit d : 0 <= d < 10 → is_digit (digit_byte d).
Proof. intros. unfold is_digit. rewrite digit_value_byte by done. by eexists. Qed.

Lemma two_digits n : 0 <= n < 100 → Forall is_digit (two n).
Proof.
  intros Hn. pose proof (Z.mod_pos_bound n 10).
  assert (0 <= n / 10 < 10) by (split; [apply Z.div_pos; lia|apply Z.div_lt_upper_bound; lia]).
  repeat constructor; apply digit_byte_is_digit; lia.
Qed.

Lemma digits_free sep l : digit_value sep = None → Forall is_digit l → sep ∉ l.
Proof. intros Hs Hl Hin. eapply Forall_forall in Hl as [d Hd]; [|done]. congruence. Qed.

Lemma day_digits_two n : 0 <= n < 100 → day_digits (two n) = Some n.
Proof.
  intros Hn. unfold day_digits. cbn [two]. rewrite decide_False; [by apply digits12_two|].
  intros Heq. pose proof (two_digits n Hn) as H. apply Forall_cons in H as [[d Hd] _]. rewrite Heq in Hd. done.
Qed.

Lemma digits4_four n : 0 <= n < 10000 → digits4 (four n) = Some n.
Proof.
  intros Hn. pose proof (Z.mod_pos_bound n 100).
  assert (0 <= n / 100 < 100) by (split; [apply Z.div_pos; lia|apply Z.div_lt_upper_bound; lia]).
  unfold digits4, four. change (two (n / 100) ++ two (n mod 100)) with
    [digit_byte (n / 100 / 10); digit_byte ((n / 100) mod 10); digit_byte (n mod 100 / 10); digit_byte ((n mod 100) mod 10)].
  cbv beta iota. fold (two (n / 100)) (two (n mod 100)). rewrite !digits12_two by lia. cbn. f_equal.
  pose proof (Z.div_mod n 100). lia.
Qed.

Lemma between_in lo hi z : lo <= z <= hi → between lo hi (Some z) = Some z.
Proof. intros H. unfold between. cbn. by rewrite (proj2 (Z.leb_le _ _)), (proj2 (Z.leb_le _ _)) by lia. Qed.

(** The start of a search, in whole seconds. *)
Definition truncated (t : civil) : civil := Civil (year t) (month t) (day t) (hour t) (minute t) (second t) 0.

Lemma civil_ok_spec t : civil_ok t = true ↔
  1 <= year t <= 9999 ∧ 1 <= month t <= 12 ∧ 1 <= day t <= month_days (year t) (month t) ∧
  0 <= hour t < 24 ∧ 0 <= minute t < 60 ∧ 0 <= second t < 60 ∧ 0 <= microsecond t < SECOND.
Proof. unfold civil_ok. rewrite !andb_true_iff, !Z.leb_le, !Z.ltb_lt. tauto. Qed.

Lemma month_days_range y m : month_days y m <= 31.
Proof. unfold month_days. repeat case_match; lia. Qed.

Lemma strptime_strftime t : civil_ok t = true → 1000 <= year t → strptime (strftime t) = Some (truncated t).
Proof.
  intros Hok Hy. pose proof (proj1 (civil_ok_spec t) Hok) as (H1 & H2 & H3 & H4 & H5 & H6 & H7).
  pose proof (month_days_range (year t) (month t)).
  assert (Hdash : ∀ l, Forall is_digit l → Byte.x2d ∉ l) by (intros; by apply digits_free).
  assert (Hcolon : ∀ l, Forall is_digit l → Byte.x3a ∉ l) by (intros; by apply digits_free).
  assert (Hfour : Forall is_digit (four (year t))).
  { pose proof (Z.mod_pos_bound (year t) 100). apply Forall_app. split; apply two_digits; [|lia].
    split; [apply Z.div_pos; lia|apply Z.div_lt_upper_bound; lia]. }
  unfold strptime, strftime. rewrite !split_app_sep by (apply Hdash; try done; apply two_digits; lia).
  rewrite split_no_sep.
  2: { repeat (rewrite not_elem_of_app || rewrite not_elem_of_cons). split_and!; try done; apply Hdash, two_digits; lia. }
  rewrite !split_app_sep by (apply Hcolon, two_digits; lia).
  rewrite split_no_sep by (apply Hcolon, two_digits; lia).
  rewrite digits4_four, day_digits_two, !digits12_two, !between_in by lia. cbn [mbind option_bind].
  rewrite (proj2 (civil_ok_spec _)); [done|]. cbn. unfold SECOND. split_and!; lia.
Qed.

Lemma endswith_app l p : endswith (l ++ p) p = true.
Proof. unfold endswith. rewrite reverse_app. apply startswith_app. Qed.

Lemma strip_prefix_app p l : strip_prefix p (p ++ l) = Some l.
Proof. unfold strip_prefix. rewrite startswith_app. by rewrite drop_app_length. Qed.

Lemma strip_suffix_app p l : strip_suffix p (l ++ p) = Some l.
Proof.
  unfold strip_suffix. rewrite endswith_app, length_app. f_equal.
  replace (length l + length p - length p)%nat with (length l) by lia. by rewrite take_app_length.
Qed.

Lemma rsplit1_app sep l q : sep ∉ q → rsplit1 sep (l ++ sep :: q) = Some (l, q).
Proof.
  intros Hq. unfold rsplit1. rewrite reverse_app, reverse_cons, <-app_assoc. cbn.
  rewrite split1_app by (by rewrite elem_of_reverse). cbn. by rewrite !reverse_involutive.
Qed.

Lemma format_d_digits n : 0 <= n → Forall is_digit (format_d n) ∧ format_d n ≠ [].
Proof. intros Hn. by destruct (format_d_nonneg n Hn) as (? & ? & ?). Qed.

Lemma log_group_name t pid : civil_ok t = true → 1000 <= year t → 0 <= pid →
  log_group (str_encode (log_name t pid)) = Some (strftime t).
Proof.
  intros Hok Hy Hpid. unfold log_name, text. rewrite str_encode_of_bytes. unfold log_group.
  rewrite strip_prefix_app. cbn [mbind option_bind].
  destruct (format_d_digits pid Hpid) as [Hd Hne].
  assert (strip_suffix [Byte.x0a] (strftime t ++ Byte.x2d :: format_d pid ++ str_encode ".log") = None) as ->.
  { unfold strip_suffix, endswith. rewrite reverse_app, reverse_cons, reverse_app. reflexivity. }
  rewrite app_comm_cons, app_assoc, strip_suffix_app. cbn [mbind option_bind].
  rewrite rsplit1_app by (by apply digits_free). cbn [mbind option_bind].
  assert (bool_decide (strftime t ≠ []) = true) as -> by (by apply bool_decide_eq_true).
  assert (forallb (λ b, negb (bool_decide (b = Byte.x0a))) (strftime t) = true) as ->.
  { apply List.forallb_forall. intros b Hb%list_elem_of_In. apply negb_true_iff, bool_decide_eq_false.
    intros ->. revert Hb. change (Byte.x0a ∉ strftime t). pose proof (proj1 (civil_ok_spec t) Hok) as (H1 & H2 & H3 & H4 & H5 & H6 & H7).
    pose proof (month_days_range (year t) (month t)). pose proof (Z.mod_pos_bound (year t) 100).
    assert (0 <= year t / 100 < 100) by (split; [apply Z.div_pos; lia|apply Z.div_lt_upper_bound; lia]).
    unfold strftime, four. repeat (rewrite not_elem_of_app || rewrite not_elem_of_cons).
    split_and!; try done; (apply digits_free; [done|]; apply two_digits; lia). }
  assert (ascii_digits (format_d pid) = true) as ->; [|done].
  unfold ascii_digits. rewrite bool_decide_eq_false_2 by done. apply List.forallb_forall. intros b Hb%list_elem_of_In.
  apply bool_decide_eq_true. by eapply Forall_forall in Hd.
Qed.

(** The supervisor reads the start of a search back from the name that the
    search gave its log. *)
Lemma log_start_name t pid : civil_ok t = true → 1000 <= year t → 0 <= pid →
  log_start (log_name t pid) = Some (truncated t).
Proof.
  intros Hok Hy Hpid. unfold log_start. rewrite log_group_name by done. by apply strptime_strftime.
Qed.

(** ** Pruning *)

(** Search logs.  At most once an hour the supervisor removes search logs.  It
    never touches a file that is not named like one; the log of a search is
    removed exactly when the search was started (in whole seconds) and the log
    was last written before the limit, unless the system refuses.  Nothing else
    of the supervisor changes. *)
Theorem search_logs_pruned local removable now now2 now3 s :
  let s' := prune_child_logs local removable now now2 now3 s in
  let due := HOUR <=? now - s_last_log_prune s in
  let limit := now3 - s_logdays s * DAY in
  (∀ f, log_start f = None → s_logs s' !! f = s_logs s !! f) ∧
  (∀ t pid mtime, civil_ok t = true → 1000 <= year t → 0 <= pid → s_logs s !! log_name t pid = Some mtime →
    s_logs s' !! log_name t pid =
      if due && (micros (truncated t) <? limit) && (local mtime <? limit) && removable (log_name t pid) then None else Some mtime) ∧
  s_last_log_prune s' = (if due then now2 else s_last_log_prune s) ∧
  s_cache s' = s_cache s ∧ s_children s' = s_children s ∧ s_connections s' = s_connections s.
Proof.
  intros s' due limit. subst s'. unfold prune_child_logs.
  assert ((now - s_last_log_prune s <? HOUR) = negb due) as -> by (unfold due; by rewrite Z.leb_antisym, negb_involutive).
  destruct due; cbn [negb]; [|by split_and!]. fold limit. cbn [s_logs s_last_log_prune s_cache s_children s_connections].
  unfold prune_logs. split_and!; try done.
  - intros f Hf. destruct (s_logs s !! f) as [mtime|] eqn:E.
    + apply map_lookup_filter_Some. split; [done|]. cbn. unfold prunable. by rewrite Hf.
    + by apply map_lookup_filter_None; left.
  - intros t pid mtime Hok Hy Hpid E.
    assert (Hp : prunable local limit (log_name t pid) mtime = (micros (truncated t) <? limit) && (local mtime <? limit)).
    { unfold prunable. rewrite log_start_name by done. rewrite Z.leb_antisym. by destruct (micros (truncated t) <? limit). }
    cbn [andb]. rewrite <-Hp. destruct (prunable local limit (log_name t pid) mtime && removable (log_name t pid)) eqn:Hd.
    + apply map_lookup_filter_None. right. intros x Hx. cbn. rewrite E in Hx. injection Hx as <-. by rewrite Hd.
    + apply map_lookup_filter_Some. by split.
Qed.

(** *** The blob cache *)
Lemma do_errors o fs : ∃ fs', BlobCache.run (do o) fs = (Ok tt, fs') ∨ BlobCache.run (do o) fs = (Raise OSError, fs').
Proof.
  unfold do. cbn. destruct (apply_op o fs) as [r fs'] eqn:E. exists fs'. cbn.
  destruct o; cbn in E; repeat case_match; simplify_eq/=; auto.
Qed.

Lemma expired_run E p a fs : ∃ fs', BlobCache.run (expired E p a) fs = (Ok tt, fs').
Proof.
  unfold expired. rewrite run_try, run_bind. unfold mtime. cbn.
  destruct (files fs !! p) as [[d t]|]; cbn; [|by eexists]. destruct (t <? E); cbn; [|by eexists].
  destruct (do_errors a fs) as (fs' & [H|H]); unfold do in H; cbn in H; rewrite H; cbn; by eexists.
Qed.

Lemma skip_or_expired_run (b : bool) (m : prog unit) fs : (∀ fs, ∃ fs', BlobCache.run m fs = (Ok tt, fs')) →
  ∃ fs', BlobCache.run (if b then mret tt else m) fs = (Ok tt, fs') ∧ ∃ fs'', BlobCache.run (if b then m else mret tt) fs = (Ok tt, fs'').
Proof. intros Hm. destruct (Hm fs). destruct b; cbn; eauto. Qed.

Lemma prune_rename_run E l : ∀ fs, ∃ fs', BlobCache.run (prune_rename E l) fs = (Ok tt, fs').
Proof.
  induction l as [|x l IH]; intros fs; cbn [prune_rename]; [by eexists|]. rewrite run_bind.
  destruct (skip_or_expired_run (is_gc x) _ fs (expired_run E x (Rename x (x +:+ GC_SUFFIX)))) as (fs1 & -> & _). apply IH.
Qed.

Lemma prune_delete_run E l : ∀ fs, ∃ fs', BlobCache.run (prune_delete E l) fs = (Ok tt, fs').
Proof.
  induction l as [|x l IH]; intros fs; cbn [prune_delete]; [by eexists|]. rewrite run_bind.
  destruct (skip_or_expired_run (is_gc x) _ fs (expired_run E x (Unlink x))) as (_ & _ & fs1 & ->). apply IH.
Qed.

(** The collection never fails. *)
Lemma prune_run now days fs : ∃ fs', BlobCache.run (BlobCache.prune now days) fs = (Ok tt, fs').
Proof.
  unfold BlobCache.prune. rewrite run_bind. cbn [BlobCache.run listdir apply_op].
  rewrite run_bind. destruct (prune_rename_run (now - 60 * 60 * 24 * days) (map_to_list (files fs)).*1 fs) as [fs1 ->].
  rewrite run_bind. cbn [BlobCache.run listdir apply_op]. apply prune_delete_run.
Qed.

(** ** A turn of the loop *)

(** What happens in a turn is orderly in the sense of the supervisor's books. *)
Definition orderly_turn (t : turn) (s : server) : Prop :=
  orderly_run (t_waiting t) (s_children s) ∧
  ∀ m, Child.run (t_waiting t) (s_children s) = Some m → orderly_run (t_start t) m.

(** A turn of the supervisor's loop does not fail, keeps the books of its
    children, and leaves it holding none of the clients' connections: it holds
    exactly those that it held before, without the pair of the turn. *)
Lemma turn_keeps local t s r s' : run_turn local t s = Some (r, s') → orderly_turn t s → tidy (s_children s) →
  r = Ok tt ∧ tidy (s_children s') ∧ s_connections s' = s_connections s ∖ {[(t_pair t).1; (t_pair t).2]} ∧
  s_listening s' = s_listening s.
Proof.
  unfold run_turn. intros Hr [Ho1 Ho2] Ht.
  set (s1 := prune_child_logs _ _ _ _ _ s) in *.
  assert (H1 : s_children s1 = s_children s ∧ s_connections s1 = s_connections s ∧ s_listening s1 = s_listening s).
  { unfold s1, prune_child_logs. by destruct (_ <? _). }
  destruct H1 as (Hc1 & Hn1 & Hl1).
  destruct (prune_blob_cache _ _ _ s1) as [r1 s2] eqn:E2.
  assert (H2 : r1 = Ok tt ∧ s_children s2 = s_children s ∧ s_connections s2 = s_connections s ∧ s_listening s2 = s_listening s).
  { unfold prune_blob_cache in E2. destruct (_ <? _); [by simplify_eq/=|].
    destruct (prune_run (t_epoch t) (s_blob_cache_days s1) (s_cache s1)) as [fs' Hp]. rewrite Hp in E2. by simplify_eq/=. }
  destruct H2 as (-> & Hc2 & Hn2 & Hl2). rewrite Hc2 in Hr.
  destruct (Child.run (t_waiting t) (s_children s)) as [m1|] eqn:E3; [|done]. cbn in Hr.
  destruct (Child.run (t_start t) m1) as [m2|] eqn:E4; [|done]. cbn in Hr. injection Hr as <- <-. cbn.
  split_and!; [done| | |done].
  - destruct (tidy_run _ _ _ Ht Ho1 E3) as [Ht1 _]. by destruct (tidy_run _ _ _ Ht1 (Ho2 m1 eq_refl) E4).
  - rewrite Hn2. set_solver.
Qed.

(** ** The loop *)

(** [__init__]; the times of the last prunings are the epoch. *)
Definition DiamondServer_init (local : Z → Z) (logdays cache_days : Z) (cgroupdir : bool) (results : list bool)
    (logs : gmap string Z) (cache : FS) : server :=
  Server logdays cache_days logs cache (local 0) (local 0) (ChildManager_init cgroupdir results) ∅ true.

Fixpoint serve (local : Z → Z) (ts : list turn) (s : server) : option (res unit * server) :=
  match ts with
  | [] => Some (Ok tt, s)
  | t :: ts =>
    '(r, s) ← run_turn local t s;
    match r with Ok _ => serve local ts s | Raise e => Some (Raise e, s) end
  end.
Fixpoint orderly_turns (local : Z → Z) (ts : list turn) (s : server) : Prop :=
  match ts with
  | [] => True
  | t :: ts => orderly_turn t s ∧ match run_turn local t s with Some (_, s) => orderly_turns local ts s | None => True end
  end.

(** However many connection pairs it accepts, the supervisor does not fail, keeps
    none of their connections open, and its temporary directories are those of
    the search processes that it still has to reap. *)
Theorem supervisor_serves local logdays days cg results logs cache ts r s :
  let s0 := DiamondServer_init local logdays days cg results logs cache in
  orderly_turns local ts s0 → serve local ts s0 = Some (r, s) →
  r = Ok tt ∧ s_connections s = ∅ ∧ s_listening s = true ∧
  tempdirs (m_os (s_children s)) = list_to_set (sc_tempdir <$> owned (s_children s)).
Proof.
  intros s0. assert (Ht : tidy (s_children s0)) by apply tidy_init.
  assert (Hc : s_connections s0 = ∅) by done. assert (Hl : s_listening s0 = true) by done.
  revert Ht Hc Hl. generalize s0. induction ts as [|t ts IH]; intros s1 Ht Hc Hl; cbn.
  { intros _ [= <- <-]. split_and!; [done..|apply (s_tempdirs _ _ (t_sound _ Ht))]. }
  intros [Ho1 Ho] Hr. destruct (run_turn local t s1) as [[r1 s2]|] eqn:E; [|done]. cbn in Hr.
  destruct (turn_keeps _ _ _ _ _ E Ho1 Ht) as (-> & Ht2 & Hc2 & Hl2).
  apply (IH s2); [done| |congruence|done..]. rewrite Hc2, Hc. set_solver.
Qed.

(** A search that ran longer than the limit and still writes its log keeps it; an
    old one loses it; a file of another name stays. *)
Definition old_start : civil := Civil 2019 5 1 12 30 5 123456.
Definition sample_server : server :=
  DiamondServer_init id 14 30 true [] {["search-2019-05-01-12:30:05-77.log" := micros old_start + DAY;
    "search-2019-05-01-12:30:05-78.log" := micros old_start + 40 * DAY; "diamondd.log" := 0]} (MkFS ∅ 0).

Example sample_pruning :
  log_name old_start 77 = "search-2019-05-01-12:30:05-77.log" ∧
  let now := micros old_start + 41 * DAY in
  let s' := prune_child_logs id (λ _, true) now now now sample_server in
  elements (dom (s_logs s')) = ["search-2019-05-01-12:30:05-78.log"; "diamondd.log"].
Proof. vm_compute. split; reflexivity. Qed.
