(* ===== verification/ProxyFilter.v ===== *)
(** The proxy's filter (src/opendiamond/proxy/filter.py, utils.py): labelled
    examples, the training of an ensemble of classifiers, and its pruning; the
    examples of a zip file. *)
From stdpp Require Import sorting.
From S2P Require Import Prelude PyBytes PyText Dict Float64 FloatText FilterStack.
Local Open Scope Z_scope.

(** ** Items *)
Section ItemList.
Context {F : Type}.

Record Item := MkItem { i_label : Z; i_name : option string; i_feature : F }.

Record ItemList := MkItems { il_names : list string; il_features : list F }.
Definition ItemList_init : ItemList := MkItems [] [].

(** [names.index(name)] *)
Fixpoint index_of (name : string) (names : list string) : option nat :=
match names with
| [] => None
| n :: names => if decide (n = name) then Some O else S <$> index_of name names
end.

Definition item_add (il : ItemList) (item : Item) : res ItemList :=
match i_name item with
| None => Ok (MkItems (il_names il) (il_features il ++ [i_feature item]))
| Some name =>
match index_of name (il_names il) with
| Some i =>
if decide (i < length (il_features il))%nat then Ok (MkItems (il_names il) (<[i := i_feature item]> (il_features il)))
else Raise IndexError
| None => Ok (MkItems (il_names il ++ [name]) (il_features il ++ [i_feature item]))
end
end.

Definition size (il : ItemList) : nat := length (il_features il).
End ItemList.
Arguments Item : clear implicits.
Arguments ItemList : clear implicits.

(** ** Randomness and learning

    [random.sample] picks distinct positions, [random.choice] one; both advance
    the generator. *)
Class Random (R : Type) := {
  sample_indices : nat → nat → R → list nat * R;
  choice_index : nat → R → nat * R
}.
Definition distinct_positions (n k : nat) (l : list nat) : Prop := length l = k ∧ NoDup l ∧ ∀ i, i ∈ l → (i < n)%nat.

(** scikit-learn, NumPy and SciPy: an SVC with regularisation [2^c] is fitted to
    features and labels; predictions; the F1 score; the positions of an array
    sorted by decreasing value; Pearson's correlation. *)
Class Learner (F M : Type) := {
  fit : Z → list F → list Z → res M;
  predict : M → list F → list Z;
  f1_score : list Z → list Z → float;
  argsort_desc : list float → list nat;
  pearsonr : list Z → list Z → float
}.

Section ProxyFilter.
Context {F M R : Type} `{Random R, Learner F M}.
(** [json.loads] of a feature. *)
Context (json_feature : bytes → res F).

Record ProxyFilter := MkProxyFilter {
pf_code : string;
pf_blob : string;
max_models : Z;
majority_frac : float;
threshold : float;
positive_items : ItemList F;
negative_items : ItemList F;
init_negative_items : ItemList F;
full_models : list M;
num_model_per_iter : Z
}.

Definition argument (f : Filter) (i : nat) : res string := of_option IndexError (arguments f !! i).

(** [max(2, int(max_models / 3.))] *)
Definition models_per_iter (n : Z) : res Z :=
x ← float_of_int n; k ← float_to_int (fdiv x (dec "3")); Ok (Z.max 2 k).

Definition ProxyFilter_init (f : Filter) : res ProxyFilter :=
a1 ← argument f 1; n ← py_int_str (str_encode a1);
a2 ← argument f 2; frac ← py_float (str_strip (str_encode a2));
a3 ← argument f 3; thr ← py_float (str_strip (str_encode a3));
k ← models_per_iter n;
Ok (MkProxyFilter (code_source f) (blob_source f) n frac thr ItemList_init ItemList_init ItemList_init [] k).

Definition set_positive (x : ItemList F) (p : ProxyFilter) : ProxyFilter :=
MkProxyFilter (pf_code p) (pf_blob p) (max_models p) (majority_frac p) (threshold p) x (negative_items p) (init_negative_items p) (full_models p) (num_model_per_iter p).
Definition set_negative (x : ItemList F) (p : ProxyFilter) : ProxyFilter :=
MkProxyFilter (pf_code p) (pf_blob p) (max_models p) (majority_frac p) (threshold p) (positive_items p) x (init_negative_items p) (full_models p) (num_model_per_iter p).
Definition set_init_negative (x : ItemList F) (p : ProxyFilter) : ProxyFilter :=
MkProxyFilter (pf_code p) (pf_blob p) (max_models p) (majority_frac p) (threshold p) (positive_items p) (negative_items p) x (full_models p) (num_model_per_iter p).
Definition set_models (x : list M) (p : ProxyFilter) : ProxyFilter :=
MkProxyFilter (pf_code p) (pf_blob p) (max_models p) (majority_frac p) (threshold p) (positive_items p) (negative_items p) (init_negative_items p) x (num_model_per_iter p).

(** ** Adding examples *)
Definition addItem (label : Z) (name : option string) (feature : F) (p : ProxyFilter) : res ProxyFilter :=
let item := MkItem label name feature in
if decide (label = 1) then l ← item_add (positive_items p) item; Ok (set_positive l p)
else
match name with
| None => l ← item_add (init_negative_items p) item; Ok (set_init_negative l p)
| Some _ => l ← item_add (negative_items p) item; Ok (set_negative l p)
end.

(** [XDR_retrain] *)
Record retrain := Retrain { r_names : list string; r_labels : list Z; r_features : list bytes }.

Definition add_labelled (label : Z) (name : string) (feature : F) (p : ProxyFilter) : res ProxyFilter :=
let item := MkItem label (Some name) feature in
if decide (label ≠ 0) then l ← item_add (positive_items p) item; Ok (set_positive l p)
else l ← item_add (negative_items p) item; Ok (set_negative l p).

(** One turn of [addItemList]; items added before a failure stay. *)
Definition addItem_at (items : retrain) (i : nat) : sm ProxyFilter unit :=
label ← lift (of_option IndexError (r_labels items !! i));
name ← lift (of_option IndexError (r_names items !! i));
text ← lift (of_option IndexError (r_features items !! i));
feature ← lift (json_feature text);
p ← get_state;
p ← lift (add_labelled label name feature p);
modify (λ _, p).
Fixpoint for_range (body : nat → sm ProxyFilter unit) (i n : nat) : sm ProxyFilter unit :=
match n with O => mret tt | S n => body i ≫= λ _, for_range body (S i) n end.
Definition addItemList (items : retrain) : sm ProxyFilter unit := for_range (addItem_at items) 0 (length (r_names items)).

(** ** Training *)

(** [sample(num)]; the default is [sys.maxsize]. *)
Definition sample (num : Z) (il : ItemList F) : sm (ProxyFilter * R) (list F) := λ '(p, r),
let num := Z.min num (Z.of_nat (size il)) in
if num <? 0 then (Raise ValueError, (p, r))
else
let '(idx, r) := sample_indices (size il) (Z.to_nat num) r in
(Ok (omap (λ i, il_features il !! i) idx), (p, r)).
Definition sample_all (il : ItemList F) : sm (ProxyFilter * R) (list F) := sample (2 ^ 63 - 1) il.

(** [int(0.7 * n)] *)
Definition seven_tenths (n : Z) : res Z := x ← float_of_int n; float_to_int (fmul (dec "0.7") x).

Definition choose_C : sm (ProxyFilter * R) Z := λ '(p, r),
let '(i, r) := choice_index 15 r in (Ok (Z.of_nat i - 7), (p, r)).

(** One turn of the loop of [trainEnsemble]. *)
Definition train_one (num_sample : Z) : sm (ProxyFilter * R) unit :=
c ← choose_C;
p ← gets fst;
X_neg ← (if decide (size (negative_items p) = O) then mret []
else n ← lift (seven_tenths num_sample); sample n (negative_items p));
let num_left := num_sample - Z.of_nat (length (X_neg : list F)) in
more ← sample num_left (init_negative_items p);
let X_neg := X_neg ++ more in
positives ← sample_all (positive_items p);
model ← lift (fit c (positives ++ X_neg) (replicate (size (positive_items p)) 1 ++ replicate (length X_neg) 0));
modify (λ '(p, r), (set_models (full_models p ++ [model]) p, r)).

Fixpoint repeat_sm (n : nat) (m : sm (ProxyFilter * R) unit) : sm (ProxyFilter * R) unit :=
match n with O => mret tt | S n => m ≫= λ _, repeat_sm n m end.

Definition trainEnsemble : sm (ProxyFilter * R) unit :=
p ← gets fst;
let num_positive := size (positive_items p) in
let num_negative := (size (init_negative_items p) + size (negative_items p))%nat in
repeat_sm (Z.to_nat (num_model_per_iter p)) (train_one (Z.of_nat (min num_positive num_negative))).

(** ** Selecting models *)

(** [np.array(l)[positions]] *)
Definition take_positions {A} (positions : list nat) (l : list A) : res (list A) :=
mapM_res (λ i, of_option IndexError (l !! i)) positions.

Definition sortModels : sm (ProxyFilter * R) (list (list Z)) :=
p ← gets fst;
pos ← sample_all (positive_items p);
neg ← sample_all (negative_items p);
init ← sample_all (init_negative_items p);
let m_test := pos ++ neg ++ init in
let y_label := replicate (size (positive_items p)) 1 ++ replicate (size (negative_items p) + size (init_negative_items p)) 0 in
let predictions := (λ m, predict m m_test) <$> full_models p in
let ordered := argsort_desc (f1_score y_label <$> predictions) in
models ← lift (take_positions ordered (full_models p));
predictions ← lift (take_positions ordered predictions);
modify (λ '(p, r), (set_models (slice_to (max_models p) models) p, r)) ≫= λ _,
mret (slice_to (max_models p) predictions).

(** [corr > 0.8] with one of the selected models; a selected position beyond the
predictions is an [IndexError]. *)
Fixpoint correlated (predictions : list (list Z)) (i : nat) (selected : list nat) : res bool :=
match selected with
| [] => Ok false
| j :: selected =>
x ← of_option IndexError (predictions !! j); y ← of_option IndexError (predictions !! i);
if flt (dec "0.8") (pearsonr x y) then Ok true else correlated predictions i selected
end.

Fixpoint select (predictions : list (list Z)) (i n : nat) (selected : list nat) : res (list nat) :=
match n with
| O => Ok selected
| S n => c ← correlated predictions i selected; select predictions (S i) n (if (c : bool) then selected else selected ++ [i])
end.

Definition getPrunedModels : sm (ProxyFilter * R) (list M) :=
predictions ← sortModels;
selected ← lift (select predictions 3 (length predictions - 3) [0%nat; 1%nat]);
p ← gets fst;
lift (take_positions selected (full_models p)).
End ProxyFilter.
Arguments ProxyFilter : clear implicits.

(** ** load_dataset_from_zipfile

    [zf]: the names and contents of the zip file, in order. *)
Definition label_of (path : string) : string :=
  on_str (λ l, lower (default [] (head (split Byte.x2f l)))) path.

Fixpoint load_paths (zf : list (string * bytes)) (dataset : dict string (list bytes)) (labels : list string) : list string * dict string (list bytes) :=
  match zf with
  | [] => (labels, dataset)
  | (path, data) :: zf =>
    if endswith (str_encode path) [Byte.x2f] then load_paths zf dataset labels
    else
      let label := label_of path in
      load_paths zf (dict_set dataset label (default [] (dict_get dataset label) ++ [data]))
        (if decide (label ∈ labels) then labels else labels ++ [label])
  end.

(** [list.pop(list.index(x))] *)
Definition remove_first (x : string) (l : list string) : list string :=
  match list_find (λ y, y = x) l with Some (i, _) => delete i l | None => l end.

Definition load_dataset_from_zipfile (zf : list (string * bytes)) : res (list string * dict string (list bytes)) :=
  let '(labels, dataset) := load_paths zf [] [] in
  if decide ("negative" ∈ labels) then Ok ("negative" :: remove_first "negative" labels, dataset) else Raise AssertionError.

(** ** Lists of examples *)
Section Items.
Context {F : Type}.
Implicit Types il : ItemList F.

(** A list of named examples, as a dict from names to features. *)
Definition named_items il : dict string F := zip (il_names il) (il_features il).
Definition aligned il : Prop := length (il_names il) = length (il_features il) ∧ NoDup (il_names il).

Lemma index_of_Some name names i : index_of name names = Some i → names !! i = Some name ∧ (i < length names)%nat.
Proof.
revert i. induction names as [|n names IH]; intros i; cbn; [done|]. case_decide as Hn.
- intros [= <-]. subst. cbn. split; [done|lia].
- destruct (index_of name names) as [j|] eqn:E; [|done]. intros [= <-]. destruct (IH j eq_refl). cbn. split; [done|lia].
Qed.

Lemma named_insert names features name i (f : F) : length names = length features → index_of name names = Some i →
zip names (<[i := f]> features) = dict_set (zip names features) name f.
Proof.
revert features i. induction names as [|n names IH]; intros [|x features] i; cbn; try done. intros [= Hl].
case_decide as Hn.
- intros [= <-]. by subst.
- destruct (index_of name names) as [j|] eqn:E; [|done]. intros [= <-]. cbn. by rewrite IH.
Qed.

Lemma named_fresh names features name (f : F) : length names = length features → index_of name names = None →
zip (names ++ [name]) (features ++ [f]) = dict_set (zip names features) name f ∧ name ∉ names.
Proof.
revert features. induction names as [|n names IH]; intros [|x features]; cbn; try done.
- intros _ _. split; [done|]. apply not_elem_of_nil.
- intros [= Hl]. case_decide as Hn; [done|]. destruct (index_of name names) eqn:E; [done|]. intros _.
destruct (IH features Hl eq_refl) as [-> ?]. split; [done|]. by apply not_elem_of_cons.
Qed.

(** A named example replaces the one of its name, or comes last. *)
Lemma item_add_named il label name f : aligned il →
∃ il', item_add il (MkItem label (Some name) f) = Ok il' ∧ aligned il' ∧ named_items il' = dict_set (named_items il) name f.
Proof.
intros [Hl Hnd]. unfold item_add. cbn. destruct (index_of name (il_names il)) as [i|] eqn:E.
- destruct (index_of_Some _ _ _ E) as [_ Hi]. rewrite decide_True by lia. eexists. split; [done|].
split; [split; cbn; [by rewrite length_insert|done]|]. by apply named_insert.
- destruct (named_fresh _ _ _ f Hl E) as [Hz Hn]. eexists. split; [done|]. split; [|done]. split; cbn.
+ rewrite !length_app. cbn. lia.
+ apply NoDup_app. split_and!; [done| |apply NoDup_singleton]. intros x Hx ->%list_elem_of_singleton. done.
Qed.

(** *** Sampling *)
Lemma omap_lookup_seq (l : list F) : omap (λ i, l !! i) (seq 0 (length l)) = l.
Proof.
induction l as [|x l IH]; [done|]. cbn [length seq]. cbn. f_equal. rewrite <-fmap_S_seq. etrans; [|exact IH].
generalize (seq 0 (length l)). intros idx. induction idx as [|i idx IHi]; [done|]. cbn. rewrite IHi. done.
Qed.

Lemma positions_submseteq (l : list F) n k idx : distinct_positions n k idx → n = length l →
omap (λ i, l !! i) idx ⊆+ l ∧ length (omap (λ i, l !! i) idx) = k.
Proof.
intros (Hk & Hnd & Hlt) ->. split.
- assert (idx ⊆+ seq 0 (length l)) as [rest Hr]%submseteq_Permutation.
{ apply NoDup_submseteq; [done|]. intros i Hi. apply elem_of_seq. specialize (Hlt i Hi). lia. }
assert (omap (λ i, l !! i) idx ++ omap (λ i, l !! i) rest ≡ₚ l) as Hl.
{ rewrite <-omap_app, <-Hr. by rewrite omap_lookup_seq. }
etrans; [|apply Permutation_submseteq, Hl]. by apply submseteq_inserts_r.
- subst k. clear Hnd. induction idx as [|i idx IH]; [done|].
assert (is_Some (l !! i)) as [x Hx] by (apply lookup_lt_is_Some, Hlt; by left).
cbn. rewrite Hx. cbn. f_equal. apply IH. intros j Hj. apply Hlt. by right.
Qed.
End Items.

Section Examples.
Context {F M : Type}.
Abbreviation ProxyFilter := (ProxyFilter F M).

(** An example of the zip file, or one that the user labelled. *)
Inductive addition := Initial (label : Z) (name : option string) (feature : F) | Labelled (label : Z) (name : string) (feature : F).

Definition add_one (a : addition) (p : ProxyFilter) : res ProxyFilter :=
match a with
| Initial label name feature => addItem label name feature p
| Labelled label name feature => add_labelled label name feature p
end.
Fixpoint add_all (l : list addition) (p : ProxyFilter) : res ProxyFilter :=
match l with [] => Ok p | a :: l => p ← add_one a p; add_all l p end.

(** Where an addition goes. *)
Definition positive_of (a : addition) : option (string * F) :=
match a with
| Initial label (Some name) f => if decide (label = 1) then Some (name, f) else None
| Initial _ None _ => None
| Labelled label name f => if decide (label ≠ 0) then Some (name, f) else None
end.
Definition negative_of (a : addition) : option (string * F) :=
match a with
| Initial label (Some name) f => if decide (label = 1) then None else Some (name, f)
| Initial _ None _ => None
| Labelled label name f => if decide (label ≠ 0) then None else Some (name, f)
end.
Definition unnamed_of (a : addition) : option F :=
match a with Initial label None f => if decide (label = 1) then None else Some f | _ => None end.

(** The positive examples of the zip file have names. *)
Definition named_positive (a : addition) : Prop :=
match a with Initial label None _ => label ≠ 1 | _ => True end.

Lemma dict_of_snoc {V} (l : list (string * V)) k v : dict_of (l ++ [(k, v)]) = dict_set (dict_of l) k v.
Proof. unfold dict_of, dict_update. by rewrite foldl_app. Qed.

(** The books of the examples after some additions. *)
Record holds (l : list addition) (p : ProxyFilter) : Prop := {
h_positive : aligned (positive_items p) ∧ named_items (positive_items p) = dict_of (omap positive_of l);
h_negative : aligned (negative_items p) ∧ named_items (negative_items p) = dict_of (omap negative_of l);
h_init : il_names (init_negative_items p) = [] ∧ il_features (init_negative_items p) = omap unnamed_of l
}.

Ltac additions :=
split; cbn [set_positive set_negative set_init_negative positive_items negative_items init_negative_items il_names il_features];
rewrite !omap_app; cbn [omap list_omap positive_of negative_of unnamed_of];
repeat (case_decide; try done); cbv iota; rewrite ?app_nil_r; try done.

Lemma add_one_holds l a p : holds l p → named_positive a → ∃ p', add_one a p = Ok p' ∧ holds (l ++ [a]) p'.
Proof.
intros [[Hpa Hpn] [Hna Hnn] [Hin Hif]] Ha.
destruct a as [label [name|] f|label name f]; cbn; unfold addItem, add_labelled.
- destruct (decide (label = 1)) as [Hl|Hl].
+ destruct (item_add_named (positive_items p) label name f Hpa) as (il & -> & ? & Hd). eexists. split; [done|].
additions. split; [done|]. by rewrite dict_of_snoc, Hd, Hpn.
+ destruct (item_add_named (negative_items p) label name f Hna) as (il & -> & ? & Hd). eexists. split; [done|].
additions.
split; [done|]. by rewrite dict_of_snoc, Hd, Hnn.
- cbn in Ha. rewrite decide_False by done. eexists. split; [done|].
additions.
split; [done|]. by rewrite Hif.
- destruct (decide (label ≠ 0)) as [Hl|Hl].
+ destruct (item_add_named (positive_items p) label name f Hpa) as (il & -> & ? & Hd). eexists. split; [done|].
additions.
split; [done|]. by rewrite dict_of_snoc, Hd, Hpn.
+ destruct (item_add_named (negative_items p) label name f Hna) as (il & -> & ? & Hd). eexists. split; [done|].
additions.
split; [done|]. by rewrite dict_of_snoc, Hd, Hnn.
Qed.

(** The examples that the proxy learns from.  Start from a fresh proxy filter and
add the examples of the zip file and those that users label, in any order and
number.  Then nothing fails, and the positive examples are the dict of the
positively labelled names with the feature that each was last given, the
negative ones likewise, each name once; and the unnamed negatives are those of
the zip file, in order. *)
Theorem proxy_examples f (l : list addition) (p0 : ProxyFilter) :
ProxyFilter_init f = Ok p0 → Forall named_positive l →
∃ p, add_all l p0 = Ok p ∧
NoDup (il_names (positive_items p)) ∧ named_items (positive_items p) = dict_of (omap positive_of l) ∧
length (il_features (positive_items p)) = length (dict_of (omap positive_of l)) ∧
NoDup (il_names (negative_items p)) ∧ named_items (negative_items p) = dict_of (omap negative_of l) ∧
length (il_features (negative_items p)) = length (dict_of (omap negative_of l)) ∧
il_features (init_negative_items p) = omap unnamed_of l.
Proof.
intros Hinit Hl. assert (H0 : holds [] p0).
{ unfold ProxyFilter_init in Hinit. inv_ok. by split; cbn; [split; [split; [|apply NoDup_nil_2]|]..|]. }
assert (G : ∀ before p1, holds before p1 → ∃ p, add_all l p1 = Ok p ∧ holds (before ++ l) p).
{ clear H0. induction Hl as [|a l Ha Hl IH]; intros before p1 Hp1; cbn; [exists p1; by rewrite app_nil_r|].
destruct (add_one_holds before a p1 Hp1 Ha) as (p2 & -> & Hp2). cbn.
destruct (IH _ _ Hp2) as (p & E & Hp). exists p. by rewrite <-app_assoc in Hp. }
destruct (G [] p0 H0) as (p & E & [[[Hpl Hpd] Hpn] [[Hnl Hnd] Hnn] [_ Hi]]). exists p. cbn in *.
assert (Hz : ∀ il : ItemList F, length (il_names il) = length (il_features il) → length (il_features il) = length (named_items il)).
{ intros il Hlen. unfold named_items. rewrite length_zip_with. lia. }
split_and!; try done; (rewrite Hz by done; by f_equal).
Qed.
End Examples.

(** ** Training and selection *)
Section Learning.
Context {F M R : Type} `{Random R, Learner F M}.
(** [random.sample] and [random.choice]; NumPy's [argsort] is a permutation of the
positions. *)
Context (Hsample : ∀ n k r, (k ≤ n)%nat → distinct_positions n k (sample_indices n k r).1).
Context (Hchoice : ∀ n r, (0 < n)%nat → ((choice_index n r).1 < n)%nat).
Context (Hargsort : ∀ l, argsort_desc (F := F) (M := M) l ≡ₚ seq 0 (length l)).
Abbreviation ProxyFilter := (ProxyFilter F M).

Lemma sample_spec n (il : ItemList F) (p : ProxyFilter) r :
match sample n il (p, r) with
| (Ok l, s) => ∃ r', s = (p, r') ∧ 0 <= n ∧ l ⊆+ il_features il ∧ Z.of_nat (length l) = Z.min n (Z.of_nat (size il))
| (Raise _, s) => s = (p, r) ∧ n < 0
end.
Proof using Hsample.
unfold sample. destruct (Z.ltb_spec (Z.min n (Z.of_nat (size il))) 0); [split; [done|lia]|].
pose proof (Hsample (size il) (Z.to_nat (Z.min n (Z.of_nat (size il)))) r ltac:(lia)) as Hs.
destruct (sample_indices _ _ r) as [idx r']. cbn in Hs.
destruct (positions_submseteq (il_features il) _ _ _ Hs eq_refl) as [Hsub Hlen]. exists r'. split_and!; [done|lia|done|]. rewrite Hlen. lia.
Qed.

(** Fewer examples than addresses: everything is taken, in some order. *)
Lemma sample_all_spec (il : ItemList F) (p : ProxyFilter) r : Z.of_nat (size il) < 2 ^ 63 → ∃ l r',
sample_all il (p, r) = (Ok l, (p, r')) ∧ l ≡ₚ il_features il ∧ length l = size il.
Proof using Hsample.
intros Hsize. unfold sample_all. pose proof (sample_spec (2 ^ 63 - 1) il p r) as Hs.
destruct (sample (2 ^ 63 - 1) il (p, r)) as [[l|e] s]; [|lia]. destruct Hs as (r' & -> & _ & Hsub & Hlen).
assert (length l = size il) as Hl by lia.
exists l, r'. split; [done|]. split; [|done]. apply submseteq_length_Permutation; [done|]. unfold size in Hl. lia.
Qed.

(** A model of the ensemble: fitted to all positive examples, labelled 1, and to a
balanced choice of negative ones, labelled 0. *)
Definition trained (p : ProxyFilter) (m : M) : Prop := ∃ c pos neg,
fit c (pos ++ neg) (replicate (length pos) 1 ++ replicate (length neg) 0) = Ok m ∧ -7 <= c <= 7 ∧
pos ≡ₚ il_features (positive_items p) ∧ neg ⊆+ il_features (negative_items p) ++ il_features (init_negative_items p) ∧
(length neg ≤ length pos)%nat.

Lemma same_examples_trained p ms m : trained (set_models ms p) m → trained p m.
Proof. done. Qed.

Lemma train_one_spec num_sample (p : ProxyFilter) r :
num_sample <= Z.of_nat (size (positive_items p)) < 2 ^ 63 →
∃ res s', train_one num_sample (p, r) = (res, s') ∧
match res with
| Ok _ => ∃ m r', s' = (set_models (full_models p ++ [m]) p, r') ∧ trained p m
| Raise e => ∃ r', s' = (p, r')
end.
Proof using Hsample Hchoice.
intros Hn. unfold train_one, choose_C.
pose proof (Hchoice 15 r ltac:(lia)) as Hc. destruct (choice_index 15 r) as [ci r1] eqn:Ec. cbn in Hc.
erewrite sm_bind_eq by (rewrite Ec; done). cbv beta. erewrite sm_bind_eq by done. cbv beta. cbn [fst].
set (first := if decide (size (negative_items p) = O) then mret [] else _).
assert (Hneg : match first (p, r1) with (Ok X, s1) => ∃ r', s1 = (p, r') ∧ X ⊆+ il_features (negative_items p) | (Raise _, s1) => s1 = (p, r1) end).
{ unfold first. case_decide; [exists r1; split; [done|apply submseteq_nil_l]|].
destruct (seven_tenths num_sample) as [n|e] eqn:E7; [|by erewrite sm_bind_raise by done].
erewrite sm_bind_eq by done. cbv beta. pose proof (sample_spec n (negative_items p) p r1) as Hs.
destruct (sample n (negative_items p) (p, r1)) as [[l|e] s]; [|tauto]. destruct Hs as (r' & -> & _ & Hs & _). eauto. }
destruct (first (p, r1)) as [[X|e] s1] eqn:E1; clearbody first.
2: { erewrite sm_bind_raise by exact E1. subst s1. eexists _, _. split; [done|]. by exists r1. }
destruct Hneg as (r2 & -> & HX). erewrite sm_bind_eq by exact E1. cbv beta zeta.
pose proof (sample_spec (num_sample - Z.of_nat (length X)) (init_negative_items p) p r2) as Hs.
destruct (sample (num_sample - Z.of_nat (length X)) (init_negative_items p) (p, r2)) as [[more|e] s2] eqn:E2.
2: { erewrite sm_bind_raise by exact E2. destruct Hs as [-> _]. eexists _, _. split; [done|]. by exists r2. }
destruct Hs as (r3 & -> & Hleft & Hm & Hml). erewrite sm_bind_eq by exact E2. cbv beta zeta.
destruct (sample_all_spec (positive_items p) p r3 ltac:(lia)) as (pos & r4 & E3 & Hpos & Hposl).
erewrite sm_bind_eq by exact E3. cbv beta. rewrite <-Hposl in Hn |- *.
destruct (fit _ _ _) as [m|e] eqn:Ef.
- erewrite sm_bind_eq by done. cbv beta. eexists _, _. split; [done|]. exists m, r4. split; [done|].
exists (Z.of_nat ci - 7), pos, (X ++ more). split_and!; [exact Ef|lia|lia|done| |].
+ by apply submseteq_app.
+ rewrite length_app. lia.
- erewrite sm_bind_raise by done. eexists _, _. split; [done|]. by exists r4.
Qed.

Lemma repeat_train_spec n num_sample : ∀ (p : ProxyFilter) r,
num_sample <= Z.of_nat (size (positive_items p)) < 2 ^ 63 →
∃ res p' r' new, repeat_sm n (train_one num_sample) (p, r) = (res, (p', r')) ∧
p' = set_models (full_models p ++ new) p ∧ Forall (trained p) new ∧ (length new ≤ n)%nat ∧ (is_ok res = true → length new = n).
Proof using Hsample Hchoice.
induction n as [|n IH]; intros p r Hn; cbn [repeat_sm].
{ exists (Ok tt), p, r, []. split_and!; try done. rewrite app_nil_r. by destruct p. }
destruct (train_one_spec num_sample p r Hn) as (res & s' & E & Hres). destruct res as [u|e].
- destruct Hres as (m & r' & -> & Hm). erewrite sm_bind_eq by exact E. cbv beta.
destruct (IH (set_models (full_models p ++ [m]) p) r' Hn) as (res & p' & r'' & new & E2 & -> & Hnew & Hl & Hok).
exists res, (set_models (full_models p ++ m :: new) p), r'', (m :: new). split_and!.
+ rewrite E2. f_equal. cbn. by rewrite <-app_assoc.
+ done.
+ constructor; [done|]. exact Hnew.
+ cbn. lia.
+ intros H1. cbn. by rewrite Hok.
- destruct Hres as [r' ->]. erewrite sm_bind_raise by exact E. exists (Raise e), p, r', [].
split_and!; try done; [|cbn; lia]. rewrite app_nil_r. by destruct p.
Qed.

(** Training.  Every model that [trainEnsemble] adds was fitted to as many labels
as examples: all the positive examples in some order, labelled 1, and then a
choice, without repetition and not larger, from the negative ones, labelled 0.
It keeps the models that were there, and adds [num_model_per_iter] models unless
the learning fails. *)
Theorem ensemble_trained (p : ProxyFilter) r : Z.of_nat (size (positive_items p)) < 2 ^ 63 →
∃ res p' r' new, trainEnsemble (p, r) = (res, (p', r')) ∧
full_models p' = full_models p ++ new ∧ Forall (trained p) new ∧
(is_ok res = true → length new = Z.to_nat (num_model_per_iter p)) ∧
positive_items p' = positive_items p ∧ negative_items p' = negative_items p ∧ init_negative_items p' = init_negative_items p.
Proof using Hsample Hchoice.
intros Hsz. unfold trainEnsemble. erewrite sm_bind_eq by done. cbv beta zeta. cbn [fst].
destruct (repeat_train_spec (Z.to_nat (num_model_per_iter p))
(Z.of_nat (min (size (positive_items p)) (size (init_negative_items p) + size (negative_items p)))) p r ltac:(lia))
as (res & p' & r' & new & E & -> & Hnew & _ & Hok).
exists res, (set_models (full_models p ++ new) p), r', new. split_and!; done.
Qed.

(** *** Positions *)
Lemma take_positions_omap {A} idx (l : list A) : (∀ i, i ∈ idx → (i < length l)%nat) → take_positions idx l = Ok (omap (λ i, l !! i) idx).
Proof.
unfold take_positions. induction idx as [|i idx IH]; intros Hlt; cbn; [done|].
destruct (lookup_lt_is_Some_2 l i) as [x Hx]; [apply Hlt; by left|]. rewrite Hx. cbn.
rewrite IH by (intros j Hj; apply Hlt; by right). done.
Qed.

Lemma take_positions_fmap {A B} (g : A → B) idx (l : list A) : take_positions idx (g <$> l) = match take_positions idx l with Ok l' => Ok (g <$> l') | Raise e => Raise e end.
Proof.
unfold take_positions. induction idx as [|i idx IH]; cbn; [done|]. rewrite IH, list_lookup_fmap.
destruct (l !! i) as [x|]; cbn; [|done]. by destruct (mapM_res (λ i0, of_option IndexError (l !! i0)) idx).
Qed.

Lemma take_positions_perm {A} idx (l : list A) : idx ≡ₚ seq 0 (length l) → ∃ l', take_positions idx l = Ok l' ∧ l' ≡ₚ l.
Proof.
intros Hp. exists (omap (λ i, l !! i) idx). split.
- apply take_positions_omap. intros i Hi. rewrite Hp in Hi. apply elem_of_seq in Hi. lia.
- by rewrite Hp, omap_lookup_seq.
Qed.


Lemma sortModels_spec (p : ProxyFilter) r :
Z.of_nat (size (positive_items p)) < 2 ^ 63 → Z.of_nat (size (negative_items p)) < 2 ^ 63 → Z.of_nat (size (init_negative_items p)) < 2 ^ 63 →
∃ r' ms test, sortModels (p, r) =
(Ok ((λ m, predict m test) <$> slice_to (max_models p) ms), (set_models (slice_to (max_models p) ms) p, r')) ∧
ms ≡ₚ full_models p ∧
test ≡ₚ il_features (positive_items p) ++ il_features (negative_items p) ++ il_features (init_negative_items p).
Proof using Hsample Hargsort.
intros H1 H2 H3. unfold sortModels. erewrite sm_bind_eq by done. cbv beta zeta. cbn [fst].
destruct (sample_all_spec (positive_items p) p r H1) as (pos & r1 & E1 & P1 & _). erewrite sm_bind_eq by exact E1. cbv beta.
destruct (sample_all_spec (negative_items p) p r1 H2) as (neg & r2 & E2 & P2 & _). erewrite sm_bind_eq by exact E2. cbv beta.
destruct (sample_all_spec (init_negative_items p) p r2 H3) as (ini & r3 & E3 & P3 & _). erewrite sm_bind_eq by exact E3. cbv beta zeta.
set (test := pos ++ neg ++ ini). set (preds := (λ m, predict m test) <$> full_models p).
set (idx := argsort_desc _).
assert (Hidx : idx ≡ₚ seq 0 (length (full_models p))).
{ unfold idx. rewrite (Hargsort _). unfold preds. by rewrite !length_fmap. }
destruct (take_positions_perm idx (full_models p) Hidx) as (ms & Ems & Pms).
erewrite sm_bind_eq by (by rewrite Ems). cbv beta.
erewrite sm_bind_eq by (unfold preds; rewrite take_positions_fmap, Ems; done). cbv beta.
erewrite sm_bind_eq by done. cbv beta.
exists r3, ms, test. split_and!; [by rewrite slice_to_fmap|done|]. unfold test. by rewrite P1, P2, P3.
Qed.

(** Two predictions that are not too alike. *)
Definition dissimilar (x y : list Z) : Prop := flt (dec "0.8") (pearsonr (F := F) (M := M) x y) = false.

Lemma correlated_spec preds i selected y : preds !! i = Some y → (∀ j, j ∈ selected → (j < length preds)%nat) →
∃ c, correlated (F := F) (M := M) preds i selected = Ok c ∧ (c = false → ∀ j x, j ∈ selected → preds !! j = Some x → dissimilar x y).
Proof.
intros Hy. induction selected as [|j selected IH]; intros Hlt; cbn.
{ exists false. split; [done|]. intros _ j x Hj. by apply not_elem_of_nil in Hj. }
destruct (lookup_lt_is_Some_2 preds j) as [x Hx]; [apply Hlt; by left|]. rewrite Hx, Hy. cbn.
destruct (flt _ _) eqn:Ef; [by exists true|].
destruct IH as (c & -> & Hc); [intros k Hk; apply Hlt; by right|]. exists c. split; [done|].
intros -> k x' [->|Hk]%elem_of_cons Hx'; [|by apply (Hc eq_refl k)]. rewrite Hx in Hx'. by injection Hx' as <-.
Qed.

(** The selected positions: the first two, then later ones that are not too alike
any selected before. *)
Lemma select_spec preds n : ∀ i others, (i + n = length preds)%nat → (2 ≤ i)%nat → (∀ j, j ∈ others → (j < i)%nat) →
∃ more, select (F := F) (M := M) preds i n (0%nat :: 1%nat :: others) = Ok (0%nat :: 1%nat :: others ++ more) ∧
more `sublist_of` seq i n ∧
∀ k before after y, more = before ++ k :: after → preds !! k = Some y →
∀ j x, j ∈ 0%nat :: 1%nat :: others ++ before → preds !! j = Some x → dissimilar x y.
Proof.
induction n as [|n IH]; intros i others Hn Hi Hlt; cbn [select].
{ exists []. rewrite app_nil_r. split_and!; [done|apply sublist_nil_l|]. intros k before after y Hb. by destruct before. }
destruct (lookup_lt_is_Some_2 preds i) as [y Hy]; [lia|].
destruct (correlated_spec preds i (0%nat :: 1%nat :: others) y Hy) as (c & -> & Hc).
{ intros j [->|[->|Hj]%elem_of_cons]%elem_of_cons; [lia..|]. specialize (Hlt j Hj). lia. }
cbn [mbind res_bind seq]. destruct c.
- destruct (IH (S i) others) as (more & -> & Hsub & Hdis); [lia|lia|intros j Hj; specialize (Hlt j Hj); lia|].
exists more. split_and!; [done|by apply sublist_cons|done].
- destruct (IH (S i) (others ++ [i])) as (more & E & Hsub & Hdis); [lia|lia| |].
{ intros j [Hj|Hj]%elem_of_app; [specialize (Hlt j Hj); lia|apply list_elem_of_singleton in Hj; lia]. }
exists (i :: more). cbn [app] in *. rewrite <-app_assoc in E. split_and!; [exact E|by apply sublist_skip|].
intros k before after y' Hb Hy' j x Hj Hx. destruct before as [|b before]; injection Hb as -> Hb.
+ rewrite Hy in Hy'. injection Hy' as <-. rewrite app_nil_r in Hj. by apply (Hc eq_refl j).
+ apply (Hdis k before after y' Hb Hy' j x); [|done]. by rewrite <-app_assoc.
Qed.

Lemma omap_lookup_drop {A} k (l : list A) : omap (λ i, l !! i) (seq k (length l - k)) = drop k l.
Proof.
revert k. induction l as [|x l IH]; intros k; [by destruct k|]. destruct k as [|k].
- rewrite drop_0, Nat.sub_0_r. apply omap_lookup_seq.
- cbn [length drop]. rewrite Nat.sub_succ, <-fmap_S_seq, <-(IH k). generalize (seq k (length l - k)).
intros idx. induction idx as [|i idx IHi]; [done|]. cbn. by rewrite IHi.
Qed.

Lemma omap_sublist {A B} (g : A → option B) (l k : list A) : l `sublist_of` k → omap g l `sublist_of` omap g k.
Proof.
induction 1 as [|x l k _ IH|x l k _ IH]; cbn; [done|..]; destruct (g x); try done.
- by apply sublist_skip.
- by apply sublist_cons.
Qed.

Lemma omap_lookup_split {A} (l : list A) idx before x after : (∀ i, i ∈ idx → (3 ≤ i < length l)%nat) →
omap (λ i, l !! i) idx = before ++ x :: after →
∃ b k a, idx = b ++ k :: a ∧ omap (λ i, l !! i) b = before ∧ l !! k = Some x.
Proof.
revert before. induction idx as [|i idx IH]; intros before Hin Ho; [by destruct before|].
destruct (lookup_lt_is_Some_2 l i) as [y Hy]; [apply Hin; by left|]. cbn in Ho. rewrite Hy in Ho.
destruct before as [|x' before]; injection Ho as -> Ho.
- exists [], i, idx. by split_and!.
- destruct (IH before ltac:(intros j Hj; apply Hin; by right) Ho) as (b & k & a & -> & <- & Ek).
exists (i :: b), k, a. split_and!; [done|cbn; by rewrite Hy|done].
Qed.

(** The selection among the models from the fourth one on. *)
Lemma select_rest (preds : list (list Z)) : ∃ more, select (F := F) (M := M) preds 3 (length preds - 3) [0%nat; 1%nat] = Ok (0%nat :: 1%nat :: more) ∧
more `sublist_of` seq 3 (length preds - 3) ∧ ∀ k before after y, more = before ++ k :: after → preds !! k = Some y →
∀ j x, j ∈ 0%nat :: 1%nat :: before → preds !! j = Some x → dissimilar x y.
Proof.
destruct (decide (length preds < 3)%nat) as [Hlt|Hge].
- replace (length preds - 3)%nat with 0%nat by lia. exists []. split_and!; [done|apply sublist_nil_l|].
intros k before after y Hb. by destruct before.
- destruct (select_spec preds (length preds - 3) 3 []) as (more & Hs); [lia..|intros j Hj; by apply not_elem_of_nil in Hj|].
cbn [app] in Hs. by exists more.
Qed.

(** Pruning.  With the examples' order drawn at random, the models are put in an
order and cut to the [max_models] best ones.  If one of two does not exist,
pruning ends with [IndexError].  Otherwise it returns the two best models and
some of those from the fourth one on, in their order, each with predictions
whose correlation with those of every model before it is not above 0.8.  The
third best model is never considered. *)
Theorem models_pruned (p : ProxyFilter) r :
Z.of_nat (size (positive_items p)) < 2 ^ 63 → Z.of_nat (size (negative_items p)) < 2 ^ 63 → Z.of_nat (size (init_negative_items p)) < 2 ^ 63 →
∃ res r' ms test, getPrunedModels (p, r) = (res, (set_models (slice_to (max_models p) ms) p, r')) ∧ ms ≡ₚ full_models p ∧
test ≡ₚ il_features (positive_items p) ++ il_features (negative_items p) ++ il_features (init_negative_items p) ∧
let best := slice_to (max_models p) ms in
match res with
| Ok l => ∃ m0 m1 rest others, best = m0 :: m1 :: rest ∧ l = m0 :: m1 :: others ∧ others `sublist_of` drop 1 rest ∧
∀ before m after m', others = before ++ m :: after → m' ∈ m0 :: m1 :: before → dissimilar (predict m' test) (predict m test)
| Raise e => e = IndexError ∧ (length best < 2)%nat
end.
Proof using Hsample Hargsort.
intros H1 H2 H3. destruct (sortModels_spec p r H1 H2 H3) as (r' & ms & test & E & Pms & Ptest).
set (best := slice_to (max_models p) ms) in *. set (preds := (λ m, predict m test) <$> best) in *.
assert (Hg : ∃ res, getPrunedModels (p, r) = (res, (set_models best p, r')) ∧
res = (selected ← select (F := F) (M := M) preds 3 (length preds - 3) [0%nat; 1%nat]; take_positions selected best)).
{ unfold getPrunedModels. erewrite sm_bind_eq by exact E. cbv beta. fold preds.
destruct (select preds 3 (length preds - 3) [0%nat; 1%nat]) as [sel|e]; [|eexists; split; [by erewrite sm_bind_raise by done|done]].
erewrite sm_bind_eq by done. cbv beta. erewrite sm_bind_eq by done. cbv beta. eexists. split; [done|done]. }
destruct Hg as (res & Eg & Hres). exists res, r', ms, test. split_and!; [exact Eg|done..|]. cbv zeta. fold best.
assert (Hlen : length preds = length best) by (unfold preds; apply length_fmap).
assert (Hp : ∀ i m, best !! i = Some m → preds !! i = Some (predict m test)).
{ intros i m Hi. unfold preds. by rewrite list_lookup_fmap, Hi. }
destruct best as [|m0 [|m1 rest]] eqn:Eb.
- cbn in Hres. subst res. split; [done|cbn; lia].
- cbn in Hres. subst res. split; [done|cbn; lia].
- rewrite <-Eb in *. destruct (select_rest preds) as (more & Es & Hsub & Hdis). rewrite Es in Hres. cbn [mbind res_bind] in Hres.
assert (Hin : ∀ i, i ∈ more → (3 ≤ i < length best)%nat).
{ intros i Hi. assert (Hi' : i ∈ seq 3 (length preds - 3)) by (eapply elem_of_submseteq; [exact Hi|by apply sublist_submseteq]).
apply elem_of_seq in Hi'. rewrite Hlen in Hi'. lia. }
rewrite take_positions_omap in Hres.
2: { rewrite Eb. cbn. intros i [->|[->|Hi]%elem_of_cons]%elem_of_cons; [lia..|]. specialize (Hin i Hi). rewrite Eb in Hin. cbn in Hin. lia. }
subst res. exists m0, m1, rest, (omap (λ i, best !! i) more). split_and!; [done|by rewrite Eb| |].
+ assert (drop 1 rest = omap (λ i, best !! i) (seq 3 (length preds - 3))) as ->.
{ rewrite Hlen, omap_lookup_drop, Eb. done. }
by apply omap_sublist.
+ intros before m after m' Ho Hm'.
destruct (omap_lookup_split best more before m after) as (b & k & a & Em & Eb' & Ek); [apply Hin|done|].
assert (∃ j, j ∈ 0%nat :: 1%nat :: b ∧ best !! j = Some m') as (j & Hj & Ej).
{ apply elem_of_cons in Hm' as [->|[->|Hm']%elem_of_cons].
- exists 0%nat. split; [by left|by rewrite Eb].
- exists 1%nat. split; [by right; left|by rewrite Eb].
- rewrite <-Eb' in Hm'. apply list_elem_of_omap in Hm' as (j & Hj & Ej). exists j. split; [by do 2 right|done]. }
apply (Hdis k b a (predict m test) Em (Hp _ _ Ek) j); [exact Hj|]. by apply Hp.
Qed.
End Learning.

(** ** The examples of the zip file *)
Section Zip.
Implicit Types zf : list (string * bytes).

Definition is_file (entry : string * bytes) : bool := negb (endswith (str_encode entry.1) [Byte.x2f]).
Definition labelled (label : string) (entry : string * bytes) : bool := is_file entry && bool_decide (label_of entry.1 = label).
Definition contents_of (label : string) zf : list bytes := (filter (labelled label) zf).*2.
Definition has_label (label : string) zf : Prop := ∃ entry, entry ∈ zf ∧ labelled label entry = true.

(** What [load_paths] accumulates, one entry at a time. *)
Lemma load_paths_spec zf : ∀ dataset labels labels' dataset', NoDup labels → load_paths zf dataset labels = (labels', dataset') →
NoDup labels' ∧ (∀ l, l ∈ labels' ↔ l ∈ labels ∨ has_label l zf) ∧
∀ l, default [] (dict_get dataset' l) = default [] (dict_get dataset l) ++ contents_of l zf.
Proof.
induction zf as [|[path data] zf IH]; intros dataset labels labels' dataset' Hnd; cbn [load_paths].
{ intros [= <- <-]. split_and!; [done| |].
- intros l. split; [by left|]. intros [Hl|(? & Hx & _)]; [done|]. by apply not_elem_of_nil in Hx.
- intros l. by rewrite app_nil_r. }
assert (Hcons : ∀ l, has_label l ((path, data) :: zf) ↔ labelled l (path, data) = true ∨ has_label l zf).
{ intros l. unfold has_label. setoid_rewrite elem_of_cons. naive_solver. }
assert (Hlab : ∀ l, labelled l (path, data) = negb (endswith (str_encode path) [Byte.x2f]) && bool_decide (label_of path = l)) by done.
assert (Hcont : ∀ l, contents_of l ((path, data) :: zf) = (if labelled l (path, data) then [data] else []) ++ contents_of l zf).
{ intros l. unfold contents_of. rewrite filter_cons. by destruct (labelled l (path, data)). }
setoid_rewrite Hcont. setoid_rewrite Hlab. setoid_rewrite Hlab in Hcons. clear Hcont Hlab.
destruct (endswith (str_encode path) [Byte.x2f]); cbn [negb andb] in *; intros E.
- destruct (IH _ _ _ _ Hnd E) as (Hnd' & Hl' & Hd). split_and!; [done| |done].
intros l. rewrite Hl', Hcons. naive_solver.
- assert (Hnd2 : NoDup (if decide (label_of path ∈ labels) then labels else labels ++ [label_of path])).
{ case_decide as Hin; [done|]. apply NoDup_app. split_and!; [done| |apply NoDup_singleton].
by intros x Hx ->%list_elem_of_singleton. }
destruct (IH _ _ _ _ Hnd2 E) as (Hnd' & Hl' & Hd). split_and!; [done|..].
+ intros l. rewrite Hl', Hcons, bool_decide_eq_true. case_decide; [naive_solver|].
rewrite elem_of_app, list_elem_of_singleton. naive_solver.
+ intros l. rewrite Hd, dict_get_set. case_bool_decide as Hpl.
* subst l. rewrite decide_True by done. cbn [from_option id]. rewrite <-app_assoc. reflexivity.
* by rewrite decide_False by congruence.
Qed.

(** The zip file's examples.  Loading fails exactly when no file of the zip file
is in a "negative" directory.  Otherwise "negative" is the first label; the
labels are the lower-cased first parts of the files' paths, each once; and
the dataset has under every label the contents of its files, in the order of
the zip file. *)
Theorem zip_examples zf :
match load_dataset_from_zipfile zf with
| Ok (labels, dataset) => head labels = Some "negative" ∧ NoDup labels ∧ (∀ l, l ∈ labels ↔ has_label l zf) ∧
∀ l, default [] (dict_get dataset l) = contents_of l zf
| Raise e => e = AssertionError ∧ ¬ has_label "negative" zf
end.
Proof.
unfold load_dataset_from_zipfile. destruct (load_paths zf [] []) as [labels dataset] eqn:E.
destruct (load_paths_spec zf [] [] labels dataset (NoDup_nil_2) E) as (Hnd & Hl & Hd).
assert (Hl' : ∀ l, l ∈ labels ↔ has_label l zf) by (intros l; rewrite Hl; split; [intros [?%not_elem_of_nil|]; done|by right]).
case_decide as Hn; [|by rewrite <-Hl'].
assert (Hp : "negative" :: remove_first "negative" labels ≡ₚ labels).
{ unfold remove_first. destruct (list_find_elem_of (λ y, y = "negative") labels "negative" Hn eq_refl) as [[i y] Hf].
rewrite Hf. apply list_find_Some in Hf as (Hi & -> & _). symmetry. by apply delete_Permutation. }
split_and!; [done|by rewrite Hp|by setoid_rewrite Hp|done].
Qed.

Example sample_zip :
load_dataset_from_zipfile [("Dog/", []); ("Dog/a.jpg", [Byte.x01]); ("negative/b.jpg", [Byte.x02]); ("dog/c.jpg", [Byte.x03])] =
Ok (["negative"; "dog"], [("dog", [[Byte.x01]; [Byte.x03]]); ("negative", [[Byte.x02]])]).
Proof. vm_compute. reflexivity. Qed.
End Zip.

(** ** Examples *)
Section Samples.
#[local] Instance sample_random : Random nat := {|
sample_indices n k r := (reverse (seq (n - k) k), S r);
choice_index n r := ((r mod n)%nat, S r)
|}.

Definition not_below (l : list float) (i j : nat) : Prop := flt (default fzero (l !! i)) (default fzero (l !! j)) = false.
#[local] Instance not_below_dec l i j : Decision (not_below l i j).
Proof. unfold not_below. apply _. Defined.

(** A classifier that answers 1 above a bound; the bound is the regularisation,
and the F1 score is 1 for a perfect answer. *)
#[local] Instance sample_learner : Learner Z Z := {|
fit c features labels := if decide (length features = length labels) then Ok c else Raise ValueError;
predict m features := (λ f, if m <? f then 1 else 0) <$> features;
f1_score x y := if decide (x = y) then dec "1" else fzero;
argsort_desc l := merge_sort (not_below l) (seq 0 (length l));
pearsonr x y := if decide (x = y) then dec "1" else fzero
|}.

Lemma sample_distinct (n k : nat) (r : nat) : (k ≤ n)%nat → distinct_positions n k (sample_indices n k r).1.
Proof.
intros Hk. cbn. split_and!; [by rewrite length_reverse, length_seq|by rewrite reverse_Permutation; apply NoDup_seq|].
intros i Hi. apply elem_of_reverse, elem_of_seq in Hi. lia.
Qed.

Lemma sample_choice (n : nat) (r : nat) : (0 < n)%nat → ((choice_index n r).1 < n)%nat.
Proof. intros Hn. cbn. apply Nat.mod_upper_bound. lia. Qed.

Lemma sample_argsort l : argsort_desc (F := Z) (M := Z) l ≡ₚ seq 0 (length l).
Proof. apply merge_sort_Permutation. Qed.

Definition proxy_filter : Filter := Filter_init "PROXY" "sha256:00" "sha256:01" fninf finf ["PROXY"; "4"; "0.7"; "0.5"] [].

Definition additions : list (addition (F := Z)) :=
[Initial 1 (Some "0") 9; Initial 0 None 1; Initial 1 (Some "1") 8; Initial 2 None 2; Labelled 0 "x" 3; Labelled 1 "y" 7; Labelled 0 "y" 4].

Definition fresh : ProxyFilter Z Z := match ProxyFilter_init proxy_filter with Ok p => p | Raise _ => MkProxyFilter "" "" 0 fzero fzero ItemList_init ItemList_init ItemList_init [] 0 end.
Definition filled : ProxyFilter Z Z := match add_all additions fresh with Ok p => p | Raise _ => fresh end.

Lemma proxy_examples_witness :
ProxyFilter_init proxy_filter = Ok fresh ∧ ∃ p, add_all additions fresh = Ok p ∧ il_features (positive_items p) = [9; 8; 7] ∧
il_names (negative_items p) = ["x"; "y"] ∧ il_features (init_negative_items p) = omap unnamed_of additions.
Proof.
split; [vm_compute; reflexivity|].
destruct (proxy_examples (M := Z) proxy_filter additions fresh) as (p & E & _ & _ & _ & _ & _ & _ & Hi).
- vm_compute. reflexivity.
- repeat constructor; discriminate.
- exists p. split_and!; [exact E| | |exact Hi]; vm_compute in E; injection E as <-; reflexivity.
Defined.

Lemma ensemble_trained_witness :
Z.of_nat (size (positive_items filled)) < 2 ^ 63 ∧
∃ res p' r' new, trainEnsemble (filled, 3%nat) = (res, (p', r')) ∧ full_models p' = full_models filled ++ new ∧ new = [-4; 0].
Proof.
split; [vm_compute; reflexivity|].
destruct (ensemble_trained sample_distinct sample_choice filled 3%nat ltac:(vm_compute; reflexivity)) as (res & p' & r' & new & E & Hf & _ & Hok & _).
exists res, p', r', new. split_and!; [exact E|exact Hf|]. vm_compute in E. injection E as <- <- _. vm_compute in Hf. exact (eq_sym Hf).
Defined.

(** Four models, of which the second and the fourth are perfect. *)
Definition with_models (ms : list Z) : ProxyFilter Z Z := set_models ms filled.

Lemma models_pruned_witness :
Z.of_nat (size (positive_items (with_models [0; 4; 7; 5]))) < 2 ^ 63 ∧
∃ res r' ms (test : list Z), getPrunedModels (with_models [0; 4; 7; 5], 0%nat) = (res, (set_models (slice_to 4 ms) (with_models [0; 4; 7; 5]), r')) ∧
ms ≡ₚ [0; 4; 7; 5] ∧ is_ok res = true ∧ length test = 7%nat.
Proof.
split; [vm_compute; reflexivity|].
destruct (models_pruned sample_distinct sample_argsort (with_models [0; 4; 7; 5]) 0%nat) as (res & r' & ms & test & E & Hp & Ht & _);
[vm_compute; reflexivity..|].
exists res, r', ms, test. split_and!; [exact E|exact Hp| |by rewrite Ht].
vm_compute in E. injection E as <- _. reflexivity.
Defined.

(** The two best models predict alike, and are both kept; the third best, which
predicts differently from every other one, is dropped. *)
Example third_model_dropped :
let '(res, (p, _)) := getPrunedModels (with_models [2; 0; 5; 4], 0%nat) in res = Ok [5; 4; 0] ∧ full_models p = [5; 4; 2; 0].
Proof. vm_compute. split; reflexivity. Qed.

(** With a limit of one model, pruning fails. *)
Example one_model_fails :
let p := match ProxyFilter_init (Filter_init "PROXY" "" "" fninf finf ["PROXY"; "1"; "0.7"; "0.5"] []) with Ok p => p | Raise _ => fresh end in
let p := match add_all additions p with Ok p => p | Raise _ => p end in
((trainEnsemble ≫= λ _, getPrunedModels) (p, 3%nat)).1 = Raise IndexError.
Proof. vm_compute. reflexivity. Qed.

(** An example labelled again under the other label is in both lists. *)
Example relabelled :
"y" ∈ il_names (positive_items filled) ∧ "y" ∈ il_names (negative_items filled).
Proof. split; apply (bool_decide_eq_true_1 _); vm_compute; reflexivity. Qed.
End Samples.
