(* ===== verification/Xml.v ===== *)
(** XML as the program writes and reads it: [quoteattr] of xml.sax.saxutils, and
    the start tags that xml.sax's incremental expat parser reports, byte by byte.

    The parser is given for the markup of scope lists: processing instructions,
    tags with quoted attributes, references, white space between tags.  At any
    other markup (text, comments, document types) it stops, as it does at a
    document that is not well-formed. *)
From S2P Require Import Prelude PyBytes PyText Dict.
Local Open Scope Z_scope.

Abbreviation LT := Byte.x3c.
Abbreviation GT := Byte.x3e.
Abbreviation AMP := Byte.x26.
Abbreviation QUOT := Byte.x22.
Abbreviation APOS := Byte.x27.

Definition to_text (l : bytes) : string := String.string_of_list_byte l.

(** ** saxutils.quoteattr *)
Definition escape_byte (b : byte) : bytes :=
  match b with
  | AMP => str_encode "&amp;" | GT => str_encode "&gt;" | LT => str_encode "&lt;"
  | Byte.x0a => str_encode "&#10;" | Byte.x0d => str_encode "&#13;" | Byte.x09 => str_encode "&#9;"
  | _ => [b]
  end.
Definition escape (l : bytes) : bytes := l ≫= escape_byte.
Definition escape_quot (b : byte) : bytes := match b with QUOT => str_encode "&quot;" | _ => [b] end.

Definition quoteattr (s : string) : bytes :=
  let data := escape (str_encode s) in
  if bool_decide (QUOT ∈ data) then
    if bool_decide (APOS ∈ data) then QUOT :: (data ≫= escape_quot) ++ [QUOT] else APOS :: data ++ [APOS]
  else QUOT :: data ++ [QUOT].

(** ** The incremental parser *)

(** A start tag, as it is reported. *)
Abbreviation tag := (string * dict string string)%type.

(** Where the parser is. *)
Inductive mode :=
  | Content
  | Opened                                                 (* [<] *)
  | Instruction (question : bool)                          (* [<?] ... *)
  | EndTag (name : bytes)                                  (* [</name] *)
  | TagName (name : bytes)                                 (* [<name] *)
  | Between (name : bytes) (attrs : dict string string)    (* white space in a tag *)
  | AttrName (name : bytes) (attrs : dict string string) (a : bytes)
  | AttrEq (name : bytes) (attrs : dict string string) (a : bytes)
  | AttrValue (name : bytes) (attrs : dict string string) (a : bytes) (quote : byte) (v : bytes) (ref : option bytes)
  | Quoted (name : bytes) (attrs : dict string string)     (* after the closing quote *)
  | Slash (name : bytes) (attrs : dict string string)      (* [/] in a tag *)
  | Malformed.

(** The open elements, and whether the document has had its outermost one. *)
Record parser := Parser { p_open : list bytes; p_root : bool; p_mode : mode }.
Definition parser_init : parser := Parser [] false Content.

Definition xml_space (b : byte) : bool := match b with Byte.x20 | Byte.x09 | Byte.x0a | Byte.x0d => true | _ => false end.
(** Control characters other than white space are not XML. *)
Definition xml_byte (b : byte) : bool := (32 <=? byte_Z b) || xml_space b.
Definition name_start (b : byte) : bool :=
  let z := byte_Z b in (65 <=? z) && (z <=? 90) || (97 <=? z) && (z <=? 122) || (z =? 95) || (z =? 58) || (128 <=? z).
Definition name_byte (b : byte) : bool :=
  let z := byte_Z b in name_start b || (48 <=? z) && (z <=? 57) || (z =? 45) || (z =? 46).

(** What a reference stands for: the predefined entities and decimal references
    to ASCII characters. *)
Definition reference (name : bytes) : option bytes :=
  match name with
  | Byte.x23 :: digits =>
    if negb (bool_decide (digits = [])) && forallb (λ b, bool_decide (is_Some (digit_value b))) digits then
      let n := digits_value 0 digits in
      if (n <? 128) && xml_byte (Z_byte n) then Some [Z_byte n] else None
    else None
  | _ =>
    dict_get [("amp", [AMP]); ("lt", [LT]); ("gt", [GT]); ("quot", [QUOT]); ("apos", [APOS])] (to_text name)
  end.

Definition in_mode (m : mode) (p : parser) : parser := Parser (p_open p) (p_root p) m.
Definition malformed (p : parser) : parser * list tag := (in_mode Malformed p, []).
Definition goto (m : mode) (p : parser) : parser * list tag := (in_mode m p, []).

(** The end of a start tag; [empty]: of the form [<name/>]. *)
Definition start_tag (empty : bool) (name : bytes) (attrs : dict string string) (p : parser) : parser * list tag :=
  if bool_decide (p_open p = []) && p_root p then malformed p
  else (Parser (if empty then p_open p else name :: p_open p) true Content, [(to_text name, attrs)]).
Definition end_tag (name : bytes) (p : parser) : parser * list tag :=
  match p_open p with
  | n :: rest => if decide (n = name) then (Parser rest (p_root p) Content, []) else malformed p
  | [] => malformed p
  end.

(** One byte; the start tag that it ends, if any. *)
Definition parse_byte (b : byte) (p : parser) : parser * list tag :=
  if negb (xml_byte b) then malformed p
  else match p_mode p with
  | Content => if Byte.eqb b LT then goto Opened p else if xml_space b then goto Content p else malformed p
  | Opened =>
    if Byte.eqb b Byte.x3f then goto (Instruction false) p
    else if Byte.eqb b Byte.x2f then goto (EndTag []) p
    else if name_start b then goto (TagName [b]) p else malformed p
  | Instruction q => if q && Byte.eqb b GT then goto Content p else goto (Instruction (Byte.eqb b Byte.x3f)) p
  | EndTag name =>
    if Byte.eqb b GT then end_tag name p
    else if (if decide (name = []) then name_start b else name_byte b) then goto (EndTag (name ++ [b])) p else malformed p
  | TagName name =>
    if name_byte b then goto (TagName (name ++ [b])) p
    else if xml_space b then goto (Between name []) p
    else if Byte.eqb b Byte.x2f then goto (Slash name []) p
    else if Byte.eqb b GT then start_tag false name [] p else malformed p
  | Between name attrs =>
    if xml_space b then goto (Between name attrs) p
    else if Byte.eqb b Byte.x2f then goto (Slash name attrs) p
    else if Byte.eqb b GT then start_tag false name attrs p
    else if name_start b then goto (AttrName name attrs [b]) p else malformed p
  | AttrName name attrs a =>
    if name_byte b then goto (AttrName name attrs (a ++ [b])) p
    else if Byte.eqb b Byte.x3d then goto (AttrEq name attrs a) p else malformed p
  | AttrEq name attrs a =>
    if (Byte.eqb b QUOT || Byte.eqb b APOS) && negb (dict_mem attrs (to_text a)) then goto (AttrValue name attrs a b [] None) p
    else malformed p
  | AttrValue name attrs a q v (Some ref) =>
    if Byte.eqb b Byte.x3b then
      match reference ref with Some c => goto (AttrValue name attrs a q (v ++ c) None) p | None => malformed p end
    else goto (AttrValue name attrs a q v (Some (ref ++ [b]))) p
  | AttrValue name attrs a q v None =>
    if Byte.eqb b q then goto (Quoted name (attrs ++ [(to_text a, to_text v)])) p
    else if Byte.eqb b AMP then goto (AttrValue name attrs a q v (Some [])) p
    else if Byte.eqb b LT then malformed p
    else goto (AttrValue name attrs a q (v ++ [if xml_space b then Byte.x20 else b]) None) p
  | Quoted name attrs =>
    if xml_space b then goto (Between name attrs) p
    else if Byte.eqb b Byte.x2f then goto (Slash name attrs) p
    else if Byte.eqb b GT then start_tag false name attrs p else malformed p
  | Slash name attrs => if Byte.eqb b GT then start_tag true name attrs p else malformed p
  | Malformed => malformed p
  end.

(** [feed] *)
Fixpoint parse (l : bytes) (p : parser) : parser * list tag :=
  match l with
  | [] => (p, [])
  | b :: l => let '(p, e) := parse_byte b p in let '(p, es) := parse l p in (p, e ++ es)
  end.

Definition is_malformed (p : parser) : bool := match p_mode p with Malformed => true | _ => false end.
(** [close] finds the document complete. *)
Definition is_complete (p : parser) : bool :=
  match p_mode p with Content => bool_decide (p_open p = []) && p_root p | _ => false end.

(** ** Parsing what was written *)
Lemma parse_app l1 l2 p : parse (l1 ++ l2) p =
  let '(p1, es1) := parse l1 p in let '(p2, es2) := parse l2 p1 in (p2, es1 ++ es2).
Proof.
  revert p. induction l1 as [|b l1 IH]; intros p; cbn [parse app]; [by destruct (parse l2 p)|].
  destruct (parse_byte b p) as [p1 e]. rewrite IH. destruct (parse l1 p1) as [p2 es1]. destruct (parse l2 p2) as [p3 es2].
  by rewrite app_assoc.
Qed.

(** A stopped parser reports nothing more. *)
Lemma parse_malformed l p : p_mode p = Malformed → parse l p = (p, []).
Proof.
  intros Hp. induction l as [|b l IH]; [done|]. cbn [parse].
  assert (parse_byte b p = (p, [])) as ->; [|by rewrite IH].
  unfold parse_byte. destruct p as [o r m]. cbn in Hp. subst m. by destruct (negb (xml_byte b)).
Qed.

(** A text that does not stop the parser and reports nothing. *)
Definition silent (l : bytes) (p p' : parser) : Prop := ∀ rest, parse (l ++ rest) p = parse rest p'.

Lemma silent_trans l1 l2 p1 p2 p3 : silent l1 p1 p2 → silent l2 p2 p3 → silent (l1 ++ l2) p1 p3.
Proof. intros H1 H2 rest. by rewrite <-app_assoc, H1, H2. Qed.

Lemma silent_parse l p p' : parse l p = (p', []) → silent l p p'.
Proof. intros Hl rest. rewrite parse_app, Hl. cbn. by destruct (parse rest p'). Qed.

(** The value of an attribute, written with one kind of quotes. *)
Definition value_mode (name : bytes) (attrs : dict string string) (a : bytes) (q : byte) (v : bytes) (p : parser) : parser :=
  in_mode (AttrValue name attrs a q v None) p.

Lemma value_escaped name attrs a q p b v : (q = QUOT ∨ q = APOS) → xml_byte b = true → b ≠ q →
  silent (escape_byte b) (value_mode name attrs a q v p) (value_mode name attrs a q (v ++ [b]) p).
Proof.
  intros [-> | ->] Hb Hq; apply silent_parse; destruct b; try discriminate Hb; try (exfalso; apply Hq; reflexivity); (vm_compute; reflexivity).
Qed.

Lemma value_quot name attrs a p v : silent (str_encode "&quot;") (value_mode name attrs a QUOT v p) (value_mode name attrs a QUOT (v ++ [QUOT]) p).
Proof. apply silent_parse. vm_compute. reflexivity. Qed.

(** The text of a string that XML can carry. *)
Definition xml_text (s : string) : Prop := Forall (λ b, xml_byte b = true) (str_encode s).
#[export] Instance xml_text_dec s : Decision (xml_text s).
Proof. unfold xml_text. apply _. Defined.

Lemma escape_quote q l : q = QUOT ∨ q = APOS → q ∈ escape l ↔ q ∈ l.
Proof.
  intros Hq. unfold escape. rewrite list_elem_of_bind. split.
  - intros (b & Hb & Hin). assert (Hqb : b = q ∨ bool_decide (q ∈ escape_byte b) = false) by (destruct Hq as [-> | ->]; destruct b; (by left) || (by right)).
    destruct Hqb as [->|Hqb]; [done|]. by apply bool_decide_eq_false in Hqb.
  - intros Hin. exists q. split; [|done]. by destruct Hq as [-> | ->]; left.
Qed.

Lemma value_written name attrs a q p l v : q = QUOT ∨ q = APOS → Forall (λ b, xml_byte b = true) l → q ∉ l →
  silent (escape l) (value_mode name attrs a q v p) (value_mode name attrs a q (v ++ l) p).
Proof.
  intros Hq Hl. revert v. induction Hl as [|b l Hb Hl IH]; intros v Hn.
  { intros rest. cbn. by rewrite app_nil_r. }
  apply not_elem_of_cons in Hn as [Hne Hn]. unfold escape. rewrite bind_cons.
  eapply silent_trans; [by apply value_escaped|]. replace (v ++ b :: l) with ((v ++ [b]) ++ l) by by rewrite <-app_assoc.
  by apply IH.
Qed.

Lemma value_written_quot name attrs a p l v : Forall (λ b, xml_byte b = true) l →
  silent (escape l ≫= escape_quot) (value_mode name attrs a QUOT v p) (value_mode name attrs a QUOT (v ++ l) p).
Proof.
  intros Hl. revert v. induction Hl as [|b l Hb Hl IH]; intros v.
  { intros rest. cbn. by rewrite app_nil_r. }
  unfold escape. rewrite bind_cons, bind_app. fold (escape l).
  replace (v ++ b :: l) with ((v ++ [b]) ++ l) by by rewrite <-app_assoc.
  eapply silent_trans; [|by apply IH]. destruct (decide (b = QUOT)) as [->|Hq]; [apply value_quot|].
  replace (escape_byte b ≫= escape_quot) with (escape_byte b); [apply value_escaped; auto|].
  destruct b; try reflexivity. by destruct Hq.
Qed.

(** A quoted attribute value is read back as it was. *)
Lemma quoteattr_read name attrs a s p : xml_text s → dict_mem attrs (to_text a) = false →
  silent (quoteattr s) (in_mode (AttrEq name attrs a) p) (in_mode (Quoted name (attrs ++ [(to_text a, s)])) p).
Proof.
  intros Hs Hm.
  assert (Hopen : ∀ q, q = QUOT ∨ q = APOS → silent [q] (in_mode (AttrEq name attrs a) p) (value_mode name attrs a q [] p)).
  { intros q Hq. apply silent_parse. destruct Hq as [-> | ->]; cbn; unfold parse_byte; cbn [p_mode in_mode]; by rewrite Hm. }
  assert (Hclose : ∀ q, q = QUOT ∨ q = APOS → silent [q] (value_mode name attrs a q (str_encode s) p) (in_mode (Quoted name (attrs ++ [(to_text a, s)])) p)).
  { intros q Hq. apply silent_parse. unfold value_mode. rewrite <-(string_of_str_encode s) at 2. fold (to_text (str_encode s)).
    by destruct Hq as [-> | ->]. }
  unfold quoteattr. repeat case_bool_decide.
  - change (QUOT :: ?l ++ [QUOT]) with ([QUOT] ++ l ++ [QUOT]).
    eapply silent_trans; [by apply Hopen; left|]. eapply silent_trans; [by apply value_written_quot|]. by apply Hclose; left.
  - rewrite escape_quote in * by auto. change (APOS :: ?l ++ [APOS]) with ([APOS] ++ l ++ [APOS]).
    eapply silent_trans; [by apply Hopen; right|]. eapply silent_trans; [by apply value_written; auto|]. by apply Hclose; right.
  - rewrite escape_quote in * by auto. change (QUOT :: ?l ++ [QUOT]) with ([QUOT] ++ l ++ [QUOT]).
    eapply silent_trans; [by apply Hopen; left|]. eapply silent_trans; [by apply value_written; auto|]. by apply Hclose; left.
Qed.

(** *** Tags *)
Definition name_ok (s : string) : bool :=
  match str_encode s with b :: l => name_start b && forallb name_byte l | [] => false end.

Lemma name_byte_facts b : name_byte b = true → xml_byte b = true.
Proof. by destruct b. Qed.
Lemma name_start_facts b : name_start b = true →
  xml_byte b = true ∧ xml_space b = false ∧ Byte.eqb b Byte.x2f = false ∧ Byte.eqb b GT = false ∧ Byte.eqb b Byte.x3f = false.
Proof. by destruct b. Qed.

Lemma name_silent (mk : bytes → mode) n l p :
  (∀ n b, name_byte b = true → parse_byte b (in_mode (mk n) p) = goto (mk (n ++ [b])) (in_mode (mk n) p)) →
  forallb name_byte l = true → silent l (in_mode (mk n) p) (in_mode (mk (n ++ l)) p).
Proof.
  intros Hmk Hl. revert n. induction l as [|b l IH]; intros n; [intros rest; by rewrite app_nil_r|].
  cbn in Hl. apply andb_true_iff in Hl as [Hb Hl].
  change (b :: l) with ([b] ++ l). rewrite app_assoc. eapply silent_trans; [|by apply IH].
  apply silent_parse. cbn. by rewrite Hmk.
Qed.

(** An attribute as the scope lists write them. *)
Definition write_attr (x : string * string) : bytes := [Byte.x20] ++ str_encode x.1 ++ [Byte.x3d] ++ quoteattr x.2.

Lemma attr_read name attrs x p m : name_ok x.1 = true → xml_text x.2 → dict_mem attrs x.1 = false →
  (m = Quoted name attrs ∨ m = TagName name ∧ attrs = [] ∨ m = Between name attrs) →
  silent (write_attr x) (in_mode m p) (in_mode (Quoted name (attrs ++ [x])) p).
Proof.
  destruct x as [a v]. cbn [fst snd]. intros Ha Hv Hm Hmode. unfold write_attr. cbn [fst snd].
  eapply (silent_trans _ _ _ (in_mode (Between name attrs) p)).
  { apply silent_parse. by destruct Hmode as [-> | [[-> ->] | ->]]. }
  unfold name_ok in Ha. destruct (str_encode a) as [|b l] eqn:Ea; [done|]. apply andb_true_iff in Ha as [Hb Hl].
  eapply (silent_trans _ _ _ (in_mode (AttrName name attrs (b :: l)) p)).
  - change (b :: l) with ([b] ++ l). eapply (silent_trans _ _ _ (in_mode (AttrName name attrs [b]) p)).
    + apply silent_parse. cbn. unfold parse_byte. cbn [p_mode in_mode].
      destruct (name_start_facts b Hb) as (-> & -> & -> & -> & _). by rewrite Hb.
    + apply (name_silent (AttrName name attrs)); [|done]. intros n c Hc. unfold parse_byte. cbn [p_mode in_mode].
      by rewrite (name_byte_facts c Hc), Hc.
  - eapply (silent_trans _ _ _ (in_mode (AttrEq name attrs (b :: l)) p)); [by apply silent_parse|].
    assert (to_text (b :: l) = a) as Et by (unfold to_text; rewrite <-Ea; apply string_of_str_encode).
    pose proof (quoteattr_read name attrs (b :: l) v p Hv) as Hq. rewrite Et in Hq. by apply Hq.
Qed.

Lemma fresh_attr (attrs l : dict string string) x : NoDup (attrs ++ x :: l).*1 → dict_mem attrs x.1 = false.
Proof.
  intros Hnd. apply not_true_iff_false. rewrite dict_mem_spec. unfold dict_keys. rewrite fmap_app in Hnd.
  apply NoDup_app in Hnd as (_ & Hd & _). intros Hin. apply (Hd x.1 Hin). by left.
Qed.

Lemma attrs_read name : ∀ l attrs m p, Forall (λ x, name_ok x.1 = true ∧ xml_text x.2) l → NoDup (attrs ++ l).*1 → l ≠ [] →
  (m = Quoted name attrs ∨ m = TagName name ∧ attrs = []) →
  silent (l ≫= write_attr) (in_mode m p) (in_mode (Quoted name (attrs ++ l)) p).
Proof.
  induction l as [|x l IH]; intros attrs m p Hl Hnd Hne Hm; [done|].
  apply Forall_cons in Hl as [[Hn Hx] Hl]. rewrite bind_cons.
  assert (Hfresh : dict_mem attrs x.1 = false) by by eapply fresh_attr.
  eapply silent_trans; [apply (attr_read name); [done..|tauto]|]. destruct l as [|y l]; [intros rest; done|].
  replace (attrs ++ x :: y :: l) with ((attrs ++ [x]) ++ y :: l) by by rewrite <-app_assoc.
  apply IH; [done| |done|by left]. by rewrite <-app_assoc.
Qed.

(** [<name attrs... />] and [<name attrs...>] *)
Definition write_tag (x : tag) (empty : bool) : bytes :=
  [LT] ++ str_encode x.1 ++ (x.2 ≫= write_attr) ++ str_encode (if empty then " />" else ">").
Definition tag_ok (x : tag) : Prop :=
  name_ok x.1 = true ∧ x.2 ≠ [] ∧ NoDup x.2.*1 ∧ Forall (λ a, name_ok a.1 = true ∧ xml_text a.2) x.2.

Lemma parse_one b p : parse [b] p = parse_byte b p.
Proof. cbn. destruct (parse_byte b p). by rewrite app_nil_r. Qed.

Lemma tag_end (empty : bool) name attrs p : parse (str_encode (if empty then " />" else ">")) (in_mode (Quoted name attrs) p) =
  start_tag empty name attrs (in_mode (if empty then Slash name attrs else Quoted name attrs) p).
Proof.
  destruct empty; [|apply (parse_one GT)].
  assert (Hs : silent [Byte.x20; Byte.x2f] (in_mode (Quoted name attrs) p) (in_mode (Slash name attrs) p)) by by apply silent_parse.
  change (str_encode " />") with ([Byte.x20; Byte.x2f] ++ [GT]). rewrite Hs. apply (parse_one GT).
Qed.

Lemma tag_named name o r : name_ok name = true →
  silent ([LT] ++ str_encode name) (Parser o r Content) (in_mode (TagName (str_encode name)) (Parser o r Content)).
Proof.
  intros Hn. set (p := Parser o r Content). unfold name_ok in Hn. destruct (str_encode name) as [|b l]; [done|].
  apply andb_true_iff in Hn as [Hb Hl]. eapply (silent_trans _ _ _ (in_mode Opened p)); [by apply silent_parse|].
  change (b :: l) with ([b] ++ l). eapply (silent_trans _ _ _ (in_mode (TagName [b]) p)).
  - apply silent_parse. cbn. unfold parse_byte. cbn [p_mode in_mode].
    destruct (name_start_facts b Hb) as (-> & _ & -> & _ & ->). by rewrite Hb.
  - apply (name_silent TagName); [|done]. intros n c Hc. unfold parse_byte. cbn [p_mode in_mode].
    by rewrite (name_byte_facts c Hc), Hc.
Qed.

(** The tag up to the last closing quote. *)
Lemma tag_opened x o r : tag_ok x → silent ([LT] ++ str_encode x.1 ++ (x.2 ≫= write_attr)) (Parser o r Content)
  (in_mode (Quoted (str_encode x.1) x.2) (Parser o r Content)).
Proof.
  intros (Hn & Hne & Hnd & Hok). rewrite app_assoc. eapply silent_trans; [by apply tag_named|].
  apply (attrs_read (str_encode x.1) x.2 []); [done..|by right].
Qed.

(** The attributes with a space after every one. *)
Lemma attrs_spaced name : ∀ l attrs m p, Forall (λ x, name_ok x.1 = true ∧ xml_text x.2) l → NoDup (attrs ++ l).*1 → l ≠ [] →
  (m = TagName name ∧ attrs = [] ∨ m = Between name attrs) →
  silent (l ≫= λ x, write_attr x ++ [Byte.x20]) (in_mode m p) (in_mode (Between name (attrs ++ l)) p).
Proof.
  induction l as [|x l IH]; intros attrs m p Hl Hnd Hne Hm; [done|].
  apply Forall_cons in Hl as [[Hn Hx] Hl]. rewrite bind_cons.
  assert (Hfresh : dict_mem attrs x.1 = false) by by eapply fresh_attr.
  assert (Hs : silent (write_attr x ++ [Byte.x20]) (in_mode m p) (in_mode (Between name (attrs ++ [x])) p)).
  { eapply silent_trans; [apply (attr_read name); [done..|tauto]|]. by apply silent_parse. }
  eapply silent_trans; [exact Hs|]. destruct l as [|y l]; [intros rest; done|].
  replace (attrs ++ x :: y :: l) with ((attrs ++ [x]) ++ y :: l) by by rewrite <-app_assoc.
  apply IH; [done| |done|by right]. by rewrite <-app_assoc.
Qed.

Lemma tag_started x empty o r m : (o ≠ [] ∨ r = false) → start_tag empty (str_encode x.1) x.2 (in_mode m (Parser o r Content)) =
  (Parser (if empty then o else str_encode x.1 :: o) true Content, [x]).
Proof.
  destruct x as [name attrs]. intros Hroot. unfold start_tag, to_text. cbn [p_open p_root in_mode fst snd]. rewrite string_of_str_encode.
  case_bool_decide as Ho; [|done]. destruct Hroot as [?|Hr]; [done|]. by rewrite Hr.
Qed.

(** A tag that was written is reported as it is. *)
Lemma parse_tag x empty o r : tag_ok x → (o ≠ [] ∨ r = false) →
  parse (write_tag x empty) (Parser o r Content) = (Parser (if empty then o else str_encode x.1 :: o) true Content, [x]).
Proof.
  intros Hx Hroot. unfold write_tag. pose proof (tag_opened x o r Hx) as Hs. rewrite !app_assoc in *. rewrite Hs, tag_end.
  by apply tag_started.
Qed.

Lemma parse_spaced x o r : tag_ok x → (o ≠ [] ∨ r = false) →
  parse ([LT] ++ str_encode x.1 ++ (x.2 ≫= λ a, write_attr a ++ [Byte.x20]) ++ str_encode "/>") (Parser o r Content) = (Parser o true Content, [x]).
Proof.
  intros (Hn & Hne & Hnd & Hok) Hroot. pose proof (tag_named x.1 o r Hn) as Ho. rewrite app_assoc, Ho.
  pose proof (attrs_spaced (str_encode x.1) x.2 [] _ (Parser o r Content) Hok Hnd Hne (or_introl (conj eq_refl eq_refl))) as Ha. rewrite Ha.
  assert (Hs : silent [Byte.x2f] (in_mode (Between (str_encode x.1) ([] ++ x.2)) (Parser o r Content)) (in_mode (Slash (str_encode x.1) x.2) (Parser o r Content))) by by apply silent_parse.
  change (str_encode "/>") with ([Byte.x2f] ++ [GT]). rewrite Hs, parse_one.
  exact (tag_started x true o r (Slash (str_encode x.1) x.2) Hroot).
Qed.
