(* ===== verification/Retriever.v ===== *)
(** The data retriever's scope lists (src/opendiamond/dataretriever): the stream
    of a response, what the server's scope list loader makes of it, the Diamond
    store and the video store. *)
From S2P Require Import Prelude PyBytes PyText Dict Float64 FloatText Url Xml ScopeList.
Local Open Scope Z_scope.

(** ** Streams

    A generator of text: the pieces that it yields, and how it ends. *)
Definition stream (A : Type) : Type := list bytes * res A.
#[export] Instance stream_ret : MRet stream := λ A x, ([], Ok x).
#[export] Instance stream_bind : MBind stream := λ A B f m,
  match m with
  | (out, Ok x) => let '(out', r) := f x in (out ++ out', r)
  | (out, Raise e) => (out, Raise e)
  end.
Definition emit (text : bytes) : stream unit := ([text], Ok tt).
Definition compute {A} (r : res A) : stream A := ([], r).

Definition newline : bytes := [Byte.x0a].
Definition xml_declaration : bytes := str_encode "<?xml version=" ++ [QUOT] ++ str_encode "1.0" ++ [QUOT] ++
  str_encode " encoding=" ++ [QUOT] ++ str_encode "UTF-8" ++ [QUOT] ++ str_encode " ?>" ++ newline.
(** ['<objectlist count="{:d}">\n'] *)
Definition objectlist (count : Z) : bytes :=
  str_encode "<objectlist count=" ++ [QUOT] ++ format_d count ++ [QUOT] ++ str_encode ">" ++ newline.
Definition objectlist_end : bytes := str_encode "</objectlist>" ++ newline.

(** [line.strip()] *)
Definition strip_line (line : string) : string := to_text (str_strip (str_encode line)).

(** ** The Diamond store *)
Section DiamondStore.
(** flask's [url_for]: the URL of an endpoint and a path; werkzeug's [safe_join]
with the data root, [None] for a path that leads out of it; [os.path.isfile]. *)
Context (url_for : string → string → string) (data_path : string → option string) (isfile : string → bool).

Definition ATTR_SUFFIX : string := ".text_attr".

(** [_get_object_src_uri], with [LOCAL_OBJ_URI] *)
Definition get_object_src_uri (object_path : string) : res string :=
path ← of_option TypeError (data_path object_path); Ok ("file://" +:+ path).

(** [_get_object_element] *)
Definition get_object_element (object_path : string) : res bytes :=
path ← of_option TypeError (data_path object_path);
src ← get_object_src_uri object_path;
Ok (str_encode "<object id=" ++ quoteattr (url_for ".get_object_id" object_path) ++
str_encode " src=" ++ quoteattr src ++
(if isfile (path +:+ ATTR_SUFFIX) then str_encode " meta=" ++ quoteattr (url_for ".get_object_meta" object_path) else []) ++
str_encode " />").

(** [limit is not None and n >= limit] *)
Definition reached (limit : option Z) (n : Z) : bool := match limit with Some k => k <=? n | None => false end.

(** The two loops over the lines of the index. *)
Fixpoint count_entries (limit : option Z) (n : Z) (lines : list string) : Z :=
match lines with
| [] => n
| _ :: lines => if reached limit (n + 1) then n + 1 else count_entries limit (n + 1) lines
end.
Fixpoint emit_objects (limit : option Z) (n : Z) (lines : list string) : stream unit :=
match lines with
| [] => mret tt
| line :: lines =>
compute (get_object_element (strip_line line)) ≫= λ t, emit (t ++ newline) ≫= λ _,
if reached limit (n + 1) then mret tt else emit_objects limit (n + 1) lines
end.

(** [generate] of [get_scope]; the index is opened and read twice. *)
Definition diamond_scope (limit : option Z) (first second : res (list string)) : stream unit :=
lines ← compute first;
let num_entries := count_entries limit 0 lines in
lines ← compute second;
emit xml_declaration ≫= λ _, emit (objectlist num_entries) ≫= λ _,
emit_objects limit 0 lines ≫= λ _, emit objectlist_end.
End DiamondStore.

(** ** The video store *)
Section VideoStore.
(** [url_for] with the clip's start, span and video; [_ffprobe]: the duration;
[ceil] of a float quotient. *)
Context (url_for : string → Z → Z → string → string) (duration : string → res float) (ceiling : float → res Z).

(** ['<object id="{}" src="{}" />']: the URLs are not quoted. *)
Definition plain_element (id src : string) : bytes :=
str_encode "<object id=" ++ [QUOT] ++ str_encode id ++ [QUOT] ++ str_encode " src=" ++ [QUOT] ++ str_encode src ++ [QUOT] ++ str_encode " />".
Definition clip_element (start span : Z) (video : string) : bytes :=
plain_element (url_for ".get_object_id" start span video) (url_for ".get_object" start span video).

Definition count_adjust (n : Z) : bytes := str_encode "<count adjust=" ++ [QUOT] ++ format_d n ++ [QUOT] ++ str_encode "/>" ++ newline.

(** [int(ceil(length_sec / stride))] *)
Definition num_clips (stride : Z) (video : string) : res Z :=
length ← duration video;
if stride =? 0 then Raise ZeroDivisionError
else d ← float_of_int stride; ceiling (fdiv length d).

Fixpoint emit_clips (stride span : Z) (video : string) (clip : Z) (n : nat) : stream unit :=
match n with
| O => mret tt
| S n => emit (clip_element (clip * stride) span video ++ newline) ≫= λ _, emit_clips stride span video (clip + 1) n
end.

(** A video that cannot be examined is skipped. *)
Definition emit_video (stride span : Z) (line : string) : stream unit :=
let video := strip_line line in
match num_clips stride video with
| Ok n => emit (count_adjust n) ≫= λ _, emit_clips stride span video 0 (Z.to_nat n)
| Raise _ => mret tt
end.
Fixpoint emit_videos (stride span : Z) (lines : list string) : stream unit :=
match lines with [] => mret tt | line :: lines => emit_video stride span line ≫= λ _, emit_videos stride span lines end.

Definition video_scope (stride span : Z) (index : res (list string)) : stream unit :=
emit xml_declaration ≫= λ _, emit (str_encode "<objectlist>" ++ newline) ≫= λ _,
compute index ≫= λ lines, emit_videos stride span lines ≫= λ _, emit objectlist_end.
End VideoStore.

(** ** What the scope list loader makes of a document *)

(** A response read in pieces: the start tags that end in each piece, and the
    error of a piece at which the parser stops; closing the parser fails if the
    document is not complete. *)
Fixpoint chunks_of (p : parser) (pieces : list bytes) : list chunk * parser :=
  match pieces with
  | [] => ([], p)
  | t :: pieces =>
    let '(p, es) := parse t p in
    let '(cs, q) := chunks_of p pieces in
    (Chunk es (if is_malformed p then Some SAXParseException else None) :: cs, q)
  end.
Definition response_of (pieces : list bytes) : response :=
  let '(cs, p) := chunks_of parser_init pieces in
  Response cs None (Chunk [] (if is_complete p then None else Some SAXParseException)).

Lemma chunks_parse pieces : ∀ p q es, parse (concat pieces) p = (q, es) → p_mode q ≠ Malformed →
  ∃ cs, chunks_of p pieces = (cs, q) ∧ (cs ≫= c_elements) = es ∧ Forall (λ c, c_error c = None) cs.
Proof.
  induction pieces as [|t pieces IH]; intros p q es; cbn [concat chunks_of].
  { cbn [parse]. intros [= <- <-] _. by exists []. }
  rewrite parse_app. destruct (parse t p) as [p1 es1]. destruct (parse (concat pieces) p1) as [p2 es2] eqn:E2.
  intros [= <- <-] Hq. destruct (IH p1 p2 es2 E2 Hq) as (cs & -> & <- & Hcs). eexists. split; [done|]. split; [done|].
  constructor; [|done]. cbn. unfold is_malformed. destruct (p_mode p1) eqn:Em; try done.
  rewrite parse_malformed in E2 by done. congruence.
Qed.

(** However a complete document is cut into pieces, the response is good and has
    the document's objects and counts. *)
Lemma response_document pieces p (es : list tag) : parse (concat pieces) parser_init = (p, es) → is_complete p = true →
  Forall (λ e, is_ok (element_count e) = true) es →
  response_good (response_of pieces) ∧ chunk_objects (r_chunks (response_of pieces)) = es ≫= element_objects ∧
  chunk_count (r_chunks (response_of pieces)) = sum (e ← es; [match element_count e with Ok n => n | Raise _ => 0 end]).
Proof.
  intros Hp Hc Hok. assert (Hm : p_mode p ≠ Malformed) by (unfold is_complete in Hc; by destruct (p_mode p)).
  destruct (chunks_parse pieces _ _ _ Hp Hm) as (cs & Hcs & <- & Herr). unfold response_of. rewrite Hcs, Hc. cbn [r_chunks].
  split_and!; [split_and!; [done..|]| |].
  - cbn. clear Hcs Hp. induction Herr as [|c cs Hce Herr IH]; [done|]. rewrite bind_cons in Hok. apply Forall_app in Hok as [? Hok].
    constructor; [by split|by apply IH].
  - unfold chunk_objects. clear. induction cs as [|c cs IH]; [done|]. by rewrite !bind_cons, bind_app, IH.
  - unfold chunk_count. clear. f_equal. induction cs as [|c cs IH]; [done|]. by rewrite !bind_cons, bind_app, IH.
Qed.

(** Inside the outermost element: a text that is reported as one tag. *)
Definition inside : parser := Parser [str_encode "objectlist"] true Content.
Definition reports (t : bytes) (x : tag) : Prop := parse t inside = (inside, [x]).

Lemma reports_tag x : tag_ok x → reports (write_tag x true ++ newline) x.
Proof. intros Hx. unfold reports, inside. rewrite parse_app, parse_tag; [done|done|by left]. Qed.

Lemma reports_all ts xs : Forall2 reports ts xs → parse (concat ts) inside = (inside, xs).
Proof. induction 1 as [|t x ts xs Ht Hts IH]; [done|]. cbn [concat]. by rewrite parse_app, Ht, IH. Qed.

(** A scope list: its opening, its elements, its end. *)
Lemma document_parsed opening (root : list tag) ts (xs : list tag) : parse opening parser_init = (inside, root) → Forall2 reports ts xs →
  parse (concat (opening :: ts ++ [objectlist_end])) parser_init = (Parser [] true Content, root ++ xs).
Proof.
  intros Ho Hts. cbn [concat]. rewrite parse_app, Ho, concat_app. cbn [concat]. rewrite app_nil_r, parse_app, (reports_all _ _ Hts).
  change (parse objectlist_end inside) with (Parser [] true Content, @nil tag). cbv beta iota. by rewrite app_nil_r.
Qed.

(** The loader, given a complete document in any pieces: its objects, in order,
    and the sum of its counts. *)
Lemma document_loaded out p (es : list tag) open_url url pieces :
  parse (concat out) parser_init = (p, es) → is_complete p = true → Forall (λ e, is_ok (element_count e) = true) es →
  concat pieces = concat out → open_url (urljoin BASE_URL url) = Ok (response_of pieces) →
  ∃ l, collect open_url (S (length (es ≫= element_objects))) (ScopeListLoader_init [[url]]) =
    ((λ o, (o, urljoin BASE_URL url)) <$> (es ≫= element_objects), Stop, l) ∧
    get_count l = sum (e ← es; [match element_count e with Ok n => n | Raise _ => 0 end]).
Proof.
  intros Hp Hc Hok Hcut Hopen. rewrite <-Hcut in Hp. destruct (response_document pieces p es Hp Hc Hok) as (Hgood & Hobj & Hcount).
  assert (Hl : loader_good open_url (ScopeListLoader_init [[url]])).
  { split; [done|]. cbn. constructor; [|done]. unfold url_good. by rewrite Hopen. }
  destruct (collect_good open_url _ Hl) as (l & Hcol & Hget).
  assert (Hr : remaining open_url (ScopeListLoader_init [[url]]) = (λ o, (o, urljoin BASE_URL url)) <$> (es ≫= element_objects)).
  { unfold remaining. cbn [l_gen ScopeListLoader_init g_current g_urls concat app]. rewrite bind_cons. cbn [mbind list_bind].
    unfold url_objects. by rewrite Hopen, Hobj, app_nil_r. }
  rewrite Hr, length_fmap in Hcol. exists l. split; [exact Hcol|]. rewrite Hget. unfold final_count.
  cbn [l_gen l_handler h_count ScopeListLoader_init g_current g_urls concat app fmap list_fmap]. unfold sum at 1. cbn [foldr].
  unfold url_count. rewrite Hopen, Hcount. lia.
Qed.

Lemma escape_digits l : Forall is_digit l → escape l = l ∧ QUOT ∉ l ∧ Forall (λ b, xml_byte b = true) l.
Proof.
  induction 1 as [|b l [d Hd] Hl (IHe & IHq & IHx)]; [split_and!; [done|apply not_elem_of_nil|done]|].
  assert (escape_byte b = [b] ∧ b ≠ QUOT ∧ xml_byte b = true) as (He & Hq & Hx) by (destruct b; try discriminate Hd; done).
  unfold escape in *. rewrite bind_cons, He, IHe. split_and!; [done|by apply not_elem_of_cons|by constructor].
Qed.

Lemma str_encode_to_text l : str_encode (to_text l) = l.
Proof. apply str_encode_of_bytes. Qed.

Lemma quoteattr_digits l : Forall is_digit l → quoteattr (to_text l) = QUOT :: l ++ [QUOT].
Proof.
  intros Hl. destruct (escape_digits l Hl) as (He & Hq & _). unfold quoteattr. rewrite str_encode_to_text, He.
  by rewrite bool_decide_eq_false_2.
Qed.

(** The tags [<objectlist count=...>] and [<count adjust=...>]. *)
Definition number (n : Z) : string := to_text (format_d n).

Lemma number_text n : 0 <= n → xml_text (number n).
Proof. intros Hn. unfold xml_text, number. rewrite str_encode_to_text. by apply escape_digits, format_d_nonneg. Qed.

Lemma number_value n : 0 <= n → py_int_str (str_encode (number n)) = Ok n.
Proof. intros Hn. unfold number. rewrite str_encode_to_text. by apply py_int_str_format_d. Qed.

Definition list_tag (n : Z) : tag := ("objectlist", [("count", number n)]).

Lemma list_tag_count n : 0 <= n → element_count (list_tag n) = Ok n.
Proof. intros Hn. apply (number_value n Hn). Qed.

Lemma objectlist_parsed n : 0 <= n → parse (xml_declaration ++ objectlist n) parser_init = (inside, [list_tag n]).
Proof.
  intros Hn. assert (Ho : objectlist n = write_tag (list_tag n) false ++ newline).
  { unfold write_tag, list_tag. cbn [fst snd]. rewrite bind_cons. unfold write_attr, number. cbn [fst snd].
    rewrite quoteattr_digits by (by apply format_d_nonneg). unfold objectlist.
    change (QUOT :: format_d n ++ [QUOT]) with ([QUOT] ++ format_d n ++ [QUOT]). by rewrite app_nil_r, <-!app_assoc. }
  rewrite parse_app. change (parse xml_declaration parser_init) with (parser_init, @nil tag). cbv beta iota.
  unfold parser_init. rewrite Ho, parse_app, parse_tag; [done| |by right]. split_and!; [done|done|by apply NoDup_singleton|].
  repeat constructor. by apply number_text.
Qed.

(** The tag of an object: its URL, its file, and perhaps the URL of its metadata. *)
Definition object_entry (id path : string) (meta : option string) : dict string string :=
  [("id", id); ("src", "file://" +:+ path)] ++ match meta with Some m => [("meta", m)] | None => [] end.

Lemma object_entry_ok id path meta : xml_text id → xml_text path → (∀ m, meta = Some m → xml_text m) → tag_ok ("object", object_entry id path meta).
Proof.
  intros Hi Hp Hm. assert (xml_text ("file://" +:+ path)) by (unfold xml_text; rewrite str_encode_app; apply Forall_app; split; [apply (bool_decide_unpack _); vm_compute; exact I|done]).
  destruct meta as [m|]; [specialize (Hm m eq_refl)|]; split_and!; try done; try (apply (bool_decide_unpack _); vm_compute; exact I); cbn; repeat constructor; cbn; auto.
Qed.

(** *** The Diamond store's scope list, loaded by the server *)
Section Loaded.
Context (url_for : string → string → string) (data_path : string → option string) (isfile : string → bool).

(** The attributes of an object in the scope list. *)
Definition object_attrs (p path : string) : dict string string :=
[("id", url_for ".get_object_id" p); ("src", "file://" +:+ path)] ++
(if isfile (path +:+ ATTR_SUFFIX) then [("meta", url_for ".get_object_meta" p)] else []).

(** A path of the index: inside the data root, and, like the URLs, of characters
that XML can carry. *)
Definition good_path (p : string) : Prop := ∃ path, data_path p = Some path ∧ xml_text path ∧
∀ endpoint, xml_text (url_for endpoint p).

Lemma element_written p path : data_path p = Some path →
get_object_element url_for data_path isfile p = Ok (write_tag ("object", object_attrs p path) true).
Proof.
intros Hp. unfold get_object_element, get_object_src_uri. rewrite Hp. cbn [of_option mbind res_bind]. f_equal.
unfold write_tag, object_attrs. cbn [fst snd]. rewrite bind_app. unfold write_attr.
destruct (isfile (path +:+ ATTR_SUFFIX)); cbn [mbind list_bind fst snd]; rewrite ?app_nil_r, <-?app_assoc; reflexivity.
Qed.

Lemma object_tag_ok p path : xml_text path → (∀ endpoint, xml_text (url_for endpoint p)) → tag_ok ("object", object_attrs p path).
Proof.
intros Hp Hu. unfold object_attrs. destruct (isfile (path +:+ ATTR_SUFFIX)).
- apply (object_entry_ok _ path (Some _)); [by apply Hu|done|]. intros m [= <-]. apply Hu.
- by apply (object_entry_ok _ path None).
Qed.

(** The lines that a limit leaves, from the [n]-th one on: at least one. *)
Definition selected (limit : option Z) (n : Z) (lines : list string) : list string :=
match limit with Some k => take (Z.to_nat (Z.max 1 (k - n))) lines | None => lines end.

Lemma selected_cons limit n line lines : selected limit n (line :: lines) =
line :: if reached limit (n + 1) then [] else selected limit (n + 1) lines.
Proof.
destruct limit as [k|]; [|done]. unfold selected, reached. destruct (Z.leb_spec k (n + 1)).
- replace (Z.to_nat (Z.max 1 (k - n))) with 1%nat by lia. cbn. by rewrite take_0.
- replace (Z.to_nat (Z.max 1 (k - n))) with (S (Z.to_nat (Z.max 1 (k - (n + 1))))) by lia. done.
Qed.

Lemma count_entries_spec limit lines : ∀ n, count_entries limit n lines = n + Z.of_nat (length (selected limit n lines)).
Proof.
induction lines as [|line lines IH]; intros n; cbn [count_entries].
- destruct limit; cbn; rewrite ?take_nil; cbn; lia.
- rewrite selected_cons, IH. destruct (reached limit (n + 1)); cbn [length]; lia.
Qed.

Lemma emit_objects_spec limit lines : ∀ n, Forall (λ line, good_path (strip_line line)) (selected limit n lines) →
∃ ts, emit_objects url_for data_path isfile limit n lines = (ts, Ok tt) ∧
Forall2 (λ t line, ∃ path, data_path (strip_line line) = Some path ∧ reports t ("object", object_attrs (strip_line line) path)) ts (selected limit n lines).
Proof.
induction lines as [|line lines IH]; intros n Hok; cbn [emit_objects].
{ exists []. split; [done|]. destruct limit; cbn; by rewrite ?take_nil. }
rewrite selected_cons in *. apply Forall_cons in Hok as [(path & Hp & Hx & Hu) Hok].
rewrite (element_written _ path Hp). cbn [compute emit mbind stream_bind].
set (t := write_tag _ true ++ newline).
assert (Ht : ∃ path, data_path (strip_line line) = Some path ∧ reports t ("object", object_attrs (strip_line line) path)).
{ exists path. split; [done|]. by apply reports_tag, object_tag_ok. }
destruct (reached limit (n + 1)).
- exists [t]. split; [done|]. by constructor.
- destruct (IH (n + 1) Hok) as (ts & -> & Hts). exists (t :: ts). split; [done|]. by constructor.
Qed.
End Loaded.

(** Elements that are all objects add nothing to the count. *)
Lemma objects_of (os : list (dict string string)) : ((λ o, ("object", o)) <$> os) ≫= element_objects = os.
Proof. induction os as [|o os IH]; [done|]. rewrite fmap_cons, bind_cons, IH. done. Qed.
Lemma objects_count (os : list (dict string string)) :
  sum (e ← (λ o, ("object", o)) <$> os; [match element_count e with Ok n => n | Raise _ => 0 end]) = 0.
Proof. induction os as [|o os IH]; [done|]. rewrite fmap_cons, bind_cons, sum_app, IH. done. Qed.
Lemma objects_ok (os : list (dict string string)) : Forall (λ e, is_ok (element_count e) = true) ((λ o, ("object", o)) <$> os).
Proof. induction os; by constructor. Qed.

(** A scope list of objects with its count in the first tag. *)
Lemma counted_document_loaded n ts os open_url url pieces : 0 <= n → Forall2 reports ts ((λ o, ("object", o)) <$> os) →
  concat pieces = concat ([xml_declaration; objectlist n] ++ ts ++ [objectlist_end]) →
  open_url (urljoin BASE_URL url) = Ok (response_of pieces) →
  ∃ l, collect open_url (S (length os)) (ScopeListLoader_init [[url]]) = ((λ o, (o, urljoin BASE_URL url)) <$> os, Stop, l) ∧ get_count l = n.
Proof.
  intros Hn Hts Hcut Hopen.
  destruct (document_loaded ((xml_declaration ++ objectlist n) :: ts ++ [objectlist_end]) _ _ open_url url pieces
    (document_parsed _ _ ts _ (objectlist_parsed n Hn) Hts)) as (l & Hcol & Hcount); [done| | |done|].
  - apply Forall_app. split; [|apply objects_ok]. constructor; [|done]. by rewrite list_tag_count.
  - rewrite Hcut. cbn [concat app]. by rewrite <-app_assoc.
  - exists l. rewrite bind_app in Hcol. rewrite bind_app in Hcount. rewrite objects_of in Hcol. cbn [app mbind list_bind] in Hcol. split; [exact Hcol|].
    rewrite Hcount, sum_app, objects_count. cbn [mbind list_bind app]. rewrite list_tag_count by done. cbn. lia.
Qed.

(** C15.  From the data retriever's index to the server's objects.  If every selected
    line of the index names a file in the data root, the Diamond store writes its
    scope list to the end, and the server's loader, however the text is cut into
    pieces on its way, yields one object for every selected line, in order, with
    the object's URL, its file and, if there are attributes, their URL; it
    announces just that many objects and stops. *)
Theorem diamond_scope_loaded url_for data_path isfile limit lines :
  Forall (λ line, good_path url_for data_path (strip_line line)) (selected limit 0 lines) →
  ∃ out os, diamond_scope url_for data_path isfile limit (Ok lines) (Ok lines) = (out, Ok tt) ∧
    Forall2 (λ o line, ∃ path, data_path (strip_line line) = Some path ∧ o = object_attrs url_for isfile (strip_line line) path)
      os (selected limit 0 lines) ∧
    ∀ open_url url pieces, concat pieces = concat out → open_url (urljoin BASE_URL url) = Ok (response_of pieces) →
      ∃ l, collect open_url (S (length os)) (ScopeListLoader_init [[url]]) = ((λ o, (o, urljoin BASE_URL url)) <$> os, Stop, l) ∧
        get_count l = Z.of_nat (length os).
Proof.
  intros Hok. destruct (emit_objects_spec url_for data_path isfile limit lines 0 Hok) as (ts & Hts & Hall).
  assert (∃ os, Forall2 reports ts ((λ o, ("object", o)) <$> os) ∧
    Forall2 (λ o line, ∃ path, data_path (strip_line line) = Some path ∧ o = object_attrs url_for isfile (strip_line line) path)
      os (selected limit 0 lines)) as (os & Hrep & Hos).
  { clear Hts Hok. induction Hall as [|t line ts ls (path & Hp & Hr) _ (os & Hrep & Hos)]; [by exists []|].
    exists (object_attrs url_for isfile (strip_line line) path :: os). split; constructor; try done. by exists path. }
  exists ([xml_declaration; objectlist (count_entries limit 0 lines)] ++ ts ++ [objectlist_end]), os.
  split; [|split; [exact Hos|]].
  - unfold diamond_scope. cbn [compute emit mbind stream_bind]. rewrite Hts. by cbn.
  - intros open_url url pieces Hcut Hopen. rewrite (Forall2_length _ _ _ Hos).
    rewrite count_entries_spec, Z.add_0_l in Hcut.
    destruct (counted_document_loaded (Z.of_nat (length (selected limit 0 lines))) ts os open_url url pieces) as (l & Hl & Hc);
      [lia|done..|]. exists l. split; [|done]. by rewrite (Forall2_length _ _ _ Hos) in Hl.
Qed.

(** *** The video store's scope list *)
Section Videos.
Context (url_for : string → Z → Z → string → string) (duration : string → res float) (ceiling : float → res Z).
Context (stride span : Z).

Definition clip_attrs (video : string) (clip : Z) : dict string string :=
[("id", url_for ".get_object_id" (clip * stride) span video); ("src", url_for ".get_object" (clip * stride) span video)].
Definition clips_of (line : string) : list (dict string string) :=
match num_clips duration ceiling stride (strip_line line) with
| Ok n => clip_attrs (strip_line line) <$> seqZ 0 n
| Raise _ => []
end.

(** URLs that need no quoting. *)
Definition plain_url (u : string) : Prop := xml_text u ∧ quoteattr u = QUOT :: str_encode u ++ [QUOT].
Definition good_video (line : string) : Prop := ∀ n, num_clips duration ceiling stride (strip_line line) = Ok n →
0 <= n ∧ ∀ endpoint clip, 0 <= clip < n → plain_url (url_for endpoint (clip * stride) span (strip_line line)).

Lemma plain_written id src : plain_url id → plain_url src → reports (plain_element id src ++ newline) ("object", [("id", id); ("src", src)]).
Proof.
intros [Hi Hqi] [Hs Hqs]. assert (He : plain_element id src = write_tag ("object", [("id", id); ("src", src)]) true).
{ unfold write_tag. cbn [fst snd mbind list_bind]. unfold write_attr. cbn [fst snd].
rewrite Hqi, Hqs, app_nil_r. unfold plain_element. rewrite <-!app_assoc. cbn [app]. rewrite <-!app_assoc. reflexivity. }
rewrite He. apply reports_tag. split_and!; [done|done|apply (bool_decide_unpack _); vm_compute; exact I|].
repeat constructor; cbn; done.
Qed.

Lemma clip_written video clip : (∀ endpoint, plain_url (url_for endpoint (clip * stride) span video)) →
reports (clip_element url_for (clip * stride) span video ++ newline) ("object", clip_attrs video clip).
Proof. intros Hu. by apply plain_written. Qed.

Lemma count_written n : 0 <= n → reports (count_adjust n) ("count", [("adjust", number n)]).
Proof.
intros Hn. set (x := ("count", [("adjust", number n)]) : tag).
assert (Hx : tag_ok x).
{ split_and!; [done|done|by apply NoDup_singleton|]. repeat constructor. by apply number_text. }
assert (He : count_adjust n = ([LT] ++ str_encode x.1 ++ (x.2 ≫= write_attr)) ++ str_encode "/>" ++ newline).
{ unfold x. cbn [fst snd mbind list_bind]. unfold write_attr, number. cbn [fst snd]. rewrite quoteattr_digits by (by apply format_d_nonneg).
unfold count_adjust. change (QUOT :: format_d n ++ [QUOT]) with ([QUOT] ++ format_d n ++ [QUOT]). by rewrite app_nil_r, <-!app_assoc. }
unfold reports, inside. rewrite He, (tag_opened x _ _ Hx).
assert (Hs : silent [Byte.x2f] (in_mode (Quoted (str_encode x.1) x.2) (Parser [str_encode "objectlist"] true Content))
(in_mode (Slash (str_encode x.1) x.2) (Parser [str_encode "objectlist"] true Content))) by by apply silent_parse.
change (str_encode "/>" ++ newline) with ([Byte.x2f] ++ [GT] ++ newline). rewrite Hs, parse_app, parse_one.
change (parse_byte GT (in_mode (Slash (str_encode x.1) x.2) ?p)) with (start_tag true (str_encode x.1) x.2 (in_mode (Slash (str_encode x.1) x.2) p)).
by rewrite tag_started by by left.
Qed.

Lemma emit_clips_spec video : ∀ n clip, (∀ endpoint c, clip <= c < clip + Z.of_nat n → plain_url (url_for endpoint (c * stride) span video)) →
∃ ts, emit_clips url_for stride span video clip n = (ts, Ok tt) ∧
Forall2 reports ts ((λ o, ("object", o)) <$> (clip_attrs video <$> seqZ clip (Z.of_nat n))).
Proof.
induction n as [|n IH]; intros clip Hu; [by exists []|]. cbn [emit_clips].
destruct (IH (clip + 1)) as (ts & E & Hts); [intros e c Hc; apply Hu; lia|].
exists ((clip_element url_for (clip * stride) span video ++ newline) :: ts). split.
- cbn [emit mbind stream_bind]. by rewrite E.
- rewrite seqZ_cons by lia. replace (Z.pred (Z.of_nat (S n))) with (Z.of_nat n) by lia. rewrite Z.add_1_r in Hts. constructor; [|exact Hts].
apply clip_written. intros e. apply Hu. lia.
Qed.

(** A video's part of the document: as many clips as its count says. *)
Definition video_tags (line : string) : list tag :=
match num_clips duration ceiling stride (strip_line line) with
| Ok n => ("count", [("adjust", number n)]) :: ((λ o, ("object", o)) <$> clips_of line)
| Raise _ => []
end.

Lemma emit_videos_spec lines : Forall good_video lines →
∃ ts, emit_videos url_for duration ceiling stride span lines = (ts, Ok tt) ∧ Forall2 reports ts (lines ≫= video_tags).
Proof.
induction 1 as [|line lines Hv Hl IH]; [by exists []|]. destruct IH as (ts & E & Hts). cbn [emit_videos]. rewrite bind_cons.
unfold emit_video, good_video in *. unfold video_tags at 1, clips_of. destruct (num_clips _ _ _ _) as [n|e] eqn:En.
- destruct (Hv n eq_refl) as [Hn Hu]. destruct (emit_clips_spec (strip_line line) (Z.to_nat n) 0) as (cs & Ec & Hcs).
{ intros e c Hc. apply Hu. lia. }
exists (count_adjust n :: cs ++ ts). cbn [emit mbind stream_bind]. rewrite Ec, E. cbn. split; [done|].
constructor; [by apply count_written|]. rewrite Z2Nat.id in Hcs by done. by apply Forall2_app.
- exists ts. cbn [mret stream_ret mbind stream_bind]. rewrite E. done.
Qed.

Lemma videos_counted lines : Forall good_video lines → (lines ≫= video_tags) ≫= element_objects = lines ≫= clips_of ∧
Forall (λ e, is_ok (element_count e) = true) (lines ≫= video_tags) ∧
sum (e ← lines ≫= video_tags; [match element_count e with Ok n => n | Raise _ => 0 end]) = Z.of_nat (length (lines ≫= clips_of)).
Proof.
induction 1 as [|line lines Hv Hl (IHo & IHk & IHc)]; [done|]. rewrite !bind_cons, !bind_app, IHo, sum_app, IHc, length_app.
unfold good_video in Hv. unfold video_tags, clips_of. destruct (num_clips _ _ _ _) as [n|e]; [|by split_and!].
destruct (Hv n eq_refl) as [Hn _].
assert (Hc : element_count ("count", [("adjust", number n)]) = Ok n) by apply (number_value n Hn).
rewrite !bind_cons, objects_of. split_and!.
- done.
- constructor; [by rewrite Hc|]. apply Forall_app. split; [apply objects_ok|done].
- rewrite sum_app, objects_count, Hc, length_fmap, length_seqZ. cbn. lia.
Qed.
End Videos.

(** The loader, given the document in any pieces, yields the objects in order and
    counts them right. *)
Definition loaded_as (out : list bytes) (os : list (dict string string)) : Prop :=
  ∀ open_url url pieces, concat pieces = concat out → open_url (urljoin BASE_URL url) = Ok (response_of pieces) →
    ∃ l, collect open_url (S (length os)) (ScopeListLoader_init [[url]]) = ((λ o, (o, urljoin BASE_URL url)) <$> os, Stop, l) ∧
      get_count l = Z.of_nat (length os).

(** A scope list whose counts are tags of their own. *)
Lemma plain_document_loaded ts (xs : list tag) os : Forall2 reports ts xs → xs ≫= element_objects = os →
  Forall (λ e, is_ok (element_count e) = true) xs →
  sum (e ← xs; [match element_count e with Ok n => n | Raise _ => 0 end]) = Z.of_nat (length os) →
  loaded_as ([xml_declaration; str_encode "<objectlist>" ++ newline] ++ ts ++ [objectlist_end]) os.
Proof.
  intros Hts Ho Hk Hc open_url url pieces Hcut Hopen.
  assert (Hroot : parse (xml_declaration ++ str_encode "<objectlist>" ++ newline) parser_init = (inside, [("objectlist", [])])) by (vm_compute; reflexivity).
  destruct (document_loaded ((xml_declaration ++ str_encode "<objectlist>" ++ newline) :: ts ++ [objectlist_end]) _ _ open_url url pieces
    (document_parsed _ _ ts _ Hroot Hts)) as (l & Hcol & Hcount); [done| | |done|].
  - apply Forall_app. split; [by repeat constructor|done].
  - rewrite Hcut. cbn [concat app]. by rewrite <-app_assoc.
  - exists l. rewrite bind_app, Ho in Hcol. rewrite bind_app, sum_app, Hc in Hcount. split; [exact Hcol|]. rewrite Hcount. done.
Qed.

(** The video store's scope list, loaded by the server.  Every video that can be
    examined is announced with the number of its clips, the others are left out;
    the server yields one object for every clip, in order, and its count is the
    number of objects. *)
Theorem video_scope_loaded url_for duration ceiling stride span lines :
  Forall (good_video url_for duration ceiling stride span) lines →
  ∃ out, video_scope url_for duration ceiling stride span (Ok lines) = (out, Ok tt) ∧
    let os := lines ≫= clips_of url_for duration ceiling stride span in
    ∀ open_url url pieces, concat pieces = concat out → open_url (urljoin BASE_URL url) = Ok (response_of pieces) →
      ∃ l, collect open_url (S (length os)) (ScopeListLoader_init [[url]]) = ((λ o, (o, urljoin BASE_URL url)) <$> os, Stop, l) ∧
        get_count l = Z.of_nat (length os).
Proof.
  intros Hok. destruct (emit_videos_spec _ _ _ _ _ lines Hok) as (ts & Ets & Hts).
  destruct (videos_counted _ _ _ _ _ lines Hok) as (Ho & Hk & Hc).
  exists ([xml_declaration; str_encode "<objectlist>" ++ newline] ++ ts ++ [objectlist_end]). split.
  - unfold video_scope. cbn [compute emit mbind stream_bind]. rewrite Ets. by cbn.
  - by apply (plain_document_loaded ts (lines ≫= video_tags url_for duration ceiling stride span)).
Qed.

(** Objects that are each counted by a tag of their own. *)
Definition counted_object (o : dict string string) : list tag := [("count", [("adjust", number 1)]); ("object", o)].

Lemma counted_loaded ts os : Forall2 reports ts (os ≫= counted_object) →
  loaded_as ([xml_declaration; str_encode "<objectlist>" ++ newline] ++ ts ++ [objectlist_end]) os.
Proof.
  intros Hts. assert (Hc : element_count ("count", [("adjust", number 1)]) = Ok 1) by by apply (number_value 1).
  apply (plain_document_loaded _ _ _ Hts); clear Hts; unfold counted_object; (induction os as [|o os IH]; [done|]); rewrite bind_cons.
  - by rewrite bind_app, IH.
  - constructor; [by rewrite Hc|]. by constructor.
  - rewrite bind_app, sum_app, IH. cbn [mbind list_bind app]. rewrite Hc. cbn [length]. rewrite Nat2Z.inj_succ. by rewrite <-Z.add_1_l.
Qed.

Lemma loaded_concat out out' os : concat out = concat out' → loaded_as out os → loaded_as out' os.
Proof. intros E H open_url url pieces Hp. apply H. by rewrite E. Qed.

(** Texts of characters that are written as they are. *)
Definition unquoted (u : string) : Prop := Forall (λ b, xml_byte b = true ∧ escape_byte b = [b] ∧ b ≠ QUOT) (str_encode u).
#[export] Instance unquoted_dec u : Decision (unquoted u).
Proof. unfold unquoted. apply _. Defined.

Lemma unquoted_plain u : unquoted u → plain_url u.
Proof.
  intros Hu. split; [by eapply Forall_impl; [exact Hu|naive_solver]|]. unfold quoteattr.
  assert (He : escape (str_encode u) = str_encode u ∧ QUOT ∉ str_encode u).
  { unfold unquoted in Hu. induction Hu as [|b l (Hx & He & Hq) _ [IHe IHq]]; [split; [done|apply not_elem_of_nil]|]. unfold escape in *.
    rewrite bind_cons, He, IHe. split; [done|by apply not_elem_of_cons]. }
  destruct He as [-> Hq]. by rewrite bool_decide_eq_false_2.
Qed.

Lemma unquoted_app u v : unquoted u → unquoted v → unquoted (u +:+ v).
Proof. intros Hu Hv. unfold unquoted. rewrite str_encode_app. by apply Forall_app. Qed.

Lemma unquoted_number n : 0 <= n → unquoted (number n).
Proof.
  intros Hn. unfold unquoted, number. rewrite str_encode_to_text. eapply Forall_impl; [apply (format_d_nonneg n Hn)|].
  intros b [d Hd]. destruct b; try discriminate Hd; done.
Qed.

(** Literals by evaluation, numbers and concatenations by their lemmas. *)
Ltac unquoted_url := repeat first
  [ apply unquoted_app | apply unquoted_number | case_decide | apply (bool_decide_unpack _); vm_compute; exact I ].

(** ** Examples *)
Definition sample_url (endpoint p : string) : string :=
  (if decide (endpoint = ".get_object_id") then "/collection/id/" else "/collection/meta/") +:+ p.
Definition sample_path (p : string) : option string := Some ("/srv/diamond/" +:+ p).
Definition sample_isfile (p : string) : bool := bool_decide (p = "/srv/diamond/cats & dogs/1.jpg.text_attr").
Definition line_of (p : string) : string := p +:+ to_text newline.
Definition sample_index : list string := [line_of "cats & dogs/1.jpg"; line_of " it's.png"; line_of "3.jpg"].

Lemma sample_good : Forall (λ line, good_path sample_url sample_path (strip_line line)) (selected (Some 2) 0 sample_index).
Proof.
  assert (Hp : ∀ p, xml_text p → good_path sample_url sample_path p).
  { intros p Hp. exists ("/srv/diamond/" +:+ p). split; [done|].
    assert (Hc : ∀ s, xml_text s → xml_text (s +:+ p)) by (intros s Hs; unfold xml_text in *; rewrite str_encode_app; by apply Forall_app).
    split; [|intros e; unfold sample_url; destruct (decide _)]; apply Hc; apply (bool_decide_unpack _); vm_compute; exact I. }
  repeat constructor; apply Hp; apply (bool_decide_unpack _); vm_compute; exact I.
Qed.

Definition sample_out : list bytes := (diamond_scope sample_url sample_path sample_isfile (Some 2) (Ok sample_index) (Ok sample_index)).1.

(** The document arrives in pieces of 50 bytes. *)
Fixpoint cut_up (fuel : nat) (l : bytes) : list bytes :=
  match fuel with O => [l] | S fuel => take 50 l :: cut_up fuel (drop 50 l) end.

Lemma diamond_scope_loaded_witness :
  Forall (λ line, good_path sample_url sample_path (strip_line line)) (selected (Some 2) 0 sample_index) ∧
  ∃ l, collect (λ _, Ok (response_of (cut_up 8 (concat sample_out)))) 3 (ScopeListLoader_init [["/collection/test"]]) =
    ([([("id", "/collection/id/cats & dogs/1.jpg"); ("src", "file:///srv/diamond/cats & dogs/1.jpg"); ("meta", "/collection/meta/cats & dogs/1.jpg")],
       "http://localhost:5873/collection/test");
      ([("id", "/collection/id/it's.png"); ("src", "file:///srv/diamond/it's.png")], "http://localhost:5873/collection/test")], Stop, l) ∧
    get_count l = 2.
Proof.
  split; [exact sample_good|].
  destruct (diamond_scope_loaded sample_url sample_path sample_isfile (Some 2) sample_index sample_good) as (out & os & E & Hos & Hload).
  destruct (Hload (λ _, Ok (response_of (cut_up 8 (concat sample_out)))) "/collection/test" (cut_up 8 (concat sample_out))) as (l & Hl & Hc).
  - assert (Ho : sample_out = out) by (unfold sample_out; rewrite E; reflexivity). rewrite <-Ho. vm_compute. reflexivity.
  - reflexivity.
  - apply Forall2_cons_inv_r in Hos as (o1 & os1 & (p1 & Hp1 & ->) & Hos & ->).
    apply Forall2_cons_inv_r in Hos as (o2 & os2 & (p2 & Hp2 & ->) & Hos & ->). apply Forall2_nil_inv_r in Hos as ->.
    vm_compute in Hp1, Hp2. injection Hp1 as <-. injection Hp2 as <-. exists l. split; [exact Hl|exact Hc].
Defined.

Definition sample_clip (endpoint : string) (start span : Z) (video : string) : string :=
  (if decide (endpoint = ".get_object_id") then "/video/id/" else "/video/obj/") +:+ number start +:+ "/" +:+ number span +:+ "/" +:+ video.
(** The videos are 12 and 0 seconds long; a third cannot be examined. *)
Definition sample_duration (video : string) : res float :=
  if decide (video = "a.mp4") then Ok (dec "12") else if decide (video = "b.mp4") then Ok fzero else Raise ValueError.
Definition sample_ceiling (f : float) : res Z := n ← float_to_int f; d ← float_of_int n; Ok (if flt d f then n + 1 else n).
Definition sample_videos : list string := line_of <$> ["a.mp4"; "broken.mp4"; "b.mp4"].

Lemma sample_videos_good : Forall (good_video sample_clip sample_duration sample_ceiling 5 10) sample_videos.
Proof.
  assert (Hl : ∀ v, strip_line (line_of v) = v → unquoted v → (∀ n, num_clips sample_duration sample_ceiling 5 v = Ok n → 0 <= n) →
    good_video sample_clip sample_duration sample_ceiling 5 10 (line_of v)).
  { intros v Ev Hv H n E. rewrite Ev in *. split; [by apply H|]. intros e clip Hc. apply unquoted_plain. unfold sample_clip. unquoted_url; lia || done. }
  apply Forall_fmap. rewrite !Forall_cons. split_and!; [..|constructor]; (apply Hl; [vm_compute; reflexivity|unquoted_url|]); intros n E; vm_compute in E; try discriminate E; injection E as <-; lia.
Qed.

Definition video_out : list bytes := (video_scope sample_clip sample_duration sample_ceiling 5 10 (Ok sample_videos)).1.

Lemma video_scope_loaded_witness :
  Forall (good_video sample_clip sample_duration sample_ceiling 5 10) sample_videos ∧
  ∃ l, collect (λ _, Ok (response_of (cut_up 8 (concat video_out)))) 4 (ScopeListLoader_init [["/video/scope/test"]]) =
    ((λ clip, ([("id", sample_clip ".get_object_id" clip 10 "a.mp4"); ("src", sample_clip ".get_object" clip 10 "a.mp4")],
       "http://localhost:5873/video/scope/test")) <$> [0; 5; 10], Stop, l) ∧ get_count l = 3.
Proof.
  split; [exact sample_videos_good|].
  destruct (video_scope_loaded sample_clip sample_duration sample_ceiling 5 10 sample_videos sample_videos_good) as (out & E & Hload).
  destruct (Hload (λ _, Ok (response_of (cut_up 8 (concat video_out)))) "/video/scope/test" (cut_up 8 (concat video_out))) as (l & Hl & Hc).
  - assert (Ho : video_out = out) by (unfold video_out; rewrite E; reflexivity). rewrite <-Ho. vm_compute. reflexivity.
  - reflexivity.
  - exists l. split; [exact Hl|exact Hc].
Defined.
