(* ===== verification/TextAttr.v ===== *)
(** The data retriever's files (src/opendiamond/dataretriever/util.py): lists of
    paths, and the text format of object attributes. *)
From S2P Require Import Prelude PyBytes PyText Scope.
Local Open Scope Z_scope.

(** The regular files: path to content. *)
Abbreviation files := (gmap string bytes).

(** ** File lists *)

(** [read_file_list] *)
Definition read_file_list (path : string) (fs : files) : res (list bytes) :=
  match fs !! path with
  | None => Raise SystemExit
  | Some data => Ok (str_strip <$> splitlines data)
  end.

(** What [print(d, file=f)] writes for every [d]. *)
Definition print_lines (data : list bytes) : bytes := data ≫= λ d, d ++ [nl].

(** [write_data]; [user]: the dataretriever user and group exist; [chown]: what
    [os.chown] does. *)
Definition write_data (shuffle : Z → list bytes → list bytes) (user chown : res unit) (path : string) (lists : list (list bytes)) (seed : Z)
    : sm files (list bytes) :=
  lift user ≫= λ _,
  let data := shuffle seed (concat lists) in
  modify (λ fs, <[path := print_lines data]> fs) ≫= λ _,
  lift chown ≫= λ _,
  mret data.

(** ** Text attributes *)

(** A text file's lines, with their ends; [\r\n] and [\r] end a line as well. *)
Fixpoint text_lines_at (cur : bytes) (l : bytes) : list bytes :=
  match l with
  | [] => if decide (cur = []) then [] else [cur]
  | Byte.x0d :: Byte.x0a :: l => (cur ++ [nl]) :: text_lines_at [] l
  | Byte.x0d :: l => (cur ++ [nl]) :: text_lines_at [] l
  | Byte.x0a :: l => (cur ++ [nl]) :: text_lines_at [] l
  | b :: l => text_lines_at (cur ++ [b]) l
  end.
Definition text_lines (l : bytes) : list bytes := text_lines_at [] l.

Abbreviation QUOTE := Byte.x22.

(** A quoted group at the start of a text, and what follows it. *)
Definition quoted (l : bytes) : option (bytes * bytes) :=
  match l with QUOTE :: l => split1 QUOTE l | _ => None end.

(** The regular expression: white space, a quoted group that is not empty, white
    space, an equals sign, white space, a quoted group. *)
Definition match_attr (line : bytes) : option (bytes * bytes) :=
  '(key, l) ← quoted (str_lstrip line);
  if decide (key = []) then None
  else
    match str_lstrip l with
    | Byte.x3d :: l => '(value, _) ← quoted (str_lstrip l); Some (key, value)
    | _ => None
    end.

(** [__iter__] of a file opened for reading. *)
Definition attr_iter (content : bytes) : list (bytes * bytes) := omap match_attr (text_lines content).

(** [write] *)
Definition attr_write (kv : bytes * bytes) : bytes := [QUOTE] ++ kv.1 ++ [QUOTE; Byte.x3d; QUOTE] ++ kv.2 ++ [QUOTE; nl].

(** [with DiamondTextAttr(path, 'w') as f]: the temporary file, the writes of the
    body, which may end with an exception, and [__exit__]: the file is linked to
    its name unless there is one already, and the temporary name removed. *)
Definition writing (tmp path : string) (items : list (bytes * bytes)) (body : res unit) : sm files unit :=
  modify (λ fs, <[tmp := items ≫= attr_write]> fs) ≫= λ _,
  modify (λ fs, match fs !! path, fs !! tmp with None, Some data => <[path := data]> fs | _, _ => fs end) ≫= λ _,
  modify (λ fs, delete tmp fs) ≫= λ _,
  lift body.
Definition reading (path : string) (fs : files) : res (list (bytes * bytes)) :=
  data ← of_option OSError (fs !! path); Ok (attr_iter data).

(** ** The text format *)

(** A key or a value that the format can hold. *)
Definition holds_text (l : bytes) : Prop := QUOTE ∉ l ∧ Byte.x0a ∉ l ∧ Byte.x0d ∉ l.
Definition attr_ok (kv : bytes * bytes) : Prop := holds_text kv.1 ∧ kv.1 ≠ [] ∧ holds_text kv.2.

Lemma text_lines_line l : ∀ cur rest, Byte.x0a ∉ l → Byte.x0d ∉ l → text_lines_at cur (l ++ nl :: rest) = (cur ++ l ++ [nl]) :: text_lines_at [] rest.
Proof.
  induction l as [|b l IH]; intros cur rest; [done|]. rewrite !not_elem_of_cons. intros [Hn Hnl] [Hr Hrl].
  cbn [app]. change (cur ++ b :: l ++ [nl]) with (cur ++ [b] ++ (l ++ [nl])). rewrite app_assoc.
  rewrite <-(IH (cur ++ [b]) rest Hnl Hrl). destruct b; try reflexivity; by destruct Hn || by destruct Hr.
Qed.

Lemma split1_quote l rest : QUOTE ∉ l → split1 QUOTE (l ++ QUOTE :: rest) = Some (l, rest).
Proof. apply split1_app. Qed.

(** A line that was written is matched. *)
Lemma match_written kv : attr_ok kv → match_attr (attr_write kv) = Some kv.
Proof.
  destruct kv as [key value]. intros ((Hk & _) & Hne & (Hv & _)). cbn [fst snd] in *. unfold match_attr, attr_write. cbn [fst snd app].
  rewrite str_lstrip_plain by done. cbn [quoted]. rewrite split1_quote by done. cbn [mbind option_bind].
  rewrite decide_False by done. rewrite str_lstrip_plain by done. rewrite str_lstrip_plain by done. cbn [quoted].
  by rewrite split1_quote.
Qed.

(** The attributes that were written are read back, in order. *)
Lemma iter_written items : Forall attr_ok items → attr_iter (items ≫= attr_write) = items.
Proof.
  unfold attr_iter, text_lines. induction 1 as [|kv items Hkv Hitems IH]; [done|]. rewrite bind_cons.
  assert (∃ l, attr_write kv = l ++ [nl] ∧ Byte.x0a ∉ l ∧ Byte.x0d ∉ l) as (l & El & Hn & Hr).
  { destruct kv as [key value], Hkv as ((_ & ? & ?) & _ & _ & ? & ?). cbn [fst snd] in *.
    exists ([QUOTE] ++ key ++ [QUOTE; Byte.x3d; QUOTE] ++ value ++ [QUOTE]). split.
    - unfold attr_write. cbn [fst snd]. by rewrite <-!app_assoc.
    - rewrite !not_elem_of_app, !not_elem_of_cons. split_and!; first [done | apply not_elem_of_nil]. }
  rewrite El, <-app_assoc. cbn [app]. rewrite text_lines_line by done. cbn [app]. rewrite <-El. cbn [omap list_omap].
  rewrite match_written by done. by f_equal.
Qed.

(** C39.  Text attributes.  What a writer wrote is read back unchanged, unless the file
    was there before: then the first writer has won, and its attributes stay.  No
    other file changes and the temporary one is gone, even if the body of the
    [with] statement failed, whose exception goes on. *)
Theorem text_attr_roundtrip tmp path items body fs : Forall attr_ok items → tmp ≠ path → fs !! tmp = None →
  let '(r, fs') := writing tmp path items body fs in
  r = body ∧ reading path fs' = match fs !! path with None => Ok items | Some _ => reading path fs end ∧
  ∀ p, p ≠ path → fs' !! p = fs !! p.
Proof.
  intros Hok Hne Htmp. unfold writing. erewrite !sm_bind_eq by done. cbv beta. split; [done|].
  rewrite lookup_insert_eq, lookup_insert_ne by done. split.
  - unfold reading. rewrite lookup_delete_ne by done. destruct (fs !! path) as [old|] eqn:Ep.
    + by rewrite lookup_insert_ne, Ep.
    + rewrite lookup_insert_eq. cbn. by rewrite iter_written.
  - intros p Hp. destruct (decide (p = tmp)) as [->|Ht]; [by rewrite lookup_delete_eq|].
    rewrite lookup_delete_ne by done. destruct (fs !! path); rewrite ?lookup_insert_ne by done; done.
Qed.

Lemma text_attr_roundtrip_witness :
  let items := [(str_encode "label", str_encode "brown dog"); (str_encode "note", [])] in
  Forall attr_ok items ∧
  (writing "tmp" "a.jpg.text_attr" items (Raise ValueError) ∅).1 = Raise ValueError ∧
  reading "a.jpg.text_attr" (writing "tmp" "a.jpg.text_attr" items (Raise ValueError) ∅).2 = Ok items.
Proof.
  intros items. assert (Hok : Forall attr_ok items) by (repeat constructor; apply (bool_decide_unpack _); vm_compute; exact I).
  split; [exact Hok|].
  pose proof (text_attr_roundtrip "tmp" "a.jpg.text_attr" items (Raise ValueError) ∅ Hok ltac:(discriminate) eq_refl) as H.
  destruct (writing "tmp" "a.jpg.text_attr" items (Raise ValueError) ∅) as [r fs]. destruct H as (-> & Hr & _). split; [reflexivity|exact Hr].
Defined.

(** ** Lists of paths *)

(** How many bytes of a line end a text begins with. *)
Definition break_length (l : bytes) : nat :=
  match l with
  | Byte.x0d :: Byte.x0a :: _ => 2
  | Byte.xc2 :: Byte.x85 :: _ => 2
  | Byte.xe2 :: Byte.x80 :: Byte.xa8 :: _ => 3
  | Byte.xe2 :: Byte.x80 :: Byte.xa9 :: _ => 3
  | b :: _ => if line_break b then 1 else 0
  | [] => 0
  end.

Lemma splitlines_unfold cur l : splitlines_at cur l =
  if decide (break_length l = 0%nat) then match l with [] => if decide (cur = []) then [] else [cur] | b :: l => splitlines_at (cur ++ [b]) l end
  else cur :: splitlines_at [] (drop (break_length l) l).
Proof.
  destruct l as [|b l]; [done|].
  destruct b; try reflexivity.
  - destruct l as [|[] l]; reflexivity.
  - destruct l as [|[] l]; reflexivity.
  - destruct l as [|[] l]; try reflexivity. destruct l as [|[] l]; reflexivity.
Qed.

(** A text without line ends. *)
Definition unbroken (l : bytes) : Prop := ∀ l1 l2, l = l1 ++ l2 → break_length l2 = 0%nat.

Lemma break_length_app l1 l2 : break_length l1 ≠ 0%nat → break_length (l1 ++ l2) ≠ 0%nat.
Proof.
  destruct l1 as [|b l1]; [done|]. destruct b; try done.
  - intros _. destruct l1 as [|c l1]; [by destruct l2 as [|[] l2]|by destruct c].
  - destruct l1 as [|c l1]; [done|by destruct c].
  - destruct l1 as [|c l1]; [done|]. destruct c; try done. destruct l1 as [|d l1]; [done|by destruct d].
Qed.

Lemma break_length_le l : (break_length l ≤ length l)%nat.
Proof.
  assert (H1 : ∀ b r, ((if line_break b then 1 else 0) ≤ length (b :: r))%nat) by (intros b r; destruct (line_break b); cbn; lia).
  destruct l as [|b l]; [done|]. destruct b; try apply H1.
  - destruct l as [|c l]; [apply H1|]. destruct c; try apply H1. cbn. lia.
  - destruct l as [|c l]; [apply H1|]. destruct c; try apply H1. cbn. lia.
  - destruct l as [|c l]; [apply H1|]. destruct c; try apply H1. destruct l as [|d l]; [apply H1|]. destruct d; try apply H1; cbn; lia.
Qed.

Lemma unbroken_block a l b : unbroken (a ++ l ++ b) → unbroken l.
Proof.
  intros Hu l1 l2 ->. destruct (decide (break_length l2 = 0%nat)) as [|Hb]; [done|]. exfalso.
  apply (break_length_app l2 b Hb). apply (Hu (a ++ l1)). by rewrite <-!app_assoc.
Qed.

(** The lines of a text have no line ends. *)
Lemma splitlines_unbroken_at n : ∀ cur l, (length l ≤ n)%nat →
  (∀ c1 c2, cur = c1 ++ c2 → c2 ≠ [] → break_length (c2 ++ l) = 0%nat) → Forall unbroken (splitlines_at cur l).
Proof.
  assert (Hcur : ∀ cur l, (∀ c1 c2, cur = c1 ++ c2 → c2 ≠ [] → break_length (c2 ++ l) = 0%nat) → unbroken cur).
  { intros cur l Hc l1 l2 ->. destruct (decide (l2 = [])) as [->|Hne]; [done|]. specialize (Hc l1 l2 eq_refl Hne).
    destruct (decide (break_length l2 = 0%nat)) as [|Hb]; [done|]. by destruct (break_length_app l2 l Hb). }
  induction n as [|n IH]; intros cur l Hl Hc; rewrite splitlines_unfold.
  - destruct l; [|cbn in Hl; lia]. cbn. destruct (decide (cur = [])); [done|]. constructor; [by eapply Hcur|done].
  - case_decide as Hb.
    + destruct l as [|b l]; [destruct (decide (cur = [])); [done|]; constructor; [by eapply Hcur|done]|].
      apply IH; [cbn in Hl; lia|]. intros c1 c2 E Hne. destruct (exists_last Hne) as (c3 & x & ->).
      rewrite app_assoc in E. apply app_inj_tail in E as [-> ->]. rewrite <-app_assoc. cbn [app].
      destruct (decide (c3 = [])) as [->|H3]; [exact Hb|]. by apply (Hc c1).
    + constructor; [by eapply Hcur|]. apply IH; [rewrite length_drop; lia|]. intros c1 c2 E Hne.
      symmetry in E. apply app_eq_nil in E as [_ ->]. done.
Qed.
Lemma splitlines_unbroken l : Forall unbroken (splitlines l).
Proof. apply (splitlines_unbroken_at (length l)); [done|]. intros c1 c2 E Hne. symmetry in E. apply app_eq_nil in E as [_ ->]. done. Qed.

Lemma splitlines_line_end l : ∀ cur rest, unbroken l → splitlines_at cur (l ++ nl :: rest) = (cur ++ l) :: splitlines_at [] rest.
Proof.
  induction l as [|b l IH]; intros cur rest Hu; [by rewrite splitlines_unfold, app_nil_r|].
  assert (Hb : break_length ((b :: l) ++ nl :: rest) = 0%nat).
  { specialize (Hu [] (b :: l) eq_refl). destruct b; try done.
    - destruct l as [|c l]; [done|]. by destruct c.
    - destruct l as [|c l]; [done|]. by destruct c.
    - destruct l as [|c l]; [done|]. destruct c; try done. destruct l as [|d l]; [done|]. by destruct d. }
  rewrite splitlines_unfold. rewrite decide_True by exact Hb. cbn [app]. rewrite IH.
  - by rewrite <-app_assoc.
  - apply (unbroken_block [b] l []). by rewrite app_nil_r.
Qed.

(** Lines that were printed are read back. *)
Lemma splitlines_printed data : Forall unbroken data → splitlines (print_lines data) = data.
Proof.
  unfold splitlines, print_lines. induction 1 as [|d data Hd Hdata IH]; [done|]. rewrite bind_cons, <-app_assoc. cbn [app].
  by rewrite splitlines_line_end, IH.
Qed.

(** *** Stripped lines *)
Lemma startswith_extend l p r : startswith l p = true → startswith (l ++ r) p = true.
Proof.
  revert l. induction p as [|x p IH]; intros [|y l]; cbn; try done; [by intros; destruct r|]. rewrite !andb_true_iff. intros [? ?]. auto.
Qed.

Lemma startswith_split p : ∀ l, startswith l p = true → l = p ++ drop (length p) l.
Proof. induction p as [|x p IH]; intros [|y l]; cbn; try done. rewrite andb_true_iff, bool_decide_eq_true. intros [-> H]. f_equal. by apply IH. Qed.

Lemma strip_while_suffix fuel ps : ∀ l, ∃ a, l = a ++ strip_while fuel ps l.
Proof.
  induction fuel as [|fuel IH]; intros l; [by exists []|]. cbn [strip_while].
  destruct (List.find (startswith l) ps) as [p|] eqn:E; [|by exists []].
  apply List.find_some in E as [_ Hp]. destruct (IH (drop (length p) l)) as [a Ha]. exists (p ++ a).
  rewrite <-app_assoc, <-Ha. by apply startswith_split.
Qed.

Lemma strip_while_done fuel ps : Forall (λ p, p ≠ []) ps → ∀ l, (length l ≤ fuel)%nat → List.find (startswith (strip_while fuel ps l)) ps = None.
Proof.
  intros Hps.
  assert (Hnil : List.find (startswith []) ps = None).
  { induction Hps as [|p ps Hp Hps IH]; [done|]. cbn. by destruct p. }
  induction fuel as [|fuel IH]; intros l Hl; [destruct l; [done|cbn in Hl; lia]|]. cbn [strip_while].
  destruct (List.find (startswith l) ps) as [p|] eqn:E; [|done]. apply IH. apply List.find_some in E as [Hin _].
  rewrite length_drop. rewrite Forall_forall in Hps. specialize (Hps p (proj2 (list_elem_of_In _ _) Hin)). destruct p; [done|]. cbn. lia.
Qed.

Lemma strip_while_id fuel ps l : List.find (startswith l) ps = None → strip_while fuel ps l = l.
Proof. intros H. destruct fuel; [done|]. cbn. by rewrite H. Qed.

Lemma find_prefix l r ps : List.find (startswith (l ++ r)) ps = None → List.find (startswith l) ps = None.
Proof.
  induction ps as [|p ps IH]; [done|]. cbn. destruct (startswith (l ++ r) p) eqn:E; [done|].
  destruct (startswith l p) eqn:E'; [|done]. by rewrite (startswith_extend l p r E') in E.
Qed.

(** Stripping cuts a block out of the text, once and for all. *)
Lemma str_strip_block l : ∃ a b, l = a ++ str_strip l ++ b.
Proof.
  unfold str_strip, str_rstrip. destruct (strip_while_suffix (length l) (str_spaces ++ wide_spaces) l) as [a Ha].
  fold (str_lstrip l) in Ha. set (m := str_lstrip l) in *.
  destruct (strip_while_suffix (length m) (reverse <$> (str_spaces ++ wide_spaces)) (reverse m)) as [b Hb].
  exists a, (reverse b). rewrite Ha. f_equal. rewrite <-reverse_app, <-Hb. by rewrite reverse_involutive.
Qed.

Lemma str_strip_idem l : str_strip (str_strip l) = str_strip l.
Proof.
  assert (Hs : Forall (λ p : bytes, p ≠ []) (str_spaces ++ wide_spaces)) by (apply (bool_decide_unpack _); vm_compute; exact I).
  assert (Hr : Forall (λ p : bytes, p ≠ []) (reverse <$> (str_spaces ++ wide_spaces))) by (apply (bool_decide_unpack _); vm_compute; exact I).
  set (r := str_strip l). assert (Hl : str_lstrip r = r).
  { apply strip_while_id. unfold r, str_strip. pose proof (strip_while_done (length l) _ Hs l (le_n _)) as Hd.
    fold (str_lstrip l) in Hd. set (m := str_lstrip l) in *.
    destruct (strip_while_suffix (length m) (reverse <$> (str_spaces ++ wide_spaces)) (reverse m)) as [b Hb].
    apply (find_prefix _ (reverse b)). unfold str_rstrip. rewrite <-reverse_app, <-Hb. by rewrite reverse_involutive. }
  unfold str_strip at 1. rewrite Hl. unfold str_rstrip. rewrite strip_while_id; [apply reverse_involutive|].
  unfold r, str_strip, str_rstrip. rewrite reverse_involutive. apply strip_while_done; [done|by rewrite length_reverse].
Qed.

(** The lines of a list of paths. *)
Definition path_line (l : bytes) : Prop := unbroken l ∧ str_strip l = l.

Lemma read_path_lines path fs data : read_file_list path fs = Ok data → Forall path_line data.
Proof.
  unfold read_file_list. destruct (fs !! path) as [d|]; [|done]. intros [= <-]. apply Forall_fmap.
  eapply Forall_impl; [apply splitlines_unbroken|]. intros l Hl. split; [|apply str_strip_idem].
  destruct (str_strip_block l) as (a & b & E). rewrite E in Hl. by apply unbroken_block in Hl.
Qed.

(** A list that was printed is read back. *)
Lemma read_printed path fs data : Forall path_line data → fs !! path = Some (print_lines data) → read_file_list path fs = Ok data.
Proof.
  intros Hd E. unfold read_file_list. rewrite E. f_equal. rewrite splitlines_printed by (by eapply Forall_impl; [exact Hd|intros ? [? _]]).
  clear E. induction Hd as [|l data [_ Hl] Hd IH]; [done|]. rewrite fmap_cons. by f_equal.
Qed.
