(* ===== verification/Augment.v ===== *)
(** The augmented collection of the data retriever
    (src/opendiamond/dataretriever/augment_store.py): its parameters, the index
    that mixes positive and negative examples, its scope list. *)
From S2P Require Import Prelude PyBytes PyText Dict Float64 FloatText Url Xml Scope ScopeList Config Retriever TextAttr.
Local Open Scope Z_scope.

(** ** Numbers *)
Definition is_zero (f : float) : bool := match f with S754_zero _ => true | _ => false end.

(** The absolute value of a finite float as a fraction. *)
Definition fraction (m : positive) (e : Z) : Z * Z := (Zpos m * 2 ^ Z.max 0 e, 2 ^ Z.max 0 (- e)).

(** [round(f, 4)] *)
Definition round4 (f : float) : float :=
  match f with
  | S754_finite s m e => let '(num, den) := fraction m e in decimal_float s (round_div (num * 10 ^ 4) den) (-4)
  | _ => f
  end.

(** ['{:.2f}'.format(f)] *)
Definition format_2f (f : float) : bytes :=
  let fixed (s : bool) (d : Z) := (if s then str_encode "-" else []) ++ format_d (d / 100) ++ str_encode "." ++ format_d (d mod 100 / 10) ++ format_d (d mod 10) in
  match f with
  | S754_zero s => fixed s 0
  | S754_finite s m e => let '(num, den) := fraction m e in fixed s (round_div (num * 100) den)
  | S754_infinity s => str_encode (if s then "-inf" else "inf")
  | S754_nan => str_encode "nan"
  end.

(** ** decode_params

    [randrange]: what [random.randrange(10000)] gives. *)
Definition decode_params (randrange : Z) (params : bytes) : res (Z * float) :=
  let keywords := split Byte.x5f params in
  let mix_type := default [] (keywords !! 0%nat) in
  seed ← match keywords !! 1%nat with Some k => n ← py_int_str k; Ok (Some n) | None => Ok None end;
  let seed := match seed with Some n => if decide (mix_type = str_encode "r") then randrange else n | None => randrange end in
  percentage ← match keywords !! 2%nat with Some k => py_float (str_strip k) | None => Ok (dec "0.1") end;
  Ok (seed, round4 percentage).

(** ** create_index *)

(** [int(rank * (1.0 / total) * n)] *)
Definition cut_point (rank total n : Z) : res Z :=
  if total =? 0 then Raise ZeroDivisionError
  else
    t ← float_of_int total; r ← float_of_int rank; x ← float_of_int n;
    float_to_int (fmul (fmul r (fdiv (dec "1") t)) x).

(** [int(n * (100. / base_rate - 1))] *)
Definition negatives_for (base_rate : float) (n : Z) : res Z :=
  if is_zero base_rate then Raise ZeroDivisionError
  else x ← float_of_int n; float_to_int (fmul x (fsub (fdiv (dec "100") base_rate) (dec "1"))).

(** [l[a:b]] *)
Definition slice {A} (a b : Z) (l : list A) : list A :=
  let clamp z := Z.to_nat (Z.min (Z.of_nat (length l)) (if z <? 0 then Z.max 0 (z + Z.of_nat (length l)) else z)) in
  drop (clamp a) (take (clamp b) l).

Section Index.
(** [random.Random(seed).shuffle]; [pwd] and [grp]; [os.chown]. *)
Context (shuffle : Z → list bytes → list bytes) (user chown : res unit).

(** The name of the index file. *)
Definition index_name (base_rate : float) (rank total seed : Z) : bytes :=
join [Byte.x5f] [str_encode "STREAM"; format_2f base_rate; format_d rank; format_d total; format_d seed].

Definition index_path (base_dir : string) (base_rate : float) (rank total seed : Z) : string :=
path_join base_dir (to_text (index_name base_rate rank total seed)).

(** The first line of the positive list, and the directory of its path. *)
Definition first_line (data : bytes) : bytes := default [] (head (text_lines data)).
Definition keyword_of (line : bytes) : res bytes :=
let parts := split Byte.x2f (str_rstrip line) in
match parts !! (length parts - 2)%nat with Some k => if decide (2 ≤ length parts)%nat then Ok k else Raise IndexError | None => Raise IndexError end.

Definition create_index (base_dir : string) (base_rate : float) (seed rank total : Z) : sm files (list bytes * bytes) :=
let filepath := index_path base_dir base_rate rank total seed in
let positive_path := path_join base_dir "POSITIVE" in
let negative_path := path_join base_dir "NEGATIVE" in
fs ← get_state;
positive ← lift (of_option OSError (fs !! positive_path));
keyword ← lift (keyword_of (first_line positive));
if decide (fs !! filepath = None) then
positive_data ← lift (read_file_list positive_path fs);
negative_data ← lift (read_file_list negative_path fs);
let positive_data := shuffle seed positive_data in
let negative_data := shuffle seed negative_data in
let len_positive := Z.of_nat (length positive_data) in
start_idx ← lift (cut_point rank total len_positive);
end_idx ← lift (cut_point (rank + 1) total len_positive);
let positive_data := slice start_idx end_idx positive_data in
negative_sample ← lift (negatives_for base_rate (Z.of_nat (length positive_data)));
let negative_data := slice_to negative_sample negative_data in
data ← write_data shuffle user chown filepath [negative_data; positive_data] seed;
mret (data, keyword)
else
data ← lift (read_file_list filepath fs);
mret (data, keyword).
End Index.

(** ** get_scope *)
Section Scope.
(** [url_for] for the object's ID, and for the fixed metadata of positive objects;
[safe_join] with the data root. *)
Context (id_url : string → string) (meta_url : string) (data_path : string → option string).

Fixpoint contains (l k : bytes) : bool :=
startswith l k || match l with [] => false | _ :: l => contains l k end.

(** [_get_object_element] *)
Definition augment_element (keyword : bytes) (object_path : string) : res bytes :=
path ← of_option TypeError (data_path object_path);
Ok (str_encode "<object id=" ++ quoteattr (id_url object_path) ++ str_encode " src=" ++ quoteattr ("file://" +:+ path) ++
(if contains (str_encode path) keyword then str_encode " meta=" ++ quoteattr meta_url else []) ++ str_encode " />").

Fixpoint emit_paths (keyword : bytes) (paths : list string) : stream unit :=
match paths with
| [] => mret tt
| path :: paths =>
compute (augment_element keyword (strip_line path)) ≫= λ t, emit (t ++ newline) ≫= λ _, emit_paths keyword paths
end.

(** The part of the list from [start] to the limit, and the announced count. *)
Definition scope_part (start limit : Z) (base_list : list bytes) : list bytes * Z :=
let total_entries := Z.of_nat (length base_list) in
let start := if 0 <? start then start else 0 in
let stop := if 0 <? limit then Z.min total_entries (start + limit) else total_entries in
(slice start stop base_list, stop - start).

(** [generate]; [keyword]: the global when the element is written. *)
Definition augment_document (keyword : bytes) (base_list : list bytes) (total_entries : Z) : stream unit :=
emit xml_declaration ≫= λ _, emit (objectlist total_entries) ≫= λ _,
emit_paths keyword (to_text <$> base_list) ≫= λ _, emit objectlist_end.

Definition augment_scope (shuffle : Z → list bytes → list bytes) (user chown : res unit) (randrange : Z)
(rootdir : string) (index total : Z) (params : bytes) (start limit : Z) : sm files (stream unit) :=
let rootdir := if decide (rootdir = "0") then "STREAM" else rootdir in
'(seed, percentage) ← lift (decode_params randrange params);
rootdir ← lift (of_option TypeError (data_path rootdir));
'(base_list, keyword) ← create_index shuffle user chown rootdir percentage seed index total;
let '(base_list, total_entries) := scope_part start limit base_list in
mret (augment_document keyword base_list total_entries).
End Scope.

(** ** The index *)
Lemma path_join_inj a b c : startswith (str_encode b) [Byte.x2f] = false → startswith (str_encode c) [Byte.x2f] = false →
  path_join a b = path_join a c → str_encode b = str_encode c.
Proof.
  intros Hb Hc. unfold path_join. rewrite Hb, Hc.
  repeat case_decide; [congruence|]. destruct (endswith _ _); intros E; apply (f_equal str_encode) in E; rewrite !str_encode_app in E;
    [by apply app_inv_head in E|]. by do 2 apply app_inv_head in E.
Qed.

Lemma index_path_new base rate rank total seed :
  index_path base rate rank total seed ≠ path_join base "POSITIVE" ∧ index_path base rate rank total seed ≠ path_join base "NEGATIVE".
Proof.
  assert (He : str_encode (to_text (index_name rate rank total seed)) = str_encode "STREAM" ++ drop 6 (index_name rate rank total seed)).
  { rewrite str_encode_to_text. done. }
  assert (Hs : startswith (str_encode (to_text (index_name rate rank total seed))) [Byte.x2f] = false) by by rewrite He.
  split; intros E; apply path_join_inj in E; try done; by rewrite He in E.
Qed.

Section Stable.
Context (shuffle : Z → list bytes → list bytes) (Hshuffle : ∀ seed l, shuffle seed l ≡ₚ l).

(** What a call of [create_index] that makes an index puts into it: the positive
examples of this server and as many negative ones as the base rate asks for. *)
Definition mixed (base_rate : float) (rank total : Z) (positive negative data : list bytes) : Prop :=
∃ a b n pos neg, cut_point rank total (Z.of_nat (length positive)) = Ok a ∧ cut_point (rank + 1) total (Z.of_nat (length positive)) = Ok b ∧
pos ≡ₚ positive ∧ neg ≡ₚ negative ∧ negatives_for base_rate (Z.of_nat (length (slice a b pos))) = Ok n ∧
data ≡ₚ slice_to n neg ++ slice a b pos.

Lemma slice_in {A} a b (l : list A) x : x ∈ slice a b l → x ∈ l.
Proof. unfold slice. intros Hx. eapply subseteq_take, subseteq_drop, Hx. Qed.

Lemma slice_to_in {A} n (l : list A) x : x ∈ slice_to n l → x ∈ l.
Proof. unfold slice_to. destruct (n <? 0); intros Hx; eapply subseteq_take, Hx. Qed.

(** The calls that succeed. *)
Lemma create_index_Ok user chown base rate seed rank total fs data kw fs' :
create_index shuffle user chown base rate seed rank total fs = (Ok (data, kw), fs') →
let path := index_path base rate rank total seed in
(∃ positive, fs !! path_join base "POSITIVE" = Some positive ∧ keyword_of (first_line positive) = Ok kw) ∧
match fs !! path with
| Some _ => fs' = fs ∧ read_file_list path fs = Ok data
| None => fs' = <[path := print_lines data]> fs ∧ Forall path_line data ∧
∃ positive negative, read_file_list (path_join base "POSITIVE") fs = Ok positive ∧
read_file_list (path_join base "NEGATIVE") fs = Ok negative ∧ mixed rate rank total positive negative data
end.
Proof using Hshuffle.
intros E path. unfold create_index in E. fold path in E.
apply sm_bind_Ok in E as (f & s1 & Ef & E). unfold get_state in Ef. injection Ef as <- <-.
apply sm_bind_Ok in E as (positive & s1 & Ep & E). apply lift_Ok in Ep as [Ep ->].
apply sm_bind_Ok in E as (keyword & s1 & Ek & E). apply lift_Ok in Ek as [Ek ->].
destruct (fs !! path_join base "POSITIVE") as [p|] eqn:Efp; [|done]. injection Ep as ->.
destruct (decide (fs !! path = None)) as [Enone|Esome].
- inv_sm. rewrite Enone. split; [by exists positive|]. unfold write_data in *. inv_sm. cbn [concat]. rewrite app_nil_r.
match goal with H : read_file_list _ _ = Ok ?x, H' : read_file_list _ _ = Ok ?y |- _ => rename x into pos, y into neg; rename H into Hpos, H' into Hneg end.
set (data := shuffle seed _). assert (Hdata : data ≡ₚ slice_to x7 (shuffle seed neg) ++ slice x3 x5 (shuffle seed pos)) by apply Hshuffle.
split; [done|]. split.
+ rewrite Hdata. apply Forall_app. split; apply Forall_forall; intros l Hl; [apply slice_to_in in Hl|apply slice_in in Hl];
rewrite Hshuffle in Hl; [eapply Forall_forall in Hl; [|by eapply read_path_lines]|eapply Forall_forall in Hl; [|by eapply read_path_lines]]; done.
+ exists pos, neg. split_and!; [done..|]. rewrite (Permutation_length (Hshuffle seed pos)) in *.
exists x3, x5, x7, (shuffle seed pos), (shuffle seed neg). by split_and!.
- destruct (fs !! path) eqn:Epath; [|done]. inv_sm. split; [by exists positive|done].
Qed.

End Stable.

(** ** Its scope list, loaded by the server *)

(** The entries from [start] on, no more than a positive limit. *)
Definition part_of {A} (start limit : Z) (l : list A) : list A :=
  let l := drop (Z.to_nat start) l in if 0 <? limit then take (Z.to_nat limit) l else l.

Lemma scope_part_spec start limit l : start <= Z.of_nat (length l) →
  scope_part start limit l = (part_of start limit l, Z.of_nat (length (part_of start limit l))).
Proof.
  intros Hs. unfold scope_part, part_of, slice. set (s := if 0 <? start then start else 0).
  assert (Es : 0 <= s <= Z.of_nat (length l) ∧ Z.to_nat s = Z.to_nat start) by (unfold s; destruct (Z.ltb_spec 0 start); lia).
  destruct Es as [Hsr Hsn]. rewrite <-Hsn.
  replace (if s <? 0 then Z.max 0 (s + Z.of_nat (length l)) else s) with s by (destruct (Z.ltb_spec s 0); lia).
  rewrite (Z.min_r _ s) by lia. destruct (Z.ltb_spec 0 limit) as [Hl|Hl].
  - set (e := Z.min (Z.of_nat (length l)) (s + limit)).
    replace (if e <? 0 then Z.max 0 (e + Z.of_nat (length l)) else e) with e by (destruct (Z.ltb_spec e 0); lia).
    assert (E : drop (Z.to_nat s) (take (Z.to_nat (Z.min (Z.of_nat (length l)) e)) l) = take (Z.to_nat limit) (drop (Z.to_nat s) l)).
    { destruct (Z.le_gt_cases (s + limit) (Z.of_nat (length l))) as [Hc|Hc].
      - replace (Z.to_nat (Z.min (Z.of_nat (length l)) e)) with (Z.to_nat s + Z.to_nat limit)%nat by lia. symmetry. apply take_drop_commute.
      - rewrite !take_ge; [done|rewrite length_drop; lia|lia]. }
    rewrite E. f_equal. rewrite length_take, length_drop. lia.
  - replace (if Z.of_nat (length l) <? 0 then _ else Z.of_nat (length l)) with (Z.of_nat (length l)) by (destruct (Z.ltb_spec (Z.of_nat (length l)) 0); lia).
    rewrite take_ge by lia. f_equal. rewrite length_drop. lia.
Qed.

Section Loaded.
Context (id_url : string → string) (meta_url : string) (data_path : string → option string) (Hmeta : xml_text meta_url).

Definition augment_attrs (keyword : bytes) (p path : string) : dict string string :=
[("id", id_url p); ("src", "file://" +:+ path)] ++ (if contains (str_encode path) keyword then [("meta", meta_url)] else []).
Definition good_entry (p : string) : Prop := ∃ path, data_path p = Some path ∧ xml_text path ∧ xml_text (id_url p).

Lemma entry_written keyword p path : data_path p = Some path → xml_text path → xml_text (id_url p) →
∃ t, augment_element id_url meta_url data_path keyword p = Ok t ∧ reports (t ++ newline) ("object", augment_attrs keyword p path).
Proof using Hmeta.
intros Hp Hx Hu. exists (write_tag ("object", augment_attrs keyword p path) true). split.
- unfold augment_element. rewrite Hp. cbn [of_option mbind res_bind]. f_equal. unfold write_tag, augment_attrs. cbn [fst snd].
rewrite bind_app. unfold write_attr.
destruct (contains (str_encode path) keyword); cbn [mbind list_bind fst snd]; rewrite ?app_nil_r, <-?app_assoc; reflexivity.
- apply reports_tag. unfold augment_attrs. destruct (contains (str_encode path) keyword).
+ apply (object_entry_ok _ path (Some _)); [done..|]. by intros m [= <-].
+ by apply (object_entry_ok _ path None).
Qed.

Lemma emit_paths_spec keyword paths : Forall (λ p, good_entry (strip_line p)) paths →
∃ ts os, emit_paths id_url meta_url data_path keyword paths = (ts, Ok tt) ∧ Forall2 reports ts ((λ o, ("object", o)) <$> os) ∧
Forall2 (λ o p, ∃ path, data_path (strip_line p) = Some path ∧ o = augment_attrs keyword (strip_line p) path) os paths.
Proof using Hmeta.
induction 1 as [|p paths (path & Hp & Hx & Hu) Hps (ts & os & E & Hts & Hos)]; [by exists [], []|].
destruct (entry_written keyword _ path Hp Hx Hu) as (t & Et & Ht). cbn [emit_paths]. rewrite Et. cbn [compute emit mbind stream_bind]. rewrite E.
exists ((t ++ newline) :: ts), (augment_attrs keyword (strip_line p) path :: os). split_and!; [done|by constructor|]. constructor; [by exists path|done].
Qed.

(** The server's loader yields [os] from a document, however it is cut, and counts
them. *)
Definition serves (doc : stream unit) (os : list (dict string string)) : Prop :=
∃ out, doc = (out, Ok tt) ∧
∀ open_url url pieces, concat pieces = concat out → open_url (urljoin BASE_URL url) = Ok (response_of pieces) →
∃ l, collect open_url (S (length os)) (ScopeListLoader_init [[url]]) = ((λ o, (o, urljoin BASE_URL url)) <$> os, Stop, l) ∧
get_count l = Z.of_nat (length os).

(** The object of an entry: metadata exactly where the keyword occurs in the path. *)
Definition entry_object (keyword : bytes) (o : dict string string) (p : bytes) : Prop :=
∃ path, data_path (strip_line (to_text p)) = Some path ∧ o = augment_attrs keyword (strip_line (to_text p)) path.
Definition good_entries (start limit : Z) (data : list bytes) : Prop :=
start <= Z.of_nat (length data) ∧ Forall (λ p, good_entry (strip_line (to_text p))) (part_of start limit data).

Lemma augment_document_served keyword base_list start limit : good_entries start limit base_list →
∃ os, serves (augment_document id_url meta_url data_path keyword (scope_part start limit base_list).1 (scope_part start limit base_list).2) os ∧
Forall2 (entry_object keyword) os (part_of start limit base_list).
Proof using Hmeta.
intros [Hs Hok]. rewrite scope_part_spec by done. cbn [fst snd]. set (part := part_of start limit base_list) in *.
destruct (emit_paths_spec keyword (to_text <$> part)) as (ts & os & E & Hts & Hos); [by apply Forall_fmap|].
assert (Hlen : length os = length part) by (apply Forall2_length in Hos; by rewrite length_fmap in Hos).
exists os. split; [|by apply Forall2_fmap_r in Hos].
exists ([xml_declaration; objectlist (Z.of_nat (length part))] ++ ts ++ [objectlist_end]). split.
- unfold augment_document. cbn [emit mbind stream_bind]. rewrite E. by cbn.
- intros open_url url pieces Hcut Hopen. rewrite Hlen.
destruct (counted_document_loaded (Z.of_nat (length part)) ts os open_url url pieces) as (l & Hl & Hc); [lia|done..|].
exists l. by rewrite Hlen in Hl.
Qed.

(** C16.  The first request for an augmented collection.  When it succeeds while the
index file of its parameters is missing, it makes this file and changes no other:
a list of the share of the positive examples that is cut for this server's number,
counted from 0, and as many negative examples as the base rate asks for, which is
what a reader of the file gets.  If the start lies in the list and every entry from
there up to the limit names a file in the data root, the document, written with
the keyword of this request, is written to its end, and however it is cut into
pieces the server's loader yields one object for each of these entries, in order,
with metadata exactly where the keyword occurs in the file's path; the count is
their number. *)
Theorem augment_scope_loaded shuffle user chown randrange rootdir index total params start limit fs seed rate base doc fs' :
(∀ seed l, shuffle seed l ≡ₚ l) →
decode_params randrange params = Ok (seed, rate) →
data_path (if decide (rootdir = "0") then "STREAM" else rootdir) = Some base →
fs !! index_path base rate index total seed = None →
augment_scope id_url meta_url data_path shuffle user chown randrange rootdir index total params start limit fs = (Ok doc, fs') →
∃ examples positive negative keyword data,
fs !! path_join base "POSITIVE" = Some examples ∧ keyword_of (first_line examples) = Ok keyword ∧
read_file_list (path_join base "POSITIVE") fs = Ok positive ∧ read_file_list (path_join base "NEGATIVE") fs = Ok negative ∧
mixed rate index total positive negative data ∧
fs' = <[index_path base rate index total seed := print_lines data]> fs ∧ read_file_list (index_path base rate index total seed) fs' = Ok data ∧
(good_entries start limit data → ∃ os, serves doc os ∧ Forall2 (entry_object keyword) os (part_of start limit data)).
Proof using Hmeta.
intros Hshuffle Hparams Hbase Hnone E. unfold augment_scope in E. rewrite Hparams in E. cbv zeta in E.
apply sm_bind_Ok in E as ([? ?] & s1 & [[= <- <-] ->]%lift_Ok & E). rewrite Hbase in E.
apply sm_bind_Ok in E as (? & s1 & [[= <-] ->]%lift_Ok & E). apply sm_bind_Ok in E as ([data keyword] & s1 & E1 & E2).
apply (create_index_Ok shuffle Hshuffle) in E1 as ((examples & Hp & Hk) & E1). rewrite Hnone in E1.
destruct E1 as (-> & Hlines & positive & negative & Hpos & Hneg & Hmixed).
destruct (scope_part start limit data) as [part n] eqn:Epart. injection E2 as <- <-.
exists examples, positive, negative, keyword, data. split_and!; [done..| |].
- apply read_printed; [done|]. by rewrite lookup_insert_eq.
- intros Hok. pose proof (augment_document_served keyword data start limit Hok) as Hd. by rewrite Epart in Hd.
Qed.
End Loaded.

(** ** Examples *)
Definition sample_files : files :=
  {["/srv/diamond/STREAM/POSITIVE" := print_lines (str_encode <$> ["birds/yellowthroat/1.jpg"; "birds/yellowthroat/2.jpg "]);
    "/srv/diamond/STREAM/NEGATIVE" := print_lines (str_encode <$> ["yfcc/1.jpg"; "yfcc/2.jpg"; "yfcc/3.jpg"; "yfcc/4.jpg"])]}.
Definition sample_shuffle (seed : Z) (l : list bytes) : list bytes := if Z.even seed then reverse l else l.

Lemma sample_shuffle_perm seed l : sample_shuffle seed l ≡ₚ l.
Proof. unfold sample_shuffle. destruct (Z.even seed); [apply reverse_Permutation|done]. Qed.

(** A request for all of the collection, half of it positive: with seed 42. *)
Definition sample_request (fs : files) : res (stream unit) * files :=
  augment_scope (sample_url ".get_object_id") "/augment/meta/True" sample_path sample_shuffle (Ok tt) (Ok tt) 7 "0" 0 1
    (str_encode "d_42_50") 1 2 fs.
Definition sample_out : list bytes := match (sample_request sample_files).1 with Ok (out, _) => out | _ => [] end.
Definition sample_data : list bytes :=
  str_encode <$> ["birds/yellowthroat/1.jpg"; "birds/yellowthroat/2.jpg"; "yfcc/3.jpg"; "yfcc/4.jpg"].

Lemma sample_entries : good_entries (sample_url ".get_object_id") sample_path 1 2 sample_data.
Proof.
  assert (Hp : ∀ p, xml_text p → good_entry (sample_url ".get_object_id") sample_path p).
  { intros p Hp. exists ("/srv/diamond/" +:+ p). split; [done|]. cbn.
    assert (Hc : ∀ s, xml_text s → xml_text (s +:+ p)) by (intros s Hs; unfold xml_text in *; rewrite str_encode_app; by apply Forall_app).
    split; apply Hc; apply (bool_decide_unpack _); vm_compute; exact I. }
  split; [vm_compute; discriminate|]. repeat constructor; apply Hp; apply (bool_decide_unpack _); vm_compute; exact I.
Qed.

Lemma augment_scope_loaded_witness :
  (sample_request sample_files).2 !! "/srv/diamond/STREAM/STREAM_50.00_0_1_42" = Some (print_lines sample_data) ∧
  ∃ os l, collect (λ _, Ok (response_of (cut_up 8 (concat sample_out)))) 3 (ScopeListLoader_init [["/augment/test"]]) = (os, Stop, l) ∧
    os = [([("id", "/collection/id/birds/yellowthroat/2.jpg"); ("src", "file:///srv/diamond/birds/yellowthroat/2.jpg"); ("meta", "/augment/meta/True")],
           "http://localhost:5873/augment/test");
          ([("id", "/collection/id/yfcc/3.jpg"); ("src", "file:///srv/diamond/yfcc/3.jpg")], "http://localhost:5873/augment/test")] ∧
    get_count l = 2.
Proof.
  assert (Hm : xml_text "/augment/meta/True") by (apply (bool_decide_unpack _); vm_compute; exact I).
  assert (E : sample_request sample_files = (Ok (sample_out, Ok tt), (sample_request sample_files).2)) by (vm_compute; reflexivity).
  assert (Hparams : decode_params 7 (str_encode "d_42_50") = Ok (42, dec "50")) by (vm_compute; reflexivity).
  assert (Hnone : sample_files !! index_path "/srv/diamond/STREAM" (dec "50") 0 1 42 = None) by (vm_compute; reflexivity).
  destruct (augment_scope_loaded (sample_url ".get_object_id") "/augment/meta/True" sample_path Hm sample_shuffle (Ok tt) (Ok tt) 7 "0" 0 1
    (str_encode "d_42_50") 1 2 sample_files 42 (dec "50") "/srv/diamond/STREAM" _ _ sample_shuffle_perm
    Hparams eq_refl Hnone E)
    as (examples & positive & negative & keyword & data & Hex & Hk & _ & _ & _ & Hfs & Hdata & Hload).
  assert (Ed : data = sample_data).
  { assert (Hd : read_file_list "/srv/diamond/STREAM/STREAM_50.00_0_1_42" (sample_request sample_files).2 = Ok sample_data) by (vm_compute; reflexivity).
    change (index_path "/srv/diamond/STREAM" (dec "50") 0 1 42) with (path_join "/srv/diamond/STREAM" (to_text (index_name (dec "50") 0 1 42))) in Hdata.
    replace (path_join "/srv/diamond/STREAM" (to_text (index_name (dec "50") 0 1 42))) with "/srv/diamond/STREAM/STREAM_50.00_0_1_42" in Hdata by (vm_compute; reflexivity).
    rewrite Hd in Hdata. by injection Hdata. }
  subst data. split; [vm_compute; reflexivity|].
  destruct (Hload sample_entries) as (os & (out & Eout & Hserve) & Hos).
  apply (f_equal fst) in Eout. cbn [fst] in Eout. subst out.
  vm_compute in Hex. injection Hex as <-. vm_compute in Hk. injection Hk as <-.
  apply Forall2_cons_inv_r in Hos as (o1 & os1 & (p1 & Hp1 & ->) & Hos & ->).
  apply Forall2_cons_inv_r in Hos as (o2 & os2 & (p2 & Hp2 & ->) & Hos & ->). apply Forall2_nil_inv_r in Hos as ->.
  vm_compute in Hp1, Hp2. injection Hp1 as <-. injection Hp2 as <-.
  destruct (Hserve (λ _, Ok (response_of (cut_up 8 (concat sample_out)))) "/augment/test" (cut_up 8 (concat sample_out))) as (l & Hl & Hc);
    [vm_compute; reflexivity|reflexivity|].
  eexists _, l. split; [exact Hl|]. split; [vm_compute; reflexivity|exact Hc].
Defined.

(** The index that is there is returned as it is, also when the examples have changed. *)
Example index_reused :
  let fs := (sample_request sample_files).2 in
  let fs2 := <["/srv/diamond/STREAM/NEGATIVE" := print_lines [str_encode "new/1.jpg"]]> fs in
  (create_index sample_shuffle (Ok tt) (Ok tt) "/srv/diamond/STREAM" (dec "50") 42 0 1 fs2).1 = Ok (sample_data, str_encode "yellowthroat").
Proof. vm_compute. reflexivity. Qed.

Definition sample_list : list bytes := str_encode <$> ["a/1.jpg"; "birds/yellowthroat/1.jpg"; "a/2.jpg"; "a/3.jpg"].

(** The file name has the base rate with two decimals only: different rates share
    an index. *)
Example rates_collide : index_name (dec "0.104") 0 1 42 = index_name (dec "0.1") 0 1 42 ∧ round4 (dec "0.104") ≠ round4 (dec "0.1").
Proof. vm_compute. split; [reflexivity|discriminate]. Qed.

(** A start beyond the end announces a negative count. *)
Example start_beyond_end : scope_part 9 2 sample_list = ([], -5).
Proof. vm_compute. reflexivity. Qed.

(** The last of 49 servers ends one before the end: no server has the last of 49
    examples. *)
Example last_example_lost : cut_point 49 49 49 = Ok 48.
Proof. vm_compute. reflexivity. Qed.

(** With servers numbered from 1, the first one's part is the second half of the
    examples, and the second one has none. *)
Example parts_from_one :
  (a ← cut_point 1 2 4; b ← cut_point 2 2 4; Ok (slice a b sample_list)) = Ok (str_encode <$> ["a/2.jpg"; "a/3.jpg"]) ∧
  (a ← cut_point 2 2 4; b ← cut_point 3 2 4; Ok (slice a b sample_list)) = Ok [].
Proof. vm_compute. split; reflexivity. Qed.
