(* ===== verification/Mixer.v ===== *)
(** The mixer store of the data retriever
    (src/opendiamond/dataretriever/mixer_store.py): a base collection into which
    objects of another one are mixed at random places, its parameters, its list of
    mixers, and its scope list. *)
From S2P Require Import Prelude PyBytes PyText Dict Float64 FloatText Url Xml Scope ScopeList Config Retriever TextAttr Augment.
Local Open Scope Z_scope.

Definition ITEMS_PER_ITERATION : Z := 10000.

(** ** Parameters: the seed ([None]: random) and the share of mixers *)
Definition mixer_params (params : bytes) : res (option Z * float) :=
  let keywords := split Byte.x5f params in
  k ← of_option IndexError (keywords !! 1%nat); seed ← py_int_str k;
  let seed := if decide (keywords !! 0%nat = Some (str_encode "r")) then None else Some seed in
  percentage ← match keywords !! 2%nat with
    | Some k => x ← py_float (str_strip k); Ok (fdiv x (dec "100"))
    | None => Ok (dec "0.0001")
    end;
  Ok (seed, round4 percentage).

(** ['/'.join(path.split('/')[:-2])] *)
Definition grandparent (path : bytes) : bytes :=
  let parts := split Byte.x2f path in join [Byte.x2f] (take (length parts - 2) parts).

(** [l.replace(old, '')], for an [old] that is not empty. *)
Fixpoint remove_all (old l : bytes) (skip : nat) : bytes :=
  match l with
  | [] => []
  | b :: l =>
    match skip with
    | S skip => remove_all old l skip
    | O => if startswith (b :: l) old then remove_all old l (length old - 1) else b :: remove_all old l 0
    end
  end.

Section Mixer.
(** [url_for]: the URL of an endpoint and a path; [safe_join] with the data root;
[os.path.isfile]; the lines of the index file of a collection; the sorted
names of a directory's .jpg files; [DATAROOT]; [random.Random(seed).shuffle];
[sorted(random.sample(range(10000), k))] in an iteration. *)
Context (url_for : string → string → string) (data_path : string → option string) (isfile : string → bool).
Context (index_lines : bytes → res (list string)) (jpgs : string → list string) (dataroot : string).
Context (shuffle : option Z → list string → list string) (mix_sample : nat → Z → list Z).

(** ** get_mixer_list

The results of [classes.replace] are thrown away. *)
Definition class_path (first : string) (c : bytes) : res string :=
of_option TypeError (data_path (to_text (grandparent (str_encode first) ++ [Byte.x2f] ++ str_strip c))).

Definition get_mixer_list (index : bytes) (classes : bytes) : res (list string) :=
lines ← index_lines index;
match classes with
| [] => Ok lines
| _ =>
paths ← mapM_res (class_path (default "" (head lines))) (split Byte.x2c classes);
Ok ((λ l, to_text (remove_all (str_encode dataroot ++ [Byte.x2f]) (str_encode (strip_line l)) 0)) <$> (paths ≫= jpgs))
end.

(** The share of a server, numbered from 1. *)
Definition mixer_share (index total : Z) (mixers : list string) : res (list string) :=
let n := Z.of_nat (length mixers) in
start_idx ← cut_point (index - 1) total n; end_idx ← cut_point index total n; Ok (slice start_idx end_idx mixers).

(** ** _get_object_element *)
Definition mixer_element (object_path : string) : res bytes :=
path ← of_option AttributeError (data_path object_path);
Ok (str_encode "<object id=" ++ quoteattr (url_for ".get_object_id" object_path) ++ str_encode " src=" ++ quoteattr ("file://" +:+ path) ++
(if isfile (to_text (grandparent (str_encode path) ++ str_encode "/classes.txt"))
 then str_encode " meta=" ++ quoteattr (url_for ".get_object_meta" object_path) else []) ++ str_encode " />").

(** ** generate *)

(** [generate_mix_indices], with [mix_per_iteration] *)
Definition generate_mix_indices (k : Z) (iteration : nat) : res (list Z) :=
if (k <? 0) || (ITEMS_PER_ITERATION <? k) then Raise ValueError
else Ok ((λ x, x + ITEMS_PER_ITERATION * Z.of_nat iteration) <$> mix_sample iteration k).

Definition emit_path (path : string) : stream unit := compute (mixer_element (strip_line path)) ≫= λ t, emit (t ++ newline).

(** The loop over [range(total_entries)].  [mixers]: the pool, and the number of
mixers per iteration, when there is something to mix; [i]: how many the pool
has given; [base]: what is left of the base list. *)
Fixpoint emit_mixed (mixers : option (list string * Z)) (n : nat) (count : Z) (iteration : nat) (mix : list Z) (base : list string) (i : nat) : stream unit :=
match n with
| O => mret tt
| S n =>
'(mix, iteration) ← (match mixers with
| Some (_, k) => if count mod ITEMS_PER_ITERATION =? 0 then m ← compute (generate_mix_indices k iteration); mret (m, S iteration) else mret (mix, iteration)
| None => mret (mix, iteration)
end : stream (list Z * nat));
if decide (count ∈ mix) then
path ← compute (match mixers with Some (pool, _) => of_option StopIteration (pool !! (i mod length pool)%nat) | None => Raise NameError end);
emit_path path ≫= λ _, emit_mixed mixers n (count + 1) iteration mix base (S i)
else
match base with
| [] => compute (Raise IndexError)
| path :: base => emit_path path ≫= λ _, emit_mixed mixers n (count + 1) iteration mix base i
end
end.

Definition mixer_document (mixers : option (list string * Z)) (total_entries : Z) (base : list string) : stream unit :=
emit xml_declaration ≫= λ _, emit (objectlist total_entries) ≫= λ _,
emit_mixed mixers (Z.to_nat total_entries) 0 0 [] base 0 ≫= λ _, emit objectlist_end.

(** [int(percentage * n)] *)
Definition share_of (percentage : float) (n : Z) : res Z := x ← float_of_int n; float_to_int (fmul percentage x).

(** ** get_scope *)

(** The base collection; "0" stands for none. *)
Definition base_entries (baseidx : string) (start limit : Z) : res (list string) :=
if decide (baseidx = "0") then Ok []
else
base ← index_lines (str_encode baseidx);
Ok (if 0 <? limit then slice start (start + limit) base else if 0 <? start then slice start (Z.of_nat (length base)) base else base).

Definition get_scope (baseidx : string) (params : bytes) (mixer_list : option (list string)) (start limit : Z) : res (stream unit) :=
'(seed, percentage) ← mixer_params params;
base ← base_entries baseidx start limit;
match base, mixer_list with
| [], None => Raise TypeError
| [], Some mixers => Ok (mixer_document None (Z.of_nat (length mixers)) mixers)
| _, None | _, Some [] => Ok (mixer_document None (Z.of_nat (length base)) base)
| _, Some mixers =>
let mixers := shuffle seed mixers in
total_sample ← share_of percentage (Z.of_nat (length base));
Ok (match share_of percentage ITEMS_PER_ITERATION with
| Ok k => mixer_document (Some (mixers, k)) (Z.of_nat (length base) + total_sample) base
| Raise e => emit xml_declaration ≫= λ _, emit (objectlist (Z.of_nat (length base) + total_sample)) ≫= λ _, compute (Raise e)
end)
end.
End Mixer.

(** ** Merging by a pattern *)

(** The entries that are written: at every place of the pattern the next mixer, or
    the next entry of the base list, until that one is exhausted. *)
Fixpoint weave (pool : list string) (pat : list bool) (base : list string) (i : nat) : list string * bool :=
  match pat with
  | [] => ([], true)
  | true :: pat => let '(l, ok) := weave pool pat base (S i) in (default "" (pool !! (i mod length pool)%nat) :: l, ok)
  | false :: pat =>
    match base with
    | [] => ([], false)
    | p :: base => let '(l, ok) := weave pool pat base i in (p :: l, ok)
    end
  end.

(** The entries at the places of one kind. *)
Fixpoint places {A} (kind : bool) (pat : list bool) (l : list A) : list A :=
  match pat, l with
  | b :: pat, x :: l => if Bool.eqb b kind then x :: places kind pat l else places kind pat l
  | _, _ => []
  end.
Definition mixed_in (pat : list bool) : nat := length (filter (λ b, b = true) pat).

(** The woven list: the base list in order, the mixers in turn; it is complete if
    the base list has enough entries. *)
Lemma weave_spec pool pat : ∀ base i, let '(l, ok) := weave pool pat base i in
  places false pat l = take (length pat - mixed_in pat) base ∧
  (ok = true → places true pat l = (λ j, default "" (pool !! (j mod length pool)%nat)) <$> seq i (mixed_in pat)) ∧
  (ok = true → length l = length pat) ∧ (ok = true ↔ (length pat - mixed_in pat ≤ length base)%nat) ∧
  ∀ p, p ∈ l → p ∈ base ∨ p = "" ∨ p ∈ pool.
Proof.
  induction pat as [|b pat IH]; intros base i; cbn [weave].
  { split_and!; [done|done|done| |set_solver]. cbn. split; [lia|done]. }
  assert (Hm : (mixed_in pat ≤ length pat)%nat) by apply length_filter. destruct b.
  - specialize (IH base (S i)). destruct (weave pool pat base (S i)) as [l ok]. destruct IH as (Hf & Ht & Hl & Hok & Hin).
    change (mixed_in (true :: pat)) with (S (mixed_in pat)). cbn [places length Bool.eqb seq fmap list_fmap].
    split_and!; [by rewrite Hf|intros Hk; by rewrite Ht|intros Hk; by rewrite Hl|by rewrite Hok|].
    intros p [->|Hp]%elem_of_cons; [|by apply Hin]. destruct (pool !! _) as [q|] eqn:E; [|by right; left].
    right. right. by eapply list_elem_of_lookup_2.
  - change (mixed_in (false :: pat)) with (mixed_in pat). cbn [length]. destruct base as [|q base].
    + cbn [places length]. split_and!; [by rewrite take_nil|done|done| |by intros p ?%not_elem_of_nil]. split; [done|lia].
    + specialize (IH base i). destruct (weave pool pat base i) as [l ok]. destruct IH as (Hf & Ht & Hl & Hok & Hin).
      replace (S (length pat) - mixed_in pat)%nat with (S (length pat - mixed_in pat)) by lia.
      cbn [places length Bool.eqb take]. split_and!; [by rewrite Hf|done|intros Hk; by rewrite Hl|rewrite Hok; lia|].
      intros p [->|Hp]%elem_of_cons; [left; by left|]. destruct (Hin p Hp) as [?|?]; [left; by right|by right].
Qed.

(** ** The scope list, loaded by the server *)
Section Loaded.
Context (url_for : string → string → string) (data_path : string → option string) (isfile : string → bool).
Context (mix_sample : nat → Z → list Z).
Context (Hsample : ∀ i k x, x ∈ mix_sample i k → 0 <= x < ITEMS_PER_ITERATION).

Definition mixer_attrs (p path : string) : dict string string :=
[("id", url_for ".get_object_id" p); ("src", "file://" +:+ path)] ++
(if isfile (to_text (grandparent (str_encode path) ++ str_encode "/classes.txt")) then [("meta", url_for ".get_object_meta" p)] else []).
Definition element_of (o : dict string string) (line : string) : Prop :=
∃ path, data_path (strip_line line) = Some path ∧ o = mixer_attrs (strip_line line) path.
Abbreviation good_line := (λ line, good_path url_for data_path (strip_line line)).

Lemma emit_path_good line : good_line line → ∃ t o, emit_path url_for data_path isfile line = ([t], Ok tt) ∧ reports t ("object", o) ∧ element_of o line.
Proof.
intros (path & Hp & Hx & Hu). exists (write_tag ("object", mixer_attrs (strip_line line) path) true ++ newline), (mixer_attrs (strip_line line) path).
split_and!; [| |by exists path].
- unfold emit_path, mixer_element. rewrite Hp. cbn [of_option compute emit mbind stream_bind res_bind app]. do 3 f_equal.
unfold write_tag, mixer_attrs. cbn [fst snd]. rewrite bind_app. unfold write_attr.
destruct (isfile _); cbn [mbind list_bind fst snd]; rewrite ?app_nil_r, <-?app_assoc; reflexivity.
- apply reports_tag. unfold mixer_attrs. destruct (isfile (to_text _)).
+ apply (object_entry_ok _ path (Some _)); [by apply Hu|done|]. intros m [= <-]. apply Hu.
+ by apply (object_entry_ok _ path None).
Qed.

(** The places of the mixers. *)
Definition is_mixed (k count : Z) : bool :=
bool_decide (count mod ITEMS_PER_ITERATION ∈ mix_sample (Z.to_nat (count / ITEMS_PER_ITERATION)) k).

(** What the loop has at a count: the number of blocks that it has begun, the
places in the current one. *)
Definition block (k count : Z) : list Z :=
(λ x, x + ITEMS_PER_ITERATION * Z.of_nat (Z.to_nat (count / ITEMS_PER_ITERATION))) <$> mix_sample (Z.to_nat (count / ITEMS_PER_ITERATION)) k.
Definition at_count (k count : Z) (iteration : nat) (mix : list Z) : Prop :=
if count mod ITEMS_PER_ITERATION =? 0 then iteration = Z.to_nat (count / ITEMS_PER_ITERATION)
else iteration = S (Z.to_nat (count / ITEMS_PER_ITERATION)) ∧ mix = block k count.

Lemma block_mixed k count : 0 <= count → count ∈ block k count ↔ is_mixed k count = true.
Proof using Hsample.
intros Hc. unfold block, is_mixed. rewrite bool_decide_eq_true, list_elem_of_fmap.
assert (Hd : 0 <= count / ITEMS_PER_ITERATION) by (apply Z.div_pos; unfold ITEMS_PER_ITERATION; lia).
rewrite Z2Nat.id by done. pose proof (Z.div_mod count ITEMS_PER_ITERATION ltac:(done)) as Hdm. split.
- intros (x & Hx & Hin). replace (count mod ITEMS_PER_ITERATION) with x by lia. done.
- intros Hin. exists (count mod ITEMS_PER_ITERATION). split; [lia|done].
Qed.

Lemma at_next k count iteration : 0 <= count → iteration = S (Z.to_nat (count / ITEMS_PER_ITERATION)) → at_count k (count + 1) iteration (block k count).
Proof.
intros Hc Hi. unfold at_count. pose proof (Z.div_mod count ITEMS_PER_ITERATION ltac:(done)) as Hdm.
pose proof (Z.mod_pos_bound count ITEMS_PER_ITERATION ltac:(done)) as Hb.
assert (Hd : 0 <= count / ITEMS_PER_ITERATION) by (apply Z.div_pos; unfold ITEMS_PER_ITERATION; lia).
destruct (decide (count mod ITEMS_PER_ITERATION = ITEMS_PER_ITERATION - 1)) as [Hlast|Hmid].
- assert (Hq : (count + 1) / ITEMS_PER_ITERATION = count / ITEMS_PER_ITERATION + 1 ∧ (count + 1) mod ITEMS_PER_ITERATION = 0).
{ split; [symmetry; apply (Z.div_unique_pos _ _ _ 0)|symmetry; apply (Z.mod_unique_pos _ _ (count / ITEMS_PER_ITERATION + 1))]; unfold ITEMS_PER_ITERATION in *; lia. }
destruct Hq as [-> ->]. cbn [Z.eqb]. lia.
- assert (Hq : (count + 1) / ITEMS_PER_ITERATION = count / ITEMS_PER_ITERATION ∧ (count + 1) mod ITEMS_PER_ITERATION = count mod ITEMS_PER_ITERATION + 1).
{ split; [symmetry; apply (Z.div_unique_pos _ _ _ (count mod ITEMS_PER_ITERATION + 1))|symmetry; apply (Z.mod_unique_pos _ _ (count / ITEMS_PER_ITERATION))]; lia. }
destruct Hq as [Hq ->]. destruct (Z.eqb_spec (count mod ITEMS_PER_ITERATION + 1) 0); [lia|]. unfold block. by rewrite Hq.
Qed.

(** The places when the entry at a count is written. *)
Lemma mix_at k count iteration mix : 0 <= k <= ITEMS_PER_ITERATION → at_count k count iteration mix →
(if count mod ITEMS_PER_ITERATION =? 0 then m ← compute (generate_mix_indices mix_sample k iteration); mret (m, S iteration) else mret (mix, iteration) : stream (list Z * nat)) =
([], Ok (block k count, S (Z.to_nat (count / ITEMS_PER_ITERATION)))).
Proof.
intros Hk. unfold at_count. destruct (_ =? 0).
- intros ->. unfold generate_mix_indices. destruct (Z.ltb_spec k 0); [lia|]. destruct (Z.ltb_spec ITEMS_PER_ITERATION k); [lia|]. done.
- by intros [-> ->].
Qed.

(** The loop writes the woven list, and fails where the base list is exhausted. *)
Lemma emit_mixed_spec pool k : pool ≠ [] → 0 <= k <= ITEMS_PER_ITERATION → Forall good_line pool →
∀ n count iteration mix base i, 0 <= count → at_count k count iteration mix → Forall good_line base →
∃ ts os, let '(l, ok) := weave pool (is_mixed k <$> seqZ count (Z.of_nat n)) base i in
emit_mixed url_for data_path isfile mix_sample (Some (pool, k)) n count iteration mix base i = (ts, if (ok : bool) then Ok tt else Raise IndexError) ∧
Forall2 reports ts ((λ o, ("object", o)) <$> os) ∧ Forall2 element_of os l.
Proof using Hsample.
intros Hpool Hk Hgood n. induction n as [|n IH]; intros count iteration mix base i Hc Hat Hbase; [by exists [], []|].
rewrite seqZ_cons, fmap_cons by lia. replace (Z.pred (Z.of_nat (S n))) with (Z.of_nat n) by lia. rewrite <-Z.add_1_r.
cbn [emit_mixed]. rewrite (mix_at k count iteration mix Hk Hat). cbn [mbind stream_bind app].
pose proof (at_next k count _ Hc eq_refl) as Hnext. cbn [weave].
destruct (is_mixed k count) eqn:Hmix.
- rewrite decide_True by (by apply block_mixed).
assert (is_Some (pool !! (i mod length pool)%nat)) as [line Hline].
{ apply lookup_lt_is_Some, Nat.mod_upper_bound. by destruct pool. }
rewrite Hline. cbn [of_option compute mbind stream_bind app].
destruct (emit_path_good line) as (t & o & Et & Ht & Ho); [exact (Forall_lookup_1 _ _ _ _ Hgood Hline)|]. rewrite Et. cbn [app].
destruct (IH (count + 1) _ _ base (S i) ltac:(lia) Hnext Hbase) as (ts & os & Hr).
destruct (weave pool (is_mixed k <$> seqZ (count + 1) (Z.of_nat n)) base (S i)) as [l ok]. destruct Hr as (-> & Hts & Hos).
exists (t :: ts), (o :: os). split_and!; [done|by constructor|by constructor].
- rewrite decide_False by (rewrite block_mixed by done; congruence). destruct base as [|line base]; [by exists [], []|].
apply Forall_cons in Hbase as [Hline Hbase]. destruct (emit_path_good line Hline) as (t & o & Et & Ht & Ho). rewrite Et. cbn [app].
destruct (IH (count + 1) _ _ base i ltac:(lia) Hnext Hbase) as (ts & os & Hr).
destruct (weave pool (is_mixed k <$> seqZ (count + 1) (Z.of_nat n)) base i) as [l ok]. destruct Hr as (-> & Hts & Hos).
exists (t :: ts), (o :: os). split_and!; [done|by constructor|by constructor].
Qed.

(** C17.  Mixing [k] objects into every ten thousand, from a pool that is used in turn.
[total] entries are announced, [places] of them are to be mixers.  If the base
list has enough entries for the rest, the document is written to the end: the
first entries of the base list in order and the mixers in turn, at their
places, and the server's loader yields one object for each and counts them
right.  Otherwise the document breaks off after the last entry of the base
list. *)
Theorem mixer_scope_loaded pool k base extra : pool ≠ [] → 0 <= k <= ITEMS_PER_ITERATION → 0 <= extra →
Forall good_line pool → Forall good_line base →
let total := Z.of_nat (length base) + extra in
let pat := is_mixed k <$> seqZ 0 total in
let '(out, r) := mixer_document url_for data_path isfile mix_sample (Some (pool, k)) total base in
∃ l os, Forall2 element_of os l ∧ places false pat l = take (Z.to_nat total - mixed_in pat) base ∧
if decide (extra <= Z.of_nat (mixed_in pat)) then
r = Ok tt ∧ length os = Z.to_nat total ∧
places true pat l = (λ j, default "" (pool !! (j mod length pool)%nat)) <$> seq 0 (mixed_in pat) ∧
∀ open_url url pieces, concat pieces = concat out → open_url (urljoin BASE_URL url) = Ok (response_of pieces) →
∃ ld, collect open_url (S (length os)) (ScopeListLoader_init [[url]]) = ((λ o, (o, urljoin BASE_URL url)) <$> os, Stop, ld) ∧ get_count ld = total
else r = Raise IndexError ∧ (length out = 2 + length os)%nat.
Proof using Hsample.
intros Hpool Hk Hx Hgp Hgb. cbv zeta. set (total := Z.of_nat (length base) + extra). set (pat := is_mixed k <$> seqZ 0 total).
assert (Hlen : length pat = Z.to_nat total) by (unfold pat; by rewrite length_fmap, length_seqZ).
assert (Hmix : (mixed_in pat ≤ length pat)%nat) by apply length_filter.
destruct (emit_mixed_spec pool k Hpool Hk Hgp (Z.to_nat total) 0 0 [] base 0) as (ts & os & Hr); [lia|done|done|].
rewrite Z2Nat.id in Hr by lia. fold pat in Hr. pose proof (weave_spec pool pat base 0) as Hw.
destruct (weave pool pat base 0) as [l ok]. destruct Hr as (E & Hts & Hos), Hw as (Hf & Ht & Hl & Hok & _).
unfold mixer_document. rewrite E. rewrite Hlen in *. destruct ok; cbn [emit mbind stream_bind app]; exists l, os.
- split; [done|]. split; [done|]. rewrite decide_True by (destruct Hok as [Hok _]; specialize (Hok eq_refl); lia).
assert (Hlo : length os = Z.to_nat total) by (apply Forall2_length in Hos; rewrite Hos; by apply Hl).
split_and!; [done|done|by apply Ht|]. intros open_url url pieces Hcut Hopen.
apply (counted_document_loaded total ts os open_url url pieces); [lia|done| |done]. rewrite Hcut. done.
- split; [done|]. split; [done|]. rewrite decide_False.
+ split; [done|]. apply Forall2_length in Hts. rewrite length_fmap in Hts. cbn [length]. by rewrite Hts.
+ intros Hle. assert (false = true) by (apply Hok; lia). done.
Qed.
End Loaded.

(** ** Examples *)
Definition sample_base : list string := ["a/1.jpg"; "a/2.jpg "; "a/3.jpg"; "a/4.jpg"].
Definition sample_pool : list string := ["birds/gull/1.jpg"; "birds/gull/2.jpg"].
Definition sample_places (i : nat) (k : Z) : list Z := [1; 3; 9000].
Definition sample_isfile (path : string) : bool := bool_decide (path = "/srv/diamond/birds/classes.txt").

Lemma sample_places_range i k x : x ∈ sample_places i k → 0 <= x < ITEMS_PER_ITERATION.
Proof. unfold sample_places, ITEMS_PER_ITERATION. rewrite !elem_of_cons. intros [->|[->|[->|?%not_elem_of_nil]]]; [lia..|done]. Qed.

Lemma sample_lines_good : ∀ l, l ∈ [sample_base; sample_pool] → Forall (λ line, good_path sample_url sample_path (strip_line line)) l.
Proof.
  assert (Hp : ∀ p, xml_text p → good_path sample_url sample_path p).
  { intros p Hp. exists ("/srv/diamond/" +:+ p). split; [done|].
    assert (Hc : ∀ s, xml_text s → xml_text (s +:+ p)) by (intros s Hs; unfold xml_text in *; rewrite str_encode_app; by apply Forall_app).
    split; [|intros e; unfold sample_url; destruct (decide _)]; apply Hc; apply (bool_decide_unpack _); vm_compute; exact I. }
  intros l [->|[->|?%not_elem_of_nil]%elem_of_cons]%elem_of_cons; [| |done]; repeat constructor; apply Hp; apply (bool_decide_unpack _); vm_compute; exact I.
Qed.

Definition sample_document (base : list string) (extra : Z) : stream unit :=
  mixer_document sample_url sample_path sample_isfile sample_places (Some (sample_pool, 3)) (Z.of_nat (length base) + extra) base.

Lemma mixer_scope_loaded_witness :
  (sample_document sample_base 2).2 = Ok tt ∧
  ∃ os ld, collect (λ _, Ok (response_of (cut_up 7 (concat (sample_document sample_base 2).1)))) 7 (ScopeListLoader_init [["/cocktail/test"]]) =
    ((λ o, (o, "http://localhost:5873/cocktail/test")) <$> os, Stop, ld) ∧ get_count ld = 6 ∧
    (λ o, dict_get o "src") <$> os = (λ p, Some ("file:///srv/diamond/" +:+ p)) <$> ["a/1.jpg"; "birds/gull/1.jpg"; "a/2.jpg"; "birds/gull/2.jpg"; "a/3.jpg"; "a/4.jpg"].
Proof.
  split; [vm_compute; reflexivity|].
  pose proof (mixer_scope_loaded sample_url sample_path sample_isfile sample_places sample_places_range sample_pool 3 sample_base 2
    ltac:(discriminate) ltac:(split; discriminate) ltac:(discriminate) (sample_lines_good _ ltac:(by right; left)) (sample_lines_good _ ltac:(by left))) as Hs.
  cbv zeta in Hs. change (mixer_document _ _ _ _ _ _ _) with (sample_document sample_base 2) in Hs.
  destruct (sample_document sample_base 2) as [out r] eqn:Eout.
  destruct Hs as (l & os & Hos & Hf & Hs). rewrite decide_True in Hs by (vm_compute; discriminate).
  destruct Hs as (_ & Hlen & Ht & Hload).
  destruct (Hload (λ _, Ok (response_of (cut_up 7 (concat out)))) "/cocktail/test" (cut_up 7 (concat out))) as (ld & Hl & Hc).
  - assert (out = (sample_document sample_base 2).1) as -> by (by rewrite Eout). vm_compute. reflexivity.
  - reflexivity.
  - exists os, ld. rewrite Hlen in Hl. split; [exact Hl|]. split; [exact Hc|].
    assert (El : l = ["a/1.jpg"; "birds/gull/1.jpg"; "a/2.jpg "; "birds/gull/2.jpg"; "a/3.jpg"; "a/4.jpg"]).
    { apply Forall2_length in Hos. rewrite Hlen in Hos. change (Z.to_nat (Z.of_nat (length sample_base) + 2)) with 6%nat in Hos.
      do 6 (destruct l as [|? l]; [discriminate|]). destruct l; [|discriminate].
      vm_compute in Hf, Ht. injection Hf as -> -> -> ->. injection Ht as -> ->. reflexivity. }
    subst l. clear -Hos.
    repeat (match goal with H : Forall2 _ _ (_ :: _) |- _ => apply Forall2_cons_inv_r in H as (? & ? & (? & Hp & ->) & H & ->); vm_compute in Hp; injection Hp as <- end).
    apply Forall2_nil_inv_r in Hos as ->. vm_compute. reflexivity.
Defined.

(** One of four announced objects is to be a mixer, but its place is not among the
    first four: the document breaks off without its end. *)
Example document_breaks_off : (mixer_document sample_url sample_path sample_isfile (λ _ _, [9000]) (Some (sample_pool, 1)) 4 (take 3 sample_base)).2 = Raise IndexError.
Proof. vm_compute. reflexivity. Qed.

(** An escaped comma does not separate classes. *)
Example escaped_comma :
  get_mixer_list sample_path (λ _, Ok ["birds/gull/1.jpg"]) (λ p, [p +:+ "/1.jpg"]) "/srv/diamond" [] (str_encode "gull%2Ccardinal, tern") =
  Ok ["birds/gull%2Ccardinal/1.jpg"; "birds/tern/1.jpg"].
Proof. vm_compute. reflexivity. Qed.

(** No mixers and no base: a TypeError before the document starts. *)
Example nothing_to_send : get_scope sample_url sample_path sample_isfile (λ _, Raise OSError) (λ _ l, l) sample_places "0" (str_encode "d_42_1.0") None 0 (-1) = Raise TypeError.
Proof. vm_compute. reflexivity. Qed.
