(* ===== verification/Yfcc.v ===== *)
(** The YFCC100M store of the data retriever
    (src/opendiamond/dataretriever/yfcc100m_simple_store.py): a slice of an index,
    shared out among servers; and its variant on a database
    (yfcc100m_mysql_store.py). *)
From S2P Require Import Prelude PyBytes PyText Dict Float64 Url Xml Xdr ScopeList Retriever.
Local Open Scope Z_scope.

(** ** Python's text and iteration *)

(** [l.split(sep)] for a separator of several bytes; [skip]: what is left of one
    that has begun. *)
Fixpoint split_on (sep l : bytes) (skip : nat) : list bytes :=
  match l with
  | [] => [[]]
  | b :: l' =>
    match skip with
    | S skip => split_on sep l' skip
    | O =>
      if startswith l sep then [] :: split_on sep l' (length sep - 1)
      else match split_on sep l' 0 with p :: ps => (b :: p) :: ps | [] => [[b]] end
    end
  end.

(** [itertools.islice]: the numbers that it accepts; the elements, with the number
    of the next line and the number of the next one that is wanted. *)
Definition maxsize : Z := 2 ^ 63 - 1.
Definition index_ok (n : Z) : bool := (0 <=? n) && (n <=? maxsize).
Definition below (stop : option Z) (i : Z) : bool := match stop with Some k => i <? k | None => true end.
Fixpoint islice_from {A} (cnt next : Z) (stop : option Z) (step : Z) (l : list A) : list A :=
  match l with
  | [] => []
  | x :: l =>
    if negb (below stop cnt) then []
    else if cnt =? next then x :: islice_from (cnt + 1) (next + step) stop step l
    else islice_from (cnt + 1) next stop step l
  end.
Definition islice {A} (start : Z) (stop : option Z) (step : Z) (l : list A) : res (list A) :=
  if index_ok start && default true (index_ok <$> stop) && (1 <=? step) && (step <=? maxsize)
  then Ok (islice_from 0 start stop step l) else Raise ValueError.

(** ** The query *)

(** [int(x) if x else None] *)
Definition int_or_none (x : bytes) : res (option Z) :=
  match x with [] => Ok None | _ => n ← py_int_str x; Ok (Some n) end.

(** [start or 0], [step or 1] *)
Definition or_else (x : option Z) (d : Z) : Z := match x with Some n => if n =? 0 then d else n | None => d end.

Definition parse_slice (s : bytes) : res (Z * option Z * Z) :=
  parts ← mapM_res int_or_none (take 3 (split Byte.x3a s));
  match parts with
  | [start; stop; step] => Ok (or_else start 0, stop, or_else step 1)
  | _ => Raise ValueError
  end.
Definition parse_distribute (s : bytes) : res (Z * Z) :=
  parts ← mapM_res py_int_str (take 2 (split_on (str_encode "of") s 0));
  match parts with [n; m] => Ok (n, m) | _ => Raise ValueError end.

(** The start, stop and step of a server's share; every exception is answered with
    the status 400. *)
Definition query (slice distribute : option string) : res (Z * option Z * Z) :=
  '(start, stop, step) ← parse_slice (str_encode (default "::" slice));
  '(n, m) ← parse_distribute (str_encode (default "1of1" distribute));
  if negb (0 <? step) then Raise AssertionError
  else if negb ((1 <=? n) && (n <=? m)) then Raise AssertionError
  else Ok (start + (n - 1) * step, stop, step * m).

(** ** The document *)
Definition YFCC100M_S3_IMAGE_HTTP_PREFIX : string := "https://multimedia-commons.s3-us-west-2.amazonaws.com/data/images/".

(** A line of the index: the path of its image, [None] for a video. *)
Definition image_of (line : string) : res (option string) :=
  let tokens := split Byte.x09 (str_encode (strip_line line)) in
  media_hash ← of_option IndexError (tokens !! 2%nat);
  ext ← of_option IndexError (tokens !! 23%nat);
  flag ← of_option IndexError (tokens !! 24%nat);
  is_video ← py_int_str flag;
  let part a b := concat (take (b - a) (drop a (utf8_chars media_hash))) in
  Ok (if is_video =? 0 then Some (to_text (part 0%nat 3%nat ++ str_encode "/" ++ part 3%nat 6%nat ++ str_encode "/" ++ media_hash ++ str_encode ".jpg")) else None).

(** ['<object id={} src={} hyperfind.external-link={} />'], each with [quoteattr] *)
Definition linked_element (id src link : string) : bytes :=
  str_encode "<object id=" ++ quoteattr id ++ str_encode " src=" ++ quoteattr src ++
  str_encode " hyperfind.external-link=" ++ quoteattr link ++ str_encode " />".

Section Yfcc.
(** [url_for]: the URL of an endpoint and a path. *)
Context (url_for : string → string → string).

Definition yfcc_element (suffix : string) : bytes :=
let url := urljoin YFCC100M_S3_IMAGE_HTTP_PREFIX suffix in linked_element (url_for ".get_object_id" suffix) url url.

Fixpoint emit_images (lines : list string) : stream unit :=
match lines with
| [] => mret tt
| line :: lines =>
image ← compute (image_of line);
(match image with
| None => mret tt
| Some suffix => emit (count_adjust 1) ≫= λ _, emit (yfcc_element suffix ++ newline)
end) ≫= λ _, emit_images lines
end.

(** [get_scope], with the lines of the index or the error of opening it; [None]
is the status 400. *)
Definition yfcc_scope (slice distribute : option string) (index : res (list string)) : option (stream unit) :=
match query slice distribute with
| Raise _ => None
| Ok (start, stop, step) => Some (
lines ← compute index;
emit xml_declaration ≫= λ _, emit (str_encode "<objectlist>" ++ newline) ≫= λ _,
chosen ← compute (islice start stop step lines);
emit_images chosen ≫= λ _, emit objectlist_end)
end.
End Yfcc.

(** ** The database *)

(** A query and its substitutes: texts and numbers. *)
Definition sql_query (dataset : string) (keywords : option string) (divisor : option Z) (expression : string) : bytes * list (string + Z) :=
  let matching := match keywords with Some k => negb (bool_decide (k = "")) | None => false end in
  let dividing := match divisor with Some d => negb (d =? 0) | None => false end in
  let conditions :=
    (if matching then [str_encode "MATCH (title, keywords, description) AGAINST(%s)"] else []) ++
    (if dividing then [str_encode "(sequence_no % %s) " ++ str_encode expression] else []) in
  (str_encode "SELECT sequence_no, rel_path, download_link FROM " ++ str_encode dataset ++
     match conditions with [] => [] | _ => str_encode " WHERE " ++ join (str_encode " AND ") conditions end,
   (if matching then [inl (default "" keywords)] else []) ++ (if dividing then [inr (default 0 divisor)] else [])).

(** A row: the number, the path and the link of an object; either may be NULL. *)
Definition row : Type := Z * option string * option string.

Section Mysql.
(** [url_for] with the data set and the number; [safe_join] of the data root, the
data set and a path; the first row that the database gives for a number. *)
Context (url_for : string → string → Z → string) (data_path : string → string → option string).
Context (fetchone : string → Z → res (option (option string * option string))).

(** [_get_object_element]; [None]: there is no such object. *)
Definition sql_element (dataset : string) (r : row) : res (option bytes) :=
let '(seq_no, rel_path, download_link) := r in
found ← match rel_path with Some _ => Ok (Some (rel_path, download_link)) | None => fetchone dataset seq_no end;
match found with
| None => Ok None
| Some (rel_path, download_link) =>
rel_path ← of_option TypeError rel_path; path ← of_option TypeError (data_path dataset rel_path);
link ← of_option AttributeError download_link;
Ok (Some (linked_element (url_for ".get_object_id" dataset seq_no) ("file://" +:+ path) link))
end.

Fixpoint emit_rows (dataset : string) (rows : list row) : stream unit :=
match rows with
| [] => mret tt
| r :: rows =>
emit (count_adjust 1) ≫= λ _, compute (sql_element dataset r) ≫= λ e, compute (of_option TypeError e) ≫= λ t,
emit (t ++ newline) ≫= λ _, emit_rows dataset rows
end.

(** [generate], with the rows of the cursor or the error of the query. *)
Definition sql_scope (dataset : string) (rows : res (list row)) : stream unit :=
rows ← compute rows;
emit xml_declaration ≫= λ _, emit (str_encode "<objectlist>" ++ newline) ≫= λ _, emit_rows dataset rows ≫= λ _, emit objectlist_end.
End Mysql.

(** ** Sharing out *)

(** The places of a slice. *)
Definition in_slice (start : Z) (stop : option Z) (step i : Z) : bool := (start <=? i) && below stop i && ((i - start) mod step =? 0).

Lemma in_slice_next next stop step i : 0 < step → next < i → in_slice (next + step) stop step i = in_slice next stop step i.
Proof.
  intros Hs Hi. unfold in_slice. replace ((i - (next + step)) mod step) with ((i - next) mod step).
  - destruct (below stop i); rewrite ?andb_false_r, ?andb_true_r; [|done].
    destruct (Z.leb_spec (next + step) i), (Z.leb_spec next i), (Z.eqb_spec ((i - next) mod step) 0); try done; try lia.
    exfalso. rewrite Z.mod_small in *; lia.
  - replace (i - (next + step)) with (i - next + (-1) * step) by lia. by rewrite Z_mod_plus_full.
Qed.

Lemma islice_spec {A} stop step (l : list A) : 0 < step → ∀ cnt next, cnt <= next →
  islice_from cnt next stop step l = pick (in_slice next stop step) cnt l.
Proof.
  intros Hs. induction l as [|x l IH]; intros cnt next Hn; [done|]. cbn [islice_from].
  destruct (below stop cnt) eqn:Eb; cbn [negb].
  - cbn [pick]. destruct (Z.eqb_spec cnt next) as [->|Hne].
    + rewrite IH by lia. assert (in_slice next stop step next = true) as ->.
      { unfold in_slice. rewrite Eb, Z.leb_refl, Z.sub_diag, Z.mod_0_l by lia. done. }
      f_equal. apply pick_ext. intros j Hj. apply in_slice_next; lia.
    + rewrite IH by lia. assert (in_slice next stop step cnt = false) as ->; [|done].
      unfold in_slice. by destruct (Z.leb_spec next cnt); [lia|].
  - symmetry. apply pick_none. intros j Hj. unfold in_slice, below in *. destruct stop as [k|]; [|done].
    destruct (Z.ltb_spec cnt k); [done|]. destruct (Z.ltb_spec j k); [lia|]. by rewrite andb_false_r.
Qed.

Lemma in_slice_iff start stop step i : 0 < step → in_slice start stop step i = true ↔ below stop i = true ∧ ∃ q, 0 <= q ∧ i = start + q * step.
Proof.
  intros Hs. unfold in_slice. rewrite !andb_true_iff, Z.leb_le, Z.eqb_eq, Z.mod_divide by lia. split.
  - intros [[Hi Hb] [q Hq]]. split; [done|]. exists q. nia.
  - intros [Hb (q & Hq & ->)]. split_and!; [nia|done|]. exists q. lia.
Qed.

(** The servers' shares of a slice are the slice. *)
Lemma islice_shared {A} start stop step m (l : list A) : 0 <= start → 0 < step → 1 <= m →
  (seqZ 1 m ≫= λ n, islice_from 0 (start + (n - 1) * step) stop (step * m) l) ≡ₚ islice_from 0 start stop step l.
Proof.
  intros H0 Hs Hm. rewrite islice_spec by done.
  rewrite (Forall_bind_ext _ (λ n, pick (in_slice (start + (n - 1) * step) stop (step * m)) 0 l)).
  2: { apply Forall_seqZ. intros n Hn. apply islice_spec; nia. }
  apply pick_shared; [apply NoDup_seqZ| |].
  - intros i. setoid_rewrite in_slice_iff; [|nia..]. setoid_rewrite elem_of_seqZ. split.
    + intros [Hb (q & Hq & ->)]. exists (q mod m + 1). pose proof (Z.mod_pos_bound q m). split; [lia|]. split; [done|].
      exists (q / m). pose proof (Z.div_mod q m). split; [apply Z.div_pos; lia|]. nia.
    + intros (n & Hn & Hb & q & Hq & ->). split; [done|]. exists (n - 1 + q * m). nia.
  - intros i n n'. rewrite !elem_of_seqZ, !in_slice_iff by nia. intros Hn Hn' [_ (q & Hq & ->)] [_ (q' & Hq' & E)].
    assert (n - 1 + m * q = n' - 1 + m * q') by nia.
    destruct (Z.div_mod_unique m q q' (n - 1) (n' - 1)) as [_ ?]; lia.
Qed.

(** ** The servers' scope lists *)

(** ["<n>of<m>"] *)
Definition n_of_m (n m : Z) : string := to_text (format_d n ++ str_encode "of" ++ format_d m).

Lemma split_on_digits (l r : bytes) sep : Forall is_digit l → (∀ b, head sep = Some b → ¬ is_digit b) → sep ≠ [] →
  split_on sep (l ++ sep ++ r) 0 = l :: split_on sep (drop 1 (sep ++ r)) (length sep - 1).
Proof.
  intros Hl Hsep Hne. destruct sep as [|c sep]; [done|]. specialize (Hsep c eq_refl).
  induction Hl as [|b l Hb Hl IH]; cbn [app].
  - cbn [split_on]. change (c :: sep ++ r) with ((c :: sep) ++ r). rewrite startswith_app. done.
  - cbn [split_on]. cbn [startswith]. rewrite bool_decide_eq_false_2 by (intros ->; done). cbn [andb app] in *. by rewrite IH.
Qed.

Lemma split_on_none sep l c : head sep = Some c → c ∉ l → split_on sep l 0 = [l].
Proof.
  intros Hc. destruct sep as [|c' sep]; [done|]. injection Hc as ->. induction l as [|b l IH]; [done|]. intros Hl.
  apply not_elem_of_cons in Hl as [Hb Hl]. cbn [split_on startswith]. rewrite bool_decide_eq_false_2 by done. cbn [andb]. by rewrite IH.
Qed.

Lemma parse_n_of_m n m : 0 <= n → 0 <= m → parse_distribute (str_encode (n_of_m n m)) = Ok (n, m).
Proof.
  intros Hn Hm. unfold parse_distribute, n_of_m. rewrite str_encode_to_text.
  destruct (format_d_nonneg n Hn) as [Hdn _], (format_d_nonneg m Hm) as [Hdm _].
  assert (Ho : ¬ is_digit Byte.x6f) by by intros [? [=]].
  rewrite split_on_digits; [|done|intros b Hb; vm_compute in Hb; injection Hb as <-; exact Ho|done].
  change (split_on (str_encode "of") (drop 1 _) _) with (split_on (str_encode "of") (format_d m) 0).
  rewrite (split_on_none (str_encode "of") (format_d m) Byte.x6f); [|done|].
  - cbn [take mapM_res]. rewrite (proj1 (py_int_str_format_d n Hn)), (proj1 (py_int_str_format_d m Hm)). done.
  - intros Hin. by apply Ho, (Forall_forall is_digit (format_d m)).
Qed.

Definition linked_attrs (id src link : string) : dict string string := [("id", id); ("src", src); ("hyperfind.external-link", link)].

Lemma linked_written id src link : xml_text id → xml_text src → xml_text link → reports (linked_element id src link ++ newline) ("object", linked_attrs id src link).
Proof.
  intros Hi Hs Hl. assert (linked_element id src link = write_tag ("object", linked_attrs id src link) true) as ->.
  { unfold write_tag, linked_attrs. cbn [fst snd mbind list_bind]. unfold write_attr. cbn [fst snd].
    rewrite app_nil_r. unfold linked_element. rewrite <-!app_assoc. reflexivity. }
  apply reports_tag. split_and!; [done|done|apply (bool_decide_unpack _); vm_compute; exact I|]. unfold linked_attrs. repeat constructor; cbn; auto.
Qed.

Section Served.
Context (url_for : string → string → string).

Definition image_attrs (suffix : string) : dict string string :=
let url := urljoin YFCC100M_S3_IMAGE_HTTP_PREFIX suffix in linked_attrs (url_for ".get_object_id" suffix) url url.
Definition images_of (line : string) : list (dict string string) :=
match image_of line with Ok (Some suffix) => [image_attrs suffix] | _ => [] end.

(** A line that can be read; its URLs are of characters that XML can carry. *)
Definition good_line (line : string) : Prop := ∃ image, image_of line = Ok image ∧
∀ suffix, image = Some suffix → (∀ endpoint, xml_text (url_for endpoint suffix)) ∧ xml_text (urljoin YFCC100M_S3_IMAGE_HTTP_PREFIX suffix).

Lemma emit_images_spec lines : Forall good_line lines →
∃ ts, emit_images url_for lines = (ts, Ok tt) ∧ Forall2 reports ts ((lines ≫= images_of) ≫= counted_object).
Proof.
induction 1 as [|line lines (image & Hi & Hg) _ IH]; [by exists []|]. destruct IH as (ts & E & Hts). cbn [emit_images]. rewrite bind_cons, Hi.
unfold images_of at 1. rewrite Hi. cbn [compute]. destruct image as [suffix|].
- destruct (Hg suffix eq_refl) as [Hu Hl]. exists (count_adjust 1 :: (yfcc_element url_for suffix ++ newline) :: ts).
cbn [emit mbind stream_bind]. rewrite E. split; [done|]. cbn [app].
constructor; [by apply count_written|]. constructor; [|done]. by apply linked_written.
- exists ts. cbn [mret stream_ret mbind stream_bind]. rewrite E. done.
Qed.

(** The response is a document from which the server's loader gets the objects. *)
Definition serves (slice distribute : option string) (lines : list string) (os : list (dict string string)) : Prop :=
∃ out, yfcc_scope url_for slice distribute (Ok lines) = Some (out, Ok tt) ∧ loaded_as out os.

Lemma query_served slice distribute start stop step lines : query slice distribute = Ok (start, stop, step) →
0 <= start <= maxsize → (∀ k, stop = Some k → 0 <= k <= maxsize) → 1 <= step <= maxsize → Forall good_line lines →
serves slice distribute lines (islice_from 0 start stop step lines ≫= images_of).
Proof.
intros Hq H0 Hk Hs Hg. unfold serves, yfcc_scope. rewrite Hq.
assert (Hi : islice start stop step lines = Ok (islice_from 0 start stop step lines)).
{ unfold islice, index_ok. replace (default true _) with true.
- repeat match goal with |- context [?a <=? ?b] => destruct (Z.leb_spec a b); [|lia] end. done.
- destruct stop as [k|]; [|done]. specialize (Hk k eq_refl). cbn. by destruct (Z.leb_spec 0 k), (Z.leb_spec k maxsize); try lia. }
destruct (emit_images_spec (islice_from 0 start stop step lines)) as (ts & E & Hts).
{ rewrite islice_spec by lia. apply Forall_forall. intros x Hx. apply (proj1 (Forall_forall _ _) Hg).
clear -Hx. revert Hx. generalize 0 as i. induction lines as [|y lines IH]; intros i; cbn [pick]; [by intros ?%not_elem_of_nil|].
destruct (in_slice start stop step i); [intros [->|Hx]%elem_of_cons; [by left|]|intros Hx]; right; by eapply IH. }
exists ([xml_declaration; str_encode "<objectlist>" ++ newline] ++ ts ++ [objectlist_end]). split.
- cbn [compute emit mbind stream_bind]. rewrite Hi. cbn. rewrite E. done.
- by apply counted_loaded.
Qed.

(** C18.  Sharing out.  If a query's slice is served by [m] servers, the [n]-th one asking for
the [n]-th share, then every server gets a complete document, its loader
yields the images of its share of the lines and counts them right, and all
shares together are the images of the slice, each as often as there. *)
Theorem yfcc_shared slice start stop step m lines :
parse_slice (str_encode slice) = Ok (start, stop, step) → 0 <= start → (∀ k, stop = Some k → 0 <= k <= maxsize) → 0 < step → 1 <= m →
start + m * step <= maxsize → Forall good_line lines →
let whole := islice_from 0 start stop step lines ≫= images_of in
serves (Some slice) None lines whole ∧
∃ share, (seqZ 1 m ≫= share) ≡ₚ whole ∧ ∀ n, 1 <= n <= m → serves (Some slice) (Some (n_of_m n m)) lines (share n).
Proof.
intros Hp H0 Hk Hs Hm Hmax Hg whole.
assert (Hq : ∀ n m', 1 <= n <= m' → ∀ d, parse_distribute (str_encode (default "1of1" d)) = Ok (n, m') →
query (Some slice) d = Ok (start + (n - 1) * step, stop, step * m')).
{ intros n m' Hn d Hd. unfold query. change (default "::" (Some slice)) with slice. rewrite Hp. cbn [mbind res_bind]. rewrite Hd. cbn [mbind res_bind].
destruct (Z.ltb_spec 0 step), (Z.leb_spec 1 n), (Z.leb_spec n m'); try lia. done. }
split.
- unfold whole. replace start with (start + (1 - 1) * step) at 1 by lia. replace step with (step * 1) at 2 by lia.
apply query_served; [by apply Hq|nia|done|nia|done].
- exists (λ n, islice_from 0 (start + (n - 1) * step) stop (step * m) lines ≫= images_of). split.
+ unfold whole. rewrite <-(islice_shared start stop step m lines) by done. by rewrite bind_bind.
+ intros n Hn. apply query_served; [|nia|done|nia|done]. apply Hq; [done|]. apply parse_n_of_m; lia.
Qed.
End Served.

(** The database's scope list: an object for every row, if every row has a path in
    the data root and a link, of characters that XML can carry. *)
Theorem sql_scope_loaded url_for data_path fetchone dataset rows :
  Forall (λ r : row, xml_text (url_for ".get_object_id" dataset r.1.1) ∧ ∃ rel path link, r.1.2 = Some rel ∧ data_path dataset rel = Some path ∧ r.2 = Some link ∧
    xml_text ("file://" +:+ path) ∧ xml_text link) rows →
  ∃ out os, sql_scope url_for data_path fetchone dataset (Ok rows) = (out, Ok tt) ∧ loaded_as out os ∧
    Forall2 (λ (r : row) o, ∃ rel path link, r.1.2 = Some rel ∧ data_path dataset rel = Some path ∧ r.2 = Some link ∧
      o = linked_attrs (url_for ".get_object_id" dataset r.1.1) ("file://" +:+ path) link) rows os.
Proof.
  intros Hrows.
  assert (∃ ts os, emit_rows url_for data_path fetchone dataset rows = (ts, Ok tt) ∧ Forall2 reports ts (os ≫= counted_object) ∧
    Forall2 (λ (r : row) o, ∃ rel path link, r.1.2 = Some rel ∧ data_path dataset rel = Some path ∧ r.2 = Some link ∧
      o = linked_attrs (url_for ".get_object_id" dataset r.1.1) ("file://" +:+ path) link) rows os) as (ts & os & E & Hts & Hos).
  { induction Hrows as [|[[n rel] link] rows (Hid & rel' & path & link' & Hr & Hp & Hl & Hx & Hy) _ IH]; [by exists [], []|].
    destruct IH as (ts & os & E & Hts & Hos). cbn [fst snd] in *. subst. cbn [emit_rows sql_element mbind res_bind of_option]. rewrite Hp.
    cbn [mbind res_bind of_option emit compute stream_bind app]. rewrite E.
    exists (count_adjust 1 :: (linked_element (url_for ".get_object_id" dataset n) ("file://" +:+ path) link' ++ newline) :: ts),
      (linked_attrs (url_for ".get_object_id" dataset n) ("file://" +:+ path) link' :: os).
    split_and!; [done| |constructor; [by exists rel', path, link'|done]].
    rewrite bind_cons. constructor; [by apply count_written|]. constructor; [by apply linked_written|done]. }
  exists ([xml_declaration; str_encode "<objectlist>" ++ newline] ++ ts ++ [objectlist_end]), os. split_and!; [|by apply counted_loaded|done].
  unfold sql_scope. cbn [compute emit mbind stream_bind]. by rewrite E.
Qed.

(** ** Examples *)
Definition sample_endpoint (endpoint p : string) : string := "/yfcc100m_simple/id/" +:+ p.
(** A line of 25 fields, of which three matter. *)
Definition sample_line (media_hash flag : string) : string :=
  to_text (join [Byte.x09] ([str_encode "0"; str_encode "12345"; str_encode media_hash] ++ replicate 20 (str_encode "x") ++ [str_encode "jpg"; str_encode flag]) ++ newline).
Definition sample_lines : list string :=
  [sample_line "00fa41b2" "0"; sample_line "1d43c0" "0"; sample_line "2ee" "1"; sample_line "3c1799e" "0"; sample_line "4ab2c3d" "0"].

Lemma sample_lines_readable : Forall (good_line sample_endpoint) sample_lines.
Proof.
  repeat constructor; (eexists; split; [vm_compute; reflexivity|]); intros suffix [=]; subst;
    (split; [intros e|]; apply (bool_decide_unpack _); vm_compute; exact I).
Qed.

Lemma yfcc_shared_witness :
  parse_slice (str_encode "1::") = Ok (1, None, 1) ∧
  ∃ share, (seqZ 1 2 ≫= share) ≡ₚ (islice_from 0 1 None 1 sample_lines ≫= images_of sample_endpoint) ∧
    ∀ n, 1 <= n <= 2 → serves sample_endpoint (Some "1::") (Some (n_of_m n 2)) sample_lines (share n).
Proof.
  split; [vm_compute; reflexivity|].
  destruct (yfcc_shared sample_endpoint "1::" 1 None 1 2 sample_lines) as [_ Hs]; [vm_compute; reflexivity|lia|done|lia|lia|unfold maxsize; lia| |exact Hs].
  exact sample_lines_readable.
Defined.

Definition sample_share (slice distribute : option string) : option (list bytes * option exn) :=
  (λ d : stream unit, (d.1, match d.2 with Ok _ => None | Raise e => Some e end)) <$> yfcc_scope sample_endpoint slice distribute (Ok sample_lines).

(** The second half of all but the first line: its two places hold a video and an
    image. *)
Example second_half : option_map fst (sample_share (Some "1::") (Some "2of2")) =
  Some [xml_declaration; str_encode "<objectlist>" ++ newline; count_adjust 1; yfcc_element sample_endpoint "4ab/2c3/4ab2c3d.jpg" ++ newline; objectlist_end].
Proof. vm_compute. reflexivity. Qed.

(** A slice needs both colons; a step of zero is taken for one, a negative one is
    rejected; so is a share that does not exist. *)
Example queries : (λ q, query (Some q.1) (Some q.2)) <$> [("5", "1of1"); ("1:9", "1of1"); ("::0", "2of3"); ("::-1", "1of1"); ("::", "3of2"); ("::", "0of2"); ("7::2:x", "1of2ofx")] =
  [Raise ValueError; Raise ValueError; Ok (1, None, 3); Raise AssertionError; Raise AssertionError; Raise AssertionError; Ok (7, None, 4)].
Proof. vm_compute. reflexivity. Qed.

(** A negative start is not rejected with the query: the document breaks off after
    its opening. *)
Example negative_start : sample_share (Some "-2::") None = Some ([xml_declaration; str_encode "<objectlist>" ++ newline], Some ValueError).
Proof. vm_compute. reflexivity. Qed.

(** The expression and the table become part of the query as they are. *)
Example query_texts : (λ q : bytes * list (string + Z), (to_text q.1, q.2)) <$> [sql_query "yfcc" None None ""; sql_query "yfcc" (Some "cat,dog") (Some 4) "<3"; sql_query "yfcc" (Some "") (Some 2) "=0 OR 1"] =
  [("SELECT sequence_no, rel_path, download_link FROM yfcc", []);
   ("SELECT sequence_no, rel_path, download_link FROM yfcc WHERE MATCH (title, keywords, description) AGAINST(%s) AND (sequence_no % %s) <3", [inl "cat,dog"; inr 4]);
   ("SELECT sequence_no, rel_path, download_link FROM yfcc WHERE (sequence_no % %s) =0 OR 1", [inr 2])].
Proof. vm_compute. reflexivity. Qed.
