(* ===== verification/Gigapan.v ===== *)
(** The GigaPan store of the data retriever
    (src/opendiamond/dataretriever/gigapan_store.py, pyramid.py): the tiles of an
    image pyramid, their paths, their sizes and the scope list of an image. *)
From S2P Require Import Prelude PyBytes PyText Dict Float64 Xml ScopeList Retriever.
Local Open Scope Z_scope.

(** ** pyramid.py *)
Fixpoint log_loop (fuel : nat) (x n : Z) : Z :=
  match fuel with
  | O => n
  | S fuel => if 0 <? x then log_loop fuel (Z.shiftr x 1) (n + 1) else n
  end.
(** The loop halves its number: as many steps as it has bits are enough. *)
Definition log_2 (x : Z) : res Z :=
  if 0 <? x then Ok (log_loop (S (Z.to_nat (Z.log2 x))) (x - 1) 0) else Raise AssertionError.

(** [int(ceil(x))] *)
Definition round_up (x : float) : res Z :=
  match x with
  | S754_zero _ => Ok 0
  | S754_infinity _ => Raise OverflowError
  | S754_nan => Raise ValueError
  | S754_finite s m e =>
    let a := cond_Zopp s (Zpos m) in
    Ok (if 0 <=? e then a * 2 ^ e else - (- a / 2 ^ (- e)))
  end.

(** [round_up(n / float(d))] *)
Definition ratio (n d : Z) : res Z := d ← float_of_int d; n ← float_of_int n; round_up (fdiv n d).

(** [gc_tile[index]] at a bit of the coordinates. *)
Definition quadrant (column row : Z) (n : nat) : byte :=
  let bit := Z.shiftl 1 (Z.of_nat n) in
  digit_byte ((if Z.land column bit =? 0 then 0 else 1) + (if Z.land row bit =? 0 then 0 else 2)).
Fixpoint quadrants (level : nat) (column row : Z) : bytes :=
  match level with O => [] | S n => quadrant column row n :: quadrants n column row end.
(** The directories: three characters each, while more than three are left. *)
Fixpoint directories (fuel : nat) (fn : bytes) : bytes :=
  match fuel with
  | O => []
  | S fuel => if (3 <? length fn)%nat then Byte.x2f :: take 3 fn ++ directories fuel (drop 3 fn) else []
  end.
Definition path_to_tile (level column row : Z) : bytes :=
  let fn := str_encode "r" ++ quadrants (Z.to_nat level) column row in
  lstrip (λ b, bool_decide (b = Byte.x2f)) (directories (length fn) fn ++ str_encode "/" ++ fn ++ str_encode ".jpg").

(** The tiles of the finest level, and how many levels there are. *)
Definition pyramid (width height tile_size : Z) : res (Z * Z * Z) :=
  tiles_wide ← ratio width tile_size; tiles_high ← ratio height tile_size;
  n ← log_2 (Z.max tiles_wide tiles_high); Ok (tiles_wide, tiles_high, n + 1).
(** [columns_at_level] and [rows_at_level] *)
Definition at_level (tiles levels_deep lvl : Z) : res Z := ratio tiles (Z.shiftl 1 (levels_deep - lvl - 1)).

(** Level, column, row. *)
Definition coord : Type := Z * Z * Z.
Definition coords_at (lvl ncols nrows : Z) : list coord := col ← seqZ 0 ncols; row ← seqZ 0 nrows; [(lvl, col, row)].
(** [if max_depth: if lvl > int(max_depth)] *)
Definition too_deep (max_depth : option Z) (lvl : Z) : bool :=
  match max_depth with Some d => negb (d =? 0) && (d <? lvl) | None => false end.

(** A generator of coordinates: those that it yields, and how it ends. *)
Fixpoint iter_levels (tiles_wide tiles_high levels_deep : Z) (max_depth : option Z) (lvls : list Z) : list coord * res unit :=
  match lvls with
  | [] => ([], Ok tt)
  | lvl :: lvls =>
    if too_deep max_depth lvl then ([], Ok tt)
    else
      match (ncols ← at_level tiles_wide levels_deep lvl; nrows ← at_level tiles_high levels_deep lvl; Ok (ncols, nrows)) with
      | Raise e => ([], Raise e)
      | Ok (ncols, nrows) =>
        let '(l, r) := iter_levels tiles_wide tiles_high levels_deep max_depth lvls in (coords_at lvl ncols nrows ++ l, r)
      end
  end.
Definition iter_coords (width height : Z) (max_depth : option Z) (tile_size : Z) : list coord * res unit :=
  match pyramid width height tile_size with
  | Raise e => ([], Raise e)
  | Ok (tiles_wide, tiles_high, levels_deep) => iter_levels tiles_wide tiles_high levels_deep max_depth (seqZ 0 levels_deep)
  end.

(** ** gigapan_store.py *)
Definition TILE_SIZE : Z := 256.

Definition tiles_in_gigapan (width height : Z) : res Z :=
  '(tiles_wide, tiles_high, levels_deep) ← pyramid width height TILE_SIZE;
  ns ← mapM_res (λ lvl, c ← at_level tiles_wide levels_deep lvl; r ← at_level tiles_high levels_deep lvl; Ok (c * r)) (seqZ 0 levels_deep);
  Ok (sum ns).

(** The size of a tile's image in [get_object]; nothing is said of a level above
    the finest one, where the scale is a float. *)
Definition crop (level_size col : Z) : Z :=
  let bottom_right := (col + 1) * TILE_SIZE in
  if level_size <? bottom_right then TILE_SIZE - (bottom_right - level_size) else TILE_SIZE.
Definition image_size (width height levels lvl col row : Z) : option (Z * Z) :=
  let real_level := levels - 1 - lvl in
  if real_level <? 0 then None else Some (crop (width / 2 ^ real_level) col, crop (height / 2 ^ real_level) row).

(** What the web API reports of an image, with JSON integers. *)
Record info := Info { i_id : Z; i_width : Z; i_height : Z; i_levels : Z }.

Section Gigapan.
(** [json.loads] of the web API's answer; [url_for] with the image and the tile. *)
Context (api : Z → res info) (url_for : string → Z → coord → string).

Definition stat_gigapan (gigapan_id : Z) : res info :=
i ← api gigapan_id; if i_id i =? gigapan_id then Ok i else Raise AssertionError.

(** [GigaPanInfoCache.__getitem__] *)
Definition info_cache_getitem (gigapan_id : Z) : sm (gmap Z info) info := λ cache,
match cache !! gigapan_id with
| Some i => (Ok i, cache)
| None => match stat_gigapan gigapan_id with Ok i => (Ok i, <[gigapan_id := i]> cache) | Raise e => (Raise e, cache) end
end.

Definition tile_element (gigapan_id : Z) (c : coord) : bytes :=
plain_element (url_for ".get_object_id" gigapan_id c) (url_for ".get_object" gigapan_id c).

(** [_generate_list], with what the cache of infos gives. *)
Definition generate_list (gigapan_id : Z) (i : res info) : stream unit :=
emit xml_declaration ≫= λ _, emit (str_encode "<objectlist>" ++ newline) ≫= λ _,
compute i ≫= λ i,
compute (tiles_in_gigapan (i_width i) (i_height i)) ≫= λ n, emit (count_adjust n) ≫= λ _,
(let '(l, r) := iter_coords (i_width i) (i_height i) None 256 in
 ((λ c, tile_element gigapan_id c ++ newline) <$> l, r)) ≫= λ _, emit objectlist_end.
End Gigapan.

(** ** Quotients by powers of two are exact *)
Lemma digits2_pos_53 m : 2 ^ 52 <= Zpos m < 2 ^ 53 → digits2_pos m = 53%positive.
Proof.
  intros Hm. pose proof (digits2_pos_spec m) as [Hl Hu]. set (d := Zpos (digits2_pos m)) in *.
  assert (d - 1 < 53) by (apply (Z.pow_lt_mono_r_iff 2); lia). assert (52 < d) by (apply (Z.pow_lt_mono_r_iff 2); lia). lia.
Qed.

Lemma round_aux_exact m e : 2 ^ 52 <= Zpos m < 2 ^ 53 → -1074 <= e <= 971 →
  binary_round_aux prec emax false (Zpos m) e loc_Exact = S754_finite false m e.
Proof.
  intros Hm He. assert (Hs : shr_fexp prec emax (Zpos m) e loc_Exact = (Build_shr_record (Zpos m) false false, e)).
  { unfold shr_fexp, Zdigits2. rewrite digits2_pos_53 by done. unfold fexp, emin, prec, emax.
    replace (_ - e) with 0 by lia. done. }
  unfold binary_round_aux. rewrite Hs. cbn [shr_m loc_of_shr_record round_nearest_even]. rewrite Hs. cbn [shr_m].
  unfold emax, prec. by destruct (Z.leb_spec e (1024 - 53)); [|lia].
Qed.

Lemma round_aux_twice m e : 2 ^ 52 <= Zpos m < 2 ^ 53 → -1074 <= e <= 970 →
  binary_round_aux prec emax false (Zpos m~0) e loc_Exact = S754_finite false m (e + 1).
Proof.
  intros Hm He. rewrite <-(round_aux_exact m (e + 1)) by lia. unfold binary_round_aux at 1.
  assert (shr_fexp prec emax (Zpos m~0) e loc_Exact = (Build_shr_record (Zpos m) false false, e + 1)) as ->.
  { unfold shr_fexp, Zdigits2. cbn [digits2_pos]. rewrite digits2_pos_53 by done. unfold fexp, emin, prec, emax.
    replace (_ - e) with 1 by lia. done. }
  unfold binary_round_aux. assert (shr_fexp prec emax (Zpos m) (e + 1) loc_Exact = (Build_shr_record (Zpos m) false false, e + 1)) as ->; [|done].
  unfold shr_fexp, Zdigits2. rewrite digits2_pos_53 by done. unfold fexp, emin, prec, emax. replace (_ - (e + 1)) with 0 by lia. done.
Qed.


(** [float(n)] of a number that fits the mantissa. *)
Lemma float_of_int_exact n : 0 < n < 2 ^ 53 →
  ∃ m e, float_of_int n = Ok (S754_finite false m (- e)) ∧ 2 ^ 52 <= Zpos m < 2 ^ 53 ∧ 0 <= e <= 52 ∧ Zpos m = n * 2 ^ e.
Proof.
  intros Hn. destruct n as [|p|p]; [lia| |lia]. pose proof (digits2_pos_spec p) as [Hl Hu].
  set (d := Zpos (digits2_pos p)) in *. assert (0 < d) by lia.
  assert (d <= 53).
  { assert (d - 1 < 53); [|lia]. apply (Z.pow_lt_mono_r_iff 2); lia. }
  assert (Hm : 2 ^ 52 <= Zpos p * 2 ^ (53 - d) < 2 ^ 53).
  { replace 52 with (d - 1 + (53 - d)) by lia. replace (2 ^ 53) with (2 ^ (d + (53 - d))) by (f_equal; lia).
    rewrite !Z.pow_add_r by lia. assert (0 < 2 ^ (53 - d)) by (apply Z.pow_pos_nonneg; lia). nia. }
  destruct (Zpos p * 2 ^ (53 - d)) as [|m|m] eqn:Em; [lia| |lia]. exists m, (53 - d). split_and!; [|lia..].
  unfold float_of_int, binary_normalize, binary_round. fold d.
  assert (shl_align p 0 (fexp prec emax (d + 0)) = (m, - (53 - d))) as ->.
  { unfold fexp, emin, prec, emax. replace (Z.max _ _) with (- (53 - d)) by lia. unfold shl_align.
    destruct (- (53 - d) - 0) as [|q|q] eqn:Eq; [|lia|].
    - f_equal; [|lia]. replace (53 - d) with 0 in Em by lia. lia.
    - f_equal. apply (inj Zpos). rewrite <-Em. replace (53 - d) with (Zpos q) by lia. clear.
      induction q as [|q IH] using Pos.peano_ind; [cbn; lia|]. rewrite Pos.iter_succ, Pos2Z.inj_succ, Z.pow_succ_r by lia. lia. }
  rewrite round_aux_exact by lia. done.
Qed.

Lemma fdiv_exact m1 e1 m2 e2 : Zpos m2 = 2 ^ 52 → 2 ^ 52 <= Zpos m1 < 2 ^ 53 → -1000 <= e1 - e2 <= 900 →
  fdiv (S754_finite false m1 e1) (S754_finite false m2 e2) = S754_finite false m1 (e1 - e2 - 52).
Proof.
  intros H2 H1 He. unfold fdiv, SFdiv, SFdiv_core_binary, Zdigits2. rewrite !digits2_pos_53 by lia.
  assert (Hf : Z.min (fexp prec emax (53 + e1 - (53 + e2))) (e1 - e2) = e1 - e2 - 53) by (unfold fexp, emin, prec, emax; lia).
  rewrite Hf. replace (e1 - e2 - (e1 - e2 - 53)) with 53 by lia. rewrite H2.
  assert (Hq : Z.div_eucl (Z.shiftl (Zpos m1) 53) (2 ^ 52) = (Zpos m1~0, 0)).
  { rewrite Z.shiftl_mul_pow2 by lia. replace (Zpos m1 * 2 ^ 53) with (Zpos m1~0 * 2 ^ 52) by lia.
    pose proof (Z_div_mult (Zpos m1~0) (2 ^ 52) ltac:(done)) as Hd. pose proof (Z_mod_mult (Zpos m1~0) (2 ^ 52)) as Hm.
    unfold Z.div, Z.modulo in Hd, Hm. destruct (Z.div_eucl _ _). by subst. }
  rewrite Hq. change (new_location (2 ^ 52) 0) with loc_Exact. change (xorb false false) with false. cbv iota beta.
  rewrite round_aux_twice by lia. f_equal. lia.
Qed.

(** The quotient, rounded up. *)
Definition cdiv (a b : Z) : Z := - (- a / b).

Lemma cdiv_scale a b k : 0 < b → 0 < k → cdiv (a * k) (b * k) = cdiv a b.
Proof. intros Hb Hk. unfold cdiv. rewrite <-Z.mul_opp_l, Z.div_mul_cancel_r by lia. done. Qed.

Lemma cdiv_lt a b c : 0 < b → c < cdiv a b ↔ c * b < a.
Proof.
  intros Hb. unfold cdiv. pose proof (Z.div_mod (- a) b ltac:(lia)) as Hd. pose proof (Z.mod_pos_bound (- a) b Hb). nia.
Qed.

Lemma cdiv_pos a b : 0 < a → 0 < b → 0 < cdiv a b.
Proof. intros Ha Hb. rewrite cdiv_lt by done. lia. Qed.

Lemma cdiv_le a b : 0 < a → 0 < b → cdiv a b <= a.
Proof. intros Ha Hb. destruct (Z.le_gt_cases (cdiv a b) a) as [|Hl]; [done|]. rewrite cdiv_lt in Hl by done. nia. Qed.

Lemma cdiv_cdiv a b c : 0 < b → 0 < c → cdiv (cdiv a b) c = cdiv a (b * c).
Proof.
  intros Hb Hc. assert (∀ x y, (∀ z, z < x ↔ z < y) → x = y) as Hext.
  { intros x y Hz. destruct (Z.lt_trichotomy x y) as [H|[H|H]]; [apply Hz in H; lia|done|apply Hz in H; lia]. }
  apply Hext. intros z. rewrite !cdiv_lt by nia. by rewrite (Z.mul_comm b c), Z.mul_assoc.
Qed.

(** The floating-point quotient by a power of two is rounded up as the exact one. *)
Lemma ratio_pow2 n k : 0 < n < 2 ^ 53 → 0 <= k <= 52 → ratio n (2 ^ k) = Ok (cdiv n (2 ^ k)).
Proof.
  intros Hn Hk. unfold ratio.
  assert (Hp : 0 < 2 ^ k < 2 ^ 53) by (split; [apply Z.pow_pos_nonneg; lia|apply Z.pow_lt_mono_r; lia]).
  destruct (float_of_int_exact (2 ^ k) Hp) as (m2 & e2 & -> & Hm2 & He2 & E2).
  destruct (float_of_int_exact n Hn) as (m1 & e1 & -> & Hm1 & He1 & E1). cbn [mbind res_bind].
  assert (e2 = 52 - k ∧ Zpos m2 = 2 ^ 52) as [-> Em2].
  { rewrite <-Z.pow_add_r in E2 by lia. assert (52 <= k + e2) by (apply (Z.pow_le_mono_r_iff 2); lia).
    assert (k + e2 < 53) by (apply (Z.pow_lt_mono_r_iff 2); lia). split; [lia|]. rewrite E2. f_equal. lia. }
  rewrite fdiv_exact by lia. replace (- e1 - - (52 - k) - 52) with (- (e1 + k)) by lia. cbn [round_up cond_Zopp].
  f_equal. rewrite Z.opp_involutive. assert (He : ∀ z, cdiv z (2 ^ (e1 + k)) = - (- z / 2 ^ (e1 + k))) by done.
  assert (Hc : cdiv (Zpos m1) (2 ^ (e1 + k)) = cdiv n (2 ^ k)).
  { rewrite E1, Z.add_comm, Z.pow_add_r by lia. apply cdiv_scale; [lia|apply Z.pow_pos_nonneg; lia]. }
  rewrite <-He, Hc. destruct (Z.leb_spec 0 (- (e1 + k))); [|done].
  assert (e1 = 0 ∧ k = 0) as [-> ->] by lia. rewrite E1. unfold cdiv. rewrite Z.pow_0_r, Z.div_1_r. lia.
Qed.

(** The loop of [log_2] finds the least power of two that is large enough. *)
Lemma log_loop_spec fuel : ∀ x n, 0 <= x → x < 2 ^ Z.of_nat fuel → log_loop fuel x n = n + Z.log2_up (x + 1).
Proof.
  induction fuel as [|fuel IH]; intros x n Hx Hf; cbn [log_loop].
  - assert (x = 0) as -> by (cbn in Hf; lia). change (Z.log2_up (0 + 1)) with 0. lia.
  - destruct (Z.ltb_spec 0 x) as [Hp|]; [|assert (x = 0) as -> by lia; change (Z.log2_up (0 + 1)) with 0; lia].
    rewrite Nat2Z.inj_succ, Z.pow_succ_r in Hf by lia. assert (Hh : Z.shiftr x 1 = x / 2) by by rewrite Z.shiftr_div_pow2.
    rewrite IH; [|rewrite Hh; apply Z.div_pos; lia|rewrite Hh; apply Z.div_lt_upper_bound; lia].
    rewrite (Z.log2_up_eqn (x + 1)) by lia. replace (Z.pred (x + 1)) with x by lia. destruct (decide (x = 1)) as [->|Hne]; [by rewrite Hh, Z.add_0_r|].
    assert (0 < Z.shiftr x 1) by (rewrite Hh; apply Z.div_str_pos; lia).
    rewrite Z.log2_up_eqn by lia. replace (Z.pred (Z.shiftr x 1 + 1)) with (Z.shiftr x 1) by lia. rewrite Z.log2_shiftr by lia.
    assert (0 < Z.log2 x) by (apply Z.log2_pos; lia). lia.
Qed.

Lemma log_2_spec x : 0 < x → log_2 x = Ok (Z.log2_up x).
Proof.
  intros Hx. unfold log_2. destruct (Z.ltb_spec 0 x); [|lia]. pose proof (Z.log2_spec x Hx). pose proof (Z.log2_nonneg x).
  rewrite log_loop_spec; [|lia|rewrite Nat2Z.inj_succ, Z2Nat.id by lia; lia]. by rewrite Z.sub_add.
Qed.

(** ** The pyramid of an image *)

(** The finest level: the least one at which the image fits a tile that is scaled
    up by it. *)
Definition depth (w h : Z) : Z := Z.log2_up (Z.max (cdiv w TILE_SIZE) (cdiv h TILE_SIZE)).
(** The side of the square that a tile of a level shows. *)
Definition side (w h lvl : Z) : Z := TILE_SIZE * 2 ^ (depth w h - lvl).
Definition covers (w h : Z) (c : coord) : Prop :=
  let '(lvl, col, row) := c in 0 <= lvl <= depth w h ∧ 0 <= col ∧ col * side w h lvl < w ∧ 0 <= row ∧ row * side w h lvl < h.

Section Pyramid.
Context (w h : Z) (Hw : 0 < w < 2 ^ 53) (Hh : 0 < h < 2 ^ 53).

Lemma tiles_range n : 0 < n < 2 ^ 53 → 0 < cdiv n TILE_SIZE < 2 ^ 46.
Proof.
intros Hn. split; [apply cdiv_pos; [lia|done]|]. destruct (Z.lt_ge_cases (cdiv n TILE_SIZE) (2 ^ 46)) as [|Hl]; [done|].
assert (2 ^ 45 < cdiv n TILE_SIZE) as Hx by lia. apply cdiv_lt in Hx; [|done]. unfold TILE_SIZE in Hx. lia.
Qed.

Lemma depth_fits d : 0 <= d → depth w h <= d ↔ w <= TILE_SIZE * 2 ^ d ∧ h <= TILE_SIZE * 2 ^ d.
Proof using Hw Hh.
intros Hd. unfold depth. rewrite <-Z.log2_up_le_pow2 by (pose proof (tiles_range w Hw); lia). rewrite Z.max_lub_iff.
assert (∀ n, cdiv n TILE_SIZE <= 2 ^ d ↔ n <= TILE_SIZE * 2 ^ d) as Hc; [|by rewrite !Hc].
intros n. pose proof (cdiv_lt n TILE_SIZE (2 ^ d) eq_refl). lia.
Qed.

Lemma depth_range : 0 <= depth w h <= 46.
Proof using Hw Hh. split; [apply Z.log2_up_nonneg|]. apply depth_fits; unfold TILE_SIZE; lia. Qed.

Lemma pyramid_spec : pyramid w h TILE_SIZE = Ok (cdiv w TILE_SIZE, cdiv h TILE_SIZE, depth w h + 1).
Proof using Hw Hh.
assert (Hr : ∀ n, 0 < n < 2 ^ 53 → ratio n TILE_SIZE = Ok (cdiv n TILE_SIZE)) by (intros n Hn; apply (ratio_pow2 n 8); lia).
unfold pyramid. rewrite !Hr by done. cbn [mbind res_bind].
rewrite log_2_spec by (pose proof (tiles_range w Hw); lia). done.
Qed.

Lemma at_level_spec n lvl : 0 < n < 2 ^ 53 → 0 <= lvl <= depth w h → at_level (cdiv n TILE_SIZE) (depth w h + 1) lvl = Ok (cdiv n (side w h lvl)).
Proof using Hw Hh.
intros Hn Hl. pose proof depth_range. pose proof (tiles_range n Hn). unfold at_level.
rewrite Z.shiftl_1_l. replace (depth w h + 1 - lvl - 1) with (depth w h - lvl) by lia. rewrite ratio_pow2 by lia.
rewrite cdiv_cdiv; [done|done|]. apply Z.pow_pos_nonneg; lia.
Qed.

Lemma coords_at_elem lvl ncols nrows c : c ∈ coords_at lvl ncols nrows ↔ ∃ col row, c = (lvl, col, row) ∧ 0 <= col < ncols ∧ 0 <= row < nrows.
Proof.
unfold coords_at. rewrite list_elem_of_bind. setoid_rewrite list_elem_of_bind. setoid_rewrite elem_of_seqZ. setoid_rewrite list_elem_of_singleton. split.
- intros (col & (row & -> & Hr) & Hc). exists col, row. split; [done|]. lia.
- intros (col & row & -> & Hc & Hr). exists col. split; [|lia]. exists row. split; [done|lia].
Qed.

Lemma coords_at_length lvl ncols nrows : 0 <= ncols → 0 <= nrows → Z.of_nat (length (coords_at lvl ncols nrows)) = ncols * nrows.
Proof.
intros Hc Hr. unfold coords_at. assert (∀ l : list Z, Z.of_nat (length (col ← l; row ← seqZ 0 nrows; [(lvl, col, row)])) = Z.of_nat (length l) * nrows) as ->.
- intros l. induction l as [|col l IH]; [done|]. rewrite bind_cons, length_app.
assert (length (row ← seqZ 0 nrows; [(lvl, col, row)]) = length (seqZ 0 nrows)) as ->.
{ generalize (seqZ 0 nrows) as rows. induction rows as [|row rows IHr]; [done|]. rewrite bind_cons. cbn. by rewrite IHr. }
rewrite length_seqZ. cbn [length]. nia.
- rewrite length_seqZ. nia.
Qed.

Lemma coords_at_nodup lvl ncols nrows : NoDup (coords_at lvl ncols nrows).
Proof.
unfold coords_at. apply NoDup_bind; [|intros col _; apply NoDup_bind; [|intros; apply NoDup_singleton|apply NoDup_seqZ]|apply NoDup_seqZ].
- intros c1 c2 x _ _. rewrite !list_elem_of_bind. setoid_rewrite list_elem_of_singleton. intros (r1 & -> & _) (r2 & [=] & _). done.
- intros r1 r2 x _ _. rewrite !list_elem_of_singleton. intros -> [=]. done.
Qed.

Definition level (lvl : Z) : list coord := coords_at lvl (cdiv w (side w h lvl)) (cdiv h (side w h lvl)).

Lemma iter_levels_spec lvls : Forall (λ lvl, 0 <= lvl <= depth w h) lvls →
iter_levels (cdiv w TILE_SIZE) (cdiv h TILE_SIZE) (depth w h + 1) None lvls = (lvls ≫= level, Ok tt).
Proof using Hw Hh.
induction 1 as [|lvl lvls Hl _ IH]; [done|]. cbn [iter_levels too_deep]. rewrite !at_level_spec by done. cbn [mbind res_bind].
by rewrite IH.
Qed.

Lemma iter_coords_spec : iter_coords w h None TILE_SIZE = (seqZ 0 (depth w h + 1) ≫= level, Ok tt).
Proof using Hw Hh.
unfold iter_coords. rewrite pyramid_spec. apply iter_levels_spec. apply Forall_seqZ. lia.
Qed.

Lemma side_pos lvl : lvl <= depth w h → 0 < side w h lvl.
Proof. intros Hl. unfold side, TILE_SIZE. assert (0 < 2 ^ (depth w h - lvl)); [apply Z.pow_pos_nonneg; lia|lia]. Qed.

Lemma tiles_counted : tiles_in_gigapan w h = Ok (Z.of_nat (length (seqZ 0 (depth w h + 1) ≫= level))).
Proof using Hw Hh.
unfold tiles_in_gigapan. rewrite pyramid_spec. cbn [mbind res_bind].
assert (Hl : Forall (λ lvl, 0 <= lvl <= depth w h) (seqZ 0 (depth w h + 1))) by (apply Forall_seqZ; lia).
match goal with |- (mapM_res ?f ?l ≫= _) = _ => assert (Hm : mapM_res f l = Ok ((λ lvl, Z.of_nat (length (level lvl))) <$> l)) end.
- apply mapM_res_Ok. induction Hl as [|lvl lvls Hr _ IH]; [constructor|]. constructor; [|done].
rewrite !at_level_spec by done. cbn [mbind res_bind]. pose proof (side_pos lvl ltac:(lia)).
unfold level. rewrite coords_at_length; [done|apply Z.lt_le_incl, cdiv_pos; lia..].
- rewrite Hm. cbn [mbind res_bind]. f_equal. clear. generalize (seqZ 0 (depth w h + 1)) as l. intros l.
induction l as [|lvl l IH]; [done|]. rewrite fmap_cons, bind_cons, length_app, Nat2Z.inj_add, <-IH. done.
Qed.

Lemma pyramid_covers c : c ∈ (seqZ 0 (depth w h + 1) ≫= level) ↔ covers w h c.
Proof.
rewrite list_elem_of_bind. setoid_rewrite elem_of_seqZ. unfold level. setoid_rewrite coords_at_elem. destruct c as [[lvl col] row]. unfold covers. split.
- intros (lvl' & (col' & row' & [= <- <- <-] & Hc & Hr) & Hl). pose proof (side_pos lvl ltac:(lia)).
destruct Hc as [Hc Hc'], Hr as [Hr Hr']. apply cdiv_lt in Hc', Hr'; [|done..]. split_and!; [lia..].
- intros (Hl & Hc & Hc' & Hr & Hr'). pose proof (side_pos lvl ltac:(lia)). exists lvl. split; [|lia]. exists col, row. split; [done|].
rewrite !cdiv_lt by done. lia.
Qed.

Lemma pyramid_nodup : NoDup (seqZ 0 (depth w h + 1) ≫= level).
Proof.
apply NoDup_bind; [|intros; apply coords_at_nodup|apply NoDup_seqZ].
intros l1 l2 x _ _. unfold level. rewrite !coords_at_elem. intros (? & ? & -> & _) (? & ? & [=] & _). done.
Qed.
End Pyramid.

(** ** The scope list, loaded by the server *)
Definition tile_attrs (url_for : string → Z → coord → string) (gigapan_id : Z) (c : coord) : dict string string :=
  [("id", url_for ".get_object_id" gigapan_id c); ("src", url_for ".get_object" gigapan_id c)].

(** C20.  The tiles of an image.  The document is written to the end; the server's loader
    yields one object for every tile and counts them right; the tiles are those,
    each once, that show a part of the image, on all levels from the one where the
    image fits a single tile to the finest; floating-point rounding plays no role
    for sizes below [2^53]. *)
Theorem gigapan_scope_loaded url_for gigapan_id i : let w := i_width i in let h := i_height i in
  0 < w < 2 ^ 53 → 0 < h < 2 ^ 53 → (∀ endpoint c, covers w h c → plain_url (url_for endpoint gigapan_id c)) →
  ∃ out l, generate_list url_for gigapan_id (Ok i) = (out, Ok tt) ∧ loaded_as out (tile_attrs url_for gigapan_id <$> l) ∧
    NoDup l ∧ (∀ c, c ∈ l ↔ covers w h c) ∧
    ∀ d, 0 <= d → depth w h <= d ↔ w <= TILE_SIZE * 2 ^ d ∧ h <= TILE_SIZE * 2 ^ d.
Proof.
  intros w h Hw Hh Hu. set (l := seqZ 0 (depth w h + 1) ≫= level w h). set (ts := (λ c, tile_element url_for gigapan_id c ++ newline) <$> l).
  assert (Hcount : element_count ("count", [("adjust", number (Z.of_nat (length l)))]) = Ok (Z.of_nat (length l))) by (apply (number_value (Z.of_nat (length l))); lia).
  exists ([xml_declaration; str_encode "<objectlist>" ++ newline] ++ (count_adjust (Z.of_nat (length l)) :: ts) ++ [objectlist_end]), l. split_and!.
  - unfold generate_list. cbn [emit compute mbind stream_bind]. fold w h. rewrite (tiles_counted w h Hw Hh). cbn [compute app].
    change 256 with TILE_SIZE. rewrite (iter_coords_spec w h Hw Hh). done.
  - apply (plain_document_loaded _ (("count", [("adjust", number (Z.of_nat (length l)))]) :: ((λ o, ("object", o)) <$> (tile_attrs url_for gigapan_id <$> l)))).
    + constructor; [by apply count_written; lia|]. subst ts. assert (Hl : Forall (covers w h) l) by (apply Forall_forall; intros c Hc; by apply pyramid_covers).
      clear Hcount. clearbody l. induction Hl as [|c l' Hc _ IH]; [constructor|]. constructor; [|done]. apply plain_written; by apply Hu.
    + rewrite bind_cons, objects_of. done.
    + constructor; [by rewrite Hcount|apply objects_ok].
    + rewrite bind_cons, sum_app, objects_count, length_fmap, Hcount. cbn. lia.
  - apply pyramid_nodup.
  - apply pyramid_covers.
  - intros d. by apply depth_fits.
Qed.

(** ** Examples *)
(** The paths in the comments of [path_to_tile]; the function adds ".jpg". *)
Example documented_paths : (λ c, to_text (path_to_tile 5 5 c)) <$> [3; 5] = ["r00/r00123.jpg"; "r00/r00303.jpg"].
Proof. vm_compute. reflexivity. Qed.

Example small_pyramid : iter_coords 513 257 None 256 =
  ([(0, 0, 0); (1, 0, 0); (1, 1, 0); (2, 0, 0); (2, 0, 1); (2, 1, 0); (2, 1, 1); (2, 2, 0); (2, 2, 1)], Ok tt) ∧ tiles_in_gigapan 513 257 = Ok 9.
Proof. vm_compute. done. Qed.

(** The grid of a level is rounded up, the size of its image down: the second tile
    of level 1 would have no columns. *)
Example empty_tile : image_size 513 257 3 1 1 0 = Some (0, 128) ∧ (1, 1, 0) ∈ (iter_coords 513 257 None 256).1.
Proof. split; [vm_compute; reflexivity|]. apply (bool_decide_unpack _). vm_compute. exact I. Qed.

Definition sample_tile (endpoint : string) (gigapan_id : Z) (c : coord) : string :=
  let '(lvl, col, row) := c in
  (if decide (endpoint = ".get_object_id") then "/gigapan/id/" else "/gigapan/obj/") +:+ number gigapan_id +:+
  "/" +:+ number lvl +:+ "/" +:+ number col +:+ "/" +:+ number row.
Definition sample_info : info := Info 43 513 257 3.

Lemma gigapan_scope_loaded_witness :
  (generate_list sample_tile 43 (Ok sample_info)).2 = Ok tt ∧
  ∃ l, loaded_as (generate_list sample_tile 43 (Ok sample_info)).1 (tile_attrs sample_tile 43 <$> l) ∧ NoDup l ∧ ∀ c, c ∈ l ↔ covers 513 257 c.
Proof.
  destruct (gigapan_scope_loaded sample_tile 43 sample_info) as (out & l & E & Hload & Hd & Hc & _); [cbn; lia|cbn; lia| |].
  - intros endpoint [[lvl col] row] Hc. apply unquoted_plain. unfold covers in Hc. cbn [sample_tile]. unquoted_url; lia.
  - rewrite E. split; [reflexivity|]. exists l. exact (conj Hload (conj Hd Hc)).
Defined.

(** The cache asks the web API once for an image, and again after a failure. *)
Example cached : let api n := if n =? 43 then Ok sample_info else Raise OSError in
  (info_cache_getitem api 43 ∅).1 = Ok sample_info ∧ (info_cache_getitem (λ _, Raise OSError) 43 (info_cache_getitem api 43 ∅).2).1 = Ok sample_info ∧
  (info_cache_getitem api 44 ∅) = (Raise OSError, ∅).
Proof. by vm_compute. Qed.

(** One side of no length: the logarithm still has a positive number; of both sides
    of no length it has none. *)
Example no_image : iter_coords 0 300 None 256 = ([], Ok tt) ∧ tiles_in_gigapan 0 300 = Ok 0 ∧ iter_coords 0 0 None 256 = ([], Raise AssertionError).
Proof. by vm_compute. Qed.
