(* ===== verification/ProxyStore.v ===== *)
(** The proxy store of the data retriever
    (src/opendiamond/dataretriever/proxy_store.py): a remote scope list, shared out
    among servers. *)
From S2P Require Import Prelude PyBytes PyText Dict Url Xml ScopeList Retriever.
Local Open Scope Z_scope.

(** ** The remote scope list

    What [iterparse] reports of an element: its start and its end. *)
Inductive event := EStart (tag : string) (attrib : dict string string) | EEnd (tag : string) (attrib : dict string string).

(** [urllib.parse.quote(s, safe='/:')] *)
Definition quote_safe (b : byte) : bool :=
  let z := byte_Z b in (48 <=? z) && (z <=? 57) || (65 <=? z) && (z <=? 90) || (97 <=? z) && (z <=? 122) ||
    (z =? 95) || (z =? 46) || (z =? 45) || (z =? 126) || (z =? 47) || (z =? 58).
Definition upper_hex (d : Z) : byte := Z_byte (if d <? 10 then 48 + d else 55 + d).
Definition quote (l : bytes) : bytes :=
  b ← l; if quote_safe b then [b] else [Byte.x25; upper_hex (byte_Z b / 16); upper_hex (byte_Z b mod 16)].
Definition dest (dest_url : string) : string := to_text (str_encode "http://" ++ quote (str_encode dest_url)).

(** ** The document *)

(** [' src="{}" '.format(src) if src else ''] *)
Definition optional_attr (name : string) (value : option string) : bytes :=
  match value with
  | Some v => if decide (v = "") then [] else [Byte.x20] ++ str_encode name ++ [Byte.x3d; QUOT] ++ str_encode v ++ [QUOT; Byte.x20]
  | None => []
  end.
Definition forwarded (base : string) (attrib : dict string string) : res bytes :=
  id ← of_option KeyError (dict_get attrib "id");
  let src := urljoin base <$> dict_get attrib "src" in
  let meta := urljoin base <$> dict_get attrib "meta" in
  Ok (count_adjust 1 ++ str_encode "<object id=" ++ [QUOT] ++ str_encode (urljoin base id) ++ [QUOT; Byte.x20] ++
    optional_attr "src" src ++ optional_attr "meta" meta ++ str_encode "/>" ++ newline).

(** The loop; [depth]: how many elements are open; [cleared]: whether [root.clear()]
    has taken the attributes of the outermost one. *)
Fixpoint forward_events (base : string) (index count : Z) (depth : nat) (cleared : bool) (seen : Z) (evs : list event) : stream unit :=
  match evs with
  | [] => mret tt
  | EStart _ _ :: evs => forward_events base index count (S depth) cleared seen evs
  | EEnd tag attrib :: evs =>
    if decide (tag = "object") then
      let attrib := if bool_decide (depth = 1%nat) && cleared then [] else attrib in
      (if count =? 0 then compute (Raise ZeroDivisionError)
       else if seen mod count =? index then compute (forwarded base attrib) ≫= emit
       else mret tt) ≫= λ _, forward_events base index count (Nat.pred depth) true (seen + 1) evs
    else forward_events base index count (Nat.pred depth) cleared seen evs
  end.

(** [_generate]; [remote]: the error of opening the URL, or the events and how they
    end. *)
Definition forward_scope (base : string) (index count : Z) (remote : res (list event * res unit)) : stream unit :=
  '(evs, fin) ← compute remote;
  emit xml_declaration ≫= λ _, emit (str_encode "<objectlist>" ++ newline) ≫= λ _,
  forward_events base (index - 1) count 0 false 0 evs ≫= λ _, compute fin ≫= λ _, emit objectlist_end.

(** ** Sharing out *)

(** The attributes of the objects, in the order in which they end. *)
Fixpoint ended (depth : nat) (cleared : bool) (evs : list event) : list (dict string string) :=
  match evs with
  | [] => []
  | EStart _ _ :: evs => ended (S depth) cleared evs
  | EEnd tag attrib :: evs =>
    if decide (tag = "object") then (if bool_decide (depth = 1%nat) && cleared then [] else attrib) :: ended (Nat.pred depth) true evs
    else ended (Nat.pred depth) cleared evs
  end.

(** A document of elements without content, as the stores write them. *)
Definition flat (root : tag) (xs : list tag) : list event :=
  EStart root.1 root.2 :: (xs ≫= λ x, [EStart x.1 x.2; EEnd x.1 x.2]) ++ [EEnd root.1 root.2].

Lemma ended_flat root xs : root.1 ≠ "object" → ended 0 false (flat root xs) = xs ≫= element_objects.
Proof.
  intros Hr. unfold flat. cbn [ended]. generalize false as cleared. induction xs as [|[n a] xs IH]; intros cleared.
  - cbn. by rewrite decide_False.
  - rewrite !bind_cons. cbn [app ended fst snd]. change (bool_decide (2%nat = 1%nat)) with false. cbn [andb Nat.pred].
    unfold element_objects at 1. cbn [fst snd]. destruct (decide (n = "object")); cbn [app]; by rewrite IH.
Qed.

Section Shared.
Context (base : string).

Definition forwarded_attrs (attrib : dict string string) : dict string string :=
[("id", urljoin base (default "" (dict_get attrib "id")))] ++
match dict_get attrib "src" with Some s => if decide (urljoin base s = "") then [] else [("src", urljoin base s)] | None => [] end ++
match dict_get attrib "meta" with Some s => if decide (urljoin base s = "") then [] else [("meta", urljoin base s)] | None => [] end.

(** An object with a URL; the joined URLs need no quoting. *)
Definition good_object (attrib : dict string string) : Prop :=
is_Some (dict_get attrib "id") ∧ ∀ name v, name ∈ ["id"; "src"; "meta"] → dict_get attrib name = Some v → plain_url (urljoin base v).

Abbreviation spaced := (λ a : string * string, write_attr a ++ [Byte.x20]).

Lemma plain_attr name v : plain_url v → spaced (name, v) = [Byte.x20] ++ str_encode name ++ [Byte.x3d; QUOT] ++ str_encode v ++ [QUOT; Byte.x20].
Proof.
intros [_ Hv]. unfold write_attr. cbn [fst snd]. rewrite Hv, <-!app_assoc. cbn [app]. by rewrite <-!app_assoc.
Qed.

Lemma optional_spaced attrib name : (∀ v, dict_get attrib name = Some v → plain_url (urljoin base v)) →
optional_attr name (urljoin base <$> dict_get attrib name) =
(match dict_get attrib name with Some s => if decide (urljoin base s = "") then [] else [(name, urljoin base s)] | None => [] end) ≫= spaced.
Proof.
intros Hp. destruct (dict_get attrib name) as [s|]; [|done]. cbn [fmap option_fmap option_map optional_attr].
destruct (decide _); [done|]. cbn [mbind list_bind]. rewrite app_nil_r. symmetry. apply plain_attr. by apply Hp.
Qed.

(** What is forwarded of an object: a count of one and the object. *)
Lemma forwarded_written attrib : good_object attrib →
∃ t, forwarded base attrib = Ok (count_adjust 1 ++ t) ∧ reports t ("object", forwarded_attrs attrib).
Proof.
intros [[u Hid] Hp]. unfold forwarded. rewrite Hid. cbn [of_option mbind res_bind]. eexists. split; [done|].
assert (Hok : tag_ok ("object", forwarded_attrs attrib)).
{ assert (Hv : ∀ name v, name ∈ ["id"; "src"; "meta"] → dict_get attrib name = Some v → xml_text (urljoin base v)) by (intros; by eapply Hp).
assert (Hi : xml_text (urljoin base u)) by (apply (Hv "id"); [by left|done]).
assert (Hs : ∀ s, dict_get attrib "src" = Some s → xml_text (urljoin base s)) by (intros s; apply Hv; by right; left).
assert (Hm : ∀ s, dict_get attrib "meta" = Some s → xml_text (urljoin base s)) by (intros s; apply Hv; by right; right; left).
unfold forwarded_attrs. rewrite Hid. clear Hp Hv. cbn [from_option id].
destruct (dict_get attrib "src") as [src|]; [specialize (Hs src eq_refl); destruct (decide (urljoin base src = ""))|];
(destruct (dict_get attrib "meta") as [meta|]; [specialize (Hm meta eq_refl); destruct (decide (urljoin base meta = ""))|]);
(split_and!; [done|done|apply (bool_decide_unpack _); vm_compute; exact I|repeat constructor; done]). }
assert (Hne : [str_encode "objectlist"] ≠ []) by done.
pose proof (parse_spaced ("object", forwarded_attrs attrib) [str_encode "objectlist"] true Hok (or_introl Hne)) as Hs. cbn [fst snd] in Hs.
rewrite (optional_spaced attrib "src"), (optional_spaced attrib "meta") by (intros v; apply Hp; set_solver).
unfold forwarded_attrs in Hs at 1. rewrite Hid in Hs. cbn [from_option id] in Hs. rewrite !bind_app, bind_cons in Hs.
rewrite (plain_attr "id" (urljoin base u)) in Hs by (apply (Hp "id"); [by left|done]).
unfold reports, inside. match goal with |- parse ?t _ = _ => match type of Hs with parse ?u _ = _ => assert (t = u ++ newline) as -> end end.
{ rewrite <-!app_assoc. change (str_encode "<object id=") with ([LT] ++ str_encode "object" ++ [Byte.x20] ++ str_encode "id" ++ [Byte.x3d]).
by rewrite <-!app_assoc. }
by rewrite parse_app, Hs.
Qed.

Lemma forward_events_spec index count : 0 < count → ∀ evs depth cleared seen, Forall good_object (ended depth cleared evs) →
∃ ts, forward_events base index count depth cleared seen evs = (app (count_adjust 1) <$> ts, Ok tt) ∧
Forall2 (λ t attrib, reports t ("object", forwarded_attrs attrib)) ts (pick (λ i, i mod count =? index) seen (ended depth cleared evs)).
Proof.
intros Hc evs. induction evs as [|[tag attrib|tag attrib] evs IH]; intros depth cleared seen Hg; [by exists []|by apply IH|].
cbn [forward_events ended] in *. destruct (decide (tag = "object")); [|by apply IH].
apply Forall_cons in Hg as [Ha Hg]. set (attrib' := if bool_decide (depth = 1%nat) && cleared then [] else attrib) in *. destruct (IH _ _ (seen + 1) Hg) as (ts & E & Hts).
destruct (Z.eqb_spec count 0); [lia|]. cbn [pick]. destruct (seen mod count =? index).
- destruct (forwarded_written attrib' Ha) as (t & Et & Ht). rewrite Et. cbn [compute emit mbind stream_bind]. rewrite E.
exists (t :: ts). split; [done|]. by constructor.
- cbn [mret stream_ret mbind stream_bind]. rewrite E. by exists ts.
Qed.

(** C19.  Sharing out a remote list.  If [m] servers ask for the shares of a remote scope list
whose objects have URLs and whose URLs, joined with the list's, need no
quoting, then every server gets a complete document, its loader yields the
objects of its share with their URLs joined and counts them right, and all
shares together are the objects of the remote list, each as often as there. *)
Theorem proxy_shared m evs : 1 <= m → Forall good_object (ended 0 false evs) →
∃ share, (seqZ 1 m ≫= share) ≡ₚ (forwarded_attrs <$> ended 0 false evs) ∧
∀ n, 1 <= n <= m → ∃ out, forward_scope base n m (Ok (evs, Ok tt)) = (out, Ok tt) ∧ loaded_as out (share n).
Proof.
intros Hm Hg. set (os := ended 0 false evs) in *. exists (λ n, forwarded_attrs <$> pick (λ i, i mod m =? n - 1) 0 os). split.
- assert ((seqZ 1 m ≫= λ n, pick (λ i, i mod m =? n - 1) 0 os) ≡ₚ pick (λ _, true) 0 os) as Hs.
+ apply (pick_shared (λ n i : Z, i mod m =? n - 1)); [apply NoDup_seqZ| |].
* intros i. split; [|done]. intros _. exists (i mod m + 1). pose proof (Z.mod_pos_bound i m). rewrite elem_of_seqZ, Z.eqb_eq. lia.
* intros i n n' _ _ ?%Z.eqb_eq ?%Z.eqb_eq. lia.
+ rewrite pick_all in Hs. etrans; [|by apply fmap_Permutation, Hs]. by rewrite fmap_bind.
- intros n Hn. destruct (forward_events_spec (n - 1) m ltac:(lia) evs 0 false 0 Hg) as (ts & E & Hts). fold os in Hts.
exists ([xml_declaration; str_encode "<objectlist>" ++ newline] ++ (app (count_adjust 1) <$> ts) ++ [objectlist_end]). split.
+ unfold forward_scope. cbn [compute emit mbind stream_bind]. rewrite E. done.
+ apply (loaded_concat ([xml_declaration; str_encode "<objectlist>" ++ newline] ++ (ts ≫= λ t, [count_adjust 1; t]) ++ [objectlist_end])).
* rewrite !concat_app. do 2 f_equal. clear. induction ts as [|t ts IH]; [done|]. rewrite bind_cons, fmap_cons. cbn [concat app].
by rewrite IH, <-app_assoc.
* apply counted_loaded. clear E. induction Hts as [|t a ts l Ht _ IH]; [constructor|]. rewrite fmap_cons, !bind_cons.
constructor; [by apply count_written|]. by constructor.
Qed.
End Shared.

(** ** Examples *)
Definition sample_base : string := "http://store.example.com/collection/GIDIDXA".
Definition sample_objects : list tag :=
  [("count", [("adjust", "3")]); ("object", [("id", "/collection/id/1.jpg"); ("src", "file:///srv/diamond/1.jpg"); ("meta", "/collection/meta/1.jpg")]);
   ("object", [("id", "/collection/id/2.jpg")]); ("object", [("id", "http://other.example.com/3"); ("src", "../3.jpg"); ("title", "cat")])].
Definition sample_events : list event := flat ("objectlist", []) sample_objects.

Lemma sample_objects_good : Forall (good_object sample_base) (ended 0 false sample_events).
Proof.
  assert (Hgood : ∀ attrib, is_Some (dict_get attrib "id") →
    Forall (λ name, match dict_get attrib name with Some v => unquoted (urljoin sample_base v) | None => True end) ["id"; "src"; "meta"] → good_object sample_base attrib).
  { intros attrib Hid Ha. split; [done|]. intros name v Hin Hv. apply unquoted_plain. rewrite Forall_forall in Ha. specialize (Ha name Hin). by rewrite Hv in Ha. }
  match goal with |- Forall _ ?l => let l' := eval vm_compute in l in change l with l' end.
  rewrite !Forall_cons. split_and!; [..|constructor]; apply Hgood; [by eexists| |by eexists| |by eexists|];
    rewrite !Forall_cons; split_and!; first [constructor | apply (bool_decide_unpack _); vm_compute; exact I].
Qed.

Lemma proxy_shared_witness :
  ∃ share, (seqZ 1 2 ≫= share) ≡ₚ
    [[("id", "http://store.example.com/collection/id/1.jpg"); ("src", "file:///srv/diamond/1.jpg"); ("meta", "http://store.example.com/collection/meta/1.jpg")];
     [("id", "http://store.example.com/collection/id/2.jpg")]; [("id", "http://other.example.com/3"); ("src", "http://store.example.com/3.jpg")]] ∧
    ∀ n, 1 <= n <= 2 → ∃ out, forward_scope sample_base n 2 (Ok (sample_events, Ok tt)) = (out, Ok tt) ∧ loaded_as out (share n).
Proof.
  destruct (proxy_shared sample_base 2 sample_events) as (share & Hs & Hload); [lia|exact sample_objects_good|].
  exists share. split; [|exact Hload]. exact Hs.
Defined.

(** The parser has turned the references of the remote list into characters; they
    are written as they are, and the document that is written is not XML. *)
Example not_escaped :
  let '(out, r) := forward_scope sample_base 1 1 (Ok (flat ("objectlist", []) [("object", [("id", "/id?name=a&type=jpg")])], Ok tt)) in
  r = Ok tt ∧ is_complete (parse (concat out) parser_init).1 = false.
Proof. vm_compute. done. Qed.

(** An object without a URL, a share of nothing, an index of zero. *)
Example proxy_errors :
  (forward_scope sample_base 1 1 (Ok (flat ("objectlist", []) [("object", [("src", "1.jpg")])], Ok tt))).2 = Raise KeyError ∧
  (forward_scope sample_base 1 0 (Ok (sample_events, Ok tt))).2 = Raise ZeroDivisionError ∧
  (length (forward_scope sample_base 0 2 (Ok (sample_events, Ok tt))).1 = 3)%nat.
Proof. vm_compute. done. Qed.

Example quoted_dest : dest "store:5873/a b/ä" = "http://store:5873/a%20b/%C3%A4".
Proof. vm_compute. reflexivity. Qed.
