(* ===== verification/BlastSet.v ===== *)
(** Merging the results of several servers (src/opendiamond/client/search.py,
    [_DiamondBlastSet]): one thread per connection puts what it receives on a
    bounded queue, from which the generator yields. *)
From S2P Require Import Prelude.

Definition RESULTS_SIZE : nat := 100.

Section BlastSet.
(** Results, as dictionaries of attributes. *)
Context {R : Type} `{EqDecision R}.

(** A connection's thread: the results that [_handle_objects] has still to give
([get_result] until the end, [ConnectionFailure] or [RPCError]), the one that is
being put on the queue; whether it is among the [pending_conns]. *)
Record receiver := Receiver { rc_rest : list R; rc_held : option R; rc_pending : bool }.

(** The generator: in [get], after [queue.Empty], returned. *)
Inductive consumer := Getting | TimedOut | Returned.

Record blast_set := BlastSet {
bs_receivers : list receiver;
bs_queue : list R;
bs_yielded : list R;
bs_consumer : consumer;
bs_abort : bool
}.

(** [_try_start] *)
Definition try_start (conns : list (list R)) : blast_set :=
BlastSet ((λ rs, Receiver rs None true) <$> conns) [] [] Getting false.

Inductive event :=
| Receive (i : nat)      (* the next object of the handler *)
| PutOk (i : nat)        (* pending_objs.put *)
| PutFull (i : nat)      (* queue.Full after ten seconds *)
| Finish (i : nat)       (* pending_conns.remove(conn) *)
| Get                    (* pending_objs.get *)
| Timeout                (* queue.Empty after ten seconds *)
| CheckPending           (* len(pending_conns) == 0 *)
| Abort.                 (* close() *)

Definition set_receiver (i : nat) (r : receiver) (b : blast_set) : blast_set :=
BlastSet (<[i := r]> (bs_receivers b)) (bs_queue b) (bs_yielded b) (bs_consumer b) (bs_abort b).
Definition set_queue (q : list R) (b : blast_set) : blast_set :=
BlastSet (bs_receivers b) q (bs_yielded b) (bs_consumer b) (bs_abort b).
Definition set_consumer (c : consumer) (b : blast_set) : blast_set :=
BlastSet (bs_receivers b) (bs_queue b) (bs_yielded b) c (bs_abort b).

Definition step (b : blast_set) (e : event) : option blast_set :=
match e with
| Receive i =>
match bs_receivers b !! i with
| Some (Receiver (r :: rs) None true) => Some (set_receiver i (Receiver rs (Some r) true) b)
| _ => None
end
| PutOk i =>
match bs_receivers b !! i with
| Some (Receiver rs (Some r) p) =>
if decide (length (bs_queue b) < RESULTS_SIZE) then Some (set_receiver i (Receiver rs None p) (set_queue (bs_queue b ++ [r]) b)) else None
| _ => None
end
| PutFull i =>
match bs_receivers b !! i with
| Some (Receiver rs (Some r) p) =>
if decide (length (bs_queue b) < RESULTS_SIZE) then None
else if bs_abort b then Some (set_receiver i (Receiver rs None p) b) else Some b
| _ => None
end
| Finish i =>
match bs_receivers b !! i with
| Some (Receiver [] None true) => Some (set_receiver i (Receiver [] None false) b)
| _ => None
end
| Get =>
match bs_consumer b, bs_queue b with
| Getting, r :: q => Some (BlastSet (bs_receivers b) q (bs_yielded b ++ [r]) Getting (bs_abort b))
| _, _ => None
end
| Timeout => match bs_consumer b, bs_queue b with Getting, [] => Some (set_consumer TimedOut b) | _, _ => None end
| CheckPending =>
match bs_consumer b with
| TimedOut => Some (set_consumer (if forallb (λ r, negb (rc_pending r)) (bs_receivers b) then Returned else Getting) b)
| _ => None
end
| Abort => Some (BlastSet (bs_receivers b) (bs_queue b) (bs_yielded b) (bs_consumer b) true)
end.

Fixpoint run (b : blast_set) (es : list event) : option blast_set :=
match es with [] => Some b | e :: es => b' ← step b e; run b' es end.

(** ** Lemmas *)

(** What a connection has not put on the queue. *)
Definition unput (r : receiver) : list R := match rc_held r with Some x => [x] | None => [] end ++ rc_rest r.

Record blast_inv (conns : list (list R)) (b : blast_set) : Prop := {
bi_results : bs_yielded b ++ bs_queue b ++ (bs_receivers b ≫= unput) ≡ₚ concat conns;
bi_finished : Forall (λ r, rc_pending r = false → unput r = []) (bs_receivers b);
bi_queue : length (bs_queue b) ≤ RESULTS_SIZE;
bi_returned : bs_consumer b = Returned → Forall (λ r, rc_pending r = false) (bs_receivers b)
}.

Lemma receiver_split (rs : list receiver) i r : rs !! i = Some r → ∃ l1 l2, rs = l1 ++ r :: l2 ∧ ∀ r', <[i := r']> rs = l1 ++ r' :: l2.
Proof.
intros Hi. exists (take i rs), (drop (S i) rs). split; [by rewrite take_drop_middle|].
intros r'. apply insert_take_drop. by eapply lookup_lt_Some.
Qed.

Lemma try_start_inv conns : blast_inv conns (try_start conns).
Proof.
split; cbn.
- induction conns as [|rs conns IH]; [done|]. cbn [fmap list_fmap concat]. rewrite bind_cons. cbn. by rewrite IH.
- apply Forall_fmap, Forall_forall. by intros.
- unfold RESULTS_SIZE. lia.
- done.
Qed.

(** Replacing a receiver by one that has put, or kept, what the first one had. *)
Lemma receiver_step conns b i r r' q : blast_inv conns b → bs_receivers b !! i = Some r →
bs_queue b ++ unput r ≡ₚ q ++ unput r' → length q ≤ RESULTS_SIZE → (rc_pending r' = false → unput r' = []) →
(rc_pending r = false → rc_pending r' = false) →
blast_inv conns (set_receiver i r' (set_queue q b)).
Proof.
intros [Hres Hfin Hq Hret] Hi Hp Hlen Hf Hpend.
pose proof (receiver_split _ _ _ Hi) as (l1 & l2 & E & Ei).
split; cbn [set_receiver set_queue bs_yielded bs_queue bs_receivers bs_consumer].
- rewrite <-Hres, Ei, E, !bind_app, !bind_cons. f_equiv.
rewrite (Permutation_app_swap_app (l1 ≫= unput) (unput r')), (Permutation_app_swap_app (l1 ≫= unput) (unput r)).
rewrite !(assoc_L (++) q), !(assoc_L (++) (bs_queue b)). by rewrite Hp.
- by apply Forall_insert.
- done.
- intros Hc. specialize (Hret Hc). apply Forall_insert; [done|]. apply Hpend. rewrite Forall_lookup in Hret. by eapply Hret.
Qed.

Lemma set_queue_id b : set_queue (bs_queue b) b = b.
Proof. by destruct b. Qed.

Lemma blast_step_inv conns b e b' : e ≠ Abort → bs_abort b = false → blast_inv conns b → step b e = Some b' →
blast_inv conns b' ∧ bs_abort b' = false.
Proof.
intros He Ha Hinv Hs. pose proof Hinv as [Hres Hfin Hq Hret].
destruct e as [i|i|i|i| | | |]; cbn [step] in Hs; try done;
try (destruct (bs_receivers b !! i) as [[rs held p]|] eqn:Hi; [|done]).
- destruct rs as [|r rs], held, p; try done. injection Hs as <-. split; [|done]. rewrite <-(set_queue_id b).
by apply (receiver_step _ _ _ _ _ _ Hinv Hi).
- destruct held as [r|]; [|done]. case_decide; [|done]. injection Hs as <-. split; [|done].
apply (receiver_step _ _ _ _ _ _ Hinv Hi); cbn; [by rewrite <-app_assoc|rewrite length_app; cbn; lia| |done].
intros Hp. rewrite Forall_lookup in Hfin. by specialize (Hfin i _ Hi Hp).
- destruct held as [r|]; [|done]. case_decide; [done|]. rewrite Ha in Hs. by injection Hs as <-.
- destruct rs, held, p; try done. injection Hs as <-. split; [|done]. rewrite <-(set_queue_id b).
by apply (receiver_step _ _ _ _ _ _ Hinv Hi).
- destruct (bs_consumer b) eqn:Ec, (bs_queue b) as [|r q] eqn:Eq; try done. injection Hs as <-. split; [|done].
split; cbn; [by rewrite <-Hres, <-app_assoc|done|cbn in Hq; lia|done].
- destruct (bs_consumer b) eqn:Ec, (bs_queue b) as [|r q] eqn:Eq; try done. injection Hs as <-. split; [|done].
split; cbn; [by rewrite Eq|done|rewrite Eq; cbn; lia|done].
- destruct (bs_consumer b) eqn:Ec; try done. injection Hs as <-. split; [|done].
split; cbn; [done|done|done|]. destruct (forallb _ _) eqn:Ef; [|done]. intros _.
apply Forall_forall. intros r Hr. rewrite forallb_forall in Ef. apply negb_true_iff, Ef. by apply list_elem_of_In.
Qed.

Lemma blast_run_inv conns b es b' : Abort ∉ es → bs_abort b = false → blast_inv conns b → run b es = Some b' → blast_inv conns b'.
Proof.
revert b. induction es as [|e es IH]; intros b He Ha Hinv Hr; [by injection Hr as <-|]. cbn [run] in Hr.
destruct (step b e) as [b1|] eqn:Es; [|done]. destruct (blast_step_inv conns b e b1) as [Hinv1 Ha1]; [set_solver|done..|].
apply (IH b1); [set_solver|done..].
Qed.

(** Until the search is closed no result is lost, duplicated or made up on its
way: those yielded, those on the queue and those not yet put on it are the
results of all connections.  When the generator returns, every connection has
ended and only the queue can hold results that were not yielded. *)
Theorem blast_set_conserves conns es b : Abort ∉ es → run (try_start conns) es = Some b →
bs_yielded b ++ bs_queue b ++ (bs_receivers b ≫= unput) ≡ₚ concat conns ∧ length (bs_queue b) ≤ RESULTS_SIZE ∧
(bs_consumer b = Returned → bs_yielded b ++ bs_queue b ≡ₚ concat conns).
Proof.
intros He Hr. destruct (blast_run_inv conns (try_start conns) es b He eq_refl (try_start_inv conns) Hr) as [Hres Hfin Hq Hret].
split_and!; [done|done|]. intros Hc. specialize (Hret Hc).
assert (E : bs_receivers b ≫= unput = []).
{ clear -Hfin Hret. induction Hfin as [|r rs Hr Hfin IH]; [done|]. inversion Hret; subst. rewrite bind_cons, Hr by done. by apply IH. }
by rewrite E, app_nil_r in Hres.
Qed.
End BlastSet.

(** ** Runs *)
Definition two_servers : list event :=
  [Receive 0; Receive 1; PutOk 1; PutOk 0; Get; Get; Receive 0; PutOk 0; Finish 0; Finish 1; Get; Timeout; CheckPending].
Definition merged : blast_set (R := nat) := default (try_start []) (run (try_start [[1; 2]; [3]]) two_servers).

Lemma blast_set_conserves_witness :
  Abort ∉ two_servers ∧ run (try_start [[1; 2]; [3]]) two_servers = Some merged ∧ bs_consumer merged = Returned ∧
  bs_yielded merged ++ bs_queue merged ++ (bs_receivers merged ≫= unput) ≡ₚ concat [[1; 2]; [3]] ∧ length (bs_queue merged) ≤ RESULTS_SIZE ∧
  (bs_consumer merged = Returned → bs_yielded merged ++ bs_queue merged ≡ₚ concat [[1; 2]; [3]]).
Proof.
  assert (Hr : run (try_start [[1; 2]; [3]]) two_servers = Some merged) by (vm_compute; reflexivity).
  assert (Ha : Abort ∉ two_servers) by (unfold two_servers; set_solver).
  split; [exact Ha|]. split; [exact Hr|]. split; [vm_compute; reflexivity|].
  exact (blast_set_conserves [[1; 2]; [3]] two_servers merged Ha Hr).
Defined.

(** The generator looks at the connections after its wait is over: a last result
    that is put in between is lost. *)
Example lost_result :
  ∃ b, run (try_start [[1]]) [Timeout; Receive 0; PutOk 0; Finish 0; CheckPending] = Some b ∧
    bs_consumer b = Returned ∧ bs_yielded b = [] ∧ bs_queue b = [1].
Proof. eexists. vm_compute. by split_and!. Qed.
