(* ===== verification/BlasterSet.v ===== *)
(** The JSON blaster's blast set (src/opendiamond/blaster/search.py,
    [_DiamondBlastSet]): coroutines that ask every server for objects, one request
    at a time, and that stop and go on when the search is paused and resumed. *)
From S2P Require Import Prelude.

Section BlasterSet.
Context {O : Type}.

(** How a request for an object ends: with an object, after which the callback may
have paused the search; at the end of the server's results; with a
[ConnectionFailure] or an [RPCError]. *)
Inductive answer := Object (o : O) (pauses : bool) | NoMore | Failure.

(** [_connections], [_blocking], [_started], [_paused]; the connections whose
coroutine waits for an answer; the objects that were given to the callback, the
calls of [_finished_callback]. *)
Record blaster_set := MkBlaster {
bb_connections : gset nat;
bb_blocking : gset nat;
bb_started : bool;
bb_paused : bool;
bb_asking : gset nat;
bb_objects : list (nat * O);
bb_finished : nat
}.

Definition blaster_init (connections : gset nat) : blaster_set :=
MkBlaster connections connections false false ∅ [] 0.

(** A coroutine up to its first request, or to its end when the set is paused. *)
Definition handle_objects (c : nat) (b : blaster_set) : blaster_set :=
if bb_paused b then MkBlaster (bb_connections b) ({[c]} ∪ bb_blocking b) (bb_started b) (bb_paused b) (bb_asking b) (bb_objects b) (bb_finished b)
else MkBlaster (bb_connections b) (bb_blocking b) (bb_started b) (bb_paused b) ({[c]} ∪ bb_asking b) (bb_objects b) (bb_finished b).

Definition try_start (b : blaster_set) : blaster_set :=
if bb_started b && negb (bb_paused b) then
foldr handle_objects (MkBlaster (bb_connections b) ∅ (bb_started b) (bb_paused b) (bb_asking b) (bb_objects b) (bb_finished b))
(elements (bb_blocking b))
else b.

Definition start (b : blaster_set) : res blaster_set :=
if bb_started b then Raise AssertionError
else Ok (try_start (MkBlaster (bb_connections b) (bb_blocking b) true (bb_paused b) (bb_asking b) (bb_objects b) (bb_finished b))).
Definition pause (b : blaster_set) : blaster_set :=
MkBlaster (bb_connections b) (bb_blocking b) (bb_started b) true (bb_asking b) (bb_objects b) (bb_finished b).
Definition resume (b : blaster_set) : blaster_set :=
try_start (MkBlaster (bb_connections b) (bb_blocking b) (bb_started b) false (bb_asking b) (bb_objects b) (bb_finished b)).

(** A coroutine from the answer on. *)
Definition answered (c : nat) (a : answer) (b : blaster_set) : blaster_set :=
let b := MkBlaster (bb_connections b) (bb_blocking b) (bb_started b) (bb_paused b) (bb_asking b ∖ {[c]}) (bb_objects b) (bb_finished b) in
match a with
| Failure => b
| NoMore =>
let connections := bb_connections b ∖ {[c]} in
MkBlaster connections (bb_blocking b ∖ {[c]}) (bb_started b) (bb_paused b) (bb_asking b) (bb_objects b)
(if decide (connections = ∅) then S (bb_finished b) else bb_finished b)
| Object o pauses =>
let b := MkBlaster (bb_connections b) (bb_blocking b) (bb_started b) (bb_paused b) (bb_asking b) (bb_objects b ++ [(c, o)]) (bb_finished b) in
handle_objects c (if pauses then pause b else b)
end.

(** ** Runs *)
Inductive event := Start | Pause | Resume | Answer (c : nat) (a : answer).

(** A second start fails; only a connection that was asked answers. *)
Definition step (b : blaster_set) (e : event) : option blaster_set :=
match e with
| Start => match start b with Ok b => Some b | Raise _ => None end
| Pause => Some (pause b)
| Resume => Some (resume b)
| Answer c a => if decide (c ∈ bb_asking b) then Some (answered c a b) else None
end.
Fixpoint run (b : blaster_set) (es : list event) : option blaster_set :=
match es with [] => Some b | e :: es => b' ← step b e; run b' es end.

(** The connections that have ended, or failed, in a run. *)
Definition ended_by (e : event) : gset nat := match e with Answer c NoMore => {[c]} | _ => ∅ end.
Definition failed_by (e : event) : gset nat := match e with Answer c Failure => {[c]} | _ => ∅ end.
Definition object_by (e : event) : list (nat * O) := match e with Answer c (Object o _) => [(c, o)] | _ => [] end.

(** ** The invariant *)
Record blaster_inv (conns ended failed : gset nat) (objects : list (nat * O)) (b : blaster_set) : Prop := {
bi_connections : bb_connections b = conns ∖ ended;
bi_disjoint : bb_asking b ## bb_blocking b;
bi_active : bb_asking b ∪ bb_blocking b = conns ∖ (ended ∪ failed);
bi_blocking : bb_started b = true → bb_paused b = false → bb_blocking b = ∅;
bi_idle : bb_started b = false → bb_asking b = ∅;
bi_objects : bb_objects b = objects;
bi_finished : bb_finished b = if decide (conns ≠ ∅ ∧ conns ⊆ ended) then 1%nat else 0%nat
}.

Lemma foldr_handle l b : bb_paused b = false →
foldr handle_objects b l = MkBlaster (bb_connections b) (bb_blocking b) (bb_started b) (bb_paused b) (list_to_set l ∪ bb_asking b) (bb_objects b) (bb_finished b).
Proof.
intros Hp. induction l as [|c l IH]; cbn [foldr].
- change (list_to_set []) with (∅ : gset nat). rewrite union_empty_l_L. by destruct b.
- rewrite IH. unfold handle_objects. cbn [bb_paused]. rewrite Hp, list_to_set_cons, <-union_assoc_L. done.
Qed.

(** Once its flags are set, [_try_start] makes every idle connection ask. *)
Lemma blaster_try_start_inv conns ended failed objects b :
bb_connections b = conns ∖ ended → bb_asking b ## bb_blocking b → bb_asking b ∪ bb_blocking b = conns ∖ (ended ∪ failed) →
(bb_started b = false → bb_asking b = ∅) → bb_objects b = objects →
bb_finished b = (if decide (conns ≠ ∅ ∧ conns ⊆ ended) then 1%nat else 0%nat) →
blaster_inv conns ended failed objects (try_start b).
Proof.
intros Hc Hd Ha Hi Ho Hf. unfold try_start. destruct (bb_started b && negb (bb_paused b)) eqn:E.
- apply andb_true_iff in E as [Hs Hp%negb_true_iff]. rewrite foldr_handle by done.
cbn [bb_paused bb_connections bb_blocking bb_started bb_asking bb_objects bb_finished].
replace (list_to_set (elements (bb_blocking b))) with (bb_blocking b) by (symmetry; apply list_to_set_elements_L).
split; cbn [bb_paused bb_connections bb_blocking bb_started bb_asking bb_objects bb_finished]; [done| | |done|by rewrite Hs|done|done].
+ apply disjoint_empty_r.
+ by rewrite union_empty_r_L, (comm_L (∪)).
- split; [done..| |done|done|done]. intros Hs Hp. by rewrite Hs, Hp in E.
Qed.

(** An answer takes a connection away, or leaves it where it was. *)
Lemma answer_sets (asking blocking conns gone : gset nat) c : c ∈ asking → asking ## blocking → asking ∪ blocking = conns ∖ gone →
c ∈ conns ∧ c ∉ gone ∧ c ∉ blocking ∧ (asking ∖ {[c]}) ∪ blocking = conns ∖ (gone ∪ {[c]}) ∧
{[c]} ∪ (asking ∖ {[c]}) = asking ∧ (asking ∖ {[c]}) ∪ ({[c]} ∪ blocking) = conns ∖ gone.
Proof.
intros Hin Hd Ha. assert (Hc : c ∈ conns ∖ gone) by (rewrite <-Ha; set_solver).
apply elem_of_difference in Hc as [Hc Hg]. assert (Hb : c ∉ blocking) by set_solver.
assert (Hs : {[c]} ∪ (asking ∖ {[c]}) = asking) by (apply set_eq; intros x; destruct (decide (x = c)); set_solver).
split_and!; [done..| |done|].
- rewrite <-difference_difference_l_L, <-Ha. apply set_eq. intros x. destruct (decide (x = c)); set_solver.
- by rewrite <-Ha, (assoc_L (∪)), (comm_L (∪) (asking ∖ {[c]})), Hs.
Qed.

Lemma blaster_step_inv conns ended failed objects b e b' : blaster_inv conns ended failed objects b → step b e = Some b' →
blaster_inv conns (ended ∪ ended_by e) (failed ∪ failed_by e) (objects ++ object_by e) b'.
Proof.
intros [Hc Hd Ha Hb Hi Ho Hf]. destruct e as [| | |c a]; cbn [step ended_by failed_by object_by].
- rewrite app_nil_r, !union_empty_r_L. unfold start. destruct (bb_started b) eqn:Hs; [done|]. intros [= <-]. by apply blaster_try_start_inv.
- rewrite app_nil_r, !union_empty_r_L. intros [= <-]. by split.
- rewrite app_nil_r, !union_empty_r_L. intros [= <-]. by apply blaster_try_start_inv.
- destruct (decide (c ∈ bb_asking b)) as [Hin|]; [|done]. intros [= <-].
assert (Hs : bb_started b = true).
{ destruct (bb_started b); [done|]. rewrite Hi in Hin by done. by apply not_elem_of_empty in Hin. }
destruct (answer_sets _ _ _ _ c Hin Hd Ha) as (Hcc & Hcg & Hcb & Hless & Hsame & Hmove).
destruct a as [o pauses| |]; cbn [answered].
+ rewrite !union_empty_r_L. unfold handle_objects.
assert (Hpp : bb_paused (if pauses then pause b else b) = orb pauses (bb_paused b)) by by destruct pauses.
destruct pauses; cbn [pause bb_paused bb_connections bb_blocking bb_started bb_asking bb_objects bb_finished]; [|destruct (bb_paused b) eqn:Hp];
split; cbn [bb_paused bb_connections bb_blocking bb_started bb_asking bb_objects bb_finished]; try done.
all: try (by rewrite Hs). all: try (by rewrite Ho). all: try (by rewrite Hsame). all: set_solver.
+ rewrite !union_empty_r_L, app_nil_r. assert (Hbb : bb_blocking b ∖ {[c]} = bb_blocking b) by set_solver.
cbv zeta. cbn [bb_paused bb_connections bb_blocking bb_started bb_asking bb_objects bb_finished]. rewrite Hbb. split; cbn [bb_paused bb_connections bb_blocking bb_started bb_asking bb_objects bb_finished]; try done.
* by rewrite Hc, difference_difference_l_L.
* set_solver.
* rewrite Hless. f_equal. set_solver.
* by rewrite Hs.
* assert (Hce : ¬ conns ⊆ ended) by set_solver. rewrite decide_False in Hf by tauto. rewrite Hf, Hc.
assert (Hiff : conns ∖ ended ∖ {[c]} = ∅ ↔ conns ≠ ∅ ∧ conns ⊆ ended ∪ {[c]}).
{ rewrite difference_difference_l_L. split; [|intros [_ ?]; by apply subseteq_empty_difference_L].
intros He. split; [set_solver|]. intros x Hx. apply dec_stable. intros Hn. apply (not_elem_of_empty (C := gset nat) x). rewrite <-He. by apply elem_of_difference. }
do 2 case_decide; tauto.
+ rewrite union_empty_r_L, app_nil_r. split; cbn [bb_paused bb_connections bb_blocking bb_started bb_asking bb_objects bb_finished]; try done.
* set_solver.
* rewrite Hless. f_equal. set_solver.
* by rewrite Hs.
Qed.

Lemma blaster_run_inv conns es : ∀ ended failed objects b b', blaster_inv conns ended failed objects b → run b es = Some b' →
blaster_inv conns (ended ∪ ⋃ (ended_by <$> es)) (failed ∪ ⋃ (failed_by <$> es)) (objects ++ (es ≫= object_by)) b'.
Proof.
induction es as [|e es IH]; intros ended failed objects b b' Hinv; cbn [run].
- intros [= <-]. cbn. by rewrite app_nil_r, !union_empty_r_L.
- intros (b1 & E1 & E2)%bind_Some. apply (blaster_step_inv _ _ _ _ _ _ _ Hinv) in E1. apply (IH _ _ _ _ _ E1) in E2.
rewrite !fmap_cons, bind_cons, !union_list_cons, !(assoc_L (∪)), app_assoc. exact E2.
Qed.

Lemma blaster_init_inv conns : blaster_inv conns ∅ ∅ [] (blaster_init conns).
Proof.
split; cbn; try done.
- by rewrite difference_empty_L.
- by rewrite !union_empty_l_L, difference_empty_L.
- destruct (decide _) as [[Hne Hs]|]; [|done]. destruct Hne. set_solver.
Qed.

(** C26.  Whenever the client pauses and resumes: the callback gets every object that a
server sent, in the order of arrival; a connection that has neither ended nor
failed is asking for its next object or waits for the search to go on, never
both, so no server has two requests at a time; while the search runs all of
them are asking; and the search is reported as finished once, when the last
connection has ended. *)
Theorem blaster_no_lost_connection conns es (b : blaster_set) : run (blaster_init conns) es = Some b →
let ended := ⋃ (ended_by <$> es) in
bb_objects b = es ≫= object_by ∧
bb_asking b ## bb_blocking b ∧ bb_asking b ∪ bb_blocking b = conns ∖ (ended ∪ ⋃ (failed_by <$> es)) ∧
(bb_started b = true → bb_paused b = false → bb_blocking b = ∅) ∧
bb_finished b = (if decide (conns ≠ ∅ ∧ conns ⊆ ended) then 1%nat else 0%nat).
Proof.
intros E. destruct (blaster_run_inv _ _ _ _ _ _ _ (blaster_init_inv conns) E) as [_ Hd Ha Hb _ Ho Hf].
rewrite !union_empty_l_L in Ha. rewrite union_empty_l_L in Hf. by split_and!.
Qed.
End BlasterSet.
Arguments answer : clear implicits.
Arguments event : clear implicits.

(** ** A paused search *)
Definition sample_events : list (event nat) :=
  [Start; Answer 0 (Object 10 false); Pause; Answer 1 (Object 20 false); Answer 0 (Object 11 false); Resume; Answer 0 NoMore; Answer 1 (Object 21 true); Resume; Answer 1 NoMore].

Lemma blaster_no_lost_connection_witness : ∃ b, run (blaster_init {[0; 1]}) sample_events = Some b ∧
  bb_objects b = [(0, 10); (1, 20); (0, 11); (1, 21)] ∧ bb_asking b ∪ bb_blocking b = ∅ ∧ bb_finished b = 1.
Proof.
  destruct (run (blaster_init {[0; 1]}) sample_events) as [b|] eqn:E; [|by vm_compute in E].
  exists b. destruct (blaster_no_lost_connection {[0; 1]} sample_events b E) as (Ho & _ & Ha & _ & Hf).
  rewrite Ho, Ha, Hf. split_and!; [done|reflexivity|apply (bool_decide_unpack _); vm_compute; exact I|vm_compute; reflexivity].
Defined.

(** An object that arrives during a pause is still delivered; the next one is asked
    for after it. *)
Example pause_delivers :
  (λ b, (bb_objects b, elements (bb_asking b), elements (bb_blocking b))) <$> run (blaster_init {[0]}) [Start; Pause; Answer 0 (Object 5 false)] =
  Some ([(0, 5)], [], [0]).
Proof. vm_compute. reflexivity. Qed.
