(* ===== verification/EndToEnd.v ===== *)
(** The client's search against the server's handlers: what the client set up is
    what the server will run. *)
From S2P Require Import Prelude PyBytes PyText Dict Float64 FloatText Xdr Protocol Rpc ClientRpc SessionVars Statistics FilterStack Hex Sha256.
From S2P Require Import Url Helpers ServerObject FilterProto FilterRunner Evaluate BlobCache BlobStore FilterCode Resource Base64 Scope ScopeList Search ClientSearch.
Local Open Scope Z_scope.

(** ** Names *)
Lemma blob_uri_sig b : blob_uri b = sig_uri (hexlify (sha256 b)).
Proof.
  unfold blob_uri, sig_uri, blob_sha256, sha256_hex, hex. apply str_encode_inj.
  by rewrite str_encode_app, !str_encode_of_bytes.
Qed.

Lemma sig_of_hash b : sig_of (hexlify (sha256 b)) = sha256_hex b.
Proof.
  destruct (sig_of_path _ (hexlify_is_hex (sha256 b))) as (_ & E & _). rewrite <-E.
  destruct (hash_is_sig b) as [_ E']. exact E'.
Qed.

Lemma source_sig_blob b : source_sig (blob_uri b) = Ok (sha256_hex b).
Proof. rewrite blob_uri_sig, source_sig_uri; [done|apply hexlify_is_hex]. Qed.

(** ** The server's filters *)
Definition server_filter (f : FilterSpec) : Filter :=
  FilterStack.Filter_init (fs_name f) (blob_uri (fs_code f)) (blob_uri (fs_blob_argument f)) (fs_min_score f) (fs_max_score f)
    (fs_arguments f) (fs_dependencies f).

Lemma as_list_strings l : as_list as_str (strings l) = Ok l.
Proof. unfold strings, as_list. induction l as [|s l IH]; [done|]. csimpl. cbn [mapM_res mbind res_bind as_str]. by rewrite IH. Qed.

Lemma filter_of_config f : filter_of (filter_config f) = Ok (server_filter f).
Proof.
  assert (Ea : field (as_list as_str) "arguments" (filter_config f) = as_list as_str (strings (fs_arguments f))) by reflexivity.
  assert (Ed : field (as_list as_str) "dependencies" (filter_config f) = as_list as_str (strings (fs_dependencies f))) by reflexivity.
  unfold filter_of. rewrite Ea, Ed, !as_list_strings. reflexivity.
Qed.

Lemma filters_of_request cookies filters :
  field (as_list filter_of) "filters" (setup_request cookies filters) = Ok (server_filter <$> filters).
Proof.
  change (mapM_res filter_of (filter_config <$> filters) = Ok (server_filter <$> filters)).
  induction filters as [|f filters IH]; [done|]. rewrite !fmap_cons. cbn [mapM_res]. rewrite filter_of_config.
  cbn [mbind res_bind]. by rewrite IH.
Qed.

(** The blobs that a filter needs. *)
Definition needed (filters : list FilterSpec) : list Blob := f ← filters; [fs_code f; fs_blob_argument f].

Lemma elem_of_cons_needed b f filters :
  b ∈ needed (f :: filters) → b = fs_code f ∨ b = fs_blob_argument f ∨ b ∈ needed filters.
Proof. unfold needed. rewrite bind_cons. set_solver. Qed.

Lemma uri_data_sound filters u b : dict_get (uri_data filters) u = Some b → u = blob_uri b.
Proof.
  unfold uri_data, dict_of, dict_update.
  assert (G : ∀ l (d : dict string Blob), (∀ u b, dict_get d u = Some b → u = blob_uri b) → (∀ p, p ∈ l → p.1 = blob_uri p.2) →
    ∀ u b, dict_get (foldl (λ d p, dict_set d p.1 p.2) d l) u = Some b → u = blob_uri b).
  { induction l as [|[u' b'] l IH]; intros d Hd Hl; [done|]. cbn [foldl fst snd]. apply IH.
    - intros u0 b0. rewrite dict_get_set. case_decide as E; [|by apply Hd]. intros [= <-]. rewrite <-E. by apply (Hl (u', b')); left.
    - intros p Hp. apply Hl. by right. }
  apply G; [done|]. intros p (f & Hp & Hf)%list_elem_of_bind. set_solver.
Qed.

(** ** The server's side *)
Section Composed.
Context `{Murmur, Dates, Crypto} {C : Type} `{Resources C, Contexts C}.
Context (full_load : string → res (dict string string)) (set_order : gset string → list string) (tmp : string) (now : Z) (cfg : config).
Context (Hset : ∀ X, set_order X ≡ₚ elements X).
Context (Htmp : other_name tmp = true) (Htmp_free : ∀ s, is_sig s = true → tmp ≠ dest_path s).
Abbreviation Search := (Search (C := C)).

Definition available (fs : FS) (b : Blob) : Prop := is_Some (contents fs (sha256_hex b)).

Lemma available_quiet fs fs' b : same_blobs fs fs' → available fs b → available fs' b.
Proof. intros Hs. unfold available. by rewrite Hs by apply hash_is_sig. Qed.

Lemma on_disk_eq {A} (m : prog A) (s : Search) r fs : run m (se_fs s) = (r, fs) → on_disk m s = (r, set_fs fs s).
Proof. intros E. unfold on_disk. by rewrite E. Qed.

Lemma set_fs_id (s : Search) : set_fs (se_fs s) s = s.
Proof. by destruct s. Qed.

Lemma check_source_run b missing (s : Search) : ∃ fs',
check_source (blob_uri b) missing s = (Ok (if decide (available (se_fs s) b) then missing else {[blob_uri b]} ∪ missing, false), set_fs fs' s) ∧
quiet (se_fs s) fs'.
Proof.
destruct (hash_is_sig b) as [Hs Hp]. exists (revive (sha256_hex b) (se_fs s)). split; [|by apply revive_quiet].
unfold check_source, try_with. cbv zeta. unfold FilterCode.source_available. rewrite source_sig_blob.
erewrite sm_bind_eq by (apply on_disk_eq, contains_run; done). cbv beta. unfold mret, sm_ret, available.
by destruct (decide (is_Some (contents (se_fs s) (sha256_hex b)))) as [Ha|Ha]; [rewrite bool_decide_true by done|rewrite bool_decide_false by done].
Qed.

Lemma check_filters_run specs missing (s : Search) : ∃ missing' fs',
check_filters missing (server_filter <$> specs) s = (Ok missing', set_fs fs' s) ∧ quiet (se_fs s) fs' ∧ missing ⊆ missing' ∧
(∀ b, b ∈ needed specs → available (se_fs s) b ∨ blob_uri b ∈ missing') ∧
∀ u, u ∈ missing' → u ∈ missing ∨ ∃ b, b ∈ needed specs ∧ u = blob_uri b.
Proof.
revert missing s. induction specs as [|f specs IH]; intros missing s.
- exists missing, (se_fs s). split; [by rewrite set_fs_id|]. split; [done|]. split_and!; [done|set_solver|by left].
- rewrite fmap_cons. cbn [check_filters code_source blob_source server_filter FilterStack.Filter_init].
destruct (check_source_run (fs_code f) missing s) as (fs1 & E1 & Q1). erewrite sm_bind_eq by exact E1. cbv beta iota.
set (m1 := if decide _ then missing else _) in *.
destruct (check_source_run (fs_blob_argument f) m1 (set_fs fs1 s)) as (fs2 & E2 & Q2). erewrite sm_bind_eq by exact E2. cbv beta iota.
set (m2 := if decide _ then m1 else _) in *. cbn [orb].
destruct (IH m2 (set_fs fs2 (set_fs fs1 s))) as (m3 & fs3 & E3 & Q3 & Hm & Hb & Hu). exists m3, fs3. cbn [set_fs se_fs] in *.
assert (Q13 : quiet (se_fs s) fs2) by (by etransitivity).
assert (Hm1 : missing ⊆ m1 ∧ (available (se_fs s) (fs_code f) ∨ blob_uri (fs_code f) ∈ m1)).
{ unfold m1. case_decide; [by split; [|left]|]. split; [set_solver|]. right. set_solver. }
assert (Hm2 : m1 ⊆ m2 ∧ (available (se_fs s) (fs_blob_argument f) ∨ blob_uri (fs_blob_argument f) ∈ m2)).
{ unfold m2. case_decide as Ha; [|split; [set_solver|right; set_solver]]. split; [done|]. left.
eapply available_quiet; [|exact Ha]. symmetry. apply Q1. }
split; [exact E3|]. split; [by etransitivity|]. split; [set_solver|]. split.
{ intros b [->|[->|Hin]]%elem_of_cons_needed; [naive_solver set_solver..|].
destruct (Hb b Hin) as [Ha|]; [left|by right]. eapply available_quiet; [|exact Ha]. symmetry. apply Q13. }
assert (Hm12 : ∀ u, u ∈ m2 → u ∈ missing ∨ u = blob_uri (fs_code f) ∨ u = blob_uri (fs_blob_argument f)).
{ unfold m2, m1. intros u. do 2 case_decide; set_solver. }
clearbody m1 m2. intros u Hin. unfold needed. setoid_rewrite bind_cons.
destruct (Hu u Hin) as [[Hin2| [-> | ->]]%Hm12|(b & Hb' & ->)].
* by left.
* right. exists (fs_code f). split; [set_solver|done].
* right. exists (fs_blob_argument f). split; [set_solver|done].
* right. exists b. split; [apply elem_of_app; by right|done].
Qed.

Context `{Environment, JsonDumps} (wd : world).

(** A remote call, without the wire (ClientRpc.v: [rpc_call_returns]). *)
Definition server_rpc (sb : stub) (request : pyval) : sm Search pyval :=
match cmds (search_handlers full_load set_order tmp now cfg wd) !! st_cmd sb with
| Some h => h_call h (match request with VNone => None | v => Some v end)
| None => lift (raise_rpc RPCProcedureUnavailable)
end.

Lemma server_rpc_setup cookies filters :
server_rpc ControlConnection.setup (setup_request cookies filters) = Search.setup set_order now cfg (setup_request cookies filters).
Proof. reflexivity. Qed.
Lemma server_rpc_send_blobs blobs :
server_rpc ControlConnection.send_blobs (blob_data blobs) = Search.send_blobs tmp (blob_data blobs).
Proof. reflexivity. Qed.

Lemma setup_Ok cookies filters (s s' : Search) reply :
Search.setup set_order now cfg (setup_request cookies filters) s = (Ok reply, s') →
∃ missing order scope, reply = VObj "XDR_blob_list" [("uris", VList (VStr <$> set_order missing))] ∧
FilterStack_init (server_filter <$> filters) = Ok order ∧
quiet (se_fs s) (se_fs s') ∧ se_filters s' = server_filter <$> filters ∧ se_stack s' = (order, false) ∧ se_scope s' = Some scope ∧
se_running s' = false ∧ (∀ b, b ∈ needed filters → available (se_fs s) b ∨ blob_uri b ∈ missing) ∧
∀ u, u ∈ missing → ∃ b, b ∈ needed filters ∧ u = blob_uri b.
Proof.
unfold Search.setup, running. destruct (decide (se_running s ≠ false)) as [|Hrun]; [done|].
rewrite filters_of_request. erewrite sm_bind_eq by done. cbv beta.
destruct (check_filters_run filters ∅ s) as (missing & fs' & E & Q & _ & Hb & Hu). rewrite (sm_bind_eq _ _ _ _ _ E).
intros (order & s1 & E1 & (texts & s2 & E2 & (scope & s3 & E3 & (u & s4 & E4 & E5)%sm_bind_Ok)%sm_bind_Ok)%sm_bind_Ok)%sm_bind_Ok.
unfold lift in E1, E2, E3. injection E1 as Ho <-. injection E2 as _ <-. injection E3 as _ <-. injection E4 as _ <-. injection E5 as <- <-.
exists missing, order, scope. cbn. apply dec_stable in Hrun. split_and!; [done..|].
intros u0 [?%elem_of_empty|Hin]%Hu; [done|exact Hin].
Qed.

Lemma add_all_run blobs (s : Search) : store_ok tmp (se_fs s) → ∃ fs', add_all tmp blobs s = (Ok tt, set_fs fs' s) ∧ store_ok tmp fs' ∧
(∀ b, available (se_fs s) b → available fs' b) ∧ ∀ b, b ∈ blobs → available fs' b.
Proof.
revert s. induction blobs as [|b blobs IH]; intros s Hok.
- exists (se_fs s). split; [by rewrite set_fs_id|]. split_and!; [done|done|set_solver].
- cbn [add_all]. destruct (add_store_ok tmp b (se_fs s) Htmp Hok) as (fs1 & E & Hok1 & Hb & Hkeep).
erewrite sm_bind_eq by (by apply on_disk_eq). cbv beta.
destruct (IH (set_fs fs1 s)) as (fs2 & E2 & Hok2 & Hkeep2 & Hin2); [done|]. exists fs2. cbn [set_fs se_fs] in *.
split; [exact E2|]. split; [done|]. split.
+ intros b' Hb'. apply Hkeep2. unfold available. apply Hkeep; [apply hash_is_sig|done].
+ intros b' [->|Hin]%elem_of_cons; [by apply Hkeep2|by apply Hin2].
Qed.

Lemma as_list_VBytes l : as_list as_bytes (VList (VBytes <$> l)) = Ok l.
Proof. unfold as_list. induction l as [|b l IH]; [done|]. csimpl. cbn [mapM_res mbind res_bind as_bytes]. by rewrite IH. Qed.

Lemma send_blobs_run blobs (s : Search) : se_running s = false → store_ok tmp (se_fs s) → ∃ fs',
Search.send_blobs tmp (blob_data (VBytes <$> blobs)) s = (Ok VNone, set_fs fs' s) ∧ store_ok tmp fs' ∧
(∀ b, available (se_fs s) b → available fs' b) ∧ ∀ b, b ∈ blobs → available fs' b.
Proof.
intros Hrun Hok. destruct (add_all_run blobs s Hok) as (fs' & E & Hr). exists fs'. split; [|exact Hr].
unfold Search.send_blobs, running. rewrite decide_False by (rewrite Hrun; auto).
change (field (as_list as_bytes) "blobs" (blob_data (VBytes <$> blobs))) with (as_list as_bytes (VList (VBytes <$> blobs))).
rewrite as_list_VBytes. erewrite sm_bind_eq by done. cbv beta. by rewrite (sm_bind_eq _ _ _ _ _ E).
Qed.

(** A server that was set up for the filters, with every blob that they need. *)
Definition set_up_for (filters : list FilterSpec) (s : Search) : Prop :=
∃ order scope, FilterStack_init (server_filter <$> filters) = Ok order ∧ store_ok tmp (se_fs s) ∧
se_filters s = server_filter <$> filters ∧ se_stack s = (order, false) ∧ se_scope s = Some scope ∧ se_running s = false ∧
∀ b, b ∈ needed filters → available (se_fs s) b.

(** The calls that set up a server, with the blobs from [d]. *)
Definition setup_from (d : dict string Blob) (cookies : list ScopeCookie) (filters : list FilterSpec) : sm Search unit :=
reply ← server_rpc ControlConnection.setup (setup_request cookies filters);
uris ← lift (field (as_list as_str) "uris" reply);
blobs ← lift (mapM_res (λ u, of_option KeyError (dict_get d u)) uris);
match blobs with
| [] => mret tt
| _ => server_rpc ControlConnection.send_blobs (blob_data (VBytes <$> blobs)) ≫= λ _, mret tt
end.

(** When the server accepts the filters and [d] has the blobs that are asked for,
the server is set up; only these two can fail. *)
Lemma setup_from_run d cookies filters (s : Search) : store_ok tmp (se_fs s) →
(∀ u b, dict_get d u = Some b → u = blob_uri b) →
match Search.setup set_order now cfg (setup_request cookies filters) s with
| (Raise e, s') => setup_from d cookies filters s = (Raise e, s')
| (Ok _, _) => ∃ r s', setup_from d cookies filters s = (r, s') ∧ match r with
| Ok _ => set_up_for filters s'
| Raise e => ∃ b, b ∈ needed filters ∧ dict_get d (blob_uri b) = None
end
end.
Proof.
intros Hok Hd. unfold setup_from. rewrite server_rpc_setup.
destruct (Search.setup _ _ _ _ s) as [[reply|e] s1] eqn:E1; [|by apply sm_bind_raise].
setoid_rewrite (sm_bind_eq _ _ _ _ _ E1). cbv beta.
apply setup_Ok in E1 as (missing & order & scope & -> & Ho & Q & Hf & Hs & Hsc & Hrun & Hb & Hu).
change (field (as_list as_str) "uris" _) with (as_list as_str (strings (set_order missing))). rewrite as_list_strings.
setoid_rewrite (sm_bind_eq _ (lift (Ok (set_order missing))) s1 _ s1 eq_refl). cbv beta.
assert (Hok1 : store_ok tmp (se_fs s1)) by by eapply quiet_store_ok.
destruct (mapM_res _ (set_order missing)) as [blobs|e] eqn:E3.
- setoid_rewrite (sm_bind_eq _ (lift (Ok blobs)) s1 _ s1 eq_refl). cbv beta.
apply mapM_res_Ok in E3.
assert (Hmissing : ∀ b, blob_uri b ∈ missing → ∃ b', b' ∈ blobs ∧ blob_uri b' = blob_uri b).
{ intros b Hin. assert (Hin' : blob_uri b ∈ set_order missing) by (rewrite Hset; set_solver).
apply list_elem_of_lookup in Hin' as [i Hi]. destruct (Forall2_lookup_l _ _ _ _ _ E3 Hi) as (b' & Hb' & Eb).
exists b'. split; [by eapply list_elem_of_lookup_2|].
destruct (dict_get d (blob_uri b)) as [b0|] eqn:Eu; [|done]. injection Eb as ->. symmetry. by apply Hd. }
assert (∃ fs', match blobs with [] => mret tt | _ => server_rpc ControlConnection.send_blobs (blob_data (VBytes <$> blobs)) ≫= λ _, mret tt end s1 =
(Ok tt, set_fs fs' s1) ∧ store_ok tmp fs' ∧ (∀ b, available (se_fs s1) b → available fs' b) ∧ ∀ b, b ∈ blobs → available fs' b) as (fs' & E & Hok' & Hkeep & Hin).
{ destruct blobs as [|b blobs].
- exists (se_fs s1). split; [by rewrite set_fs_id|]. split_and!; [done|done|set_solver].
- rewrite server_rpc_send_blobs. destruct (send_blobs_run (b :: blobs) s1 Hrun Hok1) as (fs' & E & Hr).
exists fs'. split; [|done]. by rewrite (sm_bind_eq _ _ _ _ _ E). }
exists (Ok tt), (set_fs fs' s1). split; [exact E|]. exists order, scope. cbn [set_fs se_fs se_filters se_stack se_scope se_running].
split_and!; [done..|]. intros b Hn. destruct (Hb b Hn) as [Ha|Hm].
+ apply Hkeep. eapply available_quiet; [apply Q|done].
+ destruct (Hmissing b Hm) as (b' & Hb' & Eb). apply Hin in Hb'. unfold available in *.
assert (sha256_hex b' = sha256_hex b) as <-; [|done].
unfold blob_uri in Eb. apply (f_equal str_encode) in Eb. rewrite !str_encode_app in Eb. apply app_inv_head in Eb. by apply str_encode_inj.
- exists (Raise e), s1. split; [done|].
assert (∃ u, u ∈ set_order missing ∧ dict_get d u = None) as (u & Hin & Hnone).
{ clear -E3. revert E3. induction (set_order missing) as [|u l IH]; [done|]. cbn [mapM_res].
destruct (dict_get d u) as [b|] eqn:Eu; [|intros _; exists u; split; [by left|done]]. cbn [of_option mbind res_bind].
destruct (mapM_res _ l) as [bs|e'] eqn:El; [done|]. cbn [mbind res_bind]. intros [= ->]. destruct (IH eq_refl) as (u' & ? & ?).
exists u'. split; [by right|done]. }
rewrite Hset in Hin. apply elem_of_elements, Hu in Hin as (b & Hb' & ->). by exists b.
Qed.

(** After the client's [setup] every blob that the filters need is in the cache. *)
Lemma client_setup_available cookies filters (s s' : Search) : store_ok tmp (se_fs s) →
ClientSearch.setup server_rpc cookies filters s = (Ok tt, s') → set_up_for filters s'.
Proof.
intros Hok E. change (setup_from (uri_data filters) cookies filters s = (Ok tt, s')) in E.
pose proof (setup_from_run (uri_data filters) cookies filters s Hok (uri_data_sound filters)) as Hr.
destruct (Search.setup _ _ _ _ s) as [[reply|e] s1]; [|congruence].
destruct Hr as (r & s2 & E2 & Hr). rewrite E2 in E. by injection E as -> ->.
Qed.

(** ** Resolution *)

(** The filter [f] is the specification, ready to run: its executable and its blob
have the hashes of the client's. *)
Definition ready (fs : FS) (spec : FilterSpec) (f : Filter) : Prop :=
∃ code blob, executable fs (dest_path (sha256_hex (fs_code spec))) = Some code ∧
sha256_hex code = sha256_hex (fs_code spec) ∧ sha256_hex blob = sha256_hex (fs_blob_argument spec) ∧
code_path f = Some (dest_path (sha256_hex (fs_code spec))) ∧ f_blob f = Some blob ∧
cache_digest f = Some (murmur (summary (server_filter spec) (sha256_hex (fs_code spec)) (sha256_hex (fs_blob_argument spec)))) ∧
connector_of full_load code = Ok (f_connect f).

(** The code of [spec], or other data with its hash, cannot be used. *)
Definition unusable (spec : FilterSpec) (e : exn) : Prop :=
∃ code, sha256_hex code = sha256_hex (fs_code spec) ∧ connector_of full_load code = Raise e.

Lemma resolve_one fs spec : store_ok tmp fs → available fs (fs_code spec) → available fs (fs_blob_argument spec) →
∃ r f' fs', FilterCode.resolve full_load tmp (server_filter spec, fs) = (r, (f', fs')) ∧ extends tmp fs fs' ∧
match r with Ok _ => ready fs' spec f' | Raise e => unusable spec e end.
Proof.
intros Hok [code Hc] [blob Hb]. pose proof Hok as (Ha & Hx & Hn).
destruct (hash_is_sig (fs_code spec)) as [Hcs Hcp], (hash_is_sig (fs_blob_argument spec)) as [Hbs Hbp].
destruct (resolve_run full_load tmp (server_filter spec) fs (hexlify (sha256 (fs_code spec))) (hexlify (sha256 (fs_blob_argument spec))))
as (r & f' & fs' & E & Hext & Hr); [done|apply blob_uri_sig|apply blob_uri_sig|apply hexlify_is_hex|apply hexlify_is_hex|done..|].
exists r, f', fs'. split; [exact E|]. split; [exact Hext|].
rewrite !sig_of_hash, Hc, Hb in Hr. cbv zeta in Hr. destruct Hr as (He & Hp & _ & Hfb & Hd & Hconn).
assert (Hcode : sha256_hex (default code (executable fs (dest_path (sha256_hex (fs_code spec))))) = sha256_hex (fs_code spec)).
{ destruct (executable fs _) as [x|] eqn:Ex; [by apply Hx|]. change (default code None) with code. by rewrite (Ha _ _ Hcs Hc). }
destruct (connector_of full_load _) as [c|e] eqn:Ec; destruct Hconn as [-> Hcc].
- eexists _, blob. split_and!; [exact He|exact Hcode| |done..|by rewrite Hcc]. by rewrite (Ha _ _ Hbs Hb).
- by eexists.
Qed.

Lemma ready_extends fs fs' spec f : extends tmp fs fs' → ready fs spec f → ready fs' spec f.
Proof.
intros (_ & _ & _ & Hx) (code & blob & He & Hr). exists code, blob. split; [|done]. apply Hx; [apply dest_path_other|done].
Qed.

Lemma resolve_all_run specs order (s : Search) : NoDup order → store_ok tmp (se_fs s) →
(∀ b, b ∈ needed specs → available (se_fs s) b) →
(∀ i, i ∈ order → ∃ spec, specs !! i = Some spec ∧ se_filters s !! i = Some (server_filter spec)) →
∃ r s', resolve_all full_load tmp order s = (r, s') ∧ extends tmp (se_fs s) (se_fs s') ∧
(∀ i, i ∉ order → se_filters s' !! i = se_filters s !! i) ∧
match r with
| Ok _ => ∀ i, i ∈ order → ∃ spec f, specs !! i = Some spec ∧ se_filters s' !! i = Some f ∧ ready (se_fs s') spec f
| Raise e => ∃ i spec, i ∈ order ∧ specs !! i = Some spec ∧ unusable spec e
end.
Proof.
intros Hnd. revert s. induction Hnd as [|i order Hi Hnd IH]; intros s Hok Hav Hin.
- exists (Ok tt), s. split_and!; [done..|]. set_solver.
- cbn [resolve_all]. destruct (Hin i) as (spec & Hspec & Hf); [by left|]. rewrite Hf.
assert (fs_code spec ∈ needed specs ∧ fs_blob_argument spec ∈ needed specs) as [Hn1 Hn2].
{ apply list_elem_of_lookup_2 in Hspec. unfold needed. split; apply list_elem_of_bind; exists spec; set_solver. }
destruct (resolve_one (se_fs s) spec) as (r & f' & fs' & E & Hext & Hr); [done|by apply Hav|by apply Hav|]. rewrite E.
set (s1 := set_fs fs' (set_filters (<[i:=f']> (se_filters s)) s)).
assert (Hlen : (i < length (se_filters s))%nat) by by eapply lookup_lt_Some.
destruct r as [u|e].
+ destruct (IH s1) as (r & s2 & E2 & Hext2 & Hother & Hr2).
* by apply Hext.
* intros b Hb. eapply available_quiet; [apply Hext|by apply Hav].
* intros j Hj. destruct (Hin j) as (spec' & Hs' & Hf'); [by right|]. exists spec'. split; [done|].
cbn. rewrite list_lookup_insert_ne; [done|]. intros ->. done.
* exists r, s2. split; [exact E2|]. split; [by etransitivity|]. split.
{ intros j Hj. rewrite Hother by set_solver. cbn. rewrite list_lookup_insert_ne; [done|]. set_solver. }
destruct r as [u'|e]; [|destruct Hr2 as (j & spec' & Hj & Hs'); exists j, spec'; split; [by right|done]].
intros j [->|Hj]%elem_of_cons; [|by apply Hr2]. exists spec, f'. split; [done|]. split.
{ rewrite Hother by done. cbn. by rewrite list_lookup_insert_eq. }
by eapply ready_extends.
+ exists (Raise e), s1. split; [done|]. split; [exact Hext|]. split; [|exists i, spec; split_and!; [by left|done..]].
intros j Hj. cbn. rewrite list_lookup_insert_ne; [done|]. set_solver.
Qed.

(** The order that the constructor computes has every filter once. *)
Lemma init_order fl order : FilterStack_init fl = Ok order → NoDup order ∧ ∀ i, i ∈ order ↔ (i < length fl)%nat.
Proof.
unfold FilterStack_init. intros (st & E & [= <-])%bind_Ok.
destruct (fold_resolve_Ok fl (seq 0 (length fl)) (Dfs ∅ ∅ []) st) as ((Ho & _) & _ & Hin & _); [|apply init_inv|done|].
- intros i. rewrite elem_of_seq. lia.
- destruct (ordered_NoDup _ _ Ho) as [Hnd Hlt]. split; [done|]. intros i. split; [by apply Hlt|].
intros Hi. apply Hin, elem_of_seq. lia.
Qed.

(** The check before [start] or a re-execution succeeds with every filter ready, or
fails because of some filter's code. *)
Definition runnable (filters : list FilterSpec) (s1 : Search) : Prop :=
∃ r s2, check_runnable full_load tmp s1 = (r, s2) ∧
match r with
| Ok _ => ∀ i spec, filters !! i = Some spec → ∃ f, se_filters s2 !! i = Some f ∧ ready (se_fs s2) spec f
| Raise e => ∃ i spec e', filters !! i = Some spec ∧ unusable spec e' ∧
e = (if decide (e' = FilterDependencyError) then RPCError (rc_code DiamondRPCFCacheMiss) else e')
end.

Lemma set_up_runnable filters (s1 : Search) : set_up_for filters s1 → runnable filters s1.
Proof.
intros (order & scope & Ho & Hok1 & Hf & Hst & Hsc & _ & Hav).
apply init_order in Ho as [Hnd Hin]. rewrite length_fmap in Hin. unfold runnable, check_runnable. rewrite Hsc, Hst. cbn [fst].
destruct (resolve_all_run filters order s1 Hnd Hok1 Hav) as (r & s2 & E & _ & _ & Hr).
{ intros i [spec Hi]%Hin%lookup_lt_is_Some_2. exists spec. split; [done|]. by rewrite Hf, list_lookup_fmap, Hi. }
unfold try_with. rewrite E. destruct r as [u|e].
- eexists _, s2. split; [reflexivity|]. cbv beta iota. intros i spec Hi.
destruct (Hr i) as (spec' & f & Hs' & Hf' & Hready); [apply Hin; by eapply lookup_lt_Some|].
exists f. split; [done|]. by replace spec with spec' by congruence.
- destruct Hr as (i & spec & _ & Hi & Hu). destruct (decide (e = FilterDependencyError)) as [He|He].
+ rewrite bool_decide_true by done. eexists _, s2. split; [reflexivity|]. exists i, spec, e. by rewrite decide_True.
+ rewrite bool_decide_false by done. eexists _, s2. split; [reflexivity|]. exists i, spec, e. by rewrite decide_False.
Qed.

(** C1.  The composition of client and server: when the client's [setup] has
returned, the server has what it needs to run the client's filters.  The
server's check before [start] or a re-execution makes every filter ready, with
an executable and a blob argument whose SHA-256 are those of the client's blobs;
or it fails because of the contents of some filter's code, never because of a
blob that is missing. *)
Theorem client_setup_runnable cookies filters (s s1 : Search) : store_ok tmp (se_fs s) →
ClientSearch.setup server_rpc cookies filters s = (Ok tt, s1) →
∃ r s2, check_runnable full_load tmp s1 = (r, s2) ∧
match r with
| Ok _ => ∀ i spec, filters !! i = Some spec → ∃ f, se_filters s2 !! i = Some f ∧ ready (se_fs s2) spec f
| Raise e => ∃ i spec e', filters !! i = Some spec ∧ unusable spec e' ∧
e = (if decide (e' = FilterDependencyError) then RPCError (rc_code DiamondRPCFCacheMiss) else e')
end.
Proof. intros Hok E. by eapply set_up_runnable, client_setup_available. Qed.
End Composed.

(** ** A search *)
#[local] Instance sample_murmur : Murmur := λ d _, d.
#[local] Instance sample_dates : Dates := {| date_parse _ := Raise ValueError; isoformat _ := "" |}.
#[local] Instance sample_crypto : Crypto := {| sign _ _ := Raise ValueError; load_cert_string _ := Raise ValueError |}.
#[local] Instance sample_resources : Resources bool := λ _ _, mret [].
(** A context is whether it is shared. *)
#[local] Instance sample_contexts : Contexts bool := {| new_context shared := shared; cleanup_context := mret tt |}.
#[local] Instance sample_environment : Environment := {|
  http_get _ := Raise CurlError; ServerObject.read_file _ := Raise OSError; json_loads _ := Raise ValueError; xml_object _ := Raise ValueError;
  json_container_str _ := "" |}.
#[local] Instance sample_dumps : JsonDumps := λ _, [].
Definition sample_world : world := World (λ _, Raise OSError) (λ _, 0) (λ _, fzero) 0 (Ok tt).
Definition sample_cfg : config := Config ["server"] true "" 2 false.

Definition rgb_spec : FilterSpec := MkSpec "RGB" code_text ["3"] [] [] (dec "1") finf.
Definition dog_spec : FilterSpec := MkSpec "dog" docker_text [] code_text ["RGB"] (dec "0.5") finf.

Abbreviation sample_setup specs s :=
  (ClientSearch.setup (server_rpc sample_load elements "tmp1" 0 sample_cfg sample_world) [] specs s).
Abbreviation empty_search := (Search_init (C := bool) sample_cfg (MkFS ∅ 7) ∅).

Lemma sample_tmp_free s : is_sig s = true → "tmp1" ≠ dest_path s.
Proof. by intros _ E. Qed.

Lemma empty_store_ok : store_ok "tmp1" (se_fs empty_search).
Proof. split_and!; [|done..]. intros s d _. unfold contents, blob. cbn. by rewrite !lookup_empty. Qed.

Definition set_up : Search (C := bool) := (sample_setup [dog_spec; rgb_spec] empty_search).2.

Lemma client_setup_runnable_witness :
  sample_setup [dog_spec; rgb_spec] empty_search = (Ok tt, set_up) ∧
  ∃ r s2, check_runnable sample_load "tmp1" set_up = (r, s2) ∧
  match r with
  | Ok _ => ∀ i spec, [dog_spec; rgb_spec] !! i = Some spec → ∃ f, se_filters s2 !! i = Some f ∧ ready sample_load (se_fs s2) spec f
  | Raise e => ∃ i spec e', [dog_spec; rgb_spec] !! i = Some spec ∧ unusable sample_load spec e' ∧
      e = (if decide (e' = FilterDependencyError) then RPCError (rc_code DiamondRPCFCacheMiss) else e')
  end.
Proof.
  assert (E : sample_setup [dog_spec; rgb_spec] empty_search = (Ok tt, set_up)).
  { assert (E1 : (sample_setup [dog_spec; rgb_spec] empty_search).1 = Ok tt) by (vm_compute; reflexivity).
    rewrite <-E1. unfold set_up. apply surjective_pairing. }
  split; [exact E|].
  exact (client_setup_runnable sample_load elements "tmp1" 0 sample_cfg (λ X, reflexivity (elements X)) eq_refl sample_tmp_free sample_world
    [] [dog_spec; rgb_spec] empty_search set_up empty_store_ok E).
Defined.

(** The check succeeds here, and the search starts. *)
Definition sample_start : pyval := VObj "XDR_start" [("search_id", VBytes (replicate 36 Byte.x30)); ("attrs", VNone)].

Example sample_started :
  let '(r, s) := Search.start sample_load "tmp1" sample_cfg sample_start set_up in
  r = Ok VNone ∧ se_running s = true ∧ se_stack s = ([1; 0]%nat, true) ∧ se_context s = Some true ∧
  f_connect <$> se_filters s = [Fifo "opendiamond/base" "/fil"; Process] ∧
  (Search.setup elements 0 sample_cfg (setup_request [] []) s).1 = Raise (RPCError (-3)).
Proof. vm_compute. by split_and!. Qed.

(** A re-execution before the start leaves a context that the workers do not
    share. *)
Definition sample_reexecute : pyval := reexecute_request code_text None.

Example unshared_context :
  let '(r, s) := Search.reexecute_filters sample_load elements "tmp1" sample_cfg sample_world sample_reexecute set_up in
  let '(r', s) := Search.start sample_load "tmp1" sample_cfg sample_start s in
  r' = Ok VNone ∧ se_context s = Some false.
Proof. vm_compute. by split_and!. Qed.

(** A circular dependency is no RPC failure: the exception ends the search. *)
Example circular_setup : (sample_setup [MkSpec "a" [] [] [] ["a"] fninf finf] empty_search).1 = Raise FilterDependencyError.
Proof. by vm_compute. Qed.

(** Neither is a shutdown before the start. *)
Example early_shutdown : (Search.shutdown set_up).1 = Raise AttributeError.
Proof. by vm_compute. Qed.
