(* ===== verification/SearchProcess.v ===== *)
(** The process of a search (src/opendiamond/server/server.py,
    [DiamondServer._child]): RPCs are dispatched from the control connection until
    it ends, a signal comes or something fails; then the search is shut down. *)
From S2P Require Import Prelude PyBytes PyText Dict Float64 Xdr Protocol Rpc ClientRpc SessionVars Statistics FilterStack Hex Sha256.
From S2P Require Import Url Helpers ServerObject FilterProto FilterRunner Evaluate BlobCache BlobStore FilterCode Resource Base64 Scope ScopeList Search ClientSearch EndToEnd.
Local Open Scope Z_scope.

(** ** The main function *)
Section Process.
Context {St : Type} (hs : list (Rpc.handler St)) (shutdown : sm St unit).

(** The [while True] loop.  [signal]: after how many dispatches a signal arrives.
Every dispatch that returns has read a request, so as many rounds as there are
bytes, and one more, are enough ([control_loop_ends]). *)
Fixpoint control_loop (fuel : nat) (signal : option nat) (s : sock) (st : St) : exn * sock * St :=
match fuel with
| O => (RuntimeError, s, st)
| S fuel =>
match signal with
| Some O => (Signalled, s, st)
| _ =>
match Rpc.dispatch hs s st with
| (Ok _, s, st) => control_loop fuel (Nat.pred <$> signal) s st
| (Raise e, s, st) => (e, s, st)
end
end
end.

(** Why the loop ended (every exception is caught and logged), and how the final
[search.shutdown()] went, if there was a search; the process exits with status 0
in any case.  [peer]: [control.getpeername()]. *)
Record process_end := ProcessEnd { pe_cause : exn; pe_shutdown : option (res unit) }.

Definition child (peer : res unit) (signal : option nat) (s : sock) (st : St) : process_end * sock * St :=
match peer with
| Raise e => (ProcessEnd e None, s, st)
| Ok _ =>
let '(e, s, st) := control_loop (S (length (stream (rx s)))) signal s st in
let '(r, st) := shutdown st in
(ProcessEnd e (Some r), s, st)
end.

(** ** The same on requests instead of bytes *)

(** The body of the reply to a request, or the exception of its handler. *)
Definition outcome (req : rpc_request) (st : St) : res bytes * St :=
match lookup_and_decode hs req with
| Raise e => (Raise e, st)
| Ok (h, arg) =>
match h_call h arg st with
| (Raise e, st) => (Raise e, st)
| (Ok ret, st) => (encode_reply h ret, st)
end
end.

Definition reply_frame (req : rpc_request) (status : Z) (body : bytes) : res bytes :=
h ← header_encode (make_reply_header req status body); Ok (h ++ body).

(** The reply to a request; an exception that is no [RPCError] has none. *)
Definition answer (req : rpc_request) (st : St) : res bytes * St :=
let '(r, st) := outcome req st in
(match r with
 | Ok body => reply_frame req 0 body
 | Raise (RPCError code) => reply_frame req code []
 | Raise e => Raise e
 end, st).

(** All requests in order, up to the first without a reply; then the client has
closed its connection. *)
Fixpoint serve (reqs : list rpc_request) (st : St) : bytes * exn * St :=
match reqs with
| [] => ([], ConnectionFailure, st)
| req :: reqs =>
match answer req st with
| (Ok b, st) => let '(bs, e, st) := serve reqs st in (b ++ bs, e, st)
| (Raise e, st) => ([], e, st)
end
end.
End Process.

(** ** Lemmas *)
Lemma header_encode_error h e : header_encode h = Raise e → ∀ c, e ≠ RPCError c.
Proof.
  destruct h as [q st c d]. unfold header_encode, Xdr.encode, Xdr.encode_xdr.
  simpl. unfold Packer.pack_uint, Packer.pack_int, Packer.pack_uint_Z. simpl.
  destruct (in_u 32 q), (in_s 32 st), (in_s 32 c), (in_u 32 d); cbn; naive_solver.
Qed.

(** A reply, when sending succeeds. *)
Lemma reply_frame_spec req st body s : st = 0 ∨ body = [] → tx_outcomes s = [] →
  Rpc.reply req st body s = match reply_frame req st body with
    | Ok b => (Ok tt, Sock (rx s) (tx s ++ b) [] (sock_closed s))
    | Raise e => (Raise e, s)
    end.
Proof.
  intros Hb Ho. unfold Rpc.reply, reply_frame. replace (negb (st =? 0) && negb (bool_decide (body = []))) with false.
  - destruct (header_encode _) as [h|e]; [|done]. cbn [mbind res_bind]. unfold sendall. by rewrite Ho.
  - destruct Hb as [->| ->]; [done|]. by rewrite bool_decide_true, andb_false_r.
Qed.

Section Served.
Context {St : Type} (hs : list (Rpc.handler St)).

(** A dispatch is the answer to the request that it receives. *)
Lemma dispatch_answer s st req s1 : Rpc.receive s = (Ok req, s1) → tx_outcomes s1 = [] →
Rpc.dispatch hs s st =
match answer hs req st with
| (Ok b, st') => (Ok tt, Sock (rx s1) (tx s1 ++ b) [] (sock_closed s1), st')
| (Raise e, st') => (Raise e, s1, st')
end.
Proof.
intros Er Ho. unfold Rpc.dispatch, answer, outcome, Rpc.handle. rewrite Er.
assert (Hcode : ∀ c (st' : St), (let '(r, s) := Rpc.reply req c [] s1 in (r, s, st')) =
match reply_frame req c [] with Ok b => (Ok tt, Sock (rx s1) (tx s1 ++ b) [] (sock_closed s1), st') | Raise e => (Raise e, s1, st') end).
{ intros c st'. rewrite reply_frame_spec by auto. by destruct (reply_frame req c []). }
destruct (lookup_and_decode hs req) as [[h arg]|[]]; try done.
destruct (h_call h arg st) as [[ret|[]] st']; try done.
destruct (encode_reply h ret) as [body|[]]; try done.
rewrite reply_frame_spec by auto. unfold reply_frame. destruct (header_encode _) as [hb|e] eqn:Eh; [done|].
pose proof (header_encode_error _ _ Eh) as Hne. cbn [mbind res_bind]. destruct e; try done. by destruct (Hne code).
Qed.

(** Every request that was received was in the stream. *)
Lemma receive_loop_consumes fuel s req s' : receive_loop fuel s = (Ok req, s') → (length (stream (rx s')) < length (stream (rx s)))%nat.
Proof.
revert s. induction fuel as [|fuel IH]; intros s; cbn [receive_loop]; [done|].
pose proof (read_bytes_spec ENCODED_LENGTH s) as H1. destruct (decide _) as [Hl|]; [|destruct H1 as (s1 & -> & _); done].
destruct H1 as (s1 & -> & R1 & _). destruct (header_decode _) as [h|]; [|done].
pose proof (read_bytes_spec (Z.to_nat (datalen h)) s1) as H2. destruct (decide _); [|destruct H2 as (s2 & -> & _); done].
destruct H2 as (s2 & -> & R2 & _).
assert (Hlt : (length (stream (rx s2)) < length (stream (rx s)))%nat).
{ rewrite R2, R1, !length_drop. unfold ENCODED_LENGTH in *. lia. }
destruct (status h =? RPC_PENDING); [by intros [= _ <-]|]. intros Hs%IH. lia.
Qed.

Lemma reply_rx req st body s r s' : Rpc.reply req st body s = (r, s') → rx s' = rx s.
Proof. unfold Rpc.reply, sendall. intros E. repeat case_match; simplify_eq/=; done. Qed.

Lemma dispatch_consumes s st u s' st' : Rpc.dispatch hs s st = (Ok u, s', st') → (length (stream (rx s')) < length (stream (rx s)))%nat.
Proof.
unfold Rpc.dispatch. destruct (Rpc.receive s) as [[req|e] s1] eqn:Er; [|done]. apply receive_loop_consumes in Er.
assert (Hh : rx (Rpc.handle hs req s1 st).1.2 = rx s1).
{ unfold Rpc.handle. destruct (lookup_and_decode hs req) as [[h arg]|]; [|done]. destruct (h_call h arg st) as [[ret|] st1]; [|done].
destruct (encode_reply h ret) as [body|]; [|done]. destruct (Rpc.reply req 0 body s1) as [r s2] eqn:E. by apply reply_rx in E. }
destruct (Rpc.handle hs req s1 st) as [[[v|e] s2] st2]; cbn [fst snd] in Hh; [by intros [= _ <- _]; rewrite Hh|].
destruct e; try done. destruct (Rpc.reply req code [] s2) as [r s3] eqn:E. apply reply_rx in E. intros [= _ <- _]. by rewrite E, Hh.
Qed.

(** The loop ends by itself: it did not run out of rounds. *)
Lemma control_loop_ends fuel signal s st : (length (stream (rx s)) < fuel)%nat →
∃ s' st' e, control_loop hs fuel signal s st = (e, s', st') ∧
(e = Signalled ∧ signal ≠ None ∨ ∃ s0 st0, Rpc.dispatch hs s0 st0 = (Raise e, s', st')).
Proof.
revert signal s st. induction fuel as [|fuel IH]; intros signal s st Hf; [lia|]. cbn [control_loop].
destruct (decide (signal = Some O)) as [->|Hs]; [eexists _, _, _; split; [done|by left]|].
destruct (Rpc.dispatch hs s st) as [[[u|e] s1] st1] eqn:E.
- assert (Hr : (length (stream (rx s1)) < fuel)%nat) by (apply dispatch_consumes in E; lia).
destruct (IH (Nat.pred <$> signal) s1 st1 Hr) as (s' & st' & e & E' & He). exists s', st', e.
split; [by destruct signal as [[|n]|]|]. destruct He as [[-> Hn]|He]; [left|by right]. split; [done|]. by destruct signal.
- exists s1, st1, e. split; [by destruct signal as [[|n]|]|]. right. by exists s, st.
Qed.

(** A stream of requests, each in its frame. *)
Definition requests_in (reqs : list rpc_request) (b : bytes) : Prop :=
∃ bs, b = concat bs ∧ Forall2 (λ req b, frame (hdr req) (Rpc.data req) b ∧ status (hdr req) = RPC_PENDING) reqs bs.

Lemma control_loop_serves reqs : ∀ fuel s st, requests_in reqs (stream (rx s)) → tx_outcomes s = [] → (length reqs < fuel)%nat →
let '(replies, e, st') := serve hs reqs st in ∃ s', control_loop hs fuel None s st = (e, s', st') ∧ tx s' = tx s ++ replies.
Proof.
induction reqs as [|req reqs IH]; intros fuel s st (bs & Es & Hbs) Ho Hf; (destruct fuel as [|fuel]; [cbn in Hf; lia|]); cbn [serve control_loop].
- apply Forall2_nil_inv_l in Hbs as ->.
assert (Er : ∃ s', Rpc.receive s = (Raise ConnectionFailure, s') ∧ tx s' = tx s).
{ destruct (receive_total s) as [(req & s' & E & _)|(s' & E & Ht & _)]; [|by exists s'].
apply receive_loop_consumes in E. rewrite Es in E. cbn in E. lia. }
destruct Er as (s' & Er & Ht). unfold Rpc.dispatch. rewrite Er. exists s'. by rewrite app_nil_r.
- apply Forall2_cons_inv_l in Hbs as (b & bs' & [Hb Hst] & Hbs & ->). cbn [concat] in Es.
destruct (receive_skips [] [] [] (hdr req) (Rpc.data req) b (concat bs') s) as (s1 & Er & Hrest & Ht & Ho1 & _); [constructor|done|done|by rewrite Es|].
replace (RpcRequest (hdr req) (Rpc.data req)) with req in Er by by destruct req.
rewrite (dispatch_answer s st req s1 Er) by congruence.
destruct (answer hs req st) as [[rb|e] st1].
+ specialize (IH fuel (Sock (rx s1) (tx s1 ++ rb) [] (sock_closed s1)) st1).
destruct (serve hs reqs st1) as [[replies e] st2]. destruct IH as (s' & E & Et); [by exists bs'|done|cbn in Hf; lia|].
exists s'. split; [exact E|]. rewrite Et. cbn [tx]. by rewrite Ht, app_assoc.
+ exists s1. by rewrite app_nil_r.
Qed.

Lemma requests_length reqs b : requests_in reqs b → (length reqs ≤ length b)%nat.
Proof.
intros (bs & -> & Hbs). induction Hbs as [|req b reqs bs [(hb & -> & _ & Hl & _) _] _ IH]; [done|].
cbn [length concat]. rewrite !length_app, Hl. unfold ENCODED_LENGTH. lia.
Qed.

Context (shutdown : sm St unit).

(** C25.  The process of a search ends, whatever the client sends.  Its loop ends with a
signal or with the exception of a dispatch, never for lack of rounds; then the
search is shut down, once, in the state that it has reached.  Without a peer
there is no search, and nothing to shut down. *)
Theorem process_ends peer signal s st :
let '(pe, s', st') := child hs shutdown peer signal s st in
match peer with
| Raise e => pe = ProcessEnd e None ∧ s' = s ∧ st' = st
| Ok _ => ∃ r st1, shutdown st1 = (r, st') ∧ pe_shutdown pe = Some r ∧
(pe_cause pe = Signalled ∧ signal ≠ None ∨ ∃ s0 st0, Rpc.dispatch hs s0 st0 = (Raise (pe_cause pe), s', st1))
end.
Proof.
unfold child. destruct peer as [u|e]; [|done].
destruct (control_loop_ends (S (length (stream (rx s)))) signal s st) as (s' & st1 & e & -> & He); [lia|].
destruct (shutdown st1) as [r st'] eqn:E. by exists r, st1.
Qed.

(** C3.  A client that sends requests and closes its connection.  The process handles
them in order, each on the state that the last one has left, and sends the
reply of each; an RPC error is a reply like others.  The first request whose
handler raises anything else ends the search without a reply, and those after
it are not handled.  In the end the search is shut down. *)
Theorem process_serves reqs s st : requests_in reqs (stream (rx s)) → tx_outcomes s = [] →
let '(replies, e, st1) := serve hs reqs st in let '(r, st2) := shutdown st1 in
∃ s', child hs shutdown (Ok tt) None s st = (ProcessEnd e (Some r), s', st2) ∧ tx s' = tx s ++ replies.
Proof.
intros Hreqs Ho. unfold child. pose proof (control_loop_serves reqs (S (length (stream (rx s)))) s st Hreqs Ho) as Hl.
apply requests_length in Hreqs. destruct (serve hs reqs st) as [[replies e] st1]. destruct Hl as (s' & -> & Ht); [lia|].
destruct (shutdown st1) as [r st2]. by exists s'.
Qed.
End Served.

(** ** A client that asks for statistics and leaves *)
Section Samples.
#[local] Existing Instances EndToEnd.sample_murmur EndToEnd.sample_dates EndToEnd.sample_crypto EndToEnd.sample_resources EndToEnd.sample_contexts
EndToEnd.sample_environment EndToEnd.sample_dumps.

Definition sample_handlers : list (Rpc.handler (Search (C := bool))) := search_handlers sample_load elements "tmp1" 0 sample_cfg sample_world.
Definition sample_requests : list rpc_request := [RpcRequest (RpcHeader 1 (-1) 99 0) []; RpcRequest (RpcHeader 2 (-1) 29 0) []].
Definition request_bytes (req : rpc_request) : bytes := frame_bytes (hdr req) (Rpc.data req).
Definition sample_sock : sock := Sock [RxData (concat (request_bytes <$> sample_requests))] [] [] false.

Lemma process_serves_witness : requests_in sample_requests (stream (rx sample_sock)) ∧
∃ s' st', child sample_handlers Search.shutdown (Ok tt) None sample_sock empty_search = (ProcessEnd ConnectionFailure (Some (Raise AttributeError)), s', st') ∧
tx s' = frame_bytes (RpcHeader 1 (-3) 99 0) [] ++ frame_bytes (RpcHeader 2 (-3) 29 0) [].
Proof.
assert (Hreqs : requests_in sample_requests (stream (rx sample_sock))).
{ exists (request_bytes <$> sample_requests). split; [vm_compute; reflexivity|].
repeat constructor; apply frame_bytes_frame; reflexivity. }
split; [exact Hreqs|].
pose proof (process_serves sample_handlers Search.shutdown sample_requests sample_sock empty_search Hreqs eq_refl) as Hs.
assert (E : (serve sample_handlers sample_requests empty_search).1 = (frame_bytes (RpcHeader 1 (-3) 99 0) [] ++ frame_bytes (RpcHeader 2 (-3) 29 0) [], ConnectionFailure))
by (vm_compute; reflexivity).
assert (E2 : (Search.shutdown (serve sample_handlers sample_requests empty_search).2).1 = Raise AttributeError) by (vm_compute; reflexivity).
destruct (serve sample_handlers sample_requests empty_search) as [[replies e] st1]. cbn [fst snd] in E, E2. injection E as -> ->.
destruct (Search.shutdown st1) as [r st2]. cbn [fst] in E2. subst r. destruct Hs as (s' & E & Ht). by exists s', st2.
Defined.

(** A request that ends the search: a setup whose argument has a cycle of
dependencies is not answered, and the next request is not handled. *)
Definition circular : pyval := setup_request [] [MkSpec "a" [] [] [] ["a"] fninf finf].
Definition setup_body : bytes := match Xdr.encode XDR_setup circular with Ok b => b | Raise _ => [] end.
Example unanswered :
let s := Sock [RxData (concat (request_bytes <$> (RpcRequest (RpcHeader 1 (-1) 25 (Z.of_nat (length setup_body))) setup_body :: sample_requests)))] [] [] false in
let '(pe, s', _) := child sample_handlers Search.shutdown (Ok tt) None s empty_search in
pe = ProcessEnd FilterDependencyError (Some (Raise AttributeError)) ∧ tx s' = [].
Proof. vm_compute. by split. Qed.

(** A signal after the first reply. *)
Example signalled :
let '(pe, s', _) := child sample_handlers Search.shutdown (Ok tt) (Some 1%nat) sample_sock empty_search in
pe_cause pe = Signalled ∧ tx s' = frame_bytes (RpcHeader 1 (-3) 99 0) [].
Proof. vm_compute. by split. Qed.
End Samples.
