(* ===== verification/Hosts.v ===== *)
(** Several servers: each has its own state, and a remote call changes the state of
    one host.  What a client or a proxy does with one host is a computation of that
    host's server. *)
From stdpp Require Import functions.
From S2P Require Import Prelude PyBytes PyText Dict Float64 FloatText Xdr Protocol Rpc ClientRpc SessionVars Statistics FilterStack Hex Sha256.
From S2P Require Import Url Helpers ServerObject FilterProto FilterRunner Evaluate BlobCache BlobStore FilterCode Resource Base64 Scope ScopeList Search ClientSearch EndToEnd.
Local Open Scope Z_scope.

(** The hosts that the cookies name, each once. *)
Lemma dict_wf_cookie_map cookies : dict_wf (get_cookie_map cookies).
Proof.
  unfold get_cookie_map. assert (G : ∀ m, dict_wf m → dict_wf (foldl (λ m c, foldl (λ m s, dict_set m s (default [] (dict_get m s) ++ [c])) m (servers c)) m cookies)).
  { induction cookies as [|c cookies IH]; intros m Hm; [done|]. cbn [foldl]. apply IH. revert m Hm.
    induction (servers c) as [|h hs IHh]; intros m Hm; [done|]. cbn [foldl]. by apply IHh, dict_wf_set. }
  apply G, dict_wf_nil.
Qed.

Section Hosts.
Context `{Murmur, Dates, Crypto} {C : Type} `{Resources C, Contexts C} `{Environment, JsonDumps}.
Context (full_load : string → res (dict string string)) (set_order : gset string → list string).
(** Each server has its own temporary names, clock, configuration and world. *)
Context (tmp : string → string) (now : string → Z) (cfg : string → config) (wd : string → world).

Definition Servers : Type := string → Search (C := C).

Definition at_host {A} (h : string) (m : sm (Search (C := C)) A) : sm Servers A := zoom (λ σ, σ h) (λ x σ, <[h := x]> σ) m.
Definition servers_rpc (h : string) (sb : stub) (v : pyval) : sm Servers pyval :=
at_host h (server_rpc full_load set_order (tmp h) (now h) (cfg h) (wd h) sb v).

(** Computations on a state with the servers in it ([get]); [keep]: what they leave
alone. *)
Context {T U : Type} (get : T → Servers) (keep : T → U).

Definition hosted {A} (h : string) (m : sm T A) (n : sm (Search (C := C)) A) : Prop := ∀ s,
(m s).1 = (n (get s h)).1 ∧ get (m s).2 h = (n (get s h)).2 ∧ (∀ h', h' ≠ h → get (m s).2 h' = get s h') ∧ keep (m s).2 = keep s.

Lemma hosted_lift {A} h (r : res A) : hosted h (lift r) (lift r).
Proof. intros s. by split_and!. Qed.

Lemma hosted_ret {A} h (a : A) : hosted h (mret a) (mret a).
Proof. apply (hosted_lift h (Ok a)). Qed.

Lemma hosted_bind {A B} h (m : sm T A) (f : A → sm T B) n (g : A → sm (Search (C := C)) B) :
hosted h m n → (∀ a, hosted h (f a) (g a)) → hosted h (m ≫= f) (n ≫= g).
Proof.
intros Hm Hf s. unfold mbind, sm_bind. destruct (Hm s) as (Hr & Hh & Ho & Hk).
destruct (m s) as [r s1], (n (get s h)) as [r' x]; cbn [fst snd] in *. subst r'. destruct r as [a|e]; [|by split_and!].
destruct (Hf a s1) as (Hr' & Hh' & Ho' & Hk'). rewrite Hh in Hr', Hh'. split_and!; [done|done| |by rewrite Hk'].
intros h' Hne. by rewrite Ho', Ho.
Qed.

(** A computation that touches no server. *)
Lemma hosted_then {A B} h (m : sm T A) (f : A → sm T B) n :
(∀ s, ∃ a, (m s).1 = Ok a ∧ (∀ h', get (m s).2 h' = get s h') ∧ keep (m s).2 = keep s ∧ hosted h (f a) n) → hosted h (m ≫= f) n.
Proof.
intros Hm s. unfold mbind, sm_bind. destruct (Hm s) as (a & Hr & Hg & Hk & Hf). destruct (m s) as [r s1]; cbn [fst snd] in *. subst r.
destruct (Hf s1) as (Hr' & Hh' & Ho' & Hk'). rewrite Hg in Hr', Hh'. split_and!; [done|done| |by rewrite Hk'].
intros h' Hne. by rewrite Ho', Hg.
Qed.

(** A call, when [set] replaces the servers. *)
Lemma hosted_call (set : Servers → T → T) h sb v : (∀ σ s, get (set σ s) = σ ∧ keep (set σ s) = keep s) →
hosted h (zoom get set (servers_rpc h sb v)) (server_rpc full_load set_order (tmp h) (now h) (cfg h) (wd h) sb v).
Proof.
intros Hset s. unfold servers_rpc, at_host, zoom.
destruct (server_rpc _ _ _ _ _ _ sb v (get s h)) as [r x]. cbv beta iota. cbn [fst snd].
match goal with |- context [set ?σ s] => destruct (Hset σ s) as [-> ->] end. split_and!; [done|apply fn_lookup_insert| |done].
intros h' Hne. by apply fn_lookup_insert_ne.
Qed.
End Hosts.
Arguments Servers : clear implicits.
