(* ===== verification/DiamondSearch.v ===== *)
(** The client's interface to a search on several servers
    (src/opendiamond/client/search.py, [DiamondSearch], with the open and closed
    states of [_DiamondConnection]); and what its servers do once it has started. *)
From stdpp Require Import sorting.
From S2P Require Import Prelude PyBytes PyText Dict Float64 FloatText Xdr Protocol Rpc ClientRpc SessionVars Statistics FilterStack Hex Sha256.
From S2P Require Import Url Helpers ServerObject FilterProto FilterRunner Evaluate BlobCache BlobStore FilterCode Resource Base64 Scope ScopeList Search ClientSearch EndToEnd Hosts.
Local Open Scope Z_scope.

(** [sorted] on texts: by code points, which is the order of their bytes. *)
Fixpoint bytes_le (x y : bytes) : bool :=
  match x, y with
  | [], _ => true
  | _, [] => false
  | a :: x, b :: y => if byte_Z a <? byte_Z b then true else if byte_Z b <? byte_Z a then false else bytes_le x y
  end.
Definition text_le (x y : string) : Prop := bytes_le (str_encode x) (str_encode y) = true.
#[global] Instance text_le_dec x y : Decision (text_le x y).
Proof. unfold text_le. apply _. Defined.

Section DiamondSearch.
(** The servers' states; a call of a host; the connection of the control channel,
which gives the nonce, and of the blast channel; [hash] of a text. *)
Context {S : Type} (rpc : string → stub → pyval → sm S pyval) (connect_control : string → sm S bytes) (connect_blast : string → bytes → sm S unit).
Context (hash : string → Z).
(** [_cookie_map], [_filters], [_push_attrs] and [should_unpack_attrs]. *)
Context (cookie_map : dict string (list ScopeCookie)) (filters : list FilterSpec) (push_attrs : option (list string)) (should_unpack_attrs : bool).

(** ** State

A connection: whether its two sockets exist, and whether it was closed. *)
Record conn := MkConn { c_control : bool; c_blast : bool; c_closed : bool }.

(** [DiamondSearch] and its blast set: [dm_results], whether a generator is bound
to [results]; [dm_started] and [dm_aborted], the blast set's. *)
Record diamond := MkDiamond {
dm_peers : S;
dm_conns : dict string conn;
dm_results : bool;
dm_started : bool;
dm_aborted : bool;
dm_closed : bool
}.

Definition DiamondSearch_init (peers : S) : diamond :=
MkDiamond peers ((λ h, (h, MkConn false false false)) <$> dict_keys cookie_map) false false false false.

Definition set_servers (x : S) (d : diamond) : diamond := MkDiamond x (dm_conns d) (dm_results d) (dm_started d) (dm_aborted d) (dm_closed d).
Definition set_conns (x : dict string conn) (d : diamond) : diamond := MkDiamond (dm_peers d) x (dm_results d) (dm_started d) (dm_aborted d) (dm_closed d).
Definition peer {A} (m : sm S A) : sm diamond A := zoom dm_peers set_servers m.
Definition call (h : string) (sb : stub) (v : pyval) : sm diamond pyval := peer (rpc h sb v).

Definition conn_of (d : diamond) (h : string) : conn := default (MkConn false false false) (dict_get (dm_conns d) h).
Definition update_conn (h : string) (f : conn → conn) : sm diamond unit :=
modify (λ d, set_conns (dict_set (dm_conns d) h (f (conn_of d h))) d).

Fixpoint each {A} (f : A → sm diamond unit) (l : list A) : sm diamond unit :=
match l with [] => mret tt | a :: l => f a ≫= λ _, each f l end.

(** ** _DiamondConnection.connect, close: a socket exists before it connects *)
Definition connect (h : string) : sm diamond unit :=
update_conn h (λ c, MkConn true (c_blast c) (c_closed c)) ≫= λ _,
nonce ← peer (connect_control h);
update_conn h (λ c, MkConn (c_control c) true (c_closed c)) ≫= λ _,
peer (connect_blast h nonce).

Definition conn_close (h : string) : sm diamond unit :=
d ← get_state;
let c := conn_of d h in
if c_closed c then mret tt
else
update_conn h (λ c, MkConn (c_control c) (c_blast c) true) ≫= λ _,
lift (if c_control c then Ok tt else Raise AttributeError) ≫= λ _,
lift (if c_blast c then Ok tt else Raise AttributeError).

(** ** close *)
Definition close : sm diamond unit :=
d ← get_state;
if dm_closed d then mret tt
else
each conn_close (dict_keys (dm_conns d)) ≫= λ _,
modify (λ d, MkDiamond (dm_peers d) (dm_conns d) (dm_results d) (dm_started d) true true).

(** ** start: an error of a server is logged and raised again *)
Definition run_search_on (search_id : string) (h : string) : sm diamond unit :=
ClientSearch.run_search (call h) (connect h) (str_encode search_id) (default [] (dict_get cookie_map h)) filters push_attrs.

Definition start (search_id : string) : sm diamond string :=
d ← get_state;
each (run_search_on search_id) (dict_keys (dm_conns d)) ≫= λ _,
d ← get_state;
if dm_results d then lift (Raise AssertionError)
else if dm_started d then lift (Raise AssertionError)
else modify (λ d, MkDiamond (dm_peers d) (dm_conns d) true true (dm_aborted d) (dm_closed d)) ≫= λ _, mret search_id.

(** ** evaluate: the same blob goes to the same server *)
Definition server_of (hosts : list string) (blob : Blob) : res string :=
match hosts with
| [] => Raise ZeroDivisionError
| _ => of_option IndexError (merge_sort text_le hosts !! Z.to_nat (Z.abs (hash (blob_sha256 blob)) mod Z.of_nat (length hosts)))
end.

(** The attributes, for the callback. *)
Definition evaluate (blob : Blob) : sm diamond (dict string uval) :=
d ← get_state;
h ← lift (server_of (dict_keys (dm_conns d)) blob);
ClientSearch.evaluate (call h) (connect h) should_unpack_attrs (default [] (dict_get cookie_map h)) filters blob None.

(** ** get_stats: [None] when a server fails, after which the search is closed *)
Fixpoint collect (hosts : list string) : sm diamond (list server_stats) :=
match hosts with
| [] => mret []
| h :: hosts =>
reply ← call h ControlConnection.request_stats VNone;
st ← lift (server_stats_of reply);
l ← collect hosts; mret (st :: l)
end.
Definition get_stats : sm diamond (option (dict string Z * dict string (dict string Z))) :=
let attempt :=
d ← get_state; results ← collect (dict_keys (dm_conns d)); mret (Some (ClientSearch.get_stats results)) in
try_with attempt (λ e, match e with RPCError _ => true | _ => false end) (λ _, close ≫= λ _, mret None).

(** ** The results of a connection: an [RPCError] closes it *)
Definition next_result (h : string) : sm diamond (option (dict string uval)) :=
try_with (get_result (call h) should_unpack_attrs) (λ e, match e with ConnectionFailure | RPCError _ => true | _ => false end)
(λ e, match e with RPCError _ => conn_close h ≫= λ _, mret None | _ => mret None end).
End DiamondSearch.

(** ** The servers of a client *)
Section Started.
Context `{Murmur, Dates, Crypto} {C : Type} `{Resources C, Contexts C} `{Environment, JsonDumps}.
Context (full_load : string → res (dict string string)) (set_order : gset string → list string) (Hset : ∀ X, set_order X ≡ₚ elements X).
Context (tmp : string → string) (now : string → Z) (cfg : string → config) (wd : string → world).
Context (Htmp : ∀ h, other_name (tmp h) = true) (Htmp_free : ∀ h s, is_sig s = true → tmp h ≠ dest_path s).
(** Whether the two connections to a server succeed. *)
Context (reach : string → res bytes) (reach_blast : string → bytes → res unit).
Context (cookies : list ScopeCookie) (filters : list FilterSpec) (push_attrs : option (list string)).

Abbreviation cookie_map := (get_cookie_map cookies).
Abbreviation Server := (Search (C := C)).
Abbreviation Servers := (Servers C).
Abbreviation diamond := (diamond (S := Servers)).
Abbreviation servers_rpc := (servers_rpc full_load set_order tmp now cfg wd).
Abbreviation run_search_on := (run_search_on servers_rpc (λ h, lift (reach h)) (λ h n, lift (reach_blast h n)) cookie_map filters push_attrs).
Abbreviation start := (start servers_rpc (λ h, lift (reach h)) (λ h n, lift (reach_blast h n)) cookie_map filters push_attrs).

Definition reachable (h : string) : res unit := nonce ← reach h; reach_blast h nonce.
Definition flags (d : diamond) : bool * bool * bool * bool := (dm_results d, dm_started d, dm_aborted d, dm_closed d).
Abbreviation hosted := (hosted dm_peers flags).

(** What [run_search] does to one server. *)
Definition run_search_at (search_id : string) (h : string) : sm Server unit :=
ClientSearch.run_search (server_rpc full_load set_order (tmp h) (now h) (cfg h) (wd h)) (lift (reachable h)) (str_encode search_id)
(default [] (dict_get cookie_map h)) filters push_attrs.

Lemma hosted_connect h : hosted h (connect (λ h, lift (reach h)) (λ h n, lift (reach_blast h n)) h) (lift (reachable h)).
Proof.
intros d. unfold connect, reachable, update_conn, modify, peer, zoom, lift, mbind, sm_bind, res_bind. cbv beta iota zeta.
destruct (reach h) as [nonce|e]; cbv beta iota zeta; [|by split_and!]. destruct (reach_blast h nonce); by split_and!.
Qed.

Lemma hosted_servers_call h sb v : hosted h (call servers_rpc h sb v) (server_rpc full_load set_order (tmp h) (now h) (cfg h) (wd h) sb v).
Proof. by apply hosted_call. Qed.

Lemma hosted_run_search search_id h : hosted h (run_search_on search_id h) (run_search_at search_id h).
Proof.
unfold DiamondSearch.run_search_on, run_search_at, ClientSearch.run_search, ClientSearch.setup.
apply hosted_bind; [apply hosted_connect|intros []]. apply hosted_bind.
{ apply hosted_bind; [apply hosted_servers_call|intros reply]. apply hosted_bind; [apply hosted_lift|intros uris].
apply hosted_bind; [apply hosted_lift|intros [|b blobs]]; [apply hosted_ret|].
apply hosted_bind; [apply hosted_servers_call|intros _; apply hosted_ret]. }
intros []. apply hosted_bind; [apply hosted_servers_call|intros _; apply hosted_ret].
Qed.

(** The hosts one after the other, up to the first that fails. *)
Lemma start_hosts search_id hosts (d : diamond) : NoDup hosts →
let '(r, d') := each (run_search_on search_id) hosts d in flags d' = flags d ∧
∃ ran rest, hosts = ran ++ rest ∧ (∀ h, h ∉ hosts → dm_peers d' h = dm_peers d h) ∧
(∀ h, h ∈ ran → run_search_at search_id h (dm_peers d h) = (Ok tt, dm_peers d' h)) ∧
match r with
| Ok _ => rest = []
| Raise e => ∃ h rest', rest = h :: rest' ∧ run_search_at search_id h (dm_peers d h) = (Raise e, dm_peers d' h) ∧
∀ h', h' ∈ rest' → dm_peers d' h' = dm_peers d h'
end.
Proof.
intros Hnd. revert d. induction Hnd as [|h hosts Hh Hnd IH]; intros d; cbn [each].
{ split; [done|]. exists [], []. split_and!; [done|done| |done]. by intros h ?%not_elem_of_nil. }
destruct (hosted_run_search search_id h d) as (Hr & Hp & Ho & Hf).
destruct (run_search_on search_id h d) as [r d1] eqn:E. cbn [fst snd] in *.
assert (Hat : run_search_at search_id h (dm_peers d h) = (r, dm_peers d1 h)) by (rewrite Hr, Hp; apply surjective_pairing).
destruct r as [[]|e].
- rewrite (sm_bind_eq _ _ _ _ _ E). specialize (IH d1). destruct (each _ hosts d1) as [r d2].
destruct IH as (Hf2 & ran & rest & Eh & Hother & Hran & Hrest). split; [by rewrite Hf2|].
exists (h :: ran), rest. split; [by rewrite Eh|]. split; [|split].
+ intros h' [Hne Hn]%not_elem_of_cons. by rewrite Hother, Ho.
+ intros h' [->|Hin]%elem_of_cons; [by rewrite Hother|]. rewrite <-Hran by done. rewrite Ho; [done|].
intros ->. apply Hh. rewrite Eh. apply elem_of_app. by left.
+ destruct r as [u|e]; [done|]. destruct Hrest as (h' & rest' & -> & Hh' & Hafter).
assert (Hne : ∀ x, x ∈ h' :: rest' → x ≠ h) by (intros x Hx ->; apply Hh; rewrite Eh; apply elem_of_app; by right).
exists h', rest'. split; [done|]. split; [rewrite <-Hh', Ho; [done|apply Hne; by left]|].
intros x Hx. rewrite Hafter, Ho; [done|apply Hne; by right|done].
- rewrite (sm_bind_raise _ _ _ _ _ E). split; [done|]. exists [], (h :: hosts). split; [done|]. split; [|split].
+ intros h' [Hne Hn]%not_elem_of_cons. by apply Ho.
+ by intros h' ?%not_elem_of_nil.
+ exists h, hosts. split_and!; [done|done|]. intros h' Hin. apply Ho. by intros ->.
Qed.

(** A server that runs the client's search: its workers were started, the client's
attributes are pushed, and every filter has the client's code and blob. *)
Definition started (h : string) (s : Server) : Prop :=
se_running s = true ∧ se_workers s = Some (threads (cfg h)) ∧ se_blast s = Some (list_to_set <$> push_attrs) ∧
∀ i spec, filters !! i = Some spec → ∃ f, se_filters s !! i = Some f ∧ ready full_load (se_fs s) spec f.

Lemma push_attributes_request search_id :
push_attributes (VObj "XDR_start" [("search_id", VBytes search_id); ("attrs", optional_strings push_attrs)]) = Ok (list_to_set <$> push_attrs).
Proof.
unfold push_attributes. destruct push_attrs as [l|]; [|done].
assert (E : field (as_optional (as_list as_str)) "attrs" (VObj "XDR_start" [("search_id", VBytes search_id); ("attrs", optional_strings (Some l))]) =
match as_list as_str (strings l) with Ok x => Ok (Some x) | Raise e => Raise e end) by reflexivity.
by rewrite E, as_list_strings.
Qed.

Lemma server_start_Ok h search_id (s s' : Server) v :
Search.start full_load (tmp h) (cfg h) (VObj "XDR_start" [("search_id", VBytes search_id); ("attrs", optional_strings push_attrs)]) s = (Ok v, s') →
∃ s2, check_runnable full_load (tmp h) s = (Ok tt, s2) ∧ se_filters s' = se_filters s2 ∧ se_fs s' = se_fs s2 ∧
se_running s' = true ∧ se_workers s' = Some (threads (cfg h)) ∧ se_blast s' = Some (list_to_set <$> push_attrs).
Proof.
unfold Search.start, running. destruct (decide _) as [|_]; [done|]. rewrite push_attributes_request.
intros (u & s2 & E2 & (push & s3 & [[= <-] ->]%lift_Ok & E)%sm_bind_Ok)%sm_bind_Ok. destruct u. exists s2. split; [exact E2|].
apply sm_bind_Ok in E as (u & s4 & E4 & E). unfold optimize_stack in E4. destruct (optimize _ _ _) as [[order o]|e]; [|done]. injection E4 as _ <-.
unfold ensure_context, modify, mbind, sm_bind in E. cbn [se_context set_stack] in E. injection E as _ <-. destruct (se_context s2); by split_and!.
Qed.

Lemma run_search_started search_id h (s s' : Server) : store_ok (tmp h) (se_fs s) → run_search_at search_id h s = (Ok tt, s') → started h s'.
Proof.
intros Hok. unfold run_search_at, ClientSearch.run_search.
intros (u & s1 & [Hreach ->]%lift_Ok & (u' & s2 & E2 & (v & s3 & E3 & [= <-])%sm_bind_Ok)%sm_bind_Ok)%sm_bind_Ok. destruct u'.
apply (client_setup_available full_load set_order (tmp h) (now h) (cfg h) Hset (Htmp h) (Htmp_free h)) in E2; [|done].
apply (set_up_runnable full_load set_order (tmp h) Hset (Htmp h) (Htmp_free h)) in E2 as (r & s4 & E4 & Hr).
change (Search.start full_load (tmp h) (cfg h) (VObj "XDR_start" [("search_id", VBytes (str_encode search_id)); ("attrs", optional_strings push_attrs)]) s2 = (Ok v, s3)) in E3.
apply server_start_Ok in E3 as (s5 & E5 & Ef & Efs & Hrun & Hw & Hb). rewrite E4 in E5. injection E5 as -> ->.
split_and!; [done..|]. intros i spec Hi. rewrite Ef, Efs. by apply Hr.
Qed.

(** C2.  Starting a search.  When [start] returns, every server that the cookies name
runs the client's filters: it has started its workers, it pushes the client's
attributes, and every filter has the client's code and blob.  When it fails, the
servers up to some host run the search, that host is the one that raised the
error, the servers after it were not touched, and there are no results. *)
Theorem search_started search_id (servers : Servers) : (∀ h, store_ok (tmp h) (se_fs (servers h))) →
let '(r, d) := start search_id (DiamondSearch_init cookie_map servers) in
match r with
| Ok id => id = search_id ∧ dm_results d = true ∧ ∀ h, h ∈ dict_keys cookie_map → started h (dm_peers d h)
| Raise e => dm_results d = false ∧ ∃ ran h rest, dict_keys cookie_map = ran ++ h :: rest ∧
(∀ h', h' ∈ ran → started h' (dm_peers d h')) ∧ (∀ h', h' ∈ rest → dm_peers d h' = servers h') ∧
(run_search_at search_id h (servers h)).1 = Raise e
end.
Proof.
intros Hok. unfold DiamondSearch.start. rewrite (sm_bind_eq _ get_state _ _ _ eq_refl).
assert (Ekeys : dict_keys (dm_conns (DiamondSearch_init cookie_map servers)) = dict_keys cookie_map).
{ unfold DiamondSearch_init, dict_keys. cbn [dm_conns]. rewrite <-!list_fmap_compose. by apply list_fmap_ext. }
rewrite Ekeys. pose proof (start_hosts search_id (dict_keys cookie_map) (DiamondSearch_init cookie_map servers) (dict_wf_cookie_map cookies)) as Hs.
destruct (each _ (dict_keys cookie_map) (DiamondSearch_init cookie_map servers)) as [r d1] eqn:E.
destruct Hs as (Hf & ran & rest & Eh & _ & Hran & Hrest).
assert (Hstarted : ∀ h, h ∈ ran → started h (dm_peers d1 h)).
{ intros h Hin. apply (run_search_started search_id h (servers h)); [apply Hok|by apply Hran]. }
destruct r as [[]|e].
- rewrite (sm_bind_eq _ _ _ _ _ E), (sm_bind_eq _ get_state _ _ _ eq_refl). unfold flags in Hf. cbn in Hf. injection Hf as -> -> _ _.
cbn. split_and!; [done|done|]. intros h Hin. apply Hstarted. by rewrite Hrest, app_nil_r in Eh; rewrite <-Eh.
- rewrite (sm_bind_raise _ _ _ _ _ E). unfold flags in Hf. cbn in Hf. injection Hf as -> _ _ _. split; [done|].
destruct Hrest as (h & rest' & -> & Hh & Hafter). exists ran, h, rest'. split_and!; [done|done|done|].
cbn [DiamondSearch_init dm_peers] in Hh. by rewrite Hh.
Qed.
End Started.

(** ** A client and two servers *)
Section Samples.
#[local] Existing Instances Scope.sample_dates Scope.sample_crypto EndToEnd.sample_murmur EndToEnd.sample_resources EndToEnd.sample_contexts
EndToEnd.sample_environment EndToEnd.sample_dumps.

Definition sample_cfgs (h : string) : config := Config [h] true "" 2 false.
Definition sample_hosts : Servers bool := λ h, Search_init (C := bool) (sample_cfgs h) (MkFS ∅ 7) ∅.
Definition sample_rpc : string → stub → pyval → sm (Servers bool) pyval :=
servers_rpc sample_load elements (λ _, "tmp1") (λ _, 0) sample_cfgs (λ _, sample_world).
Definition sample_reach (down : string) (h : string) : res bytes := if decide (h = down) then Raise OSError else Ok (replicate 16 Byte.x01).
Definition sample_blast (_ : string) (_ : bytes) : res unit := Ok tt.
Definition sample_specs : list FilterSpec := [dog_spec; rgb_spec].
Definition sample_id : string := "6ba7b810-9dad-11d1-80b4-00c04fd430c8".
Definition sample_diamond : diamond (S := Servers bool) := DiamondSearch_init (get_cookie_map [sample_cookie]) sample_hosts.
Definition sample_start (down : string) : sm (diamond (S := Servers bool)) string :=
start sample_rpc (λ h, lift (sample_reach down h)) (λ h n, lift (sample_blast h n)) (get_cookie_map [sample_cookie]) sample_specs (Some ["name"]) sample_id.

Definition sample_after : res string * diamond (S := Servers bool) := sample_start "" sample_diamond.

Lemma search_started_witness : (∀ h, store_ok "tmp1" (se_fs (sample_hosts h))) ∧
sample_after.1 = Ok sample_id ∧ started sample_load sample_cfgs sample_specs (Some ["name"]) "10.0.0.2" (dm_peers sample_after.2 "10.0.0.2").
Proof.
assert (Hok : ∀ h, store_ok "tmp1" (se_fs (sample_hosts h))) by (intros h; exact empty_store_ok).
split; [exact Hok|].
pose proof (search_started sample_load elements (λ X, reflexivity (elements X)) (λ _, "tmp1") (λ _, 0) sample_cfgs (λ _, sample_world)
(λ _, eq_refl) (λ _, sample_tmp_free) (sample_reach "") sample_blast [sample_cookie] sample_specs (Some ["name"]) sample_id sample_hosts Hok) as Hs.
change (start _ _ _ _ _ _ _ _) with sample_after in Hs.
assert (E : sample_after.1 = Ok sample_id) by (vm_compute; reflexivity).
destruct sample_after as [r d]. cbn [fst] in E. subst r. split; [done|].
destruct Hs as (_ & _ & Hs). apply Hs. apply (bool_decide_unpack _). vm_compute. exact I.
Defined.

(** The second server cannot be reached: the first one runs a search that nobody
reads. *)
Example half_started :
let '(r, d) := sample_start "10.0.0.2" sample_diamond in
r = Raise OSError ∧ (se_running <$> (dm_peers d <$> ["s1.example"; "10.0.0.2"])) = [true; false] ∧ dm_results d = false ∧
(** ... and closing the search fails too: the second blast connection has no socket. *)
(close d).1 = Raise AttributeError.
Proof. vm_compute. by split_and!. Qed.

(** Closing a search that was not started fails, and so does the second attempt at
the next connection. *)
Example close_unstarted :
let '(r, d) := close sample_diamond in let '(r2, d) := close d in let '(r3, d) := close d in
(r, r2, r3) = (Raise AttributeError, Raise AttributeError, Ok tt).
Proof. vm_compute. reflexivity. Qed.

(** A second start fails, after it has connected to the servers again. *)
Example second_start :
let '(_, d) := sample_start "" sample_diamond in (sample_start "" d).1 = Raise (RPCError (-3)).
Proof. vm_compute. reflexivity. Qed.

(** Without servers there is nowhere to re-execute. *)
Example evaluate_nowhere (hash : string → Z) : server_of hash [] [] = Raise ZeroDivisionError.
Proof. reflexivity. Qed.
Example sample_server_of : server_of (λ _, -4) ["s1.example"; "10.0.0.2"; "a"] [] = Ok "a".
Proof. vm_compute. reflexivity. Qed.
End Samples.
