(* ===== verification/ProxySearch.v ===== *)
(** A search through the proxy (src/opendiamond/proxy/search.py): the handlers
    that stand between a client and the servers, the training on the client's
    examples, the forwarding of filters and blobs, the scoring of the results;
    and the composition of client, proxy and servers. *)
From S2P Require Import Prelude PyBytes PyText Dict Float64 FloatText Xdr Protocol Rpc ClientRpc SessionVars Statistics FilterStack Hex Sha256.
From S2P Require Import Url Helpers ServerObject FilterProto FilterRunner Evaluate BlobCache BlobStore FilterCode Resource Base64 Scope ScopeList Search ClientSearch EndToEnd ProxyFilter Hosts.
Local Open Scope Z_scope.

(** ** Third parties

    [ZipFile]; the feature extractor's service ([mpredict], whose answers are
    features, or [None] for an example that it could not use); a classifier's
    probabilities, one for each of its classes; [np.mean] of a row, the text of an
    array with one element, [np.random.uniform]; [json.loads] of a feature
    vector. *)
Class ProxyEnv (F M R : Type) := {
  open_zip : bytes → res (list (string * bytes));
  mpredict : list bytes → res (list (string * option F));
  predict_proba : M → F → list (Z * float);
  mean : list float → float;
  pred_str : float → string;
  uniform : R → float * R;
  json_feature : bytes → res F
}.

(** ** Decoded messages *)
Definition retrain_of (v : pyval) : res retrain :=
  names ← field (as_list as_str) "names" v; labels ← field (as_list as_int) "labels" v;
  features ← field (as_list as_bytes) "features" v; Ok (Retrain names labels features).

(** The [XDR_filter_config] of a filter. *)
Definition config_of (f : Filter) : pyval :=
  VObj "XDR_filter_config"
    [("name", VStr (f_name f)); ("arguments", strings (arguments f)); ("dependencies", strings (dependencies f));
     ("min_score", VFloat (min_score f)); ("max_score", VFloat (max_score f));
     ("code", VStr (code_source f)); ("blob", VStr (blob_source f))].

(** ** Scoring

    An object is its attributes. *)
Abbreviation object := (list (string * bytes)).
Definition nul (s : string) : bytes := str_encode s ++ [Byte.x00].
Definition high_conf : string * bytes := ("_score.string", nul "1").
Definition mid_conf : string * bytes := ("_score.string", nul "2").
Definition low_conf : string * bytes := ("_score.string", nul "0").

Section Scoring.
Context {F M R : Type} `{ProxyEnv F M R}.

(** A row of [pred_proba_list] for one model: class 1's column, zero when the
model does not know the class.  The row has two columns. *)
Fixpoint column_one (pred : list (Z * float)) (x : float) : res float :=
match pred with
| [] => Ok x
| (c, p) :: pred =>
if (c =? 1) || (c =? -1) then column_one pred p
else if (c =? 0) || (c =? -2) then column_one pred x
else Raise IndexError
end.

Definition get_prediction (models : list M) (features : F) : res float :=
row ← mapM_res (λ m, column_one (predict_proba m features) fzero) models; Ok (mean row).

(** The feature vector of an object: the last attribute of that name. *)
Fixpoint features_of (attrs : object) (features : option F) : res (option F) :=
match attrs with
| [] => Ok features
| (name, value) :: attrs =>
if decide (name = "feature_vector.json") then f ← json_feature value; features_of attrs (Some f)
else features_of attrs features
end.

(** [fetch_object]: the object that is returned, or [None] while the queue is
empty and the call waits; the rest of the queue, the generator, the counter. *)
Definition fetch_state : Type := list object * R * Z.
Fixpoint fetch_object (model : option (list M)) (queue : list object) (r : R) (dropped_count : Z) : option (res object) * fetch_state :=
match queue with
| [] => (None, ([], r, dropped_count))
| o :: queue =>
match model with
| None | Some [] => (Some (Ok o), (queue, r, dropped_count))
| Some models =>
match features_of o None with
| Raise e => (Some (Raise e), (queue, r, dropped_count))
| Ok None => (Some (Ok o), (queue, r, dropped_count))
| Ok (Some features) =>
match get_prediction models features with
| Raise e => (Some (Raise e), (queue, r, dropped_count))
| Ok pred =>
let o := o ++ [("prediction.string", nul (pred_str pred))] in
if flt (dec "0.85") pred then (Some (Ok (o ++ [high_conf])), (queue, r, dropped_count))
else if flt pred (dec "0.4") then
let '(x, r) := uniform r in
if flt (dec "0.02") x then fetch_object model queue r dropped_count
else (Some (Ok (o ++ [low_conf])), (queue, r, dropped_count + 1))
else (Some (Ok (o ++ [mid_conf])), (queue, r, dropped_count))
end
end
end
end.
End Scoring.

(** ** The search *)
Section ProxySearch.
Context `{Dates} {F M R S : Type} `{Random R, Learner F M, ProxyEnv F M R}.
(** The servers' states: a control channel call to a host, and connecting to one.
[set_order]: the order in which a Python set is iterated. *)
Context (rpc : string → stub → pyval → sm S pyval) (connect : string → sm S unit) (set_order : gset string → list string).

(** [ProxySearch], and the module's variables.  [px_searching]:
[ProxySearch.running]; [px_running]: [self._running]; [px_hosts]: the keys of
[_connections]; [px_failed]: the hosts for which [send_blobs] logged an error;
[px_alive]: false once [shutdown] has killed the process. *)
Record ProxySearch := MkProxy {
px_peers : S;
px_searching : bool;
px_running : bool;
px_blast_start : bool;
px_scope : option (list ScopeCookie);
px_cookie_map : dict string (list ScopeCookie);
px_filters : list Filter;
px_hosts : option (list string);
px_blob_map : dict string bytes;
px_filter : option (ProxyFilter F M);
px_model : option (list M);
px_dropped_count : Z;
px_rng : R;
px_failed : list string;
px_alive : bool
}.

Definition ProxySearch_init (peers : S) (searching : bool) (model : option (list M)) (dropped : Z) (r : R) : ProxySearch :=
MkProxy peers searching false false None [] [] None [] None model dropped r [] true.

Definition set_peers (x : S) (s : ProxySearch) : ProxySearch :=
MkProxy x (px_searching s) (px_running s) (px_blast_start s) (px_scope s) (px_cookie_map s) (px_filters s) (px_hosts s) (px_blob_map s) (px_filter s) (px_model s) (px_dropped_count s) (px_rng s) (px_failed s) (px_alive s).
Definition set_searching (x : bool) (s : ProxySearch) : ProxySearch :=
MkProxy (px_peers s) x (px_running s) (px_blast_start s) (px_scope s) (px_cookie_map s) (px_filters s) (px_hosts s) (px_blob_map s) (px_filter s) (px_model s) (px_dropped_count s) (px_rng s) (px_failed s) (px_alive s).
Definition set_running (x : bool) (s : ProxySearch) : ProxySearch :=
MkProxy (px_peers s) (px_searching s) x (px_blast_start s) (px_scope s) (px_cookie_map s) (px_filters s) (px_hosts s) (px_blob_map s) (px_filter s) (px_model s) (px_dropped_count s) (px_rng s) (px_failed s) (px_alive s).
Definition set_blast_start (x : bool) (s : ProxySearch) : ProxySearch :=
MkProxy (px_peers s) (px_searching s) (px_running s) x (px_scope s) (px_cookie_map s) (px_filters s) (px_hosts s) (px_blob_map s) (px_filter s) (px_model s) (px_dropped_count s) (px_rng s) (px_failed s) (px_alive s).
Definition set_search (cookies : list ScopeCookie) (fs : list Filter) (s : ProxySearch) : ProxySearch :=
MkProxy (px_peers s) (px_searching s) (px_running s) (px_blast_start s) (Some cookies) (get_cookie_map cookies) fs (Some (dict_keys (get_cookie_map cookies))) (px_blob_map s) (px_filter s) (px_model s) (px_dropped_count s) (px_rng s) (px_failed s) (px_alive s).
Definition set_filters (x : list Filter) (s : ProxySearch) : ProxySearch :=
MkProxy (px_peers s) (px_searching s) (px_running s) (px_blast_start s) (px_scope s) (px_cookie_map s) x (px_hosts s) (px_blob_map s) (px_filter s) (px_model s) (px_dropped_count s) (px_rng s) (px_failed s) (px_alive s).
Definition set_blob_map (x : dict string bytes) (s : ProxySearch) : ProxySearch :=
MkProxy (px_peers s) (px_searching s) (px_running s) (px_blast_start s) (px_scope s) (px_cookie_map s) (px_filters s) (px_hosts s) x (px_filter s) (px_model s) (px_dropped_count s) (px_rng s) (px_failed s) (px_alive s).
Definition set_filter (x : option (ProxyFilter F M)) (s : ProxySearch) : ProxySearch :=
MkProxy (px_peers s) (px_searching s) (px_running s) (px_blast_start s) (px_scope s) (px_cookie_map s) (px_filters s) (px_hosts s) (px_blob_map s) x (px_model s) (px_dropped_count s) (px_rng s) (px_failed s) (px_alive s).
Definition set_model (x : option (list M)) (s : ProxySearch) : ProxySearch :=
MkProxy (px_peers s) (px_searching s) (px_running s) (px_blast_start s) (px_scope s) (px_cookie_map s) (px_filters s) (px_hosts s) (px_blob_map s) (px_filter s) x (px_dropped_count s) (px_rng s) (px_failed s) (px_alive s).
Definition set_rng (x : R) (s : ProxySearch) : ProxySearch :=
MkProxy (px_peers s) (px_searching s) (px_running s) (px_blast_start s) (px_scope s) (px_cookie_map s) (px_filters s) (px_hosts s) (px_blob_map s) (px_filter s) (px_model s) (px_dropped_count s) x (px_failed s) (px_alive s).
Definition set_failed (x : list string) (s : ProxySearch) : ProxySearch :=
MkProxy (px_peers s) (px_searching s) (px_running s) (px_blast_start s) (px_scope s) (px_cookie_map s) (px_filters s) (px_hosts s) (px_blob_map s) (px_filter s) (px_model s) (px_dropped_count s) (px_rng s) x (px_alive s).
Definition set_dead (s : ProxySearch) : ProxySearch :=
MkProxy (px_peers s) (px_searching s) (px_running s) (px_blast_start s) (px_scope s) (px_cookie_map s) (px_filters s) (px_hosts s) (px_blob_map s) (px_filter s) (px_model s) (px_dropped_count s) (px_rng s) (px_failed s) false.

Definition peer {A} (m : sm S A) : sm ProxySearch A := zoom px_peers set_peers m.

(** Run a computation of the proxy filter, which the search must have. *)
Definition with_filter {A} (m : sm (ProxyFilter F M * R) A) : sm ProxySearch A := λ s,
match px_filter s with
| None => (Raise AttributeError, s)
| Some p => let '(r, (p, g)) := m (p, px_rng s) in (r, set_rng g (set_filter (Some p) s))
end.

Fixpoint each {A} (f : A → sm ProxySearch unit) (l : list A) : sm ProxySearch unit :=
match l with [] => mret tt | a :: l => f a ≫= λ _, each f l end.

Definition running (should_be_running : bool) (h : sm ProxySearch pyval) : sm ProxySearch pyval := λ s,
if decide (px_running s ≠ should_be_running) then (raise_rpc RPCProcedureUnavailable, s) else h s.

(** The process kills itself; nothing of it runs after this. *)
Definition shutdown {A} : sm ProxySearch A := λ s, (Raise SystemExit, set_dead (set_searching false s)).

(** [_connections.items()] *)
Definition connections : sm ProxySearch (list string) := λ s, (of_option AttributeError (px_hosts s), s).

(** ** setup *)

(** The loop over the filters: the proxy's filter and its index; the sources. *)
Fixpoint find_proxy (i : nat) (fs : list Filter) (proxy_index : nat) (missing : gset string) : sm ProxySearch (nat * gset string) :=
match fs with
| [] => mret (proxy_index, missing)
| f :: fs =>
proxy_index ← (if decide (f_name f = "PROXY") then
p ← lift (ProxyFilter_init f); modify (set_filter (Some p)) ≫= λ _, mret i
else mret proxy_index);
find_proxy (Datatypes.S i) fs proxy_index ({[code_source f]} ∪ ({[blob_source f]} ∪ missing))
end.

(** [self._filters.pop(i)] *)
Definition pop (i : nat) (fs : list Filter) : res (list Filter) :=
if decide (i < length fs)%nat then Ok (delete i fs) else Raise IndexError.

(** The cookies are parsed, not verified. *)
Definition cookie_errors (r : res (list ScopeCookie)) : res (list ScopeCookie) :=
match r with
| Raise ScopeCookieExpired => raise_rpc DiamondRPCCookieExpired
| Raise ScopeError => raise_rpc DiamondRPCFailure
| r => r
end.

Definition setup (params : pyval) : sm ProxySearch pyval := running false (
modify (set_blast_start false) ≫= λ _,
texts ← lift (field (as_list as_str) "cookies" params);
cookies ← lift (cookie_errors (mapM_res Scope.parse texts));
fs ← lift (field (as_list filter_of) "filters" params);
modify (set_search cookies fs) ≫= λ _,
'(proxy_index, missing) ← find_proxy 0 fs 0 ∅;
p ← gets px_filter;
match p with
| Some _ => fs ← lift (pop proxy_index fs); modify (set_filters fs)
| None => mret tt
end ≫= λ _,
hosts ← connections;
each (λ h, peer (connect h)) hosts ≫= λ _,
mret (VObj "XDR_blob_list" [("uris", VList (VStr <$> set_order missing))])).

(** ** send_blobs *)

Definition add_example (label : Z) (result : string * option F) : sm ProxySearch unit :=
match result.2 with
| Some feature =>
p ← gets px_filter; p ← lift (of_option AttributeError p);
p ← lift (addItem label (if decide (label = 1) then Some result.1 else None) feature p);
modify (set_filter (Some p))
| None => mret tt
end.

(** The examples of the zip file, label by label. *)
Fixpoint add_examples (label : Z) (dir_names : list string) (dataset : dict string (list bytes)) : sm ProxySearch unit :=
match dir_names with
| [] => mret tt
| dir_name :: dir_names =>
files ← lift (of_option KeyError (dict_get dataset dir_name));
results ← lift (mpredict files);
each (add_example label) results ≫= λ _, add_examples (label + 1) dir_names dataset
end.

Definition get_features_intial : sm ProxySearch unit :=
p ← gets px_filter; p ← lift (of_option AttributeError p);
m ← gets px_blob_map;
data ← lift (of_option KeyError (dict_get m (pf_blob p)));
zf ← lift (open_zip data);
'(dir_names, dataset) ← lift (load_dataset_from_zipfile zf);
add_examples 0 dir_names dataset.

(** [trainEnsemble], [getPrunedModels] and the new model. *)
Definition train : sm ProxySearch unit :=
with_filter trainEnsemble ≫= λ _,
new_model ← with_filter getPrunedModels;
modify (set_model (Some new_model)).

(** What is done for one host: the filters, and the blobs that it misses. *)
Definition forward (h : string) : sm ProxySearch unit :=
s ← get_state;
cookies ← lift (of_option KeyError (dict_get (px_cookie_map s) h));
reply ← peer (rpc h ControlConnection.setup
(VObj "XDR_setup" [("cookies", strings (Scope.encode <$> cookies)); ("filters", VList (config_of <$> px_filters s))]));
uris ← lift (field (as_list as_str) "uris" reply);
blobs ← lift (mapM_res (λ u, of_option KeyError (dict_get (px_blob_map s) u)) uris);
match blobs with
| [] => mret tt
| _ => peer (rpc h ControlConnection.send_blobs (blob_data (VBytes <$> blobs))) ≫= λ _, mret tt
end.

Definition forward_logged (h : string) : sm ProxySearch unit :=
try_with (forward h) (λ _, true) (λ _, modify (λ s, set_failed (px_failed s ++ [h]) s)).

Definition send_blobs (params : pyval) : sm ProxySearch pyval := running false (
blobs ← lift (field (as_list as_bytes) "blobs" params);
modify (λ s, set_blob_map (foldl (λ m b, dict_set m (blob_uri b) b) (px_blob_map s) blobs) s) ≫= λ _,
p ← gets px_filter;
match p with
| Some _ => get_features_intial ≫= λ _, train
| None => mret tt
end ≫= λ _,
hosts ← connections;
each forward_logged hosts ≫= λ _, mret VNone).

(** ** start, retrain_filter *)
Definition check_runnable : sm ProxySearch unit := λ s,
match px_scope s, px_filters s with
| None, _ | _, [] => (raise_rpc DiamondRPCFailure, s)
| Some _, _ :: _ => (Ok tt, s)
end.

(** [run_search]: [search_id] is a fresh identifier. *)
Definition run_search (search_id : bytes) (push_attrs : option (gset string)) (h : string) : sm ProxySearch unit :=
peer (rpc h ControlConnection.start
(VObj "XDR_start" [("search_id", VBytes search_id); ("attrs", optional_strings (set_order <$> push_attrs))])) ≫= λ _, mret tt.

Definition start (search_id : bytes) (params : pyval) : sm ProxySearch pyval := running false (
modify (set_blast_start false) ≫= λ _,
check_runnable ≫= λ _,
push_attrs ← lift (push_attributes params);
modify (set_searching true) ≫= λ _,
modify (set_running true) ≫= λ _,
hosts ← connections;
each (run_search search_id push_attrs) hosts ≫= λ _,
modify (set_blast_start true) ≫= λ _, mret VNone).

Definition retrain_filter (params : pyval) : sm ProxySearch pyval :=
items ← lift (retrain_of params);
p ← gets px_filter;
match p, r_names items with
| None, _ | _, [] => mret VNone
| Some _, _ :: _ =>
first ← lift (of_option IndexError (r_features items !! 0%nat));
match first with
| [] => mret VNone
| _ :: _ =>
modify (set_searching false) ≫= λ _,
with_filter (λ '(p, g), let '(r, p) := addItemList json_feature items p in (r, (p, g))) ≫= λ _,
train ≫= λ _,
modify (set_searching true) ≫= λ _, mret VNone
end
end.

(** ** reexecute_filters: the message has no host name *)
Definition reexecute_filters (params : pyval) : sm ProxySearch pyval :=
let attempt : sm ProxySearch pyval :=
object_id ← lift (getattr params "object_id");
h ← lift (field as_str "hostname" params);
s ← get_state;
hosts ← lift (of_option TypeError (px_hosts s));
if decide (h ∈ hosts) then peer (rpc h ControlConnection.reexecute_filters params) else lift (Raise KeyError) in
try_with attempt (λ e, match e with ConnectionFailure | RPCError _ => true | _ => false end) (λ _, shutdown).

(** ** request_stats *)

(** Nothing sets them but [__init__]. *)
Definition previous_stats : dict string Z :=
[("objs_passed", 0); ("objs_unloadable", 0); ("objs_dropped", 0); ("objs_total", 0); ("objs_true_positive", 0);
("objs_processed", 0); ("objs_false_negative", 0); ("avg_obj_time_us", 0)].

Definition adjusted (dropped_count : Z) (k : string) (v : Z) : Z :=
let previous := default 0 (dict_get previous_stats k) in
if decide (k = "objs_processed") then v - previous
else if decide (k = "objs_dropped") then v - previous + dropped_count
else if decide (k = "objs_false_negative") then v - previous
else v.
Definition stats_list (dropped_count : Z) (d : dict string Z) : list pyval :=
(λ p, stat_val p.1 (adjusted dropped_count p.1 p.2)) <$> d.
Definition search_stats (dropped_count : Z) (results : list server_stats) : pyval :=
let '(stats, filters) := ClientSearch.get_stats results in
VObj "XDR_search_stats" [("stats", VList (stats_list dropped_count stats));
("filter_stats", VList ((λ p, VObj "XDR_filter_stats" [("name", VStr p.1); ("stats", VList (stats_list dropped_count p.2))]) <$> filters))].

Fixpoint collect_stats (hosts : list string) : sm ProxySearch (list server_stats) :=
match hosts with
| [] => mret []
| h :: hosts =>
reply ← peer (rpc h ControlConnection.request_stats VNone);
st ← lift (server_stats_of reply);
l ← collect_stats hosts; mret (st :: l)
end.

Definition request_stats : sm ProxySearch pyval := running true (
let attempt : sm ProxySearch pyval :=
hosts ← connections; results ← collect_stats hosts;
dropped ← gets px_dropped_count; mret (search_stats dropped results) in
try_with attempt (λ e, match e with RPCError _ => true | _ => false end) (λ _, shutdown)).

(** ** Session variables are not passed on *)
Definition session_variables_get : sm ProxySearch pyval := running true (mret VNone).
Definition session_variables_set (params : pyval) : sm ProxySearch pyval := running true (mret VNone).

Definition with_params (f : pyval → sm ProxySearch pyval) (arg : option pyval) : sm ProxySearch pyval :=
match arg with Some v => f v | None => fail TypeError end.
Definition without_params (m : sm ProxySearch pyval) (arg : option pyval) : sm ProxySearch pyval :=
match arg with None => m | Some _ => fail TypeError end.

Definition proxy_handlers (search_id : bytes) : list (Rpc.handler ProxySearch) :=
[Rpc.Handler 30 (Some XDR_reexecute) (Some XDR_attribute_list) (with_params reexecute_filters);
 Rpc.Handler 29 None (Some XDR_search_stats) (without_params request_stats);
 Rpc.Handler 31 (Some XDR_retrain) None (with_params retrain_filter);
 Rpc.Handler 26 (Some XDR_blob_data) None (with_params send_blobs);
 Rpc.Handler 18 None (Some XDR_session_vars) (without_params session_variables_get);
 Rpc.Handler 19 (Some XDR_session_vars) None (with_params session_variables_set);
 Rpc.Handler 25 (Some XDR_setup) (Some XDR_blob_list) (with_params setup);
 Rpc.Handler 28 (Some XDR_start) None (with_params (start search_id))].

(** A remote call to the proxy. *)
Definition proxy_rpc (search_id : bytes) (sb : stub) (request : pyval) : sm ProxySearch pyval :=
match cmds (proxy_handlers search_id) !! st_cmd sb with
| Some h => h_call h (match request with VNone => None | v => Some v end)
| None => lift (raise_rpc RPCProcedureUnavailable)
end.

(** ** The blast channel *)

(** [_DiamondBlastSet]: the queue, how many requests wait, whether it was started;
[conns]: the number of its connections. *)
Record blast_set := MkBlast { bl_objs : list object; bl_reqs : nat; bl_started : bool }.

Definition setup_requests (conns : nat) (b : blast_set) : blast_set := MkBlast (bl_objs b) (bl_reqs b + conns) (bl_started b).
Definition blast_init (conns : nat) : blast_set := setup_requests conns (MkBlast [] 0 false).

(** [get_object], up to its first wait: [None] while the search is stopped, when
what was received is thrown away, and while nothing is in the queue. *)
Definition get_object (conns : nat) : sm (blast_set * ProxySearch) (option object) := λ '(b, s),
if negb (px_searching s) then (Ok None, (setup_requests conns (MkBlast [] 0 (bl_started b)), s))
else
let b := if bl_started b then b else let b := setup_requests conns b in MkBlast (bl_objs b) (bl_reqs b) true in
let '(res, (queue, g, dropped)) := fetch_object (px_model s) (bl_objs b) (px_rng s) (px_dropped_count s) in
let s := MkProxy (px_peers s) (px_searching s) (px_running s) (px_blast_start s) (px_scope s) (px_cookie_map s) (px_filters s) (px_hosts s)
(px_blob_map s) (px_filter s) (px_model s) dropped g (px_failed s) (px_alive s) in
let asking := MkBlast queue (Datatypes.S (bl_reqs b)) (bl_started b) in
match res with
| None => (Ok None, (asking, s))
| Some (Raise e) => (Raise e, (asking, s))
| Some (Ok o) => (Ok (Some o), (MkBlast queue (bl_reqs b) (bl_started b), s))
end.

(** One turn of [_handle_objects] and its worker: the next object of a host, or
[None] when the generator ends. *)
Definition object_of (reply : pyval) : res object :=
field (as_list (λ a, n ← field as_str "name" a; v ← field as_bytes "value" a; Ok (n, v))) "attrs" reply.
Definition receive (h : string) : sm ProxySearch (option object) :=
let attempt : sm ProxySearch (option object) :=
reply ← peer (rpc h BlastConnection.get_object VNone);
o ← lift (object_of reply);
mret (match o with [] => None | _ => Some o end) in
try_with attempt (λ e, match e with ConnectionFailure | RPCError _ => true | _ => false end) (λ _, mret None).
End ProxySearch.

(** ** What the training leaves alone *)
Section Keeps.
Context `{Dates} {F M R S : Type} `{Random R, Learner F M, ProxyEnv F M R}.
Abbreviation Proxy := (ProxySearch (F := F) (M := M) (R := R) (S := S)).

Definition same_search (s s' : Proxy) : Prop :=
px_peers s' = px_peers s ∧ px_filters s' = px_filters s ∧ px_cookie_map s' = px_cookie_map s ∧ px_hosts s' = px_hosts s ∧
px_blob_map s' = px_blob_map s ∧ px_failed s' = px_failed s.

Definition keeps {A} (m : sm Proxy A) : Prop := ∀ s, same_search s (m s).2.

#[local] Instance same_search_preorder : PreOrder same_search.
Proof. split; [by intros ?|]. unfold same_search. intros ? ? ? (?&?&?&?&?&?) (?&?&?&?&?&?). split_and!; congruence. Qed.

Lemma training_bind {A B} (m : sm Proxy A) (f : A → sm Proxy B) : keeps m → (∀ a, keeps (f a)) → keeps (m ≫= f).
Proof.
intros Hm Hf s. unfold mbind, sm_bind. specialize (Hm s). destruct (m s) as [[a|e] s1]; [|done]. etransitivity; [exact Hm|apply Hf].
Qed.
Lemma keeps_id {A} (m : sm Proxy A) : (∀ s, (m s).2 = s) → keeps m.
Proof. intros Hm s. by rewrite Hm. Qed.
Lemma keeps_with_filter {A} (m : sm (ProxyFilter F M * R) A) : keeps (with_filter m : sm Proxy A).
Proof. intros s. unfold with_filter. destruct (px_filter s) as [p|]; [|done]. by destruct (m (p, px_rng s)) as [r [p' g]]. Qed.
Lemma keeps_each {A} (f : A → sm Proxy unit) l : (∀ a, keeps (f a)) → keeps (each f l).
Proof. intros Hf. induction l as [|a l IH]; [by intros ?|]. apply training_bind; [apply Hf|done]. Qed.
Lemma keeps_modify (f : Proxy → Proxy) : (∀ s, same_search s (f s)) → keeps (modify f).
Proof. intros Hf s. apply Hf. Qed.

#[local] Hint Resolve keeps_with_filter : core.
Ltac keeps_steps := repeat (apply training_bind; [first [by apply keeps_id; intros ?|by apply keeps_modify; intros ?]|intros ?]).

Lemma keeps_examples label dir_names dataset : keeps (add_examples label dir_names dataset : sm Proxy unit).
Proof.
revert label. induction dir_names as [|d dir_names IH]; intros label; [by intros ?|]. cbn [add_examples]. keeps_steps.
apply training_bind; [|done]. apply keeps_each. intros [name [f|]]; unfold add_example; cbn [fst snd]; [|by intros ?].
keeps_steps. by apply keeps_modify.
Qed.

Lemma keeps_features : keeps (get_features_intial : sm Proxy unit).
Proof. unfold get_features_intial. keeps_steps. destruct _ as [dir_names dataset]. apply keeps_examples. Qed.

Lemma keeps_train : keeps (train : sm Proxy unit).
Proof. unfold train. apply training_bind; [done|]. intros _. apply training_bind; [done|]. intros ms. by apply keeps_modify. Qed.

Lemma keeps_training : keeps (get_features_intial ≫= λ _, train : sm Proxy unit).
Proof. apply training_bind; [apply keeps_features|intros _; apply keeps_train]. Qed.
End Keeps.

(** ** The filters without the proxy's *)
Fixpoint without_proxy (specs : list FilterSpec) : list FilterSpec :=
  match specs with
  | [] => []
  | f :: specs =>
    if decide (fs_name f = "PROXY" ∧ Forall (λ g, fs_name g ≠ "PROXY") specs) then specs else f :: without_proxy specs
  end.

Lemma without_proxy_none specs : Forall (λ g, fs_name g ≠ "PROXY") specs → without_proxy specs = specs.
Proof. induction 1 as [|f specs Hf Hs IH]; [done|]. cbn [without_proxy]. rewrite decide_False by tauto. by rewrite IH. Qed.

Lemma needed_without_proxy specs b : b ∈ needed (without_proxy specs) → b ∈ needed specs.
Proof.
  induction specs as [|f specs IH]; [done|]. cbn [without_proxy]. unfold needed in *. case_decide.
  - rewrite bind_cons. intros Hb. apply elem_of_app. by right.
  - rewrite !bind_cons, !elem_of_app. naive_solver.
Qed.

Lemma config_of_server_filter f : config_of (server_filter f) = filter_config f.
Proof. reflexivity. Qed.

Section FindProxy.
Context {F M R S : Type}.
Abbreviation Proxy := (ProxySearch (F := F) (M := M) (R := R) (S := S)).

(** The loop finds the last proxy filter, and every source. *)
Lemma find_proxy_Ok specs : ∀ i pi missing (s : Proxy) pi' missing' s',
find_proxy i (server_filter <$> specs) pi missing s = (Ok (pi', missing'), s') →
missing ⊆ missing' ∧ (∀ b, b ∈ needed specs → blob_uri b ∈ missing') ∧ ∃ x, s' = set_filter x s ∧
if decide (Forall (λ f, fs_name f ≠ "PROXY") specs) then pi' = pi ∧ x = px_filter s
else ∃ j, pi' = (i + j)%nat ∧ (j < length specs)%nat ∧ delete j specs = without_proxy specs ∧ is_Some x.
Proof.
induction specs as [|f specs IH]; intros i pi missing s pi' missing' s'.
- cbn [fmap list_fmap find_proxy]. intros [= <- <- <-]. split; [done|]. split; [by intros b ?%not_elem_of_nil|].
exists (px_filter s). split; [by destruct s|]. by rewrite decide_True by constructor.
- rewrite fmap_cons. cbn [find_proxy]. change (f_name (server_filter f)) with (fs_name f).
change (code_source (server_filter f)) with (blob_uri (fs_code f)). change (blob_source (server_filter f)) with (blob_uri (fs_blob_argument f)).
intros (q & s1 & E1 & E2)%sm_bind_Ok. apply IH in E2 as (Hm & Hb & x & -> & Hx).
split; [set_solver|]. split.
{ intros b [->|[->|Hin]]%elem_of_cons_needed; [apply Hm; set_solver..|by apply Hb]. }
destruct (decide (fs_name f = "PROXY")) as [Hf|Hf].
+ inv_sm. exists x. split; [by destruct s|]. rewrite decide_False by (by intros [? _]%Forall_cons).
destruct (decide (Forall _ specs)) as [Hs|Hs].
* destruct Hx as [-> ->]. exists O. split; [lia|]. cbn [length delete list_delete without_proxy]. split; [lia|].
rewrite decide_True by done. split; [done|]. by destruct s.
* destruct Hx as (j & -> & Hj & Hd & Hx). exists (Datatypes.S j). split; [lia|]. cbn [length without_proxy]. split; [lia|].
rewrite decide_False by tauto. split; [exact (f_equal (cons f) Hd)|exact Hx].
+ inv_sm. subst. exists x. split; [done|]. destruct (decide (Forall _ specs)) as [Hs|Hs].
* rewrite decide_True by by constructor. by destruct Hx as [-> ->].
* rewrite decide_False by (by intros [_ ?]%Forall_cons). destruct Hx as (j & -> & Hj & Hd & Hx).
exists (Datatypes.S j). split; [lia|]. cbn [length without_proxy]. split; [lia|]. rewrite decide_False by tauto.
split; [exact (f_equal (cons f) Hd)|exact Hx].
Qed.
End FindProxy.

(** The blobs that the client sends, by their names. *)
Lemma blob_map_sound blobs (m : dict string bytes) : (∀ u b, dict_get m u = Some b → u = blob_uri b) →
  ∀ u b, dict_get (foldl (λ m b, dict_set m (blob_uri b) b) m blobs) u = Some b → u = blob_uri b.
Proof.
  revert m. induction blobs as [|b blobs IH]; intros m Hm; [exact Hm|]. cbn [foldl]. apply IH. intros u b'. rewrite dict_get_set.
  case_decide as E; [|apply Hm]. by intros [= <-].
Qed.

Lemma blob_map_has blobs (m : dict string bytes) u : (∃ b, b ∈ blobs ∧ blob_uri b = u) ∨ is_Some (dict_get m u) →
  is_Some (dict_get (foldl (λ m b, dict_set m (blob_uri b) b) m blobs) u).
Proof.
  revert m. induction blobs as [|b blobs IH]; intros m.
  - intros [(b & Hb & _)|?]; [by apply not_elem_of_nil in Hb|done].
  - intros Hm. cbn [foldl]. apply IH. rewrite dict_get_set. destruct Hm as [(b' & [->|Hb]%elem_of_cons & <-)|[x Hx]].
    + right. by rewrite decide_True.
    + left. by exists b'.
    + right. case_decide; [done|by rewrite Hx].
Qed.

(** ** The composition of client, proxy and servers *)
Section Through.
Context `{Murmur, Dates, Crypto} {C : Type} `{Resources C, Contexts C} `{Environment, JsonDumps}.
Context {F M R : Type} `{Random R, Learner F M, ProxyEnv F M R}.
Context (full_load : string → res (dict string string)) (set_order : gset string → list string) (Hset : ∀ X, set_order X ≡ₚ elements X).
(** Each server has its own files, configuration, clock and world. *)
Context (tmp : string → string) (now : string → Z) (cfg : string → config) (wd : string → world).
Context (Htmp : ∀ h, other_name (tmp h) = true) (Htmp_free : ∀ h s, is_sig s = true → tmp h ≠ dest_path s).
(** Whether a server can be reached. *)
Context (reach : string → res unit) (search_id : bytes).

Abbreviation Server := (Search (C := C)).
Abbreviation Servers := (Servers C).
Abbreviation Proxy := (ProxySearch (F := F) (M := M) (R := R) (S := Servers)).
Abbreviation servers_rpc := (servers_rpc full_load set_order tmp now cfg wd).

Definition servers_connect (h : string) : sm Servers unit := lift (reach h).

(** Everything but the servers. *)
Definition proxy_rest (s : Proxy) : Servers → Proxy := λ σ, set_peers σ s.
Abbreviation hosted := (hosted px_peers proxy_rest).

Lemma set_peers_id (s : Proxy) : set_peers (px_peers s) s = s.
Proof. by destruct s. Qed.

Lemma hosted_peer h sb v : hosted h (peer (servers_rpc h sb v)) (server_rpc full_load set_order (tmp h) (now h) (cfg h) (wd h) sb v).
Proof. by apply hosted_call. Qed.

(** What the proxy sends to a host is what a client with its cookies would. *)
Lemma forward_hosted h cs specs (s : Proxy) : dict_get (px_cookie_map s) h = Some cs → px_filters s = server_filter <$> specs → ∃ σ,
let '(r, x) := setup_from full_load set_order (tmp h) (now h) (cfg h) (wd h) (px_blob_map s) cs specs (px_peers s h) in
forward servers_rpc h s = (r, set_peers σ s) ∧ σ h = x ∧ ∀ h', h' ≠ h → σ h' = px_peers s h'.
Proof.
intros Hc Hf.
assert (∃ m, forward servers_rpc h s = m s ∧ hosted h m (setup_from full_load set_order (tmp h) (now h) (cfg h) (wd h) (px_blob_map s) cs specs)) as (m & Em & Hm).
{ eexists. split.
- unfold forward. rewrite (sm_bind_eq _ get_state s s s eq_refl), Hc, Hf, <-list_fmap_compose.
rewrite (sm_bind_eq _ (lift (of_option KeyError (Some cs))) s cs s eq_refl). reflexivity.
- unfold setup_from. apply hosted_bind; [apply hosted_peer|intros reply]. apply hosted_bind; [apply hosted_lift|intros uris].
apply hosted_bind; [apply hosted_lift|intros blobs]. destruct blobs as [|b blobs]; [apply hosted_ret|].
apply hosted_bind; [apply hosted_peer|intros _; apply hosted_ret]. }
destruct (Hm s) as (Hr & Hh & Ho & Hk). exists (px_peers (m s).2). rewrite Em.
destruct (setup_from _ _ _ _ _ _ _ _ _ _) as [r x]. cbn [fst snd] in *. split_and!; [|done|done].
rewrite (surjective_pairing (m s)), Hr. f_equal. rewrite <-(set_peers_id (m s).2) at 1. exact (f_equal (λ k, k (px_peers (m s).2)) Hk).
Qed.

(** Whether the server of [h] accepts the filters. *)
Definition accepts (cookies : string → list ScopeCookie) (specs : list FilterSpec) (σ : Servers) (h : string) : bool :=
is_ok (Search.setup set_order (now h) (cfg h) (setup_request (cookies h) specs) (σ h)).1.

Lemma forward_all cookies specs hosts (s : Proxy) : NoDup hosts →
(∀ h, h ∈ hosts → dict_get (px_cookie_map s) h = Some (cookies h) ∧ store_ok (tmp h) (se_fs (px_peers s h))) →
px_filters s = server_filter <$> specs → (∀ u b, dict_get (px_blob_map s) u = Some b → u = blob_uri b) →
(∀ b, b ∈ needed specs → is_Some (dict_get (px_blob_map s) (blob_uri b))) → ∃ σ,
each (forward_logged servers_rpc) hosts s =
(Ok tt, set_failed (px_failed s ++ filter (λ h, accepts cookies specs (px_peers s) h = false) hosts) (set_peers σ s)) ∧
(∀ h, h ∉ hosts → σ h = px_peers s h) ∧
∀ h, h ∈ hosts → accepts cookies specs (px_peers s) h = true → set_up_for (tmp h) specs (σ h).
Proof.
intros Hnd. revert s. induction Hnd as [|h hosts Hh Hnd IH]; intros s Hs Hf Hsound Hhas.
{ exists (px_peers s). cbn [each]. rewrite set_peers_id, filter_nil, app_nil_r. split; [by destruct s|]. split; [done|]. by intros h ?%not_elem_of_nil. }
cbn [each]. destruct (Hs h) as [Hc Hok]; [by left|]. destruct (forward_hosted h (cookies h) specs s Hc Hf) as (σ1 & Hfw).
pose proof (setup_from_run full_load set_order (tmp h) (now h) (cfg h) Hset (Htmp h) (Htmp_free h) (wd h) (px_blob_map s) (cookies h) specs (px_peers s h) Hok Hsound) as Hrun.
assert (∃ s1, forward_logged servers_rpc h s = (Ok tt, s1) ∧
s1 = set_failed (px_failed s ++ filter (λ h, accepts cookies specs (px_peers s) h = false) [h]) (set_peers σ1 s) ∧
(∀ h', h' ≠ h → σ1 h' = px_peers s h') ∧ (accepts cookies specs (px_peers s) h = true → set_up_for (tmp h) specs (σ1 h))) as (s1 & E & -> & Ho & Hup).
{ unfold forward_logged, try_with. rewrite filter_cons, filter_nil. destruct (accepts cookies specs (px_peers s) h) eqn:Ha; unfold accepts in Ha.
- destruct (Search.setup _ _ _ _ _) as [[reply|e] x]; [|done].
destruct Hrun as (r & x' & E & Hr). rewrite E in Hfw. destruct Hfw as (E' & Hh' & Ho). rewrite E'.
destruct r as [[]|e]; [|by destruct Hr as (b & Hb & Hnone); apply Hhas in Hb as [? ?]; congruence].
eexists. split; [reflexivity|]. rewrite decide_False by done. rewrite app_nil_r. split; [by destruct s|]. split; [done|].
intros _. by rewrite Hh'.
- destruct (Search.setup _ _ _ _ _) as [[reply|e] x]; [done|]. rewrite Hrun in Hfw. destruct Hfw as (E' & Hh' & Ho). rewrite E'.
eexists. split; [reflexivity|]. rewrite decide_True by done. by split. }
rewrite (sm_bind_eq _ _ _ _ _ E).
destruct (IH (set_failed (px_failed s ++ filter (λ h, accepts cookies specs (px_peers s) h = false) [h]) (set_peers σ1 s))) as (σ2 & E2 & Ho2 & Hup2); cbn [set_failed set_peers px_cookie_map px_peers px_filters px_blob_map px_failed]; [|done..|].
{ intros h' Hin. rewrite Ho by (intros ->; done). apply Hs. by right. }
cbn [set_failed set_peers px_cookie_map px_peers px_filters px_blob_map px_failed] in E2, Ho2, Hup2.
assert (Hacc : ∀ h', h' ∈ hosts → accepts cookies specs σ1 h' = accepts cookies specs (px_peers s) h').
{ intros h' Hin. unfold accepts. by rewrite Ho by (intros ->; done). }
exists σ2. split_and!.
- rewrite E2. change (filter ?P (h :: hosts)) with (filter P ([h] ++ hosts)). rewrite filter_app, <-app_assoc.
assert (filter (λ h, accepts cookies specs σ1 h = false) hosts = filter (λ h, accepts cookies specs (px_peers s) h = false) hosts) as ->; [|done].
clear -Hacc. induction hosts as [|h' hosts IH]; [done|]. rewrite !filter_cons, Hacc by by left.
rewrite IH by (intros h0 Hin; apply Hacc; by right). done.
- intros h' [Hne Hn]%not_elem_of_cons. by rewrite Ho2, Ho.
- intros h' [->|Hin]%elem_of_cons Ha; [rewrite Ho2 by done; by apply Hup|]. apply Hup2; [done|]. by rewrite Hacc.
Qed.

Lemma connect_all hosts (s s' : Proxy) : each (λ h, peer (servers_connect h)) hosts s = (Ok tt, s') → s' = s.
Proof.
revert s. induction hosts as [|h hosts IH]; intros s; cbn [each]; [by intros [= <-]|].
intros (u & s1 & E & E')%sm_bind_Ok. apply IH in E' as ->. unfold peer, zoom, servers_connect, lift in E. injection E as _ <-.
apply set_peers_id.
Qed.

Lemma pop_Ok i fs fs' : pop i fs = Ok fs' → fs' = delete i fs.
Proof. unfold pop. case_decide; [|done]. by intros [= <-]. Qed.

Lemma cookie_errors_Ok r cs : cookie_errors r = Ok cs → r = Ok cs.
Proof. by destruct r as [|[]]. Qed.

(** The proxy's [setup], for a search that had none before. *)
Lemma proxy_setup_Ok cookies specs (s s' : Proxy) reply : px_filter s = None →
setup servers_connect set_order (setup_request cookies specs) s = (Ok reply, s') → ∃ parsed missing,
mapM_res Scope.parse (Scope.encode <$> cookies) = Ok parsed ∧
reply = VObj "XDR_blob_list" [("uris", VList (VStr <$> set_order missing))] ∧ (∀ b, b ∈ needed specs → blob_uri b ∈ missing) ∧
px_running s' = false ∧ px_peers s' = px_peers s ∧ px_filters s' = server_filter <$> without_proxy specs ∧
px_cookie_map s' = get_cookie_map parsed ∧ px_hosts s' = Some (dict_keys (get_cookie_map parsed)) ∧
px_blob_map s' = px_blob_map s ∧ px_failed s' = px_failed s.
Proof.
intros Hnone. unfold setup, running. destruct (decide (px_running s ≠ false)) as [|Hrun%dec_stable]; [done|].
change (field (as_list as_str) "cookies" (setup_request cookies specs)) with (as_list as_str (strings (Scope.encode <$> cookies))).
rewrite as_list_strings, filters_of_request.
intros (u & sa & [= _ <-] & (texts & sb & [[= <-] ->]%lift_Ok & (parsed & sc & [Hp%cookie_errors_Ok ->]%lift_Ok & (fs & sd & [[= <-] ->]%lift_Ok & E)%sm_bind_Ok)%sm_bind_Ok)%sm_bind_Ok)%sm_bind_Ok.
apply sm_bind_Ok in E as (u' & se & [= _ <-] & ([pi missing] & sf & Hfind & (x & sg & [= <- <-] & (u'' & sh & Hpop & E)%sm_bind_Ok)%sm_bind_Ok)%sm_bind_Ok).
apply sm_bind_Ok in E as (hosts & si & E1 & (u3 & sj & E2 & [= <- <-])%sm_bind_Ok). destruct u3.
apply find_proxy_Ok in Hfind as (_ & Hb & x & -> & Hx).
assert (sh = set_filters (server_filter <$> without_proxy specs) (set_filter x (set_search parsed (server_filter <$> specs) (set_blast_start false s)))) as ->.
{ cbn [set_filter set_search set_blast_start px_filter] in Hx, Hpop. rewrite Hnone in Hx.
destruct (decide (Forall _ specs)) as [Hs|Hs].
- destruct Hx as [-> ->]. injection Hpop as _ <-. by rewrite without_proxy_none.
- destruct Hx as (j & -> & Hj & Hd & [q ->]). apply sm_bind_Ok in Hpop as (fs' & sk & [->%pop_Ok ->]%lift_Ok & [= _ <-]).
by rewrite <-Hd, list_fmap_delete. }
injection E1 as <- <-. apply connect_all in E2 as ->. exists parsed, missing. by split_and!.
Qed.

(** The client's [setup] through the proxy. *)
Lemma client_through_proxy cookies specs (s s' : Proxy) : px_filter s = None → specs ≠ [] →
(∀ u b, dict_get (px_blob_map s) u = Some b → u = blob_uri b) → (∀ h, store_ok (tmp h) (se_fs (px_peers s h))) →
ClientSearch.setup (proxy_rpc servers_rpc servers_connect set_order search_id) cookies specs s = (Ok tt, s') → ∃ parsed,
mapM_res Scope.parse (Scope.encode <$> cookies) = Ok parsed ∧
let hosts := dict_keys (get_cookie_map parsed) in
let given h := default [] (dict_get (get_cookie_map parsed) h) in
px_hosts s' = Some hosts ∧ px_filters s' = server_filter <$> without_proxy specs ∧
px_failed s' = px_failed s ++ filter (λ h, accepts given (without_proxy specs) (px_peers s) h = false) hosts ∧
∀ h, h ∈ hosts → accepts given (without_proxy specs) (px_peers s) h = true → set_up_for (tmp h) (without_proxy specs) (px_peers s' h).
Proof.
intros Hnone Hne Hsound Hok. unfold ClientSearch.setup.
change (proxy_rpc servers_rpc servers_connect set_order search_id ControlConnection.setup (setup_request cookies specs))
with (setup servers_connect set_order (setup_request cookies specs) : sm Proxy pyval).
intros (reply & s1 & E1 & (uris & s2 & E2 & (blobs & s3 & E3 & E4)%sm_bind_Ok)%sm_bind_Ok)%sm_bind_Ok.
apply proxy_setup_Ok in E1 as (parsed & missing & Hp & -> & Hb & Hrun & Epeers & Ef & Ec & Eh & Em & Efl); [|done].
change (lift (as_list as_str (strings (set_order missing))) s1 = (Ok uris, s2)) in E2. rewrite as_list_strings in E2.
injection E2 as <- <-. unfold lift in E3. injection E3 as E3 <-. apply mapM_res_Ok in E3.
assert (Hsent : ∀ b, b ∈ needed specs → ∃ b', b' ∈ blobs ∧ blob_uri b' = blob_uri b).
{ intros b Hin%Hb. assert (Hin' : blob_uri b ∈ set_order missing) by (rewrite Hset; set_solver).
apply list_elem_of_lookup in Hin' as [i Hi]. destruct (Forall2_lookup_l _ _ _ _ _ E3 Hi) as (b' & Hb' & Eb).
exists b'. split; [by eapply list_elem_of_lookup_2|].
destruct (dict_get (uri_data specs) (blob_uri b)) as [b0|] eqn:Eu; [|done]. injection Eb as ->. symmetry. by eapply uri_data_sound. }
destruct blobs as [|b0 blobs0] eqn:Eblobs.
{ destruct specs as [|f specs]; [done|]. destruct (Hsent (fs_code f)) as (b' & Hb' & _); [|by apply not_elem_of_nil in Hb'].
unfold needed. rewrite bind_cons. by left. }
rewrite <-Eblobs in *. apply sm_bind_Ok in E4 as (v & s4 & E4 & [= <-]).
change (send_blobs servers_rpc (blob_data (VBytes <$> blobs)) s1 = (Ok v, s4)) in E4.
unfold send_blobs, running in E4. rewrite decide_False in E4 by (rewrite Hrun; auto).
change (field (as_list as_bytes) "blobs" (blob_data (VBytes <$> blobs))) with (as_list as_bytes (VList (VBytes <$> blobs))) in E4.
rewrite as_list_VBytes in E4.
apply sm_bind_Ok in E4 as (bl & s5 & [[= <-] ->]%lift_Ok & (u & s6 & [= _ <-] & (x & s7 & [= <- <-] & (u' & s8 & Etrain & E4)%sm_bind_Ok)%sm_bind_Ok)%sm_bind_Ok).
set (s6 := set_blob_map _ s1) in *.
assert (same_search s6 s8) as (K1 & K2 & K3 & K4 & K5 & K6).
{ destruct (px_filter s1) as [p|]; [|unfold mret, sm_ret in Etrain; by injection Etrain as _ <-]. pose proof (keeps_training s6) as Hk. by rewrite Etrain in Hk. }
apply sm_bind_Ok in E4 as (hosts & s9 & E5 & (u'' & s10 & E6 & [= _ <-])%sm_bind_Ok).
unfold connections in E5. rewrite K4 in E5. change (px_hosts s6) with (px_hosts s1) in E5. rewrite Eh in E5. injection E5 as <- <-.
set (hosts := dict_keys (get_cookie_map parsed)) in *. set (given := λ h, default [] (dict_get (get_cookie_map parsed) h)).
assert (P1 : px_peers s8 = px_peers s) by (rewrite K1; exact Epeers).
assert (P2 : px_filters s8 = server_filter <$> without_proxy specs) by (rewrite K2; exact Ef).
assert (P3 : px_cookie_map s8 = get_cookie_map parsed) by (rewrite K3; exact Ec).
assert (P6 : px_failed s8 = px_failed s) by (rewrite K6; exact Efl).
destruct (forward_all given (without_proxy specs) hosts s8) as (σ & Efw & _ & Hup).
- apply dict_wf_cookie_map.
- intros h Hh. rewrite P1, P3. split; [|by apply Hok]. apply dict_get_is_Some in Hh as [cs Hcs]. unfold given. by rewrite Hcs.
- done.
- rewrite K5. apply blob_map_sound. by rewrite Em.
- intros b Hbn. rewrite K5. apply blob_map_has. left. by apply Hsent, needed_without_proxy.
- rewrite Efw in E6. injection E6 as _ <-. rewrite P1, P6 in *. exists parsed. cbn [set_failed set_peers px_hosts px_filters px_failed px_peers].
split_and!; [done|by rewrite K4|done|done|exact Hup].
Qed.

(** C10.  A client that sets up its search through the proxy.  When its call has
returned, the proxy has the servers that the cookies name, and the client's
filters without the proxy's own (the last one with its name).  It has logged
exactly those servers that refused the filters under their cookies; every
other server can run the filters, like after a [setup] by the client itself:
all blobs that it missed have been passed on. *)
Theorem proxy_setup_runnable cookies specs (servers : Servers) searching model dropped r (s' : Proxy) :
(∀ h, store_ok (tmp h) (se_fs (servers h))) → specs ≠ [] →
ClientSearch.setup (proxy_rpc servers_rpc servers_connect set_order search_id) cookies specs
(ProxySearch_init servers searching model dropped r) = (Ok tt, s') → ∃ parsed,
mapM_res Scope.parse (Scope.encode <$> cookies) = Ok parsed ∧
px_hosts s' = Some (dict_keys (get_cookie_map parsed)) ∧ px_filters s' = server_filter <$> without_proxy specs ∧
∀ h given, dict_get (get_cookie_map parsed) h = Some given →
if is_ok (Search.setup set_order (now h) (cfg h) (setup_request given (without_proxy specs)) (servers h)).1
then h ∉ px_failed s' ∧ runnable full_load (tmp h) (without_proxy specs) (px_peers s' h)
else h ∈ px_failed s'.
Proof.
intros Hok Hne E. apply client_through_proxy in E as (parsed & Hp & Hh & Hf & Hl & Hup); [|done..].
exists parsed. split_and!; [done..|]. intros h given Hg. rewrite Hl. cbn [ProxySearch_init px_failed px_peers app].
assert (Hin : h ∈ dict_keys (get_cookie_map parsed)) by (apply dict_get_is_Some; eauto).
set (gv := λ h, default [] (dict_get (get_cookie_map parsed) h)) in *.
change (is_ok _) with (accepts (λ _, given) (without_proxy specs) servers h).
replace (accepts (λ _, given) (without_proxy specs) servers h) with (accepts gv (without_proxy specs) servers h)
by (unfold accepts, gv; by rewrite Hg).
destruct (accepts gv (without_proxy specs) servers h) eqn:Ha.
- split; [intros [? _]%list_elem_of_filter; congruence|]. apply (set_up_runnable full_load set_order (tmp h) Hset (Htmp h) (Htmp_free h)). by apply Hup.
- apply list_elem_of_filter. done.
Qed.
End Through.

(** ** The results *)
Section Results.
Context {F M R : Type} `{ProxyEnv F M R}.

(** The confidence that is added to an object with this prediction. *)
Definition confidence (pred : float) : string * bytes :=
if flt (dec "0.85") pred then high_conf else if flt pred (dec "0.4") then low_conf else mid_conf.

Definition scored (model : option (list M)) (o : object) (pred : float) : Prop :=
∃ m ms features, model = Some (m :: ms) ∧ features_of o None = Ok (Some features) ∧ get_prediction (m :: ms) features = Ok pred.

(** C40.  Results keep their order.  What a request returns is the next object of the
queue that is not skipped: without a model, or without a feature vector, as it
is; otherwise with the prediction and its confidence.  Only objects with low
confidence are skipped, and they are counted when they are returned.  A request
waits only when every object was skipped. *)
Theorem results_in_order model queue (r : R) dropped :
let '(result, (rest, r', dropped')) := fetch_object model queue r dropped in
∃ skipped, Forall (λ o, ∃ pred, scored model o pred ∧ confidence pred = low_conf) skipped ∧
match result with
| None => queue = skipped ∧ rest = [] ∧ dropped' = dropped
| Some result => ∃ o, queue = skipped ++ o :: rest ∧
match result with
| Ok o' =>
o' = o ∧ dropped' = dropped ∧ (model = None ∨ model = Some [] ∨ features_of o None = Ok None) ∨
∃ pred, scored model o pred ∧ o' = o ++ [("prediction.string", nul (pred_str pred)); confidence pred] ∧
dropped' = dropped + (if decide (confidence pred = low_conf) then 1 else 0)
| Raise e => dropped' = dropped ∧ ∃ models, model = Some models ∧
(features_of o None = Raise e ∨ ∃ features, features_of o None = Ok (Some features) ∧ get_prediction models features = Raise e)
end
end.
Proof.
revert r dropped. induction queue as [|o queue IH]; intros r dropped; cbn [fetch_object]; [by exists []|].
destruct model as [[|m ms]|]; [exists []; split; [done|]; exists o; naive_solver| |exists []; split; [done|]; exists o; naive_solver].
destruct (features_of o None) as [[features|]|e] eqn:Ef; [|exists []; split; [done|]; exists o; naive_solver..].
destruct (get_prediction (m :: ms) features) as [pred|e] eqn:Ep; [|exists []; split; [done|]; exists o; naive_solver].
assert (Hs : scored (Some (m :: ms)) o pred) by (by exists m, ms, features).
cbv zeta. rewrite <-(app_assoc o), <-(app_assoc o), <-(app_assoc o). cbn [app]. destruct (flt (dec "0.85") pred) eqn:Eh.
{ assert (Hc : confidence pred = high_conf) by (unfold confidence; by rewrite Eh).
exists []. split; [done|]. exists o. split; [done|]. right. exists pred. rewrite Hc. split_and!; [done..|]. rewrite decide_False by done. lia. }
destruct (flt pred (dec "0.4")) eqn:El.
- assert (Hc : confidence pred = low_conf) by (unfold confidence; by rewrite Eh, El).
destruct (uniform r) as [x r1]. destruct (flt (dec "0.02") x).
+ specialize (IH r1 dropped). destruct (fetch_object _ queue r1 dropped) as [result [[rest r'] dropped']].
destruct IH as (skipped & Hsk & IH). exists (o :: skipped). split; [constructor; [by exists pred|done]|].
destruct result as [result|]; [|destruct IH as (-> & ? & ?); done]. destruct IH as (o' & -> & IH). by exists o'.
+ exists []. split; [done|]. exists o. split; [done|]. right. exists pred. rewrite Hc. by split_and!.
- assert (Hc : confidence pred = mid_conf) by (unfold confidence; by rewrite Eh, El).
exists []. split; [done|]. exists o. split; [done|]. right. exists pred. rewrite Hc. split_and!; [done..|]. rewrite decide_False by done. lia.
Qed.
End Results.

(** ** A search through the proxy *)
Section Samples.
#[local] Existing Instances Scope.sample_dates Scope.sample_crypto EndToEnd.sample_murmur EndToEnd.sample_resources EndToEnd.sample_contexts
EndToEnd.sample_environment EndToEnd.sample_dumps ProxyFilter.sample_random ProxyFilter.sample_learner.

(** A zip file with two dogs and two others; a feature is the length of the file;
the probability of class 1 is 0.9, 0.5 or 0.1, by the feature. *)
#[local] Instance sample_proxy : ProxyEnv Z Z nat := {|
open_zip _ := Ok [("dog/a", replicate 9 Byte.x00); ("negative/x", [Byte.x00]); ("dog/b", replicate 8 Byte.x00); ("negative/y", [Byte.x00; Byte.x00])];
mpredict files := Ok (imap (λ i d, (if decide (i = O) then "0" else "1", Some (Z.of_nat (length d)))) files);
predict_proba _ f := let p := if 7 <? f then dec "0.9" else if 4 <? f then dec "0.5" else dec "0.1" in [(0, fzero); (1, p)];
mean row := default fzero (head row);
pred_str p := if flt (dec "0.85") p then "[0.9]" else if flt p (dec "0.4") then "[0.1]" else "[0.5]";
uniform r := (match r with O => dec "0.01" | S _ => dec "0.5" end, pred r);
json_feature b := match b with [] => Raise ValueError | _ => Ok (Z.of_nat (length b)) end
|}.

Definition proxy_spec : FilterSpec := MkSpec "PROXY" [] ["PROXY"; "2"; "0.7"; "0.5"] [Byte.x50; Byte.x4b] [] fninf finf.
Definition sample_specs : list FilterSpec := [proxy_spec; dog_spec; rgb_spec].

(** The second server checks cookies, and its clock is beyond the expiry. *)
Definition sample_cfgs (h : string) : config := Config [h] (bool_decide (h = "s1.example")) "" 2 false.
Definition sample_clock (_ : string) : Z := 1900000000.
Definition sample_servers : Servers bool := λ h, Search_init (C := bool) (sample_cfgs h) (MkFS ∅ 7) ∅.
Definition sample_init : ProxySearch := ProxySearch_init (F := Z) (M := Z) (R := nat) sample_servers false None 0 2%nat.
Definition sample_servers_rpc : string → stub → pyval → sm (Servers bool) pyval :=
servers_rpc sample_load elements (λ _, "tmp1") sample_clock sample_cfgs (λ _, sample_world).
Definition sample_proxy_rpc : stub → pyval → sm ProxySearch pyval :=
proxy_rpc (F := Z) (M := Z) (R := nat) sample_servers_rpc (servers_connect (λ _, Ok tt)) elements (replicate 36 Byte.x30).
Definition sample_after : ProxySearch := (ClientSearch.setup sample_proxy_rpc [sample_cookie] sample_specs sample_init).2.

Lemma proxy_setup_runnable_witness :
(∀ h, store_ok "tmp1" (se_fs (sample_servers h))) ∧ sample_specs ≠ [] ∧
ClientSearch.setup sample_proxy_rpc [sample_cookie] sample_specs sample_init = (Ok tt, sample_after) ∧
px_failed sample_after = ["10.0.0.2"] ∧ px_model sample_after = Some [-5; -2] ∧
runnable sample_load "tmp1" [dog_spec; rgb_spec] (px_peers sample_after "s1.example").
Proof.
assert (Hok : ∀ h, store_ok "tmp1" (se_fs (sample_servers h))) by (intros h; exact empty_store_ok).
assert (E : ClientSearch.setup sample_proxy_rpc [sample_cookie] sample_specs sample_init = (Ok tt, sample_after)).
{ assert (E1 : (ClientSearch.setup sample_proxy_rpc [sample_cookie] sample_specs sample_init).1 = Ok tt) by (vm_compute; reflexivity).
rewrite <-E1. unfold sample_after. apply surjective_pairing. }
split; [exact Hok|]. split; [done|]. split; [exact E|]. split; [vm_compute; reflexivity|]. split; [vm_compute; reflexivity|].
destruct (proxy_setup_runnable sample_load elements (λ X, reflexivity (elements X)) (λ _, "tmp1") sample_clock sample_cfgs (λ _, sample_world)
(λ _, eq_refl) (λ _, sample_tmp_free) (λ _, Ok tt) (replicate 36 Byte.x30) [sample_cookie] sample_specs sample_servers false None 0 2%nat sample_after Hok
ltac:(done) E) as (parsed & Hp & _ & _ & Hh).
assert (Hp' : mapM_res Scope.parse (Scope.encode <$> [sample_cookie]) = Ok [set_serial (SUuid sample_uuid) sample_cookie]) by (vm_compute; reflexivity).
rewrite Hp' in Hp. injection Hp as <-.
specialize (Hh "s1.example" [set_serial (SUuid sample_uuid) sample_cookie] ltac:(vm_compute; reflexivity)). revert Hh.
match goal with |- context [is_ok ?x] => replace (is_ok x) with true by (vm_compute; reflexivity) end.
by intros [_ Hr].
Defined.

(** Without a PROXY filter a second [setup] still takes a filter away: the first
one. *)
Example second_setup :
let '(r, s) := ClientSearch.setup sample_proxy_rpc [sample_cookie] [dog_spec; rgb_spec] sample_after in
r = Ok tt ∧ f_name <$> px_filters s = ["RGB"].
Proof. vm_compute. by split. Qed.

(** A host that refuses [start] ends the call; the search counts as running, so it
cannot be set up again. *)
Definition sample_start_params : pyval := VObj "XDR_start" [("search_id", VBytes (replicate 36 Byte.x31)); ("attrs", VNone)].
Example failed_start :
let '(r, s) := sample_proxy_rpc ControlConnection.start sample_start_params sample_after in
r = Raise (RPCError 500) ∧ px_running s = true ∧
(sample_proxy_rpc ControlConnection.setup (setup_request [sample_cookie] sample_specs) s).1 = Raise (RPCError (-3)).
Proof. vm_compute. by split_and!. Qed.

(** A re-execution fails before it asks a server. *)
Example no_hostname : (sample_proxy_rpc ControlConnection.reexecute_filters (reexecute_request code_text None) sample_after).1 = Raise AttributeError.
Proof. vm_compute. reflexivity. Qed.

(** A new feature that is no JSON text stops the search for good. *)
Example failed_retrain :
let params := VObj "XDR_retrain" [("names", strings ["x"; "y"]); ("labels", VList [VInt 1; VInt 0]); ("features", VList [VBytes [Byte.x31]; VBytes []])] in
let '(r, s) := retrain_filter params (set_searching true sample_after) in r = Raise ValueError ∧ px_searching s = false.
Proof. vm_compute. by split. Qed.

(** Scores 0.9, 0.5, 0.1, 0.1 and an object without features: one of those with
low confidence is skipped, the other counted. *)
Definition sample_object (n : nat) : object := [("feature_vector.json", replicate n Byte.x31)].
Definition sample_scored (n : nat) (text level : string) : object :=
sample_object n ++ [("prediction.string", nul text); ("_score.string", nul level)].
Definition fetch_all : sm (blast_set * ProxySearch (F := Z) (M := Z) (R := nat) (S := Servers bool)) (list (option object)) :=
mapM_sm (λ _, get_object 2) (seq 0 5).
Example sample_results :
let '(r, (b, s)) := fetch_all (MkBlast ((sample_object <$> [8; 6; 2; 3]%nat) ++ [[("name", [])]]) 2 true, set_searching true (set_rng 1%nat sample_after)) in
r = Ok [Some (sample_scored 8 "[0.9]" "1"); Some (sample_scored 6 "[0.5]" "2"); Some (sample_scored 3 "[0.1]" "0"); Some [("name", [])]; None] ∧
px_dropped_count s = 1 ∧ bl_objs b = [] ∧ bl_reqs b = 3%nat.
Proof. vm_compute. by split_and!. Qed.

(** The objects that were returned with low confidence are reported as dropped, by
the search and again by every filter. *)
Example dropped_everywhere :
search_stats 3 [ServerStats [("objs_dropped", 1)] [("dog", [("objs_dropped", 1)]); ("RGB", [("objs_dropped", 0)])]] =
VObj "XDR_search_stats" [("stats", VList [stat_val "objs_dropped" 4]);
("filter_stats", VList [VObj "XDR_filter_stats" [("name", VStr "dog"); ("stats", VList [stat_val "objs_dropped" 4])];
VObj "XDR_filter_stats" [("name", VStr "RGB"); ("stats", VList [stat_val "objs_dropped" 3])]])].
Proof. vm_compute. reflexivity. Qed.
End Samples.
