(* ===== verification/Pipeline.v ===== *)
(** The worker pool (src/opendiamond/server/filter.py, [FilterStack.start_threads]
    and [FilterStackRunner.run]): a producer that feeds the objects of the scope to
    a bounded queue, workers that evaluate them and send the accepted ones, and the
    empty object that ends the search.  Each step is one operation on the queue, one
    evaluation or one object sent; [mp.Lock] makes the sends atomic. *)
From S2P Require Import Prelude.

Definition QUEUE_SIZE : nat := 1000.

Section Pipeline.
(** The objects of a scope. *)
Context {A : Type} `{EqDecision A}.

(** Where a worker is in the loop of [run]; a worker that had an exception keeps
the object it was at. *)
Inductive worker :=
| Waiting
| Evaluating (a : A)
| Sending (a : A)
| Finishing (a : A)
| FailedEvaluating (a : A)
| FailedSending (a : A).

(** The producer, [enqueue_scope]: in its loop, in [q.join()], in
[state.blast.close()], returned, ended by an exception. *)
Inductive producer := Enqueuing | Joining | Closing | Finished | Broken.

#[export] Instance producer_eq_dec : EqDecision producer.
Proof. solve_decision. Defined.

(** [unfinished]: the queue's count of tasks that are not done; [evaluated]: what
[evaluate] has returned so far; [sent]: what went over the blast channel,
[None] being the empty object; [signalled]: SIGUSR1 was sent to the parent. *)
Record pool := Pool {
todo : list A;
queue : list A;
unfinished : nat;
workers : list worker;
prod : producer;
evaluated : list (A * bool);
sent : list (option A);
signalled : bool
}.

(** [start_threads] *)
Definition start_threads (count : nat) (scope : list A) : pool := Pool scope [] 0 (replicate count Waiting) Enqueuing [] [] false.

Inductive event :=
| Put                                 (* q.put(obj) *)
| ScopeEnd                            (* the loop over the scope ends *)
| ScopeFail                           (* the scope list raises *)
| Get (i : nat)                       (* self._obj_queue.get() *)
| Evaluate (i : nat) (r : res bool)   (* self.evaluate(obj) *)
| Send (i : nat) (ok : bool)          (* self._state.blast.send(obj) *)
| TaskDone (i : nat)                  (* self._obj_queue.task_done() *)
| Join                                (* q.join() returns *)
| Close (ok : bool).                  (* state.blast.close() *)

Definition set_worker (i : nat) (w : worker) (p : pool) : pool :=
Pool (todo p) (queue p) (unfinished p) (<[i := w]> (workers p)) (prod p) (evaluated p) (sent p) (signalled p).
Definition set_prod (x : producer) (p : pool) : pool :=
Pool (todo p) (queue p) (unfinished p) (workers p) x (evaluated p) (sent p) (signalled p).
Definition signal_parent (p : pool) : pool :=
Pool (todo p) (queue p) (unfinished p) (workers p) (prod p) (evaluated p) (sent p) true.
Definition log_evaluated (x : A * bool) (p : pool) : pool :=
Pool (todo p) (queue p) (unfinished p) (workers p) (prod p) (evaluated p ++ [x]) (sent p) (signalled p).
Definition log_sent (x : option A) (p : pool) : pool :=
Pool (todo p) (queue p) (unfinished p) (workers p) (prod p) (evaluated p) (sent p ++ [x]) (signalled p).

(** One step; [None] when it is not possible. *)
Definition step (p : pool) (e : event) : option pool :=
match e with
| Put =>
match prod p, todo p with
| Enqueuing, a :: t =>
if decide (length (queue p) < QUEUE_SIZE) then
Some (Pool t (queue p ++ [a]) (S (unfinished p)) (workers p) (prod p) (evaluated p) (sent p) (signalled p))
else None
| _, _ => None
end
| ScopeEnd => match prod p, todo p with Enqueuing, [] => Some (set_prod Joining p) | _, _ => None end
| ScopeFail => match prod p with Enqueuing => Some (set_prod Broken p) | _ => None end
| Get i =>
match workers p !! i, queue p with
| Some Waiting, a :: q =>
Some (set_worker i (Evaluating a) (Pool (todo p) q (unfinished p) (workers p) (prod p) (evaluated p) (sent p) (signalled p)))
| _, _ => None
end
| Evaluate i r =>
match workers p !! i, r with
| Some (Evaluating a), Ok true => Some (set_worker i (Sending a) (log_evaluated (a, true) p))
| Some (Evaluating a), Ok false => Some (set_worker i (Finishing a) (log_evaluated (a, false) p))
| Some (Evaluating a), Raise _ => Some (set_worker i (FailedEvaluating a) (signal_parent p))
| _, _ => None
end
| Send i ok =>
match workers p !! i with
| Some (Sending a) =>
if (ok : bool) then Some (set_worker i (Finishing a) (log_sent (Some a) p))
else Some (set_worker i (FailedSending a) (signal_parent p))
| _ => None
end
| TaskDone i =>
match workers p !! i, unfinished p with
| Some (Finishing a), S n =>
Some (set_worker i Waiting (Pool (todo p) (queue p) n (workers p) (prod p) (evaluated p) (sent p) (signalled p)))
| _, _ => None
end
| Join => match prod p, unfinished p with Joining, O => Some (set_prod Closing p) | _, _ => None end
| Close ok =>
match prod p with
| Closing => if (ok : bool) then Some (set_prod Finished (log_sent None p)) else Some (set_prod Broken p)
| _ => None
end
end.

Fixpoint run (p : pool) (es : list event) : option pool :=
match es with [] => Some p | e :: es => p' ← step p e; run p' es end.

(** ** Invariant *)

Definition cnt (l : list A) (a : A) : nat := count_occ (λ x y, decide (x = y)) l a.

(** The object that a worker holds before, during and after its evaluation. *)
Definition unevaluated (w : worker) : list A := match w with Evaluating a | FailedEvaluating a => [a] | _ => [] end.
Definition unsent (w : worker) : list A := match w with Sending a | FailedSending a => [a] | _ => [] end.
Definition busy (w : worker) : list A :=
match w with Waiting => [] | Evaluating a | Sending a | Finishing a | FailedEvaluating a | FailedSending a => [a] end.

Definition accepted (l : list (A * bool)) : list A := omap (λ x : A * bool, if x.2 then Some x.1 else None) l.

Record pool_inv (scope : list A) (p : pool) : Prop := {
inv_objects : ∀ a, cnt (evaluated p).*1 a + cnt (workers p ≫= unevaluated) a +
cnt (queue p) a + cnt (todo p) a = cnt scope a;
inv_sent : ∀ a, cnt (omap id (sent p)) a + cnt (workers p ≫= unsent) a =
cnt (accepted (evaluated p)) a;
inv_unfinished : unfinished p = length (queue p) + length (workers p ≫= busy);
inv_queue : length (queue p) ≤ QUEUE_SIZE;
inv_todo : prod p = Joining ∨ prod p = Closing ∨ prod p = Finished → todo p = [];
inv_done : prod p = Closing ∨ prod p = Finished → unfinished p = 0;
inv_close : ∃ l, sent p = (Some <$> l) ++ (if decide (prod p = Finished) then [None] else [])
}.

(** *** Lemmas *)
Lemma cnt_app l1 l2 a : cnt (l1 ++ l2) a = cnt l1 a + cnt l2 a.
Proof. apply count_occ_app. Qed.
Lemma cnt_cons x l a : cnt (x :: l) a = (if decide (x = a) then 1 else 0) + cnt l a.
Proof. unfold cnt. cbn. by case_decide. Qed.
Lemma cnt_nil a : cnt [] a = 0.
Proof. done. Qed.
Lemma cnt_perm l1 l2 : (∀ a, cnt l1 a = cnt l2 a) → l1 ≡ₚ l2.
Proof. intros Hc. by apply (Permutation_count_occ (λ x y, decide (x = y))). Qed.

(** Replacing a worker: what it holds is replaced. *)
Lemma worker_split (ws : list worker) i w : ws !! i = Some w → ∃ l1 l2, ws = l1 ++ w :: l2 ∧ ∀ w', <[i := w']> ws = l1 ++ w' :: l2.
Proof.
intros Hi. exists (take i ws), (drop (S i) ws). split; [by rewrite take_drop_middle|].
intros w'. apply insert_take_drop. by eapply lookup_lt_Some.
Qed.

Lemma worker_cnt (f : worker → list A) ws i w w' a : ws !! i = Some w →
cnt (<[i := w']> ws ≫= f) a + cnt (f w) a = cnt (ws ≫= f) a + cnt (f w') a.
Proof.
intros (l1 & l2 & -> & E)%worker_split. rewrite E, !bind_app, !bind_cons, !cnt_app. lia.
Qed.
Lemma worker_length (f : worker → list A) ws i w w' : ws !! i = Some w →
length (<[i := w']> ws ≫= f) + length (f w) = length (ws ≫= f) + length (f w').
Proof.
intros (l1 & l2 & -> & E)%worker_split. rewrite E, !bind_app, !bind_cons, !length_app. lia.
Qed.

Lemma accepted_snoc l x b : accepted (l ++ [(x, b)]) = accepted l ++ (if (b : bool) then [x] else []).
Proof. unfold accepted. rewrite omap_app. by destruct b. Qed.

Lemma start_inv count scope : pool_inv scope (start_threads count scope).
Proof.
assert (E : ∀ f : worker → list A, f Waiting = [] → replicate count Waiting ≫= f = []).
{ intros f Hf. induction count as [|n IH]; [done|]. cbn [replicate]. rewrite bind_cons, Hf. exact IH. }
split; cbn [start_threads todo queue unfinished workers prod evaluated sent].
- intros a. by rewrite (E unevaluated).
- intros a. by rewrite (E unsent).
- by rewrite (E busy).
- cbn. lia.
- by intros [?|[?|?]].
- by intros [?|?].
- exists []. by rewrite decide_False.
Qed.

Lemma busy_one ws i w : ws !! i = Some w → length (busy w) ≤ length (ws ≫= busy).
Proof. intros (l1 & l2 & -> & _)%worker_split. rewrite bind_app, bind_cons, !length_app. lia. Qed.

(** A worker's step: what it takes from the queue, and what is logged and sent. *)
Lemma worker_step_inv scope p i w w' q n x y sg : pool_inv scope p → workers p !! i = Some w →
(∀ a, cnt x.*1 a + cnt (unevaluated w') a + cnt q a = cnt (unevaluated w) a + cnt (queue p) a) →
(∀ a, cnt y a + cnt (unsent w') a = cnt (unsent w) a + cnt (accepted x) a) →
n + length (queue p) + length (busy w) = unfinished p + length q + length (busy w') →
length q ≤ length (queue p) → (unfinished p = 0 → n = 0 ∧ y = []) →
pool_inv scope (Pool (todo p) q n (<[i := w']> (workers p)) (prod p) (evaluated p ++ x) (sent p ++ (Some <$> y)) sg).
Proof.
intros [Hobj Hsent Hun Hq Htodo Hdone (l & Hclose)] Hi Hx Hy Hn Hlen Hzero.
split; cbn [todo queue unfinished workers prod evaluated sent].
- intros a. specialize (Hobj a). specialize (Hx a). pose proof (worker_cnt unevaluated _ _ _ w' a Hi).
rewrite fmap_app, cnt_app. lia.
- intros a. specialize (Hsent a). specialize (Hy a). pose proof (worker_cnt unsent _ _ _ w' a Hi).
unfold accepted in *. rewrite !omap_app, !cnt_app.
assert (E : omap id (Some <$> y) = y) by (clear; induction y as [|z y IH]; [done|]; csimpl; by rewrite IH). rewrite E. lia.
- pose proof (worker_length busy _ _ _ w' Hi). lia.
- lia.
- done.
- intros Hp. by apply Hzero, Hdone.
- destruct (decide (prod p = Finished)) as [Hp|Hp].
+ destruct Hzero as [_ ->]; [by apply Hdone; right|]. exists l. by rewrite Hclose, app_nil_r.
+ exists (l ++ y). by rewrite Hclose, !app_nil_r, fmap_app.
Qed.

Lemma prod_step_inv scope p x : pool_inv scope p → prod p ≠ Finished → x ≠ Finished →
(x = Joining ∨ x = Closing → todo p = []) → (x = Closing → unfinished p = 0) → pool_inv scope (set_prod x p).
Proof.
intros [Hobj Hsent Hun Hq Htodo Hdone (l & Hclose)] Hp Hx Ht Hu.
split; cbn [set_prod todo queue unfinished workers prod evaluated sent]; try done.
- intros [?|[?|?]]; auto. done.
- intros [?|?]; [auto|done].
- exists l. rewrite Hclose. by rewrite !decide_False by done.
Qed.

Lemma step_inv scope p e p' : pool_inv scope p → step p e = Some p' → pool_inv scope p'.
Proof.
intros Hinv Hs. pose proof Hinv as [Hobj Hsent Hun Hq Htodo Hdone (l & Hclose)].
destruct e as [| | |i|i r|i ok|i| |ok]; cbn [step] in Hs.
- destruct (prod p) eqn:Ep; try done. destruct (todo p) as [|x t] eqn:Et; [done|]. destruct (decide (length (queue p) < QUEUE_SIZE)) as [Hlt|]; [|done]. injection Hs as <-.
split; cbn [todo queue unfinished workers prod evaluated sent]; [|done|..].
+ intros a. specialize (Hobj a). rewrite cnt_cons in Hobj. rewrite cnt_app, cnt_cons, cnt_nil. lia.
+ rewrite length_app. cbn. lia.
+ rewrite length_app. cbn. lia.
+ by intros [?|[?|?]].
+ by intros [?|?].
+ by exists l.
- destruct (prod p) eqn:Ep; try done. destruct (todo p) as [|x t] eqn:Et; [|done]. injection Hs as <-.
apply prod_step_inv; [done|by rewrite Ep|done..].
- destruct (prod p) eqn:Ep; try done. injection Hs as <-. apply prod_step_inv; [done|by rewrite Ep|done|by intros [?|?]|done].
- destruct (workers p !! i) as [[]|] eqn:Hi; try done. destruct (queue p) as [|a q] eqn:Eq; [done|]. injection Hs as <-.
pose proof (worker_step_inv scope p i Waiting (Evaluating a) q (unfinished p) [] [] (signalled p) Hinv Hi) as G.
cbn [fmap list_fmap] in G. rewrite !app_nil_r in G. apply G; rewrite ?Eq; cbn [fmap list_fmap unevaluated unsent busy].
+ intros b. rewrite cnt_cons, (cnt_cons a q b), !cnt_nil. lia.
+ done.
+ cbn. lia.
+ cbn. lia.
+ cbn in Hun. lia.
- destruct (workers p !! i) as [[]|] eqn:Hi; try done. pose proof (busy_one _ _ _ Hi) as Hb. cbn in Hb.
destruct r as [[]|]; injection Hs as <-.
+ pose proof (worker_step_inv scope p i (Evaluating a) (Sending a) (queue p) (unfinished p) [(a, true)] [] (signalled p) Hinv Hi) as G.
cbn [fmap list_fmap] in G. rewrite app_nil_r in G. apply G; cbn; try lia; intros; lia.
+ pose proof (worker_step_inv scope p i (Evaluating a) (Finishing a) (queue p) (unfinished p) [(a, false)] [] (signalled p) Hinv Hi) as G.
cbn [fmap list_fmap] in G. rewrite app_nil_r in G. apply G; cbn; try lia; intros; lia.
+ pose proof (worker_step_inv scope p i (Evaluating a) (FailedEvaluating a) (queue p) (unfinished p) [] [] true Hinv Hi) as G.
cbn [fmap list_fmap] in G. rewrite !app_nil_r in G. apply G; cbn; try lia; intros; lia.
- destruct (workers p !! i) as [[]|] eqn:Hi; try done. pose proof (busy_one _ _ _ Hi) as Hb. cbn in Hb.
destruct ok; injection Hs as <-.
+ pose proof (worker_step_inv scope p i (Sending a) (Finishing a) (queue p) (unfinished p) [] [a] (signalled p) Hinv Hi) as G.
cbn [fmap list_fmap] in G. rewrite app_nil_r in G. apply G; cbn; try lia; intros; lia.
+ pose proof (worker_step_inv scope p i (Sending a) (FailedSending a) (queue p) (unfinished p) [] [] true Hinv Hi) as G.
cbn [fmap list_fmap] in G. rewrite !app_nil_r in G. apply G; cbn; try lia; intros; lia.
- destruct (workers p !! i) as [[]|] eqn:Hi; try done. pose proof (busy_one _ _ _ Hi) as Hb. cbn in Hb.
destruct (unfinished p) as [|n] eqn:Eu; [done|]. injection Hs as <-.
pose proof (worker_step_inv scope p i (Finishing a) Waiting (queue p) n [] [] (signalled p) Hinv Hi) as G.
cbn [fmap list_fmap] in G. rewrite !app_nil_r in G. apply G; cbn; try lia; intros; lia.
- destruct (prod p) eqn:Ep; try done. destruct (unfinished p) eqn:Eu; [|done]. injection Hs as <-.
apply prod_step_inv; [done|by rewrite Ep|done| |done]. intros _. apply Htodo. by left.
- destruct (prod p) eqn:Ep; try done. destruct ok; injection Hs as <-.
+ split; cbn [set_prod log_sent todo queue unfinished workers prod evaluated sent]; try done.
* intros a. rewrite omap_app. cbn. rewrite app_nil_r. apply Hsent.
* intros _. apply Htodo. auto.
* intros _. apply Hdone. auto.
* exists l. rewrite Hclose, decide_False by done. by rewrite app_nil_r, decide_True.
+ apply prod_step_inv; [done|by rewrite Ep|done|by intros [?|?]|done].
Qed.

Lemma run_inv scope p es p' : pool_inv scope p → run p es = Some p' → pool_inv scope p'.
Proof.
revert p. induction es as [|e es IH]; intros p Hinv Hr; [by injection Hr as <-|]. cbn [run] in Hr.
destruct (step p e) as [p1|] eqn:Es; [|done]. apply (IH p1); [by eapply step_inv|done].
Qed.

(** C4.  When the worker pool has told the client that the search is over, it has
done all of it: every object of the scope was evaluated exactly once, the
objects sent are those that were accepted, each once, and nothing follows the
empty object. *)
Theorem pool_complete count scope es p : run (start_threads count scope) es = Some p → None ∈ sent p →
(evaluated p).*1 ≡ₚ scope ∧ ∃ l, sent p = (Some <$> l) ++ [None] ∧ l ≡ₚ accepted (evaluated p).
Proof.
intros Hr Hnone. pose proof (run_inv _ _ _ _ (start_inv count scope) Hr) as [Hobj Hsent Hun Hq Htodo Hdone (l & Hclose)].
destruct (decide (prod p = Finished)) as [Hp|Hp].
2: { rewrite app_nil_r in Hclose. rewrite Hclose in Hnone. by apply list_elem_of_fmap in Hnone as (? & ? & _). }
assert (Hu : unfinished p = 0) by (apply Hdone; auto). rewrite Hu in Hun.
assert (Hqe : queue p = []) by (apply nil_length_inv; lia).
assert (Hbusy : workers p ≫= busy = []) by (apply nil_length_inv; lia).
assert (Hnil : ∀ f : worker → list A, (∀ w, busy w = [] → f w = []) → workers p ≫= f = []).
{ intros f Hf. clear -Hbusy Hf. induction (workers p) as [|w ws IH]; [done|]. rewrite bind_cons in *.
apply app_eq_nil in Hbusy as [Hw Hws]. by rewrite (Hf w Hw), (IH Hws). }
rewrite (Hnil unsent) in Hsent by by intros []. rewrite (Hnil unevaluated), Hqe, Htodo in Hobj by (auto || by intros []).
assert (E : omap id (sent p) = l).
{ rewrite Hclose, omap_app. cbn. rewrite app_nil_r. clear. induction l as [|z l IH]; [done|]. csimpl. by rewrite IH. }
split.
- apply cnt_perm. intros a. specialize (Hobj a). rewrite !cnt_nil in Hobj. lia.
- exists l. split; [done|]. apply cnt_perm. intros a. specialize (Hsent a). rewrite E, cnt_nil in Hsent. lia.
Qed.

(** ** Termination *)
Definition weight (w : worker) : nat :=
match w with Evaluating _ => 3 | Sending _ => 2 | Finishing _ => 1 | _ => 0 end.
Definition prod_weight (x : producer) : nat := match x with Enqueuing => 3 | Joining => 2 | Closing => 1 | _ => 0 end.
Definition measure (p : pool) : nat :=
5 * length (todo p) + 4 * length (queue p) + sum_list_with weight (workers p) + prod_weight (prod p).

(** A worker that can still go on. *)
Definition alive (w : worker) : bool := match w with FailedEvaluating _ | FailedSending _ => false | _ => true end.

(** An event that is not a failure. *)
Definition success (e : event) : bool :=
match e with ScopeFail | Evaluate _ (Raise _) | Send _ false | Close false => false | _ => true end.

Lemma worker_weight ws i w w' : ws !! i = Some w →
sum_list_with weight (<[i := w']> ws) + weight w = sum_list_with weight ws + weight w'.
Proof.
intros (l1 & l2 & -> & E)%worker_split. rewrite E, !sum_list_with_app. cbn. lia.
Qed.

Lemma step_measure p e p' : step p e = Some p' → measure p' < measure p.
Proof.
unfold measure. destruct e as [| | |i|i r|i ok|i| |ok]; cbn [step]; intros Hs;
try (destruct (workers p !! i) as [[]|] eqn:Hi; try done);
try (destruct (prod p) eqn:Ep; try done);
try (destruct (todo p) as [|x t] eqn:Et; try done);
try (destruct (queue p) as [|y q] eqn:Eq; try done);
try (destruct (unfinished p) as [|n] eqn:Eu; try done);
try (destruct ok); try (destruct r as [[]|]); repeat (case_decide; try done); simplify_eq;
cbn [todo queue unfinished workers prod evaluated sent signalled set_worker set_prod log_sent log_evaluated signal_parent];
rewrite ?Ep, ?Et, ?Eq;
try (match goal with |- context [<[i := ?w']> (workers p)] => pose proof (worker_weight _ _ _ w' Hi) as Hw; cbn [weight] in Hw end);
cbn [length prod_weight]; rewrite ?length_app; cbn [length]; lia.
Qed.

Lemma run_length p es p' : run p es = Some p' → length es + measure p' ≤ measure p.
Proof.
revert p. induction es as [|e es IH]; intros p Hr; [by injection Hr as <-|]. cbn [run] in Hr.
destruct (step p e) as [p1|] eqn:Es; [|done]. apply IH in Hr. apply step_measure in Es. cbn [length]. lia.
Qed.

(** No worker has failed unless the parent was signalled. *)
Definition alive_inv (count : nat) (p : pool) : Prop :=
length (workers p) = count ∧ (signalled p = false → Forall (λ w, alive w = true) (workers p)).

Lemma step_alive count p e p' : alive_inv count p → step p e = Some p' → alive_inv count p'.
Proof.
intros [Hl Ha] Hs. destruct e as [| | |i|i r|i ok|i| |ok]; cbn [step] in Hs;
try (destruct (workers p !! i) as [[]|] eqn:Hi; try done);
try (destruct (prod p) eqn:Ep; try done);
try (destruct (todo p) as [|x t] eqn:Et; try done);
try (destruct (queue p) as [|y q] eqn:Eq; try done);
try (destruct (unfinished p) as [|n] eqn:Eu; try done);
try (destruct ok); try (destruct r as [[]|]); repeat (case_decide; try done); simplify_eq;
(split; [cbn; by rewrite ?length_insert|cbn; intros Hsg; try done; try (apply Forall_insert; [|done]); auto]).
Qed.

Lemma run_alive count p es p' : alive_inv count p → run p es = Some p' → alive_inv count p'.
Proof.
revert p. induction es as [|e es IH]; intros p Hinv Hr; [by injection Hr as <-|]. cbn [run] in Hr.
destruct (step p e) as [p1|] eqn:Es; [|done]. apply (IH p1); [by eapply step_alive|done].
Qed.

(** A worker that holds an object has a step to take. *)
Lemma busy_step p i w a : workers p !! i = Some w → busy w = [a] → alive w = true → 0 < unfinished p →
∃ e, success e = true ∧ step p e ≠ None.
Proof.
intros Hi Hb Ha Hu. destruct w as [|x|x|x|x|x]; try done.
- exists (Evaluate i (Ok true)). cbn. by rewrite Hi.
- exists (Send i true). cbn. by rewrite Hi.
- exists (TaskDone i). cbn. rewrite Hi. by destruct (unfinished p); [lia|].
Qed.

(** With tasks left, some worker can go on. *)
Lemma task_step count scope p : pool_inv scope p → alive_inv count p → signalled p = false → 0 < count → 0 < unfinished p →
∃ e, success e = true ∧ step p e ≠ None.
Proof.
intros [_ _ Hun _ _ _ _] [Hl Ha] Hsg Hcount Hu. specialize (Ha Hsg). rewrite Forall_lookup in Ha.
destruct (workers p ≫= busy) as [|a l] eqn:Eb.
- destruct (queue p) as [|x q] eqn:Eq; [cbn in Hun; lia|].
destruct (lookup_lt_is_Some_2 (workers p) 0) as [w Hw]; [lia|]. exists (Get 0). split; [done|]. cbn. rewrite Hw.
assert (Hb : busy w = []).
{ apply worker_split in Hw as (l1 & l2 & E & _). rewrite E, bind_app, bind_cons in Eb.
apply app_eq_nil in Eb as [_ Eb]. by apply app_eq_nil in Eb as [-> _]. }
destruct w; try done. by rewrite Eq.
- assert (Hin : a ∈ workers p ≫= busy) by (rewrite Eb; by left). apply list_elem_of_bind in Hin as (w & Hb & Hw).
apply list_elem_of_lookup in Hw as [i Hi]. apply (busy_step p i w a); [done| |by apply (Ha i)|done].
destruct w; cbn in Hb |- *; set_solver.
Qed.

(** C24.  Every run of the worker pool is finite: it has at most five steps per object
and three more.  And it does not stop early: as long as no worker has failed and
the scope list and the blast channel work, some step can be taken until the
empty object has been sent. *)
Theorem pool_terminates count scope es p : run (start_threads count scope) es = Some p →
length es ≤ 5 * length scope + 3 ∧
(0 < count → signalled p = false → prod p ≠ Broken → (∀ e, success e = true → step p e = None) → None ∈ sent p).
Proof.
intros Hr. split.
- apply run_length in Hr. unfold measure at 2, start_threads in Hr. cbn in Hr.
assert (E : sum_list_with weight (replicate count Waiting) = 0) by (clear; induction count; [done|]; done). lia.
- intros Hcount Hsg Hp Hstuck.
pose proof (run_inv _ _ _ _ (start_inv count scope) Hr) as Hinv.
assert (Halive : alive_inv count p).
{ eapply run_alive; [|exact Hr]. split; [apply length_replicate|]. intros _. by apply Forall_replicate. }
assert (Htask : unfinished p = 0).
{ destruct (unfinished p) eqn:Eu; [done|].
destruct (task_step count scope p) as (e & He & Hs); [done..|lia|]. by destruct (Hs (Hstuck e He)). }
destruct Hinv as [_ _ Hun _ _ _ (l & Hclose)]. destruct (prod p) eqn:Ep; [| | | |done].
+ destruct (todo p) as [|a t] eqn:Et.
* specialize (Hstuck ScopeEnd eq_refl). cbn in Hstuck. by rewrite Ep, Et in Hstuck.
* specialize (Hstuck Put eq_refl). cbn in Hstuck. rewrite Ep, Et in Hstuck.
destruct (decide (length (queue p) < QUEUE_SIZE)) as [|Hn]; [done|]. rewrite Htask in Hun. unfold QUEUE_SIZE in Hn. lia.
+ specialize (Hstuck Join eq_refl). cbn in Hstuck. by rewrite Ep, Htask in Hstuck.
+ specialize (Hstuck (Close true) eq_refl). cbn in Hstuck. by rewrite Ep in Hstuck.
+ rewrite Hclose, decide_True by done. set_solver.
Qed.
End Pipeline.

(** ** A run

    Two workers, three objects; the second object is dropped. *)
Definition sample_events : list event :=
  [Put; Put; Get 0; Get 1; Evaluate 1 (Ok false); Put; ScopeEnd; TaskDone 1; Get 1; Evaluate 0 (Ok true); Evaluate 1 (Ok true);
   Send 1 true; Send 0 true; TaskDone 1; TaskDone 0; Join; Close true].
Definition sample_end : pool (A := nat) := default (start_threads 0 []) (run (start_threads 2 [10; 11; 12]) sample_events).

Lemma pool_complete_witness :
  run (start_threads 2 [10; 11; 12]) sample_events = Some sample_end ∧ None ∈ sent sample_end ∧
  (evaluated sample_end).*1 ≡ₚ [10; 11; 12] ∧ ∃ l, sent sample_end = (Some <$> l) ++ [None] ∧ l ≡ₚ accepted (evaluated sample_end).
Proof.
  assert (Hr : run (start_threads 2 [10; 11; 12]) sample_events = Some sample_end) by (vm_compute; reflexivity).
  assert (Hs : None ∈ sent sample_end) by (apply (bool_decide_unpack _); vm_compute; exact I).
  split; [exact Hr|]. split; [exact Hs|]. exact (pool_complete 2 [10; 11; 12] sample_events sample_end Hr Hs).
Defined.

Lemma pool_terminates_witness :
  run (start_threads 2 [10; 11; 12]) sample_events = Some sample_end ∧
  length sample_events ≤ 5 * length [10; 11; 12] + 3 ∧
  (0 < 2 → signalled sample_end = false → prod sample_end ≠ Broken → (∀ e, success e = true → step sample_end e = None) → None ∈ sent sample_end).
Proof.
  assert (Hr : run (start_threads 2 [10; 11; 12]) sample_events = Some sample_end) by (vm_compute; reflexivity).
  split; [exact Hr|]. exact (pool_terminates 2 [10; 11; 12] sample_events sample_end Hr).
Defined.

(** A worker that fails never marks its task as done: the search does not end by
    itself, the parent is signalled instead. *)
Example failed_worker :
  ∃ p, run (start_threads 1 [10]) [Put; ScopeEnd; Get 0; Evaluate 0 (Raise FilterExecutionError)] = Some p ∧
    signalled p = true ∧ step p Join = None ∧ unfinished p = 1.
Proof. eexists. vm_compute. by split_and!. Qed.
